(* ===== verification/_CoqProject ===== *)
-Q . S2P
Prelude.v
Go.v
Config.v
Db.v
Transfer.v
World.v
Wp.v
TransferMetrics.v
Processors.v
Laws.v
ProcessorMW.v
MWLaws.v
Batch.v
BatchLaws.v
PipelineOpts.v
Pipeline.v
Dispatcher.v
Service.v
System.v
SystemInv.v
DispatcherInv.v
Finality.v
Run.v
ServiceLaws.v
Demo.v
ServiceSpecs.v
ProcessorSpecs.v
StageSpecs.v
Guarantees.v
Cooperative.v
Progress.v
Deduper.v
Batcher.v
Daemon.v
Relayer.v
Client.v
Float.v
Once.v
OnceLaws.v
OnceRun.v
Signing.v
Bindings.v
ProtoWire.v
PacketCodec.v
EvmClient.v
CosmosClient.v
ClientLaws.v
ClientDemo.v
ClientSpecs.v
SignerLaws.v
Metrics.v
GasMonitor.v
Transport.v
Queue.v
Price.v
ClientManager.v
Models.v
Server.v
Solana.v
Helpers.v
Rpc.v
Main.v
Cli.v
