(* ===== verification/Prelude.v ===== *)
(** * platform-relayer: a verification library for the IBC v2 relayer

    ** The program

    The relayer moves IBC v2 packets between chains. Its parts, and how they
    meet:

    - the relayer API ([relayerapi/services/relayerapi/service.go]) takes the
      hash of a transaction, asks the chain for the packets it sent, and
      inserts one row per packet into the table [ibcv2_transfers];
    - the dispatcher ([relayer/ibcv2/relay_dispatcher.go]) reads the unfinished
      rows on every tick, turns each into an [IBCV2Transfer] and pushes it into
      the pipeline of its pair of clients, which the pipeline manager creates
      on demand ([pipeline.go]); a deduper keeps a packet from being in a
      pipeline twice;
    - a pipeline is a row of stages connected by channels: checks, waits,
      retries and gas cost calculators for single transfers, batch stages that
      deliver recv, ack and timeout packets with one transaction per batch, and
      the state finisher. A middleware around each stage
      ([processor_mw.go]) skips transfers that have errored or failed, and
      writes the state of the transfer to its row and to memory;
    - the stages call the chains through [BridgeClient], the proof relayer and
      a price service, and write to the database through the sqlc queries
      ([db/gen/db]) and [ExecTx] ([db/tx/tx.go]);
    - the clients of the chains ([shared/bridges/ibcv2]) implement
      [BridgeClient] on go-ethereum and the Cosmos SDK, with a cache of calls
      ([once.go]), a pause between submissions, and signers that are local,
      on the console or behind a signer service ([shared/signing],
      [remote_*_signer.go]); the client manager makes one per chain of the
      configuration;
    - around them: the price client ([shared/clients]), the gas monitor, the
      metrics with the HTTP and gRPC middleware that records calls
      ([shared/metrics]), and a message queue ([shared/messagequeue]);
    - [cmd/relayer/main.go] puts the parts together and runs the dispatcher,
      the gas monitor, the API server ([relayerapi/server]) and the metrics
      server until a signal comes; [cmd/transfer] and [cmd/relay] are clients of
      the API.

    ** The files

    - [Prelude.v] (this file): tactics and lemmas on options and on lists with
      keys, shared by all others. [Go.v]: integer conversions, time, strings,
      errors and outcomes of Go.
    - [Config.v]: [shared/config/config.go], records and queries.
    - [Db.v]: the two tables, every query of [ibcv2_transfers.sql.go] from its
      SQL text, and their laws ([is_row_update]: an [UPDATE] rewrites the row
      of its key and no other).
    - [Transfer.v]: [ibcv2_transfer.go], the transfer in memory.
    - [World.v]: the state the code runs on (outside world, tables, heap of
      transfers, metrics, log), the state and error monad [M], [ExecTx], and
      [Env], the record of all code outside the repository the relayer calls.
      [Wp.v]: a weakest precondition for [M] with one rule per effect and the
      tactics that run a program by these rules.
    - [TransferMetrics.v]: [ibcv2_transfer_metrics.go]. [Processors.v]: the
      twelve processors of single transfers and the state finisher.
      [Batch.v]: the three batch processors. [ProcessorMW.v]: the two
      middlewares. [PipelineOpts.v], [Pipeline.v] (with
      [conditional_batch_processor.go]), [Dispatcher.v] and [Service.v] (with
      [shared/utils/validate_address_list.go]): the parts of those names.
    - [Laws.v] and [BatchLaws.v]: the contracts [ProcessorLaws] and
      [BatchProcessorLaws], as classes, between a processor and its
      middleware, with an instance per processor. [MWLaws.v] and the end of
      [BatchLaws.v]: what the middlewares guarantee around any processor that
      keeps its contract.
    - [System.v]: the running relayer as a step relation and its invariant
      [sys_inv]; [SystemInv.v] and [DispatcherInv.v]: every step keeps it.
      [Finality.v]: no step writes to a finished row. [Run.v]: an executable
      scheduler of the steps, to evaluate concrete runs.
    - [ServiceLaws.v]: lemmas about the API. [Demo.v]: a concrete
      configuration, environment and packet on which the definitions run.
    - [ServiceSpecs.v], [ProcessorSpecs.v], [StageSpecs.v] and
      [Guarantees.v]: the theorems about the pipeline and the API.
    - [Cooperative.v]: what it means that the chains cooperate about a packet,
      and what each stage then leads to. [Progress.v]: a packet in that
      situation can be completed; what a stale row does; and no step loses a
      transfer.
    - [Deduper.v]: the deduper of [pipeline.go] with its lock, its channel and
      its goroutine. [Batcher.v]: the goroutines and channels of
      [conditional_batch_processor.go], which call the middleware on the world
      as it is at each step. [Daemon.v]: the loop of [relay_dispatcher.go] with
      its ticker, and its shutdown. Each is a step relation of its own that
      refines the steps of [System.v]. [Relayer.v]: the dispatcher's loop, whose
      steps are those of [Daemon.v], with the channels, locks and goroutines of
      all pipelines, running together on one system.
    - [Client.v]: the monad [Ext] of code that runs inside the outside world
      of the pipeline, its run time (clock, waiting, log), lenses to the
      objects that live there, and loops on a ticker. [Float.v]: the floating
      point of the fee and price code.
    - [Once.v]: [once.go]; [OnceLaws.v]: one call of [Do] after another;
      [OnceRun.v]: any number of callers at once, as a step relation between
      the locks, and its theorems.
    - [Signing.v]: [shared/signing] and the remote signers. [Bindings.v]: what
      the EVM client uses of the contract bindings in [shared/contracts].
      [ProtoWire.v] and [PacketCodec.v]: the generated protobuf code, first
      what its messages share, then those of
      [proto/gen/ibc/core/channel/v2/packet.pb.go] and the client state of
      [wasm.pb.go]; the Cosmos client decodes with it. [EvmClient.v] and
      [CosmosClient.v]: the two bridge clients, each ending in its value of
      the record [BridgeClient]. [ClientLaws.v]: lemmas about them and
      [RetryContract], the interface between a client and the retry
      processors. [ClientDemo.v]: a concrete run time with nodes that answer
      from tables. [ClientSpecs.v]: the theorems about the clients and [Do].
      [SignerLaws.v]: the contract between the EVM client and its signer.
    - [Metrics.v]: [shared/metrics/metrics.go]. [GasMonitor.v]:
      [gasmonitor/gasmonitor.go]. [Transport.v]: [http_transport.go] and the
      interceptors. [Queue.v]: [shared/messagequeue]. [Price.v]:
      [shared/clients]. [ClientManager.v]: [relayer/ibcv2/client_manager.go].
      Each has its theorems at its end.
    - [Models.v]: the enumerated columns of [db/gen/db/models.go]. [Server.v]:
      the health check, how the API server ends, and [db/migrate.go].
      [Solana.v]: the part of [shared/signing] the relaying path does not use.
      [Helpers.v]: [shared/utils], [shared/http] and [shared/lmt]. [Rpc.v]:
      [shared/evmrpc] and [shared/tmrpc]. [Main.v]: [cmd/relayer/main.go] with
      [LoadConfig] and [NewDatabase]. [Cli.v]: [cmd/transfer] and [cmd/relay].

    ** What the theorems show

    - Of every state reached without stale or repeated transfers
      ([Guarantees.v]; see [reaches] below): a transfer in a pipeline
      agrees with its row on state and recorded transactions unless it carries
      an error; at most one transfer in all pipelines is about a packet; a row
      in a final state holds the transactions its state promises, and is never
      written again. No step takes a transfer out of a pipeline but its leaving
      at the end and a cancelled context ([Progress.v]).
    - Of a tick that nothing interrupts, with a working database: every
      unfinished row is in its pipeline or marked as failed.
    - Of a packet about which the chains cooperate ([Progress.v]): from every
      state the relayer comes to while it is in its pipeline there is a run that
      completes it, and there is one of at most 35 steps from the submission of
      its row: two per stage, of which there are seventeen at most, and the
      submission. A packet whose timeout can pass on the way may come to the end
      of the pipeline unfinished instead ([passed_over]).
    - Of the goroutines: the deduper refines its atomic form, holds no two
      transfers with one key unless a stage repeats one, and deadlocks
      exactly from one transfer more than it has room for; each step of a batch
      stage is a step of the system or changes nothing there, it never deadlocks
      while the next stage receives, and ends after at most twenty steps per
      transfer; the dispatcher's loop refines the system, never overlaps two
      ticks, keeps its distance between them, and goes on whatever the database
      answers. Of all of them together ([Relayer.v]): the dispatcher's sends are
      never stuck while a pipeline has room for the rows of the table, and when
      one has not, no pipeline is fed any more.
    - Of the stages ([StageSpecs.v]): each processor keeps its contract; the
      middlewares lose no transfer and touch no other row; each of the three
      batch processors records the transaction that was delivered for all its
      transfers or for none; a database transaction that errs has changed
      nothing, unless its [COMMIT] was applied and the answer lost.
    - Of each processor ([ProcessorSpecs.v]): what it records for each answer
      of the chains.
    - Of the API ([ServiceSpecs.v]): [Relay] is a sequence of inserts, leaves
      a row with its fields for every packet with a known destination and a key
      of its own, is idempotent, refuses sanctioned senders after it has
      recorded the submission; [Status] reports a transfer as pending exactly when the
      dispatcher picks it up.
    - Of [Do]: in every interleaving callers of the same object get the outcome
      of its one run, and a key runs once within its timeouts.
    - Of the clients ([ClientSpecs.v]): both refine one decision about retries,
      and with any client that does, the retry processors forget a transaction
      only when the chain says so; submissions are spaced; the status of a
      write acknowledgement is that of the first event of the packet; client
      updates are submitted one at a time and no message is lost; packets are
      well typed; commitment paths can be read back, and the queries say what
      the router contract answers for them; waiting ends; finality by
      offset does not wrap around; fees cover the gas. What the EVM client
      sends is signed by its own address ([SignerLaws.v]).
    - Of the protobuf code ([PacketCodec.v]): what [Marshal] writes is the
      reference encoding, fills its buffer, and is read back; [Unmarshal] ends
      without a panic on all bytes and skips fields it does not know. Of the
      bindings ([Bindings.v]): calls do not panic on a node that answers by the
      ABI, and the iterators of events give what [Parse] gives.
    - Of the rest: the client manager has exactly the clients of the
      configuration; metrics methods pass the labels and the operation their
      vector was declared with, so that the Prometheus library has no reason to
      panic; a failing chain does not disturb the gas monitor; the HTTP
      middleware hands on the bytes of requests and responses; what the queue returns; what the price cache does; what is
      there when the relayer has started, and how it ends; what the health check
      answers; what the command line tools have done when they succeed.
    - A few theorems state behaviour that is likely unintended, as the code
      has it: a finished row is reopened when the dispatcher submits it from a
      stale read, a transfer whose state update fails is repeated by the batch
      middleware, after which its deduper lets a second transfer of the packet
      in, the write ack finality time never reaches the row, send
      transactions are requested repeatedly, a chain without an [ibcv2]
      section makes the dispatcher panic, sequence numbers collide after
      truncation, two sanctioned addresses match nothing; entries of [Do] are
      never freed, the wait for a transaction has no timeout, the two clients
      disagree about a timestamp at the boundary, a chain without base fees
      makes submissions panic, a queue forgets what it claimed, a request body
      that cannot be read is sent cut, and bodies that were read are not closed; the deduper's deadlock, which stops the
      relaying on all pipelines, a shutdown that
      ends in a fatal error, credentials that are added to a request once per
      attempt, a transfer command whose status is always 0.

    ** Modelling choices

    - Go values: a pointer or nullable column is an [option]; a transfer, which
      the stages share by pointer, lives in a heap and is passed by location.
      [int32] and [uint32] conversions wrap; a nil dereference is [Panic].
    - Errors are values with a chain of wrapped messages, so that [errors.Is],
      [errors.As] and [Error() != ""] can be told.
    - The outside: chains, proof relayer and price service have one state of
      an abstract type [X]; a call is a function of that state. Contexts
      are left out: a cancelled or expired one shows as the error a call
      returns. A database round trip may fail ([env_storage]): a single
      statement then has not taken effect, a [COMMIT] may have ([env_race]);
      [healthy] says that none fails.
    - A step of [System.v] is one whole call of a stage, the dispatcher's
      reading of the unfinished rows, its submission of one of them, an insert
      of the API, a transfer leaving a pipeline, a restart of the process
      between calls, or a change outside. The
      channels, goroutines and batching of [github.com/deliveryhero/pipeline]
      are this relation: any waiting transfer may be next, any set of waiting
      transfers may form a batch. Stages run concurrently in the program; that
      a call can be one step rests on the frame each is proved to keep: it
      touches only its own transfers and their rows.
    - [reaches] is about runs in which no pipeline comes to hold a transfer
      twice and no stale row is submitted. The code leaves both cases open:
      see [batch_middleware_repeats] and [stale_row_reopens].
      [working_database_runs] shows that the first takes a failing database.
      The outside of the liveness theorems is [cooperative]: every answer about
      the packet may depend on the state of the outside, the clock may pass the
      timeout, and a commitment may be gone if its transaction can be found.
    - The clients run in the same abstract [X]: a mutable Go object is a part
      of it behind a [Lens]. Go-ethereum, the Cosmos SDK, nodes, Redis, JSON
      and dialing are classes of functions ([Geth], [CosmosSDK], [EVMNode],
      [CosmosNode], [SignerService], [Redis], [Json], [Net], and [Library] for
      the Prometheus client); a theorem that
      relies on what one of them documents says so in a hypothesis, and
      [ClientDemo.v] and the ends of the files instantiate them. Locks are
      left out where one call is modelled; [OnceRun.v] has them.
    - Recursion is structural (over rows, packets, batches, strings). A loop
      on a ticker takes the number of ticks after which its context is
      cancelled, an argument of the client: [WaitForChain_terminates] shows
      that a number bounded by the lag of the chain is enough, and
      [WaitForTx_no_timeout] that none is when the transaction never comes.

    - A loop of the protobuf code takes the length of its data as fuel and
      panics without, so that the theorem that it never panics is that it ends.
      In [Relayer.v] the room of the stages is a number per pipeline, an
      argument of the step relation, since it depends on the concurrency of the
      pipeline library.

    ** What is not modelled

    Generated code the program does not run: bindings of other contracts, other
    methods of those it uses, protobuf messages other than those above (the
    requests of the Cosmos SDK's services, the types of the API, which are
    records of [Service.v]), gRPC stubs and mocks. What the bindings call of
    go-ethereum ([BoundContract], the ABI decoder), parsers and libraries
    (YAML, JSON, HTTP, gRPC, zap, Redis, the migrations): parameters.
    Registering services, multiplexing a listener, configuring the logger and
    registering message types with the SDK's codec, which are calls into
    libraries only. [FormatCoin] and the table of raw transactions, which
    nothing uses; the example program of the message queue. A process killed in
    the middle of a call; the cancellation of the context inside the stages of
    the pipeline library, and the buffers between its stages but for their
    number. Floating point results that overflow or are subnormal. *)
From stdpp Require Import prelude strings list gmap.

(** ** Generic tactics *)

(** Case analysis on the first [match] of a hypothesis or of the goal. *)
Ltac split_match :=
  match goal with
  | H : context [match ?x with _ => _ end] |- _ => destruct x eqn:?; try discriminate
  | |- context [match ?x with _ => _ end] => destruct x eqn:?; try discriminate
  end.

(** ** Booleans and options *)

Definition is_nil {A} (o : option A) : bool :=
  match o with None => true | Some _ => false end.

Definition has {A} (o : option A) : bool := negb (is_nil o).

Lemma has_true {A} (o : option A) : has o = true ↔ is_Some o.
Proof. destruct o; simpl; split; try done; intros [? ?]; done. Qed.

Lemma has_false {A} (o : option A) : has o = false ↔ o = None.
Proof. destruct o; simpl; split; done. Qed.

(** ** Lists *)

Section lists.
Context {A K : Type} `{!EqDecision K} (key : A → K).

(** The first element with a given key. *)
Fixpoint lookup_by (k : K) (l : list A) : option A :=
  match l with
  | [] => None
  | x :: l' => if decide (key x = k) then Some x else lookup_by k l'
  end.

(** [UPDATE ... WHERE key = k]: every element with the key is rewritten. *)
Definition update_by (k : K) (f : A → A) (l : list A) : list A :=
  map (λ x, if decide (key x = k) then f x else x) l.

Lemma lookup_by_key k l x : lookup_by k l = Some x → key x = k.
Proof. induction l as [|y l IH]; simpl; [done|]. case_decide; [congruence|auto]. Qed.

Lemma lookup_by_elem k l x : lookup_by k l = Some x → x ∈ l.
Proof.
  induction l; simpl; [done|]. case_decide; intros; simplify_eq.
  - by left.
  - right; auto.
Qed.

Lemma lookup_by_None k l : lookup_by k l = None ↔ k ∉ map key l.
Proof.
  induction l as [|y l IH]; simpl; [split; [intros _; apply not_elem_of_nil|done]|].
  case_decide as Hk.
  - split; [done|]. rewrite Hk. intros []. by left.
  - rewrite IH, not_elem_of_cons. naive_solver.
Qed.

Lemma lookup_by_NoDup k l x :
  NoDup (map key l) → x ∈ l → key x = k → lookup_by k l = Some x.
Proof.
  induction l as [|y l IH]; simpl; intros Hnd Hin Hk; [by apply elem_of_nil in Hin|].
  apply NoDup_cons in Hnd as [Hy Hnd].
  apply elem_of_cons in Hin as [->|Hin]; case_decide as Hd; try done.
  - exfalso. apply Hy. rewrite Hd, <- Hk. apply list_elem_of_In, in_map, list_elem_of_In, Hin.
  - auto.
Qed.

Lemma lookup_by_snoc k l x :
  lookup_by k (l ++ [x]) =
    match lookup_by k l with
    | Some y => Some y
    | None => if decide (key x = k) then Some x else None
    end.
Proof. induction l as [|y l IH]; simpl; [done|]. by destruct (decide (key y = k)). Qed.

Section update.
Context (f : A → A) (Hf : ∀ x, key (f x) = key x).

Lemma update_by_keys k l : map key (update_by k f l) = map key l.
Proof. induction l as [|x l IH]; simpl; [done|]. f_equal; [|done]. by case_decide. Qed.

Lemma lookup_by_update_eq k l : lookup_by k (update_by k f l) = f <$> lookup_by k l.
Proof.
  induction l as [|x l IH]; simpl; [done|].
  destruct (decide (key x = k)) as [Hk|Hk]; simpl; [rewrite Hf|]; by case_decide.
Qed.

Lemma lookup_by_update_ne k k' l :
  k ≠ k' → lookup_by k' (update_by k f l) = lookup_by k' l.
Proof.
  intros Hne. induction l as [|x l IH]; simpl; [done|].
  destruct (decide (key x = k)) as [Hk|Hk]; simpl; [rewrite Hf|];
    case_decide; simplify_eq; done.
Qed.
End update.

(** An update whose key matches no row leaves the table as it is. *)
Lemma update_by_absent f k l : k ∉ map key l → update_by k f l = l.
Proof.
  induction l as [|x l IH]; simpl; [done|]. rewrite not_elem_of_cons. intros [? ?].
  case_decide; [congruence|]. f_equal. auto.
Qed.
End lists.
