(* ===== verification/Go.v ===== *)
(** * The part of Go and of its standard library that the relayer uses

    Fixed-width integer conversions, [time.Time] and [time.Duration],
    [hex.DecodeString], [strings.TrimPrefix], [strings.ToLower], the error
    values of the code with [errors.Is] and [errors.As], and the outcome of a
    call (a value, a non-nil error, or a panic). *)
From stdpp Require Import prelude strings list gmap.
From Stdlib Require Import ZArith Lia.
From S2P Require Import Prelude.
Open Scope Z_scope.

(** ** Integers at their width

    A conversion between integer types keeps the low bits and reads them as
    the target type; these are Go's conversions [int32(x)], [uint32(x)], ... *)

Definition uint8 (z : Z) : Z := z mod 2 ^ 8.
Definition uint32 (z : Z) : Z := z mod 2 ^ 32.
Definition uint64 (z : Z) : Z := z mod 2 ^ 64.
Definition int32 (z : Z) : Z := (z + 2 ^ 31) mod 2 ^ 32 - 2 ^ 31.
Definition int64 (z : Z) : Z := (z + 2 ^ 63) mod 2 ^ 64 - 2 ^ 63.

Definition is_int32 (z : Z) : Prop := - 2 ^ 31 ≤ z < 2 ^ 31.
Definition is_uint32 (z : Z) : Prop := 0 ≤ z < 2 ^ 32.
Definition is_uint64 (z : Z) : Prop := 0 ≤ z < 2 ^ 64.

Lemma int32_range z : is_int32 (int32 z).
Proof. unfold is_int32, int32. pose proof (Z.mod_pos_bound (z + 2 ^ 31) (2 ^ 32)). lia. Qed.

Lemma uint32_range z : is_uint32 (uint32 z).
Proof. unfold is_uint32, uint32. apply Z.mod_pos_bound. lia. Qed.

Lemma int32_id z : is_int32 z → int32 z = z.
Proof. unfold is_int32, int32. intros. rewrite Z.mod_small; lia. Qed.

Lemma uint32_id z : is_uint32 z → uint32 z = z.
Proof. unfold is_uint32, uint32. intros. by rewrite Z.mod_small. Qed.

Lemma uint64_id z : is_uint64 z → uint64 z = z.
Proof. unfold is_uint64, uint64. intros. by rewrite Z.mod_small. Qed.

Lemma uint64_range z : is_uint64 (uint64 z).
Proof. unfold is_uint64, uint64. apply Z.mod_pos_bound. lia. Qed.

Lemma int64_id z : - 2 ^ 63 ≤ z < 2 ^ 63 → int64 z = z.
Proof. unfold int64. intros. rewrite Z.mod_small; lia. Qed.

(** [int32] and [uint32] are the two readings of the same 32 bits. *)
Lemma int32_uint32 z : int32 (uint32 z) = int32 z.
Proof. unfold int32, uint32. by rewrite Zplus_mod_idemp_l. Qed.

Lemma uint32_int32 z : uint32 (int32 z) = uint32 z.
Proof.
  unfold int32, uint32. rewrite Zminus_mod_idemp_l. f_equal. lia.
Qed.

Lemma int32_uint32_id z : is_int32 z → int32 (uint32 z) = z.
Proof. intros. rewrite int32_uint32. by apply int32_id. Qed.

Lemma uint32_int32_id z : is_uint32 z → uint32 (int32 z) = z.
Proof. intros. rewrite uint32_int32. by apply uint32_id. Qed.

(** ** Instants and durations

    A [time.Time] is the number of nanoseconds since the Unix epoch, a
    [time.Duration] a number of nanoseconds in an [int64]. *)

Definition Time := Z.
Definition Duration := Z.

Definition Nanosecond : Duration := 1.
Definition Millisecond : Duration := 1000000.
Definition Second : Duration := 1000000000.
Definition Minute : Duration := 60 * Second.

(** [time.Time{}]: January 1 of year 1, UTC. *)
Definition zero_time : Time := - 62135596800 * Second.

(** [time.Unix(sec, 0)]. *)
Definition time_Unix (sec : Z) : Time := sec * Second.

Definition After (t u : Time) : bool := bool_decide (u < t).
Definition Before (t u : Time) : bool := bool_decide (t < u).

(** [t.Sub(u)] saturates at the ends of [int64]. *)
Definition time_Sub (t u : Time) : Duration :=
  Z.max (- 2 ^ 63) (Z.min (2 ^ 63 - 1) (t - u)).

Definition time_Add (t : Time) (d : Duration) : Time := t + d.

(** ** Strings *)

(** [strings.TrimPrefix]. *)
Definition TrimPrefix (s p : string) : string :=
  if String.prefix p s
  then String.substring (String.length p) (String.length s - String.length p) s
  else s.

Definition ascii_lower (a : Ascii.ascii) : Ascii.ascii :=
  let n := Ascii.nat_of_ascii a in
  if (65 <=? n)%nat && (n <=? 90)%nat then Ascii.ascii_of_nat (n + 32) else a.

(** [strings.ToLower] on ASCII text (the code applies it to hex addresses). *)
Fixpoint ToLower (s : string) : string :=
  match s with
  | EmptyString => EmptyString
  | String a s' => String (ascii_lower a) (ToLower s')
  end.

(** ** Byte slices

    A byte is a [Z] from 0 to 255. A nil and an empty slice are one value. *)

Definition bytes := list Z.

Definition is_byte (b : Z) : Prop := 0 ≤ b < 2 ^ 8.

(** [[]byte(s)]. *)
Fixpoint bytes_of_string (s : string) : bytes :=
  match s with
  | EmptyString => []
  | String a s' => Z.of_nat (Ascii.nat_of_ascii a) :: bytes_of_string s'
  end.

(** [string(bs)]. *)
Fixpoint string_of_bytes (bs : bytes) : string :=
  match bs with
  | [] => EmptyString
  | b :: bs' => String (Ascii.ascii_of_nat (Z.to_nat b)) (string_of_bytes bs')
  end.

Lemma string_of_bytes_of_string s : string_of_bytes (bytes_of_string s) = s.
Proof.
  induction s as [|a s IH]; simpl; [done|]. by rewrite Nat2Z.id, Ascii.ascii_nat_embedding, IH.
Qed.

Lemma bytes_of_string_bytes s : Forall is_byte (bytes_of_string s).
Proof.
  induction s as [|a s IH]; simpl; constructor; [|done].
  pose proof (Ascii.nat_ascii_bounded a). unfold is_byte. lia.
Qed.

Lemma bytes_of_string_inj s s' : bytes_of_string s = bytes_of_string s' → s = s'.
Proof. intros H. by rewrite <- (string_of_bytes_of_string s), H, string_of_bytes_of_string. Qed.

(** ** [encoding/hex] *)

(** The value of one hex digit, either case. *)
Definition hex_digit (a : Ascii.ascii) : option Z :=
  let n := Z.of_nat (Ascii.nat_of_ascii a) in
  if (48 <=? n) && (n <=? 57) then Some (n - 48)
  else if (97 <=? n) && (n <=? 102) then Some (n - 87)
  else if (65 <=? n) && (n <=? 70) then Some (n - 55)
  else None.

(** [hex.DecodeString]: [None] for an odd length or a byte that is not a hex
    digit, where Go returns an error. *)
Fixpoint DecodeString (s : string) : option (list Z) :=
  match s with
  | EmptyString => Some []
  | String a (String b s') =>
      match hex_digit a, hex_digit b with
      | Some x, Some y =>
          match DecodeString s' with
          | Some bs => Some (16 * x + y :: bs)
          | None => None
          end
      | _, _ => None
      end
  | String _ EmptyString => None
  end.

(** ** [math/big] *)

(** The digits of a base-10 number, most significant first. *)
Fixpoint parse_digits (s : string) (acc : Z) : option Z :=
  match s with
  | EmptyString => Some acc
  | String a s' =>
      let n := Z.of_nat (Ascii.nat_of_ascii a) in
      if (48 <=? n) && (n <=? 57) then parse_digits s' (10 * acc + (n - 48)) else None
  end.

(** [new(big.Int).SetString(s, 10)]: an optional sign and at least one digit. *)
Definition SetString (s : string) : option Z :=
  match s with
  | EmptyString => None
  | String a s' =>
      if bool_decide (a = Ascii.ascii_of_nat 45) then
        match s' with EmptyString => None | _ => Z.opp <$> parse_digits s' 0 end
      else if bool_decide (a = Ascii.ascii_of_nat 43) then
        match s' with EmptyString => None | _ => parse_digits s' 0 end
      else parse_digits s 0
  end.

(** ** Errors *)

(** The package-level error values the code compares with [errors.Is]. *)
Inductive sentinel :=
  | ErrTxNotFound
  | ErrWriteAckDecoding
  | ErrWriteAckNotFoundForPacket
  | ErrNoLaterBlocks
  | ErrSendNotFinalized
  | ErrTimeoutNotFinalized
  | ErrWriteAckNotFinalized
  | ErrRetryingRecvPacket
  | ErrRetryingAckPacket
  | ErrRetryingTimeoutPacket
  | ErrTransferAlreadyInPipeline
  | ErrNoSignerForBridge
  | ErrNoRows
  | ContextCanceled
  | ContextDeadlineExceeded.

#[global] Instance sentinel_eq_dec : EqDecision sentinel.
Proof. solve_decision. Defined.

Definition sentinel_string (s : sentinel) : string :=
  match s with
  | ErrTxNotFound => "tx not found"
  | ErrWriteAckDecoding => "could not decode write ack"
  | ErrWriteAckNotFoundForPacket => "write ack for packet not found in tx"
  | ErrNoLaterBlocks => "no blocks with a timestamp later than the provided timestamp"
  | ErrSendNotFinalized => "send tx not finalized"
  | ErrTimeoutNotFinalized => "timeout tx not finalized"
  | ErrWriteAckNotFinalized => "write tx not finalized"
  | ErrRetryingRecvPacket => "retrying recv packet"
  | ErrRetryingAckPacket => "retrying ack packet"
  | ErrRetryingTimeoutPacket => "retrying timeout packet"
  | ErrTransferAlreadyInPipeline => "transfer already in pipeline"
  | ErrNoSignerForBridge => "no signer for bridge"
  | ErrNoRows => "no rows in result set"
  | ContextCanceled => "context canceled"
  | ContextDeadlineExceeded => "context deadline exceeded"
  end.

(** The codes of [google.golang.org/grpc/codes] the code uses. *)
Inductive grpc_code := OK | InvalidArgument | NotFound | Internal.

#[global] Instance grpc_code_eq_dec : EqDecision grpc_code.
Proof. solve_decision. Defined.

(** [uint32(codes.X)]. *)
Definition grpc_code_num (c : grpc_code) : Z :=
  match c with OK => 0 | InvalidArgument => 3 | NotFound => 5 | Internal => 13 end.

(** A non-nil [error]. [Errorf m e] is [fmt.Errorf("m: %w", ..., e)]: the
    arguments printed into the message are left out, the wrapped error is kept.
    [Errorf2] wraps two errors. [PgError] is [*pgconn.PgError] with its code
    and [StatusError] a gRPC status. *)
Inductive error :=
  | Sentinel (s : sentinel)
  | ErrorNew (msg : string)
  | Errorf (msg : string) (wrapped : error)
  | Errorf2 (msg : string) (wrapped1 wrapped2 : error)
  | PgError (code : string)
  | StatusError (code : grpc_code) (msg : string).

(** [err.Error()]. *)
Fixpoint error_string (e : error) : string :=
  match e with
  | Sentinel s => sentinel_string s
  | ErrorNew m => m
  | Errorf m e' => m +:+ ": " +:+ error_string e'
  | Errorf2 m e1 e2 => m +:+ ": " +:+ error_string e1 +:+ ": " +:+ error_string e2
  | PgError c => "ERROR: (SQLSTATE " +:+ c +:+ ")"
  | StatusError _ m => "rpc error: " +:+ m
  end.

(** [errors.Is(err, s)]. *)
Fixpoint errors_Is (e : error) (s : sentinel) : bool :=
  match e with
  | Sentinel s' => bool_decide (s' = s)
  | Errorf _ e' => errors_Is e' s
  | Errorf2 _ e1 e2 => errors_Is e1 s || errors_Is e2 s
  | _ => false
  end.

(** [errors.As(err, &pgErr)], returning [pgErr.Code]. *)
Fixpoint errors_As_PgError (e : error) : option string :=
  match e with
  | PgError c => Some c
  | Errorf _ e' => errors_As_PgError e'
  | Errorf2 _ e1 e2 =>
      match errors_As_PgError e1 with Some c => Some c | None => errors_As_PgError e2 end
  | _ => None
  end.

(** An error with the empty message is indistinguishable, for the code's
    [Error() != ""] tests, from no error. Every wrapping of the code has a
    non-empty message. *)
Lemma Errorf_string_nonempty m e : error_string (Errorf m e) ≠ "".
Proof. simpl. destruct m; discriminate. Qed.

Lemma Sentinel_string_nonempty s : error_string (Sentinel s) ≠ "".
Proof. by destruct s. Qed.

(** ** The outcome of a call *)

(** [Ret a]: the call returned with a nil error. [Fail e]: it returned the
    error [e]. [Panic]: it panicked (a nil pointer was dereferenced). *)
Inductive outcome (A : Type) :=
  | Ret (a : A)
  | Fail (e : error)
  | Panic.
Arguments Ret {A} a.
Arguments Fail {A} e.
Arguments Panic {A}.

Definition is_Ret {A} (o : outcome A) : bool :=
  match o with Ret _ => true | _ => false end.
