(* ===== verification/Config.v ===== *)
(** * Configuration

    Models [shared/config/config.go]: the configuration records and the
    queries of [configReader]. Parsing YAML from a file is outside the model;
    [os.LookupEnv] is an argument of the two queries that read the process
    environment.

    A Go map that is only looked up is a [gmap]. [Config.Chains] is also ranged
    over, in an order Go leaves open, so it is the list of its entries in the
    order of one iteration; the theorems below show that, when chain IDs are
    unique, the index built from it does not depend on that order. *)
From stdpp Require Import prelude strings list gmap.
From Stdlib Require Import ZArith.
From S2P Require Import Prelude Go.
Open Scope Z_scope.

Module config.

(** ** Schema *)

(** The named string types of the code; YAML may put any string there. *)
Definition ChainType := string.
Definition ChainType_COSMOS : ChainType := "cosmos".
Definition ChainType_EVM : ChainType := "evm".
Definition ChainType_SVM : ChainType := "svm".

Definition BridgeType := string.
Definition BridgeType_IBCV2 : BridgeType := "ibcv2".

(** [db.BridgeType] has the one value [ibcv2]. *)
Definition ToDBBridgeType (t : BridgeType) : outcome string :=
  if bool_decide (t = BridgeType_IBCV2) then Ret "ibcv2"
  else Fail (ErrorNew "invalid bridge type").

Definition ChainEnvironment := string.
Definition ChainEnvironment_MAINNET : ChainEnvironment := "mainnet".
Definition ChainEnvironment_TESTNET : ChainEnvironment := "testnet".

(** A [float64] by its IEEE 754 bits; the code modelled here does no
    arithmetic on it. *)
Record float64 := mkfloat64 { float64_bits : Z }.

Record SigningConfig := mkSigningConfig {
  KeysPath : string;
  SigningConfig_GRPCAddress : string;
  CosmosWalletKey : string;
  EVMWalletKey : string;
  SVMWalletKey : string;
}.

Record MetricsConfig := mkMetricsConfig { PrometheusAddress : string }.

Record RelayerAPIConfig := mkRelayerAPIConfig { Address : string }.

Record PostgresConfig := mkPostgresConfig {
  Hostname : string;
  Port : string;
  PostgresConfig_Database : string;
  IAMAuthEnabled : bool;
}.

Record IBCV2ProofAPIConfig := mkIBCV2ProofAPIConfig {
  GRPCAddress : string;
  IBCV2ProofAPIConfig_GRPCTLSEnabled : bool;
}.

Record IBCV2Config := mkIBCV2Config {
  CounterpartyChains : gmap string string;
  FinalityOffset : option Z;
  AckBatchSize : Z;
  AckBatchTimeout : Duration;
  AckBatchConcurrency : Z;
  RecvBatchSize : Z;
  RecvBatchTimeout : Duration;
  RecvBatchConcurrency : Z;
  TimeoutBatchSize : Z;
  TimeoutBatchTimeout : Duration;
  TimeoutBatchConcurrency : Z;
  ShouldRelaySuccessAcks : bool;
  ShouldRelayErrorAcks : bool;
}.

Record SignerGasAlertThresholdsConfig := mkSignerGasAlertThresholdsConfig {
  WarningThreshold : string;
  CriticalThreshold : string;
}.

Record CosmosConfig := mkCosmosConfig {
  GasPrice : float64;
  IBCV2TxFeeDenom : string;
  IBCV2TxFeeAmount : Z;
  CosmosConfig_RPC : string;
  CosmosConfig_RPCBasicAuthVar : string;
  GRPC : string;
  GRPCTLSEnabled : bool;
  AddressPrefix : string;
}.

Record EVMContractConfig := mkEVMContractConfig {
  ICS26RouterAddress : string;
  ICS20TransferAddress : string;
}.

Record EVMConfig := mkEVMConfig {
  EVMConfig_RPC : string;
  EVMConfig_RPCBasicAuthVar : string;
  Contracts : EVMContractConfig;
  GasFeeCapMultiplier : option float64;
  GasTipCapMultiplier : option float64;
}.

Record SVMConfig := mkSVMConfig {
  SVMConfig_RPC : string;
  WS : string;
  PriorityFee : Z;
  SubmitRPCs : list string;
}.

Record ChainConfig := mkChainConfig {
  ChainName : string;
  ChainID : string;
  ChainConfig_Type : ChainType;
  Environment : ChainEnvironment;
  Cosmos : option CosmosConfig;
  EVM : option EVMConfig;
  SVM : option SVMConfig;
  GasTokenSymbol : string;
  GasTokenCoingeckoID : option string;
  GasTokenDecimals : Z;
  SignerGasAlertThresholds : gmap BridgeType SignerGasAlertThresholdsConfig;
  IBCV2 : option IBCV2Config;
  SupportedBridges : list BridgeType;
}.

Record CoingeckoConfig := mkCoingeckoConfig {
  BaseURL : string;
  RequestsPerMinute : Z;
  APIKey : string;
  CacheRefreshInterval : Duration;
}.

Record Config := mkConfig {
  Postgres : PostgresConfig;
  Chains : list (string * ChainConfig);
  Metrics : MetricsConfig;
  RelayerAPI : RelayerAPIConfig;
  Coingecko : CoingeckoConfig;
  IBCV2ProofAPI : IBCV2ProofAPIConfig;
  Signing : SigningConfig;
}.

Definition Config_Validate (c : Config) : outcome unit :=
  if bool_decide (Address (RelayerAPI c) = "")
  then Fail (ErrorNew "relayer_api.address must be configured")
  else Ret tt.

(** ** The reader *)

Record configReader := mkConfigReader {
  reader_config : Config;
  chainIDIndex : gmap string ChainConfig;
}.

Definition all_chains (c : Config) : list ChainConfig := map snd (Chains c).

(** A later chain of the iteration overwrites an earlier one with its ID. *)
Definition createIndexes (c : Config) : gmap string ChainConfig :=
  foldl (λ m chain, <[ChainID chain := chain]> m) ∅ (all_chains c).

Definition NewConfigReader (c : Config) : configReader := mkConfigReader c (createIndexes c).

Definition GetIBCV2ProofRelayerConfig (r : configReader) : IBCV2ProofAPIConfig :=
  IBCV2ProofAPI (reader_config r).

Definition GetIBCV2Chains (r : configReader) : list ChainConfig :=
  filter (λ chain, is_Some (IBCV2 chain)) (all_chains (reader_config r)).

Definition err_chain_not_found : error := ErrorNew "chain id not found".

Definition GetChainConfig (r : configReader) (chainID : string) : outcome ChainConfig :=
  match chainIDIndex r !! chainID with
  | None => Fail err_chain_not_found
  | Some chain => Ret chain
  end.

Definition GetIBCV2Config (r : configReader) (chainID : string) : outcome (option IBCV2Config) :=
  match GetChainConfig r chainID with
  | Ret chain => Ret (IBCV2 chain)
  | Fail e => Fail e
  | Panic => Panic
  end.

Definition GetClientCounterpartyChainID (r : configReader) (chainID clientID : string)
    : outcome string :=
  match GetChainConfig r chainID with
  | Fail e => Fail e
  | Panic => Panic
  | Ret chain =>
      match IBCV2 chain with
      | None => Fail (ErrorNew "chain is not ibcv2 enabled")
      | Some ibcv2 =>
          match CounterpartyChains ibcv2 !! clientID with
          | None => Fail (ErrorNew "unknown client on chain")
          | Some trackedChain => Ret trackedChain
          end
      end
  end.

Definition PostgresIAMAuthEnabled (r : configReader) : bool :=
  IAMAuthEnabled (Postgres (reader_config r)).

Definition GetPostgresConnString (LookupEnv : string → option string) (r : configReader)
    : string :=
  let dbUser := default "relayer" (LookupEnv "POSTGRES_USER") in
  let dbPassword := default "relayer" (LookupEnv "POSTGRES_PASSWORD") in
  let p := Postgres (reader_config r) in
  "host=" +:+ Hostname p +:+ " port=" +:+ Port p +:+ " user=" +:+ dbUser +:+
  " password=" +:+ dbPassword +:+ " dbname=" +:+ PostgresConfig_Database p.

Definition GetChainEnvironment (r : configReader) (chainID : string) : outcome ChainEnvironment :=
  match chainIDIndex r !! chainID with
  | None => Fail err_chain_not_found
  | Some chain => Ret (Environment chain)
  end.

Definition GetRPCEndpoint (r : configReader) (chainID : string) : outcome string :=
  match chainIDIndex r !! chainID with
  | None => Fail err_chain_not_found
  | Some chain =>
      if bool_decide (ChainConfig_Type chain = ChainType_COSMOS) then
        match Cosmos chain with
        | None => Fail (ErrorNew "cosmos config not set for chain")
        | Some c => Ret (CosmosConfig_RPC c)
        end
      else if bool_decide (ChainConfig_Type chain = ChainType_EVM) then
        match EVM chain with
        | None => Fail (ErrorNew "evm config not set for chain")
        | Some c => Ret (EVMConfig_RPC c)
        end
      else if bool_decide (ChainConfig_Type chain = ChainType_SVM) then
        match SVM chain with
        | None => Fail (ErrorNew "svm config not set for chain")
        | Some c => Ret (SVMConfig_RPC c)
        end
      else Fail (ErrorNew "unknown chain type for chain")
  end.

Definition GetGRPCEndpoint (r : configReader) (chainID : string) : outcome (string * bool) :=
  match chainIDIndex r !! chainID with
  | None => Fail err_chain_not_found
  | Some chain =>
      if bool_decide (ChainConfig_Type chain = ChainType_COSMOS) then
        match Cosmos chain with
        | None => Fail (ErrorNew "cosmos config not set for chain")
        | Some c => Ret (GRPC c, GRPCTLSEnabled c)
        end
      else if bool_decide (ChainConfig_Type chain = ChainType_EVM) then
        Fail (ErrorNew "grpc endpoints not supported for chain type evm")
      else if bool_decide (ChainConfig_Type chain = ChainType_SVM) then
        Fail (ErrorNew "grpc endpoints not supported for chain type svm")
      else Fail (ErrorNew "unknown chain type for chain")
  end.

Definition GetBasicAuth (LookupEnv : string → option string) (r : configReader)
    (chainID : string) : outcome (option string) :=
  match chainIDIndex r !! chainID with
  | None => Fail err_chain_not_found
  | Some chain =>
      if bool_decide (ChainConfig_Type chain = ChainType_COSMOS) then
        match Cosmos chain with
        | None => Fail (ErrorNew "cosmos config not set for chain")
        | Some c => Ret (LookupEnv (CosmosConfig_RPCBasicAuthVar c))
        end
      else if bool_decide (ChainConfig_Type chain = ChainType_EVM) then
        match EVM chain with
        | None => Fail (ErrorNew "evm config not set for chain")
        | Some c => Ret (LookupEnv (EVMConfig_RPCBasicAuthVar c))
        end
      else if bool_decide (ChainConfig_Type chain = ChainType_SVM) then Ret None
      else Fail (ErrorNew "unknown chain type for chain")
  end.

Definition GetAllChainConfigsOfType (r : configReader) (chainType : ChainType)
    : outcome (list ChainConfig) :=
  Ret (filter (λ chain, ChainConfig_Type chain = chainType) (all_chains (reader_config r))).

Definition GetAllChains (r : configReader) : list ChainConfig := all_chains (reader_config r).

Definition GetSignerGasAlertThresholds (r : configReader) (chainID : string)
    (bridgeType : BridgeType) : outcome (Z * Z) :=
  match GetChainConfig r chainID with
  | Panic => Panic
  | Fail e => Fail (Errorf "getting chain config for chain" e)
  | Ret chain =>
      match SignerGasAlertThresholds chain !! bridgeType with
      | None => Fail (Sentinel ErrNoSignerForBridge)
      | Some gasConfig =>
          match SetString (WarningThreshold gasConfig) with
          | None => Fail (ErrorNew "failed to parse gas balance warning threshold amount")
          | Some warning =>
              match SetString (CriticalThreshold gasConfig) with
              | None => Fail (ErrorNew "failed to parse gas balance critical threshold amount")
              | Some critical => Ret (warning, critical)
              end
          end
      end
  end.

Definition GetCoingeckoConfig (r : configReader) : CoingeckoConfig := Coingecko (reader_config r).

Definition GetRelayerAPIConfig (r : configReader) : RelayerAPIConfig :=
  RelayerAPI (reader_config r).

(** The loop body looks the chain up again by its ID, and dereferences the
    [IBCV2] pointer of what it finds. *)
Fixpoint clients_to_counterparties (r : configReader) (chains : list ChainConfig)
    (m : gmap string (gmap string string)) : outcome (gmap string (gmap string string)) :=
  match chains with
  | [] => Ret m
  | chain :: chains' =>
      match GetIBCV2Config r (ChainID chain) with
      | Panic => Panic
      | Fail e => Fail (Errorf "getting ibcv2 config for chain" e)
      | Ret None => Panic
      | Ret (Some ibcv2) =>
          clients_to_counterparties r chains' (<[ChainID chain := CounterpartyChains ibcv2]> m)
      end
  end.

Definition GetAllIBCV2ClientsToCounterparties (r : configReader)
    : outcome (gmap string (gmap string string)) :=
  clients_to_counterparties r (GetIBCV2Chains r) ∅.

(** ** The index *)

(** No two chains are configured with the same ID. *)
Definition unique_chain_ids (c : Config) : Prop := NoDup (map ChainID (all_chains c)).

Lemma foldl_index_lookup l : ∀ (m : gmap string ChainConfig) id,
  NoDup (map ChainID l) →
  foldl (λ m chain, <[ChainID chain := chain]> m) m l !! id =
    match lookup_by ChainID id l with Some chain => Some chain | None => m !! id end.
Proof.
  induction l as [|chain l IH]; intros m id Hnd; simpl; [done|].
  apply NoDup_cons in Hnd as [Hin Hnd]. rewrite IH by done.
  case_decide as Hid; subst.
  - apply lookup_by_None in Hin. rewrite Hin. by rewrite lookup_insert_eq.
  - destruct (lookup_by ChainID id l); [done|]. by rewrite lookup_insert_ne.
Qed.

Lemma createIndexes_lookup c id :
  unique_chain_ids c → createIndexes c !! id = lookup_by ChainID id (all_chains c).
Proof.
  intros Hnd. unfold createIndexes. rewrite foldl_index_lookup by done.
  by destruct (lookup_by _ _ _).
Qed.

Lemma createIndexes_elem c id chain :
  unique_chain_ids c →
  createIndexes c !! id = Some chain ↔ chain ∈ all_chains c ∧ ChainID chain = id.
Proof.
  intros Hnd. rewrite createIndexes_lookup by done. split.
  - intros H. split; [by eapply lookup_by_elem|by eapply lookup_by_key].
  - intros [? ?]. by apply lookup_by_NoDup.
Qed.

Lemma chains_same_id c chain1 chain2 :
  unique_chain_ids c → chain1 ∈ all_chains c → chain2 ∈ all_chains c →
  ChainID chain1 = ChainID chain2 → chain1 = chain2.
Proof.
  intros Hu H1 H2 Hid.
  assert (createIndexes c !! ChainID chain1 = Some chain1) by (by apply createIndexes_elem).
  assert (createIndexes c !! ChainID chain1 = Some chain2) by (by apply createIndexes_elem).
  congruence.
Qed.

(** The loop collects, for every chain it visits, the counterparties of the
    chain, and keeps the other entries of the map it started from. *)
Lemma clients_to_counterparties_lookup c chains : ∀ m,
  unique_chain_ids c →
  (∀ chain, chain ∈ chains → chain ∈ all_chains c ∧ is_Some (IBCV2 chain)) →
  ∃ m', clients_to_counterparties (NewConfigReader c) chains m = Ret m' ∧
    (∀ chain, chain ∈ chains → m' !! ChainID chain = CounterpartyChains <$> IBCV2 chain) ∧
    (∀ id, id ∉ map ChainID chains → m' !! id = m !! id).
Proof.
  induction chains as [|chain chains IH]; intros m Hu Hin; simpl.
  { exists m. split_and!; [done| |done]. by intros ? ?%elem_of_nil. }
  destruct (Hin chain) as [Hc [ibcv2 Hi]]; [by left|].
  unfold GetIBCV2Config, GetChainConfig; simpl.
  rewrite (proj2 (createIndexes_elem c _ chain Hu)), Hi by done.
  destruct (IH (<[ChainID chain:=CounterpartyChains ibcv2]> m)) as (m' & Hm' & Hl & Hr);
    [done|intros; apply Hin; by right|].
  exists m'. split_and!; [done| |].
  - intros ch [->|?]%elem_of_cons; [|auto].
    destruct (decide (ChainID chain ∈ map ChainID chains)) as [Hel|Hel].
    + apply list_elem_of_fmap in Hel as (ch' & Heq & Hel).
      rewrite (chains_same_id c chain ch'); [auto|done|done| |done]. by apply Hin; right.
    + rewrite Hr, lookup_insert_eq, Hi; done.
  - intros id [Hne Hnin]%not_elem_of_cons. by rewrite Hr, lookup_insert_ne.
Qed.

(** The index does not depend on the order in which Go ranges over the map of
    chains, provided the chain IDs are unique. *)
Theorem createIndexes_order (c c' : Config) :
  unique_chain_ids c → Chains c ≡ₚ Chains c' → createIndexes c = createIndexes c'.
Proof.
  intros Hu Hp.
  assert (all_chains c ≡ₚ all_chains c') as Hall by (by apply (fmap_Permutation snd)).
  assert (unique_chain_ids c') as Hu'.
  { unfold unique_chain_ids in *. by rewrite <- (fmap_Permutation ChainID _ _ Hall). }
  apply map_eq. intros id. apply option_eq. intros chain.
  rewrite !createIndexes_elem by done. by rewrite Hall.
Qed.

(** The map of all clients to their counterparty chains is always produced
    (in particular the [IBCV2] pointer of the re-read chain is not nil), and it
    holds exactly what [GetClientCounterpartyChainID] answers client by
    client. *)
Theorem counterparties_agree (c : Config) :
  unique_chain_ids c →
  ∃ m, GetAllIBCV2ClientsToCounterparties (NewConfigReader c) = Ret m ∧
    ∀ chainID clientID tracked,
      (∃ clients, m !! chainID = Some clients ∧ clients !! clientID = Some tracked) ↔
      GetClientCounterpartyChainID (NewConfigReader c) chainID clientID = Ret tracked.
Proof.
  intros Hu.
  destruct (clients_to_counterparties_lookup c (GetIBCV2Chains (NewConfigReader c)) ∅)
    as (m & Hm & Hin & Hout); [done| |].
  { intros chain [? ?]%list_elem_of_filter. done. }
  exists m. split; [done|]. intros chainID clientID tracked.
  unfold GetClientCounterpartyChainID, GetChainConfig; simpl.
  destruct (createIndexes c !! chainID) as [chain|] eqn:Hidx.
  - apply createIndexes_elem in Hidx as [Hel <-]; [|done].
    destruct (IBCV2 chain) as [ibcv2|] eqn:Hi.
    + rewrite Hin by (apply list_elem_of_filter; rewrite Hi; eauto). rewrite Hi; simpl.
      split; [intros (? & [= <-] & ->); done|]. intros H. repeat split_match.
      simplify_eq. eauto.
    + rewrite Hout; [split; [by intros (? & ? & _)|done]|].
      intros (ch & Hid & [[? ?] ?]%list_elem_of_filter)%list_elem_of_fmap.
      rewrite (chains_same_id c chain ch) in Hi by done. congruence.
  - rewrite Hout; [split; [by intros (? & ? & _)|done]|].
    intros (ch & Hid & [? ?]%list_elem_of_filter)%list_elem_of_fmap.
    assert (createIndexes c !! chainID = Some ch) by (by apply createIndexes_elem). congruence.
Qed.

End config.
