(* ===== verification/Db.v ===== *)
(** * The database: tables, the sqlc queries and their laws

    Models [db/gen/db/models.go] and [db/gen/db/ibcv2_transfers.sql.go] (whose
    constants hold the SQL text) together with the constraints of
    [db/migrations]: the unique index on
    (source_chain_id, packet_sequence_number, packet_source_client_id) of
    [ibcv2_transfers] and the unique (source_chain_id, source_tx_hash) of
    [ibcv2_relay_submissions].

    A table is the list of its rows. A nullable column is an [option]: a
    [pgtype.Text] or [pgtype.Timestamp] with [Valid] false is [None]. Every
    [UPDATE] of the file has the same [WHERE] clause on the three key columns,
    which are one record [packet_key] here; the struct fields the caller leaves
    out have Go's zero values ([zero_key]). *)
From stdpp Require Import prelude strings list gmap.
From Stdlib Require Import ZArith.
From S2P Require Import Prelude Go.
Open Scope Z_scope.

Module db.

(** ** Enumerations *)

Inductive Ibcv2RelayStatus :=
  | Ibcv2RelayStatusPENDING
  | Ibcv2RelayStatusCHECKRECVPACKETDELIVERY
  | Ibcv2RelayStatusGETRECVPACKET
  | Ibcv2RelayStatusDELIVERRECVPACKET
  | Ibcv2RelayStatusWAITFORWRITEACK
  | Ibcv2RelayStatusCHECKACKPACKETDELIVERY
  | Ibcv2RelayStatusGETACKPACKET
  | Ibcv2RelayStatusDELIVERACKPACKET
  | Ibcv2RelayStatusCHECKTIMEOUTPACKETDELIVERY
  | Ibcv2RelayStatusGETTIMEOUTPACKET
  | Ibcv2RelayStatusDELIVERTIMEOUTPACKET
  | Ibcv2RelayStatusCOMPLETEWITHACK
  | Ibcv2RelayStatusCOMPLETEWITHTIMEOUT
  | Ibcv2RelayStatusFAILED
  | Ibcv2RelayStatusAWAITINGSENDFINALITY
  | Ibcv2RelayStatusAWAITINGWRITEACKFINALITY
  | Ibcv2RelayStatusCOMPLETEWITHWRITEACKSUCCESS
  | Ibcv2RelayStatusAWAITINGTIMEOUTFINALITY
  | Ibcv2RelayStatusCOMPLETEWITHWRITEACKERROR
  | Ibcv2RelayStatusCALCULATINGRECVTXGASCOST
  | Ibcv2RelayStatusCALCULATINGACKTXGASCOST
  | Ibcv2RelayStatusCALCULATINGTIMEOUTTXGASCOST.

#[global] Instance Ibcv2RelayStatus_eq_dec : EqDecision Ibcv2RelayStatus.
Proof. solve_decision. Defined.

(** The Go constants behind the constructors; also the labels of the Postgres
    enum. *)
Definition Ibcv2RelayStatus_string (s : Ibcv2RelayStatus) : string :=
  match s with
  | Ibcv2RelayStatusPENDING => "PENDING"
  | Ibcv2RelayStatusCHECKRECVPACKETDELIVERY => "CHECK_RECV_PACKET_DELIVERY"
  | Ibcv2RelayStatusGETRECVPACKET => "GET_RECV_PACKET"
  | Ibcv2RelayStatusDELIVERRECVPACKET => "DELIVER_RECV_PACKET"
  | Ibcv2RelayStatusWAITFORWRITEACK => "WAIT_FOR_WRITE_ACK"
  | Ibcv2RelayStatusCHECKACKPACKETDELIVERY => "CHECK_ACK_PACKET_DELIVERY"
  | Ibcv2RelayStatusGETACKPACKET => "GET_ACK_PACKET"
  | Ibcv2RelayStatusDELIVERACKPACKET => "DELIVER_ACK_PACKET"
  | Ibcv2RelayStatusCHECKTIMEOUTPACKETDELIVERY => "CHECK_TIMEOUT_PACKET_DELIVERY"
  | Ibcv2RelayStatusGETTIMEOUTPACKET => "GET_TIMEOUT_PACKET"
  | Ibcv2RelayStatusDELIVERTIMEOUTPACKET => "DELIVER_TIMEOUT_PACKET"
  | Ibcv2RelayStatusCOMPLETEWITHACK => "COMPLETE_WITH_ACK"
  | Ibcv2RelayStatusCOMPLETEWITHTIMEOUT => "COMPLETE_WITH_TIMEOUT"
  | Ibcv2RelayStatusFAILED => "FAILED"
  | Ibcv2RelayStatusAWAITINGSENDFINALITY => "AWAITING_SEND_FINALITY"
  | Ibcv2RelayStatusAWAITINGWRITEACKFINALITY => "AWAITING_WRITE_ACK_FINALITY"
  | Ibcv2RelayStatusCOMPLETEWITHWRITEACKSUCCESS => "COMPLETE_WITH_WRITE_ACK_SUCCESS"
  | Ibcv2RelayStatusAWAITINGTIMEOUTFINALITY => "AWAITING_TIMEOUT_FINALITY"
  | Ibcv2RelayStatusCOMPLETEWITHWRITEACKERROR => "COMPLETE_WITH_WRITE_ACK_ERROR"
  | Ibcv2RelayStatusCALCULATINGRECVTXGASCOST => "CALCULATING_RECV_TX_GAS_COST"
  | Ibcv2RelayStatusCALCULATINGACKTXGASCOST => "CALCULATING_ACK_TX_GAS_COST"
  | Ibcv2RelayStatusCALCULATINGTIMEOUTTXGASCOST => "CALCULATING_TIMEOUT_TX_GAS_COST"
  end.

Inductive Ibcv2WriteAckStatus :=
  | Ibcv2WriteAckStatusSUCCESS
  | Ibcv2WriteAckStatusERROR
  | Ibcv2WriteAckStatusUNKNOWN.

#[global] Instance Ibcv2WriteAckStatus_eq_dec : EqDecision Ibcv2WriteAckStatus.
Proof. solve_decision. Defined.

(** ** Rows *)

(** [pgtype.Numeric]: [Int] times 10 to the [Exp]; [Int] is a pointer, nil for
    NaN and the infinities. The Go zero value is [NULL]. *)
Record Numeric := mkNumeric { Int : option Z; Exp : Z; Valid : bool }.

Definition NumericNull : Numeric := mkNumeric None 0 false.

Record Ibcv2Transfer := mkIbcv2Transfer {
  ID : Z;
  CreatedAt : option Time;
  UpdatedAt : option Time;
  Status : Ibcv2RelayStatus;
  StatusText : option string;
  SourceChainID : string;
  DestinationChainID : string;
  SourceTxHash : string;
  SourceTxTime : option Time;
  PacketSequenceNumber : Z;
  PacketSourceClientID : string;
  PacketDestinationClientID : string;
  PacketTimeoutTimestamp : option Time;
  RecvTxHash : option string;
  RecvTxTime : option Time;
  WriteAckTxHash : option string;
  WriteAckTxTime : option Time;
  AckTxHash : option string;
  AckTxTime : option Time;
  TimeoutTxHash : option string;
  TimeoutTxTime : option Time;
  WriteAckStatus : option Ibcv2WriteAckStatus;
  RecvTxGasCostUsd : Numeric;
  AckTxGasCostUsd : Numeric;
  TimeoutTxGasCostUsd : Numeric;
  RecvTxRelayerAddress : option string;
  AckTxRelayerAddress : option string;
  TimeoutTxRelayerAddress : option string;
  SourceTxFinalizedTime : option Time;
  WriteAckTxFinalizedTime : option Time;
}.

Record Ibcv2RelaySubmission := mkIbcv2RelaySubmission {
  sub_ID : Z;
  sub_SourceChainID : string;
  sub_SourceTxHash : string;
  sub_CreatedAt : Time;
}.

(** The columns of the [WHERE] clauses. *)
Record packet_key := mkPacketKey {
  key_SourceChainID : string;
  key_PacketSourceClientID : string;
  key_PacketSequenceNumber : Z;
}.

#[global] Instance packet_key_eq_dec : EqDecision packet_key.
Proof. solve_decision. Defined.

(** The key of a params struct whose key fields are not set by the caller. *)
Definition zero_key : packet_key := mkPacketKey "" "" 0.

Definition row_key (r : Ibcv2Transfer) : packet_key :=
  mkPacketKey (SourceChainID r) (PacketSourceClientID r) (PacketSequenceNumber r).

(** Where the packet of a row is bound for. *)
Definition row_route (r : Ibcv2Transfer) : string * string :=
  (DestinationChainID r, PacketDestinationClientID r).

Definition submission_key (s : Ibcv2RelaySubmission) : string * string :=
  (sub_SourceChainID s, sub_SourceTxHash s).

Record Database := mkDatabase {
  ibcv2_transfers : list Ibcv2Transfer;
  ibcv2_transfers_id_seq : Z;
  ibcv2_relay_submissions : list Ibcv2RelaySubmission;
  ibcv2_relay_submissions_id_seq : Z;
}.

(** The row of a key, if the table has one. *)
Definition row (k : packet_key) (d : Database) : option Ibcv2Transfer :=
  lookup_by row_key k (ibcv2_transfers d).

(** The submission of a transaction, if the table has one. *)
Definition submission (sourceChainID sourceTxHash : string) (d : Database)
    : option Ibcv2RelaySubmission :=
  lookup_by submission_key (sourceChainID, sourceTxHash) (ibcv2_relay_submissions d).

(** *** Column assignments *)

Definition set_UpdatedAt (v : option Time) (r : Ibcv2Transfer) : Ibcv2Transfer :=
  mkIbcv2Transfer (ID r) (CreatedAt r) v (Status r) (StatusText r) (SourceChainID r)
    (DestinationChainID r) (SourceTxHash r) (SourceTxTime r) (PacketSequenceNumber r)
    (PacketSourceClientID r) (PacketDestinationClientID r) (PacketTimeoutTimestamp r)
    (RecvTxHash r) (RecvTxTime r) (WriteAckTxHash r) (WriteAckTxTime r) (AckTxHash r)
    (AckTxTime r) (TimeoutTxHash r) (TimeoutTxTime r) (WriteAckStatus r)
    (RecvTxGasCostUsd r) (AckTxGasCostUsd r) (TimeoutTxGasCostUsd r)
    (RecvTxRelayerAddress r) (AckTxRelayerAddress r) (TimeoutTxRelayerAddress r)
    (SourceTxFinalizedTime r) (WriteAckTxFinalizedTime r).

Definition set_Status (v : Ibcv2RelayStatus) (r : Ibcv2Transfer) : Ibcv2Transfer :=
  mkIbcv2Transfer (ID r) (CreatedAt r) (UpdatedAt r) v (StatusText r) (SourceChainID
    r) (DestinationChainID r) (SourceTxHash r) (SourceTxTime r) (PacketSequenceNumber
    r) (PacketSourceClientID r) (PacketDestinationClientID r) (PacketTimeoutTimestamp
    r) (RecvTxHash r) (RecvTxTime r) (WriteAckTxHash r) (WriteAckTxTime r) (AckTxHash
    r) (AckTxTime r) (TimeoutTxHash r) (TimeoutTxTime r) (WriteAckStatus r)
    (RecvTxGasCostUsd r) (AckTxGasCostUsd r) (TimeoutTxGasCostUsd r)
    (RecvTxRelayerAddress r) (AckTxRelayerAddress r) (TimeoutTxRelayerAddress r)
    (SourceTxFinalizedTime r) (WriteAckTxFinalizedTime r).

Definition set_RecvTxHash (v : option string) (r : Ibcv2Transfer) : Ibcv2Transfer :=
  mkIbcv2Transfer (ID r) (CreatedAt r) (UpdatedAt r) (Status r) (StatusText r)
    (SourceChainID r) (DestinationChainID r) (SourceTxHash r) (SourceTxTime r)
    (PacketSequenceNumber r) (PacketSourceClientID r) (PacketDestinationClientID r)
    (PacketTimeoutTimestamp r) v (RecvTxTime r) (WriteAckTxHash r) (WriteAckTxTime r)
    (AckTxHash r) (AckTxTime r) (TimeoutTxHash r) (TimeoutTxTime r) (WriteAckStatus r)
    (RecvTxGasCostUsd r) (AckTxGasCostUsd r) (TimeoutTxGasCostUsd r)
    (RecvTxRelayerAddress r) (AckTxRelayerAddress r) (TimeoutTxRelayerAddress r)
    (SourceTxFinalizedTime r) (WriteAckTxFinalizedTime r).

Definition set_RecvTxTime (v : option Time) (r : Ibcv2Transfer) : Ibcv2Transfer :=
  mkIbcv2Transfer (ID r) (CreatedAt r) (UpdatedAt r) (Status r) (StatusText r)
    (SourceChainID r) (DestinationChainID r) (SourceTxHash r) (SourceTxTime r)
    (PacketSequenceNumber r) (PacketSourceClientID r) (PacketDestinationClientID r)
    (PacketTimeoutTimestamp r) (RecvTxHash r) v (WriteAckTxHash r) (WriteAckTxTime r)
    (AckTxHash r) (AckTxTime r) (TimeoutTxHash r) (TimeoutTxTime r) (WriteAckStatus r)
    (RecvTxGasCostUsd r) (AckTxGasCostUsd r) (TimeoutTxGasCostUsd r)
    (RecvTxRelayerAddress r) (AckTxRelayerAddress r) (TimeoutTxRelayerAddress r)
    (SourceTxFinalizedTime r) (WriteAckTxFinalizedTime r).

Definition set_RecvTxRelayerAddress (v : option string) (r : Ibcv2Transfer) : Ibcv2Transfer :=
  mkIbcv2Transfer (ID r) (CreatedAt r) (UpdatedAt r) (Status r) (StatusText r)
    (SourceChainID r) (DestinationChainID r) (SourceTxHash r) (SourceTxTime r)
    (PacketSequenceNumber r) (PacketSourceClientID r) (PacketDestinationClientID r)
    (PacketTimeoutTimestamp r) (RecvTxHash r) (RecvTxTime r) (WriteAckTxHash r)
    (WriteAckTxTime r) (AckTxHash r) (AckTxTime r) (TimeoutTxHash r) (TimeoutTxTime r)
    (WriteAckStatus r) (RecvTxGasCostUsd r) (AckTxGasCostUsd r) (TimeoutTxGasCostUsd
    r) v (AckTxRelayerAddress r) (TimeoutTxRelayerAddress r) (SourceTxFinalizedTime r)
    (WriteAckTxFinalizedTime r).

Definition set_RecvTxGasCostUsd (v : Numeric) (r : Ibcv2Transfer) : Ibcv2Transfer :=
  mkIbcv2Transfer (ID r) (CreatedAt r) (UpdatedAt r) (Status r) (StatusText r)
    (SourceChainID r) (DestinationChainID r) (SourceTxHash r) (SourceTxTime r)
    (PacketSequenceNumber r) (PacketSourceClientID r) (PacketDestinationClientID r)
    (PacketTimeoutTimestamp r) (RecvTxHash r) (RecvTxTime r) (WriteAckTxHash r)
    (WriteAckTxTime r) (AckTxHash r) (AckTxTime r) (TimeoutTxHash r) (TimeoutTxTime r)
    (WriteAckStatus r) v (AckTxGasCostUsd r) (TimeoutTxGasCostUsd r)
    (RecvTxRelayerAddress r) (AckTxRelayerAddress r) (TimeoutTxRelayerAddress r)
    (SourceTxFinalizedTime r) (WriteAckTxFinalizedTime r).

Definition set_WriteAckTxHash (v : option string) (r : Ibcv2Transfer) : Ibcv2Transfer :=
  mkIbcv2Transfer (ID r) (CreatedAt r) (UpdatedAt r) (Status r) (StatusText r)
    (SourceChainID r) (DestinationChainID r) (SourceTxHash r) (SourceTxTime r)
    (PacketSequenceNumber r) (PacketSourceClientID r) (PacketDestinationClientID r)
    (PacketTimeoutTimestamp r) (RecvTxHash r) (RecvTxTime r) v (WriteAckTxTime r)
    (AckTxHash r) (AckTxTime r) (TimeoutTxHash r) (TimeoutTxTime r) (WriteAckStatus r)
    (RecvTxGasCostUsd r) (AckTxGasCostUsd r) (TimeoutTxGasCostUsd r)
    (RecvTxRelayerAddress r) (AckTxRelayerAddress r) (TimeoutTxRelayerAddress r)
    (SourceTxFinalizedTime r) (WriteAckTxFinalizedTime r).

Definition set_WriteAckTxTime (v : option Time) (r : Ibcv2Transfer) : Ibcv2Transfer :=
  mkIbcv2Transfer (ID r) (CreatedAt r) (UpdatedAt r) (Status r) (StatusText r)
    (SourceChainID r) (DestinationChainID r) (SourceTxHash r) (SourceTxTime r)
    (PacketSequenceNumber r) (PacketSourceClientID r) (PacketDestinationClientID r)
    (PacketTimeoutTimestamp r) (RecvTxHash r) (RecvTxTime r) (WriteAckTxHash r) v
    (AckTxHash r) (AckTxTime r) (TimeoutTxHash r) (TimeoutTxTime r) (WriteAckStatus r)
    (RecvTxGasCostUsd r) (AckTxGasCostUsd r) (TimeoutTxGasCostUsd r)
    (RecvTxRelayerAddress r) (AckTxRelayerAddress r) (TimeoutTxRelayerAddress r)
    (SourceTxFinalizedTime r) (WriteAckTxFinalizedTime r).

Definition set_WriteAckStatus (v : option Ibcv2WriteAckStatus) (r : Ibcv2Transfer) : Ibcv2Transfer :=
  mkIbcv2Transfer (ID r) (CreatedAt r) (UpdatedAt r) (Status r) (StatusText r)
    (SourceChainID r) (DestinationChainID r) (SourceTxHash r) (SourceTxTime r)
    (PacketSequenceNumber r) (PacketSourceClientID r) (PacketDestinationClientID r)
    (PacketTimeoutTimestamp r) (RecvTxHash r) (RecvTxTime r) (WriteAckTxHash r)
    (WriteAckTxTime r) (AckTxHash r) (AckTxTime r) (TimeoutTxHash r) (TimeoutTxTime r)
    v (RecvTxGasCostUsd r) (AckTxGasCostUsd r) (TimeoutTxGasCostUsd r)
    (RecvTxRelayerAddress r) (AckTxRelayerAddress r) (TimeoutTxRelayerAddress r)
    (SourceTxFinalizedTime r) (WriteAckTxFinalizedTime r).

Definition set_AckTxHash (v : option string) (r : Ibcv2Transfer) : Ibcv2Transfer :=
  mkIbcv2Transfer (ID r) (CreatedAt r) (UpdatedAt r) (Status r) (StatusText r)
    (SourceChainID r) (DestinationChainID r) (SourceTxHash r) (SourceTxTime r)
    (PacketSequenceNumber r) (PacketSourceClientID r) (PacketDestinationClientID r)
    (PacketTimeoutTimestamp r) (RecvTxHash r) (RecvTxTime r) (WriteAckTxHash r)
    (WriteAckTxTime r) v (AckTxTime r) (TimeoutTxHash r) (TimeoutTxTime r)
    (WriteAckStatus r) (RecvTxGasCostUsd r) (AckTxGasCostUsd r) (TimeoutTxGasCostUsd
    r) (RecvTxRelayerAddress r) (AckTxRelayerAddress r) (TimeoutTxRelayerAddress r)
    (SourceTxFinalizedTime r) (WriteAckTxFinalizedTime r).

Definition set_AckTxTime (v : option Time) (r : Ibcv2Transfer) : Ibcv2Transfer :=
  mkIbcv2Transfer (ID r) (CreatedAt r) (UpdatedAt r) (Status r) (StatusText r)
    (SourceChainID r) (DestinationChainID r) (SourceTxHash r) (SourceTxTime r)
    (PacketSequenceNumber r) (PacketSourceClientID r) (PacketDestinationClientID r)
    (PacketTimeoutTimestamp r) (RecvTxHash r) (RecvTxTime r) (WriteAckTxHash r)
    (WriteAckTxTime r) (AckTxHash r) v (TimeoutTxHash r) (TimeoutTxTime r)
    (WriteAckStatus r) (RecvTxGasCostUsd r) (AckTxGasCostUsd r) (TimeoutTxGasCostUsd
    r) (RecvTxRelayerAddress r) (AckTxRelayerAddress r) (TimeoutTxRelayerAddress r)
    (SourceTxFinalizedTime r) (WriteAckTxFinalizedTime r).

Definition set_AckTxRelayerAddress (v : option string) (r : Ibcv2Transfer) : Ibcv2Transfer :=
  mkIbcv2Transfer (ID r) (CreatedAt r) (UpdatedAt r) (Status r) (StatusText r)
    (SourceChainID r) (DestinationChainID r) (SourceTxHash r) (SourceTxTime r)
    (PacketSequenceNumber r) (PacketSourceClientID r) (PacketDestinationClientID r)
    (PacketTimeoutTimestamp r) (RecvTxHash r) (RecvTxTime r) (WriteAckTxHash r)
    (WriteAckTxTime r) (AckTxHash r) (AckTxTime r) (TimeoutTxHash r) (TimeoutTxTime r)
    (WriteAckStatus r) (RecvTxGasCostUsd r) (AckTxGasCostUsd r) (TimeoutTxGasCostUsd
    r) (RecvTxRelayerAddress r) v (TimeoutTxRelayerAddress r) (SourceTxFinalizedTime
    r) (WriteAckTxFinalizedTime r).

Definition set_AckTxGasCostUsd (v : Numeric) (r : Ibcv2Transfer) : Ibcv2Transfer :=
  mkIbcv2Transfer (ID r) (CreatedAt r) (UpdatedAt r) (Status r) (StatusText r)
    (SourceChainID r) (DestinationChainID r) (SourceTxHash r) (SourceTxTime r)
    (PacketSequenceNumber r) (PacketSourceClientID r) (PacketDestinationClientID r)
    (PacketTimeoutTimestamp r) (RecvTxHash r) (RecvTxTime r) (WriteAckTxHash r)
    (WriteAckTxTime r) (AckTxHash r) (AckTxTime r) (TimeoutTxHash r) (TimeoutTxTime r)
    (WriteAckStatus r) (RecvTxGasCostUsd r) v (TimeoutTxGasCostUsd r)
    (RecvTxRelayerAddress r) (AckTxRelayerAddress r) (TimeoutTxRelayerAddress r)
    (SourceTxFinalizedTime r) (WriteAckTxFinalizedTime r).

Definition set_TimeoutTxHash (v : option string) (r : Ibcv2Transfer) : Ibcv2Transfer :=
  mkIbcv2Transfer (ID r) (CreatedAt r) (UpdatedAt r) (Status r) (StatusText r)
    (SourceChainID r) (DestinationChainID r) (SourceTxHash r) (SourceTxTime r)
    (PacketSequenceNumber r) (PacketSourceClientID r) (PacketDestinationClientID r)
    (PacketTimeoutTimestamp r) (RecvTxHash r) (RecvTxTime r) (WriteAckTxHash r)
    (WriteAckTxTime r) (AckTxHash r) (AckTxTime r) v (TimeoutTxTime r) (WriteAckStatus
    r) (RecvTxGasCostUsd r) (AckTxGasCostUsd r) (TimeoutTxGasCostUsd r)
    (RecvTxRelayerAddress r) (AckTxRelayerAddress r) (TimeoutTxRelayerAddress r)
    (SourceTxFinalizedTime r) (WriteAckTxFinalizedTime r).

Definition set_TimeoutTxTime (v : option Time) (r : Ibcv2Transfer) : Ibcv2Transfer :=
  mkIbcv2Transfer (ID r) (CreatedAt r) (UpdatedAt r) (Status r) (StatusText r)
    (SourceChainID r) (DestinationChainID r) (SourceTxHash r) (SourceTxTime r)
    (PacketSequenceNumber r) (PacketSourceClientID r) (PacketDestinationClientID r)
    (PacketTimeoutTimestamp r) (RecvTxHash r) (RecvTxTime r) (WriteAckTxHash r)
    (WriteAckTxTime r) (AckTxHash r) (AckTxTime r) (TimeoutTxHash r) v (WriteAckStatus
    r) (RecvTxGasCostUsd r) (AckTxGasCostUsd r) (TimeoutTxGasCostUsd r)
    (RecvTxRelayerAddress r) (AckTxRelayerAddress r) (TimeoutTxRelayerAddress r)
    (SourceTxFinalizedTime r) (WriteAckTxFinalizedTime r).

Definition set_TimeoutTxRelayerAddress (v : option string) (r : Ibcv2Transfer) : Ibcv2Transfer :=
  mkIbcv2Transfer (ID r) (CreatedAt r) (UpdatedAt r) (Status r) (StatusText r)
    (SourceChainID r) (DestinationChainID r) (SourceTxHash r) (SourceTxTime r)
    (PacketSequenceNumber r) (PacketSourceClientID r) (PacketDestinationClientID r)
    (PacketTimeoutTimestamp r) (RecvTxHash r) (RecvTxTime r) (WriteAckTxHash r)
    (WriteAckTxTime r) (AckTxHash r) (AckTxTime r) (TimeoutTxHash r) (TimeoutTxTime r)
    (WriteAckStatus r) (RecvTxGasCostUsd r) (AckTxGasCostUsd r) (TimeoutTxGasCostUsd
    r) (RecvTxRelayerAddress r) (AckTxRelayerAddress r) v (SourceTxFinalizedTime r)
    (WriteAckTxFinalizedTime r).

Definition set_TimeoutTxGasCostUsd (v : Numeric) (r : Ibcv2Transfer) : Ibcv2Transfer :=
  mkIbcv2Transfer (ID r) (CreatedAt r) (UpdatedAt r) (Status r) (StatusText r)
    (SourceChainID r) (DestinationChainID r) (SourceTxHash r) (SourceTxTime r)
    (PacketSequenceNumber r) (PacketSourceClientID r) (PacketDestinationClientID r)
    (PacketTimeoutTimestamp r) (RecvTxHash r) (RecvTxTime r) (WriteAckTxHash r)
    (WriteAckTxTime r) (AckTxHash r) (AckTxTime r) (TimeoutTxHash r) (TimeoutTxTime r)
    (WriteAckStatus r) (RecvTxGasCostUsd r) (AckTxGasCostUsd r) v
    (RecvTxRelayerAddress r) (AckTxRelayerAddress r) (TimeoutTxRelayerAddress r)
    (SourceTxFinalizedTime r) (WriteAckTxFinalizedTime r).

Definition set_SourceTxFinalizedTime (v : option Time) (r : Ibcv2Transfer) : Ibcv2Transfer :=
  mkIbcv2Transfer (ID r) (CreatedAt r) (UpdatedAt r) (Status r) (StatusText r)
    (SourceChainID r) (DestinationChainID r) (SourceTxHash r) (SourceTxTime r)
    (PacketSequenceNumber r) (PacketSourceClientID r) (PacketDestinationClientID r)
    (PacketTimeoutTimestamp r) (RecvTxHash r) (RecvTxTime r) (WriteAckTxHash r)
    (WriteAckTxTime r) (AckTxHash r) (AckTxTime r) (TimeoutTxHash r) (TimeoutTxTime r)
    (WriteAckStatus r) (RecvTxGasCostUsd r) (AckTxGasCostUsd r) (TimeoutTxGasCostUsd
    r) (RecvTxRelayerAddress r) (AckTxRelayerAddress r) (TimeoutTxRelayerAddress r) v
    (WriteAckTxFinalizedTime r).

Definition set_WriteAckTxFinalizedTime (v : option Time) (r : Ibcv2Transfer) : Ibcv2Transfer :=
  mkIbcv2Transfer (ID r) (CreatedAt r) (UpdatedAt r) (Status r) (StatusText r)
    (SourceChainID r) (DestinationChainID r) (SourceTxHash r) (SourceTxTime r)
    (PacketSequenceNumber r) (PacketSourceClientID r) (PacketDestinationClientID r)
    (PacketTimeoutTimestamp r) (RecvTxHash r) (RecvTxTime r) (WriteAckTxHash r)
    (WriteAckTxTime r) (AckTxHash r) (AckTxTime r) (TimeoutTxHash r) (TimeoutTxTime r)
    (WriteAckStatus r) (RecvTxGasCostUsd r) (AckTxGasCostUsd r) (TimeoutTxGasCostUsd
    r) (RecvTxRelayerAddress r) (AckTxRelayerAddress r) (TimeoutTxRelayerAddress r)
    (SourceTxFinalizedTime r) v.

(** [UPDATE ibcv2_transfers SET ... WHERE] the three key columns equal [k]. *)
Definition update_transfers (k : packet_key) (f : Ibcv2Transfer → Ibcv2Transfer)
    (d : Database) : Database :=
  mkDatabase (update_by row_key k f (ibcv2_transfers d)) (ibcv2_transfers_id_seq d)
    (ibcv2_relay_submissions d) (ibcv2_relay_submissions_id_seq d).

(** ** Queries

    [now] is the database's [NOW()]. *)

Definition ClearAckTx (k : packet_key) (now : Time) (d : Database) : Database :=
  update_transfers k (λ r, set_AckTxTime None (set_AckTxHash None r)) d.

Definition ClearRecvTx (k : packet_key) (now : Time) (d : Database) : Database :=
  update_transfers k (λ r, set_RecvTxTime None (set_RecvTxHash None r)) d.

Definition ClearTimeoutTx (k : packet_key) (now : Time) (d : Database) : Database :=
  update_transfers k (λ r, set_TimeoutTxTime None (set_TimeoutTxHash None r)) d.

(** [:one]: [pgx.ErrNoRows] when nothing matches. *)
Definition GetRelaySubmission (sourceChainID sourceTxHash : string) (now : Time)
    (d : Database) : outcome Ibcv2RelaySubmission * Database :=
  match submission sourceChainID sourceTxHash d with
  | Some s => (Ret s, d)
  | None => (Fail (Sentinel ErrNoRows), d)
  end.

Definition GetTransfersBySourceTx (sourceChainID sourceTxHash : string) (now : Time)
    (d : Database) : outcome (list Ibcv2Transfer) * Database :=
  (Ret (filter (λ r, SourceChainID r = sourceChainID ∧ SourceTxHash r = sourceTxHash)
          (ibcv2_transfers d)), d).

(** The [WHERE] clause of [getUnfinishedIBCV2Transfers]. *)
Definition unfinished (s : Ibcv2RelayStatus) : bool :=
  negb (bool_decide (s = Ibcv2RelayStatusCOMPLETEWITHACK)) &&
  negb (bool_decide (s = Ibcv2RelayStatusCOMPLETEWITHTIMEOUT)) &&
  negb (bool_decide (s = Ibcv2RelayStatusFAILED)) &&
  negb (bool_decide (s = Ibcv2RelayStatusCOMPLETEWITHWRITEACKSUCCESS)) &&
  negb (bool_decide (s = Ibcv2RelayStatusCOMPLETEWITHWRITEACKERROR)).

Definition GetUnfinishedIBCV2Transfers (now : Time) (d : Database)
    : outcome (list Ibcv2Transfer) * Database :=
  (Ret (filter (λ r, unfinished (Status r) = true) (ibcv2_transfers d)), d).

Record InsertIBCV2TransferParams := mkInsertIBCV2TransferParams {
  ins_SourceChainID : string;
  ins_DestinationChainID : string;
  ins_SourceTxHash : string;
  ins_SourceTxTime : option Time;
  ins_PacketSequenceNumber : Z;
  ins_PacketSourceClientID : string;
  ins_PacketDestinationClientID : string;
  ins_PacketTimeoutTimestamp : option Time;
}.

(** The new row: the eight inserted columns, the column defaults of the
    migrations ([serial] id, [CURRENT_TIMESTAMP], ['PENDING']), [NULL] for the
    rest. *)
Definition new_row (id : Z) (now : Time) (arg : InsertIBCV2TransferParams) : Ibcv2Transfer :=
  mkIbcv2Transfer id (Some now) (Some now) Ibcv2RelayStatusPENDING None
    (ins_SourceChainID arg) (ins_DestinationChainID arg) (ins_SourceTxHash arg)
    (ins_SourceTxTime arg) (ins_PacketSequenceNumber arg) (ins_PacketSourceClientID arg)
    (ins_PacketDestinationClientID arg) (ins_PacketTimeoutTimestamp arg)
    None None None None None None None None None
    NumericNull NumericNull NumericNull None None None None None.

Definition insert_key (arg : InsertIBCV2TransferParams) : packet_key :=
  mkPacketKey (ins_SourceChainID arg) (ins_PacketSourceClientID arg)
    (ins_PacketSequenceNumber arg).

(** SQLSTATE 23505, unique_violation. *)
Definition unique_violation : error := PgError "23505".

(** A row whose key is taken violates the unique index; the sequence value is
    consumed all the same. *)
Definition InsertIBCV2Transfer (arg : InsertIBCV2TransferParams) (now : Time)
    (d : Database) : outcome unit * Database :=
  let seq' := ibcv2_transfers_id_seq d + 1 in
  match row (insert_key arg) d with
  | Some _ =>
      (Fail unique_violation,
       mkDatabase (ibcv2_transfers d) seq' (ibcv2_relay_submissions d)
         (ibcv2_relay_submissions_id_seq d))
  | None =>
      (Ret tt,
       mkDatabase (ibcv2_transfers d ++ [new_row (ibcv2_transfers_id_seq d) now arg]) seq'
         (ibcv2_relay_submissions d) (ibcv2_relay_submissions_id_seq d))
  end.

(** [ON CONFLICT (source_chain_id, source_tx_hash) DO NOTHING]. *)
Definition InsertRelaySubmission (sourceChainID sourceTxHash : string) (now : Time)
    (d : Database) : outcome unit * Database :=
  let id := ibcv2_relay_submissions_id_seq d in
  match submission sourceChainID sourceTxHash d with
  | Some _ =>
      (Ret tt, mkDatabase (ibcv2_transfers d) (ibcv2_transfers_id_seq d)
                 (ibcv2_relay_submissions d) (id + 1))
  | None =>
      (Ret tt, mkDatabase (ibcv2_transfers d) (ibcv2_transfers_id_seq d)
                 (ibcv2_relay_submissions d ++
                  [mkIbcv2RelaySubmission id sourceChainID sourceTxHash now]) (id + 1))
  end.

Definition UpdateTransferAckTx (hash : option string) (time : option Time)
    (relayer : option string) (k : packet_key) (now : Time) (d : Database) : Database :=
  update_transfers k
    (λ r, set_AckTxRelayerAddress relayer (set_AckTxTime time (set_AckTxHash hash
            (set_UpdatedAt (Some now) r)))) d.

Definition UpdateTransferAckTxGasCostUSD (cost : Numeric) (k : packet_key) (now : Time)
    (d : Database) : Database :=
  update_transfers k (λ r, set_AckTxGasCostUsd cost (set_UpdatedAt (Some now) r)) d.

Definition UpdateTransferRecvTx (hash : option string) (time : option Time)
    (relayer : option string) (k : packet_key) (now : Time) (d : Database) : Database :=
  update_transfers k
    (λ r, set_RecvTxRelayerAddress relayer (set_RecvTxTime time (set_RecvTxHash hash
            (set_UpdatedAt (Some now) r)))) d.

Definition UpdateTransferRecvTxGasCostUSD (cost : Numeric) (k : packet_key) (now : Time)
    (d : Database) : Database :=
  update_transfers k (λ r, set_RecvTxGasCostUsd cost (set_UpdatedAt (Some now) r)) d.

Definition UpdateTransferSourceTxFinalizedTime (time : option Time) (k : packet_key)
    (now : Time) (d : Database) : Database :=
  update_transfers k (λ r, set_SourceTxFinalizedTime time (set_UpdatedAt (Some now) r)) d.

Definition UpdateTransferState (status : Ibcv2RelayStatus) (k : packet_key) (now : Time)
    (d : Database) : Database :=
  update_transfers k (λ r, set_Status status (set_UpdatedAt (Some now) r)) d.

Definition UpdateTransferTimeoutTx (hash : option string) (time : option Time)
    (relayer : option string) (k : packet_key) (now : Time) (d : Database) : Database :=
  update_transfers k
    (λ r, set_TimeoutTxRelayerAddress relayer (set_TimeoutTxTime time (set_TimeoutTxHash hash
            (set_UpdatedAt (Some now) r)))) d.

Definition UpdateTransferTimeoutTxGasCostUSD (cost : Numeric) (k : packet_key) (now : Time)
    (d : Database) : Database :=
  update_transfers k (λ r, set_TimeoutTxGasCostUsd cost (set_UpdatedAt (Some now) r)) d.

Definition UpdateTransferWriteAckTx (hash : option string) (time : option Time)
    (status : option Ibcv2WriteAckStatus) (k : packet_key) (now : Time) (d : Database)
    : Database :=
  update_transfers k
    (λ r, set_WriteAckStatus status (set_WriteAckTxTime time (set_WriteAckTxHash hash
            (set_UpdatedAt (Some now) r)))) d.

Definition UpdateTransferWriteAckTxFinalizedTime (time : option Time) (k : packet_key)
    (now : Time) (d : Database) : Database :=
  update_transfers k (λ r, set_WriteAckTxFinalizedTime time (set_UpdatedAt (Some now) r)) d.

(** ** The schema invariant *)

(** What the two unique constraints guarantee. *)
Definition index_ok (d : Database) : Prop :=
  NoDup (map row_key (ibcv2_transfers d)) ∧
  NoDup (map submission_key (ibcv2_relay_submissions d)).

(** A column assignment that leaves the key columns alone. *)
Definition keeps_key (f : Ibcv2Transfer → Ibcv2Transfer) : Prop :=
  ∀ r, row_key (f r) = row_key r.

(** A statement of the form [UPDATE ... SET f WHERE key = k]. *)
Record is_row_update (k : packet_key) (q : Database → Database)
    (f : Ibcv2Transfer → Ibcv2Transfer) : Prop := {
  row_update_eq : ∀ d, q d = update_transfers k f d;
  row_update_key : keeps_key f;
  row_update_route : ∀ r, row_route (f r) = row_route r;
}.

Create HintDb dbquery.

Lemma ClearAckTx_row_update k now :
  is_row_update k (ClearAckTx k now) (λ r, set_AckTxTime None (set_AckTxHash None r)).
Proof. by split. Qed.

Lemma ClearRecvTx_row_update k now :
  is_row_update k (ClearRecvTx k now) (λ r, set_RecvTxTime None (set_RecvTxHash None r)).
Proof. by split. Qed.

Lemma ClearTimeoutTx_row_update k now :
  is_row_update k (ClearTimeoutTx k now) (λ r, set_TimeoutTxTime None (set_TimeoutTxHash None r)).
Proof. by split. Qed.

Lemma UpdateTransferAckTx_row_update h t a k now :
  is_row_update k (UpdateTransferAckTx h t a k now)
    (λ r, set_AckTxRelayerAddress a (set_AckTxTime t (set_AckTxHash h
            (set_UpdatedAt (Some now) r)))).
Proof. by split. Qed.

Lemma UpdateTransferAckTxGasCostUSD_row_update c k now :
  is_row_update k (UpdateTransferAckTxGasCostUSD c k now)
    (λ r, set_AckTxGasCostUsd c (set_UpdatedAt (Some now) r)).
Proof. by split. Qed.

Lemma UpdateTransferRecvTx_row_update h t a k now :
  is_row_update k (UpdateTransferRecvTx h t a k now)
    (λ r, set_RecvTxRelayerAddress a (set_RecvTxTime t (set_RecvTxHash h
            (set_UpdatedAt (Some now) r)))).
Proof. by split. Qed.

Lemma UpdateTransferRecvTxGasCostUSD_row_update c k now :
  is_row_update k (UpdateTransferRecvTxGasCostUSD c k now)
    (λ r, set_RecvTxGasCostUsd c (set_UpdatedAt (Some now) r)).
Proof. by split. Qed.

Lemma UpdateTransferSourceTxFinalizedTime_row_update t k now :
  is_row_update k (UpdateTransferSourceTxFinalizedTime t k now)
    (λ r, set_SourceTxFinalizedTime t (set_UpdatedAt (Some now) r)).
Proof. by split. Qed.

Lemma UpdateTransferState_row_update s k now :
  is_row_update k (UpdateTransferState s k now)
    (λ r, set_Status s (set_UpdatedAt (Some now) r)).
Proof. by split. Qed.

Lemma UpdateTransferTimeoutTx_row_update h t a k now :
  is_row_update k (UpdateTransferTimeoutTx h t a k now)
    (λ r, set_TimeoutTxRelayerAddress a (set_TimeoutTxTime t (set_TimeoutTxHash h
            (set_UpdatedAt (Some now) r)))).
Proof. by split. Qed.

Lemma UpdateTransferTimeoutTxGasCostUSD_row_update c k now :
  is_row_update k (UpdateTransferTimeoutTxGasCostUSD c k now)
    (λ r, set_TimeoutTxGasCostUsd c (set_UpdatedAt (Some now) r)).
Proof. by split. Qed.

Lemma UpdateTransferWriteAckTx_row_update h t s k now :
  is_row_update k (UpdateTransferWriteAckTx h t s k now)
    (λ r, set_WriteAckStatus s (set_WriteAckTxTime t (set_WriteAckTxHash h
            (set_UpdatedAt (Some now) r)))).
Proof. by split. Qed.

Lemma UpdateTransferWriteAckTxFinalizedTime_row_update t k now :
  is_row_update k (UpdateTransferWriteAckTxFinalizedTime t k now)
    (λ r, set_WriteAckTxFinalizedTime t (set_UpdatedAt (Some now) r)).
Proof. by split. Qed.

#[export] Hint Resolve ClearAckTx_row_update ClearRecvTx_row_update ClearTimeoutTx_row_update
  UpdateTransferAckTx_row_update UpdateTransferAckTxGasCostUSD_row_update
  UpdateTransferRecvTx_row_update UpdateTransferRecvTxGasCostUSD_row_update
  UpdateTransferSourceTxFinalizedTime_row_update UpdateTransferState_row_update
  UpdateTransferTimeoutTx_row_update UpdateTransferTimeoutTxGasCostUSD_row_update
  UpdateTransferWriteAckTx_row_update UpdateTransferWriteAckTxFinalizedTime_row_update
  : dbquery.

Section row_update.
Context {k : packet_key} {q : Database → Database} {f : Ibcv2Transfer → Ibcv2Transfer}.
Context (Hq : is_row_update k q f).

(** The statement reads and writes one row. *)
Lemma row_update_row_eq d : row k (q d) = f <$> row k d.
Proof.
  rewrite (row_update_eq _ _ _ Hq). apply lookup_by_update_eq, (row_update_key _ _ _ Hq).
Qed.

Lemma row_update_row_ne k' d : k ≠ k' → row k' (q d) = row k' d.
Proof.
  rewrite (row_update_eq _ _ _ Hq). apply lookup_by_update_ne, (row_update_key _ _ _ Hq).
Qed.

Lemma row_update_keys d : map row_key (ibcv2_transfers (q d)) = map row_key (ibcv2_transfers d).
Proof. rewrite (row_update_eq _ _ _ Hq). apply update_by_keys, (row_update_key _ _ _ Hq). Qed.

Lemma row_update_submissions d :
  ibcv2_relay_submissions (q d) = ibcv2_relay_submissions d.
Proof. by rewrite (row_update_eq _ _ _ Hq). Qed.

Lemma row_update_index_ok d : index_ok d → index_ok (q d).
Proof. intros [H1 H2]. split; [by rewrite row_update_keys|by rewrite row_update_submissions]. Qed.

Lemma row_update_routes k' d : row_route <$> row k' (q d) = row_route <$> row k' d.
Proof.
  destruct (decide (k = k')) as [<-|Hne]; [|by rewrite row_update_row_ne].
  rewrite row_update_row_eq. destruct (row k d); simpl; [|done].
  by rewrite (row_update_route _ _ _ Hq).
Qed.

Lemma row_update_absent d : row k d = None → q d = d.
Proof.
  intros Hr. rewrite (row_update_eq _ _ _ Hq). unfold update_transfers.
  rewrite update_by_absent; [by destruct d|]. by apply lookup_by_None.
Qed.
End row_update.

Lemma row_elem k d r : row k d = Some r → r ∈ ibcv2_transfers d ∧ row_key r = k.
Proof. split; [by eapply lookup_by_elem|by eapply lookup_by_key]. Qed.

Lemma row_unique d r : index_ok d → r ∈ ibcv2_transfers d → row (row_key r) d = Some r.
Proof. intros [Hnd _] Hin. by apply lookup_by_NoDup. Qed.

Lemma InsertIBCV2Transfer_index_ok arg now d :
  index_ok d → index_ok (InsertIBCV2Transfer arg now d).2.
Proof.
  intros [H1 H2]. unfold InsertIBCV2Transfer. destruct (row _ _) eqn:E; simpl; [done|].
  split; simpl; [|done]. rewrite map_app. apply NoDup_app. split; [done|].
  split; [|apply NoDup_singleton].
  intros x Hx Hx'%list_elem_of_singleton. subst x.
  by apply lookup_by_None in E.
Qed.

Lemma InsertRelaySubmission_index_ok c h now d :
  index_ok d → index_ok (InsertRelaySubmission c h now d).2.
Proof.
  intros [H1 H2]. unfold InsertRelaySubmission. destruct (submission _ _ _) eqn:E; simpl; [done|].
  split; simpl; [done|]. rewrite map_app. apply NoDup_app. split; [done|].
  split; [|apply NoDup_singleton].
  intros x Hx Hx'%list_elem_of_singleton. subst x.
  by apply lookup_by_None in E.
Qed.

(** The rows after an insert. *)
Lemma InsertIBCV2Transfer_row arg now d k :
  row k (InsertIBCV2Transfer arg now d).2 =
    match row k d with
    | Some r => Some r
    | None =>
        if decide (insert_key arg = k)
        then Some (new_row (ibcv2_transfers_id_seq d) now arg) else None
    end.
Proof.
  unfold InsertIBCV2Transfer. destruct (row (insert_key arg) d) as [r0|] eqn:Ha; simpl.
  - change (row k _) with (row k d). destruct (row k d) eqn:Hk; [done|].
    case_decide; [congruence|done].
  - unfold row; simpl. by rewrite lookup_by_snoc.
Qed.

(** An insert leaves the rows that are there alone. *)
Lemma InsertIBCV2Transfer_row_other arg now d k r :
  row k d = Some r → row k (InsertIBCV2Transfer arg now d).2 = Some r.
Proof. rewrite InsertIBCV2Transfer_row. by intros ->. Qed.

Lemma unfinished_spec s :
  unfinished s = false ↔
  s ∈ [Ibcv2RelayStatusCOMPLETEWITHACK; Ibcv2RelayStatusCOMPLETEWITHTIMEOUT;
       Ibcv2RelayStatusFAILED; Ibcv2RelayStatusCOMPLETEWITHWRITEACKSUCCESS;
       Ibcv2RelayStatusCOMPLETEWITHWRITEACKERROR].
Proof.
  rewrite <- (bool_decide_spec (s ∈ _)). by destruct s; vm_compute.
Qed.

End db.
