(* ===== verification/Transfer.v ===== *)
(** * The in-memory transfer

    Models [relayer/ibcv2/ibcv2_transfer.go]: the record [IBCV2Transfer] with
    its getters, [NewIBCV2Transfer], which reads a database row, and the
    completion test.

    A pointer field is an [option], nil being [None]; the pointers are never
    shared for writing. A getter that returns (value, bool) is an [option] too.
    The [Logger] field is left out: what is logged is part of the effects in
    [World.v]. *)
From stdpp Require Import prelude strings list gmap.
From Stdlib Require Import ZArith.
From S2P Require Import Prelude Go Db.
Open Scope Z_scope.

Record IBCV2Transfer := mkIBCV2Transfer {
  State : db.Ibcv2RelayStatus;
  SourceChainID : string;
  DestinationChainID : string;
  SourceTxHash : string;
  SourceTxTime : Time;
  SourceTxFinalizedTime : option Time;
  PacketSequenceNumber : Z;
  PacketSourceClientID : string;
  PacketDestinationClientID : string;
  PacketTimeoutTimestamp : Time;
  RecvTxBytes : option (list Z);
  RecvTxToAddress : option string;
  RecvTxHash : option string;
  RecvTxTime : option Time;
  RecvTxRelayerAddress : option string;
  RecvTxGasCostUSD : option Z;
  WriteAckTxHash : option string;
  WriteAckTxTime : option Time;
  WriteAckStatus : option db.Ibcv2WriteAckStatus;
  WriteAckTxFinalizedTime : option Time;
  AckTxBytes : option (list Z);
  AckTxToAddress : option string;
  AckTxHash : option string;
  AckTxTime : option Time;
  AckTxRelayerAddress : option string;
  AckTxGasCostUSD : option Z;
  TimeoutTxBytes : option (list Z);
  TimeoutTxHash : option string;
  TimeoutTxTime : option Time;
  TimeoutTxRelayerAddress : option string;
  TimeoutTxGasCostUSD : option Z;
  ProcessingError : option error;
}.

(** ** Field assignments *)

Definition with_State (v : db.Ibcv2RelayStatus) (e : IBCV2Transfer) : IBCV2Transfer :=
  mkIBCV2Transfer v (SourceChainID e) (DestinationChainID e) (SourceTxHash e)
    (SourceTxTime e) (SourceTxFinalizedTime e) (PacketSequenceNumber e)
    (PacketSourceClientID e) (PacketDestinationClientID e) (PacketTimeoutTimestamp e)
    (RecvTxBytes e) (RecvTxToAddress e) (RecvTxHash e) (RecvTxTime e)
    (RecvTxRelayerAddress e) (RecvTxGasCostUSD e) (WriteAckTxHash e) (WriteAckTxTime e)
    (WriteAckStatus e) (WriteAckTxFinalizedTime e) (AckTxBytes e) (AckTxToAddress e)
    (AckTxHash e) (AckTxTime e) (AckTxRelayerAddress e) (AckTxGasCostUSD e)
    (TimeoutTxBytes e) (TimeoutTxHash e) (TimeoutTxTime e) (TimeoutTxRelayerAddress e)
    (TimeoutTxGasCostUSD e) (ProcessingError e).

Definition with_SourceTxFinalizedTime (v : option Time) (e : IBCV2Transfer) : IBCV2Transfer :=
  mkIBCV2Transfer (State e) (SourceChainID e) (DestinationChainID e) (SourceTxHash e)
    (SourceTxTime e) v (PacketSequenceNumber e) (PacketSourceClientID e)
    (PacketDestinationClientID e) (PacketTimeoutTimestamp e) (RecvTxBytes e)
    (RecvTxToAddress e) (RecvTxHash e) (RecvTxTime e) (RecvTxRelayerAddress e)
    (RecvTxGasCostUSD e) (WriteAckTxHash e) (WriteAckTxTime e) (WriteAckStatus e)
    (WriteAckTxFinalizedTime e) (AckTxBytes e) (AckTxToAddress e) (AckTxHash e)
    (AckTxTime e) (AckTxRelayerAddress e) (AckTxGasCostUSD e) (TimeoutTxBytes e)
    (TimeoutTxHash e) (TimeoutTxTime e) (TimeoutTxRelayerAddress e)
    (TimeoutTxGasCostUSD e) (ProcessingError e).

Definition with_RecvTxHash (v : option string) (e : IBCV2Transfer) : IBCV2Transfer :=
  mkIBCV2Transfer (State e) (SourceChainID e) (DestinationChainID e) (SourceTxHash e)
    (SourceTxTime e) (SourceTxFinalizedTime e) (PacketSequenceNumber e)
    (PacketSourceClientID e) (PacketDestinationClientID e) (PacketTimeoutTimestamp e)
    (RecvTxBytes e) (RecvTxToAddress e) v (RecvTxTime e) (RecvTxRelayerAddress e)
    (RecvTxGasCostUSD e) (WriteAckTxHash e) (WriteAckTxTime e) (WriteAckStatus e)
    (WriteAckTxFinalizedTime e) (AckTxBytes e) (AckTxToAddress e) (AckTxHash e)
    (AckTxTime e) (AckTxRelayerAddress e) (AckTxGasCostUSD e) (TimeoutTxBytes e)
    (TimeoutTxHash e) (TimeoutTxTime e) (TimeoutTxRelayerAddress e)
    (TimeoutTxGasCostUSD e) (ProcessingError e).

Definition with_RecvTxTime (v : option Time) (e : IBCV2Transfer) : IBCV2Transfer :=
  mkIBCV2Transfer (State e) (SourceChainID e) (DestinationChainID e) (SourceTxHash e)
    (SourceTxTime e) (SourceTxFinalizedTime e) (PacketSequenceNumber e)
    (PacketSourceClientID e) (PacketDestinationClientID e) (PacketTimeoutTimestamp e)
    (RecvTxBytes e) (RecvTxToAddress e) (RecvTxHash e) v (RecvTxRelayerAddress e)
    (RecvTxGasCostUSD e) (WriteAckTxHash e) (WriteAckTxTime e) (WriteAckStatus e)
    (WriteAckTxFinalizedTime e) (AckTxBytes e) (AckTxToAddress e) (AckTxHash e)
    (AckTxTime e) (AckTxRelayerAddress e) (AckTxGasCostUSD e) (TimeoutTxBytes e)
    (TimeoutTxHash e) (TimeoutTxTime e) (TimeoutTxRelayerAddress e)
    (TimeoutTxGasCostUSD e) (ProcessingError e).

Definition with_RecvTxRelayerAddress (v : option string) (e : IBCV2Transfer) : IBCV2Transfer :=
  mkIBCV2Transfer (State e) (SourceChainID e) (DestinationChainID e) (SourceTxHash e)
    (SourceTxTime e) (SourceTxFinalizedTime e) (PacketSequenceNumber e)
    (PacketSourceClientID e) (PacketDestinationClientID e) (PacketTimeoutTimestamp e)
    (RecvTxBytes e) (RecvTxToAddress e) (RecvTxHash e) (RecvTxTime e) v
    (RecvTxGasCostUSD e) (WriteAckTxHash e) (WriteAckTxTime e) (WriteAckStatus e)
    (WriteAckTxFinalizedTime e) (AckTxBytes e) (AckTxToAddress e) (AckTxHash e)
    (AckTxTime e) (AckTxRelayerAddress e) (AckTxGasCostUSD e) (TimeoutTxBytes e)
    (TimeoutTxHash e) (TimeoutTxTime e) (TimeoutTxRelayerAddress e)
    (TimeoutTxGasCostUSD e) (ProcessingError e).

Definition with_WriteAckTxHash (v : option string) (e : IBCV2Transfer) : IBCV2Transfer :=
  mkIBCV2Transfer (State e) (SourceChainID e) (DestinationChainID e) (SourceTxHash e)
    (SourceTxTime e) (SourceTxFinalizedTime e) (PacketSequenceNumber e)
    (PacketSourceClientID e) (PacketDestinationClientID e) (PacketTimeoutTimestamp e)
    (RecvTxBytes e) (RecvTxToAddress e) (RecvTxHash e) (RecvTxTime e)
    (RecvTxRelayerAddress e) (RecvTxGasCostUSD e) v (WriteAckTxTime e)
    (WriteAckStatus e) (WriteAckTxFinalizedTime e) (AckTxBytes e) (AckTxToAddress e)
    (AckTxHash e) (AckTxTime e) (AckTxRelayerAddress e) (AckTxGasCostUSD e)
    (TimeoutTxBytes e) (TimeoutTxHash e) (TimeoutTxTime e) (TimeoutTxRelayerAddress e)
    (TimeoutTxGasCostUSD e) (ProcessingError e).

Definition with_WriteAckTxTime (v : option Time) (e : IBCV2Transfer) : IBCV2Transfer :=
  mkIBCV2Transfer (State e) (SourceChainID e) (DestinationChainID e) (SourceTxHash e)
    (SourceTxTime e) (SourceTxFinalizedTime e) (PacketSequenceNumber e)
    (PacketSourceClientID e) (PacketDestinationClientID e) (PacketTimeoutTimestamp e)
    (RecvTxBytes e) (RecvTxToAddress e) (RecvTxHash e) (RecvTxTime e)
    (RecvTxRelayerAddress e) (RecvTxGasCostUSD e) (WriteAckTxHash e) v
    (WriteAckStatus e) (WriteAckTxFinalizedTime e) (AckTxBytes e) (AckTxToAddress e)
    (AckTxHash e) (AckTxTime e) (AckTxRelayerAddress e) (AckTxGasCostUSD e)
    (TimeoutTxBytes e) (TimeoutTxHash e) (TimeoutTxTime e) (TimeoutTxRelayerAddress e)
    (TimeoutTxGasCostUSD e) (ProcessingError e).

Definition with_WriteAckStatus (v : option db.Ibcv2WriteAckStatus) (e : IBCV2Transfer) : IBCV2Transfer :=
  mkIBCV2Transfer (State e) (SourceChainID e) (DestinationChainID e) (SourceTxHash e)
    (SourceTxTime e) (SourceTxFinalizedTime e) (PacketSequenceNumber e)
    (PacketSourceClientID e) (PacketDestinationClientID e) (PacketTimeoutTimestamp e)
    (RecvTxBytes e) (RecvTxToAddress e) (RecvTxHash e) (RecvTxTime e)
    (RecvTxRelayerAddress e) (RecvTxGasCostUSD e) (WriteAckTxHash e) (WriteAckTxTime e)
    v (WriteAckTxFinalizedTime e) (AckTxBytes e) (AckTxToAddress e) (AckTxHash e)
    (AckTxTime e) (AckTxRelayerAddress e) (AckTxGasCostUSD e) (TimeoutTxBytes e)
    (TimeoutTxHash e) (TimeoutTxTime e) (TimeoutTxRelayerAddress e)
    (TimeoutTxGasCostUSD e) (ProcessingError e).

Definition with_WriteAckTxFinalizedTime (v : option Time) (e : IBCV2Transfer) : IBCV2Transfer :=
  mkIBCV2Transfer (State e) (SourceChainID e) (DestinationChainID e) (SourceTxHash e)
    (SourceTxTime e) (SourceTxFinalizedTime e) (PacketSequenceNumber e)
    (PacketSourceClientID e) (PacketDestinationClientID e) (PacketTimeoutTimestamp e)
    (RecvTxBytes e) (RecvTxToAddress e) (RecvTxHash e) (RecvTxTime e)
    (RecvTxRelayerAddress e) (RecvTxGasCostUSD e) (WriteAckTxHash e) (WriteAckTxTime e)
    (WriteAckStatus e) v (AckTxBytes e) (AckTxToAddress e) (AckTxHash e) (AckTxTime e)
    (AckTxRelayerAddress e) (AckTxGasCostUSD e) (TimeoutTxBytes e) (TimeoutTxHash e)
    (TimeoutTxTime e) (TimeoutTxRelayerAddress e) (TimeoutTxGasCostUSD e)
    (ProcessingError e).

Definition with_AckTxHash (v : option string) (e : IBCV2Transfer) : IBCV2Transfer :=
  mkIBCV2Transfer (State e) (SourceChainID e) (DestinationChainID e) (SourceTxHash e)
    (SourceTxTime e) (SourceTxFinalizedTime e) (PacketSequenceNumber e)
    (PacketSourceClientID e) (PacketDestinationClientID e) (PacketTimeoutTimestamp e)
    (RecvTxBytes e) (RecvTxToAddress e) (RecvTxHash e) (RecvTxTime e)
    (RecvTxRelayerAddress e) (RecvTxGasCostUSD e) (WriteAckTxHash e) (WriteAckTxTime e)
    (WriteAckStatus e) (WriteAckTxFinalizedTime e) (AckTxBytes e) (AckTxToAddress e) v
    (AckTxTime e) (AckTxRelayerAddress e) (AckTxGasCostUSD e) (TimeoutTxBytes e)
    (TimeoutTxHash e) (TimeoutTxTime e) (TimeoutTxRelayerAddress e)
    (TimeoutTxGasCostUSD e) (ProcessingError e).

Definition with_AckTxTime (v : option Time) (e : IBCV2Transfer) : IBCV2Transfer :=
  mkIBCV2Transfer (State e) (SourceChainID e) (DestinationChainID e) (SourceTxHash e)
    (SourceTxTime e) (SourceTxFinalizedTime e) (PacketSequenceNumber e)
    (PacketSourceClientID e) (PacketDestinationClientID e) (PacketTimeoutTimestamp e)
    (RecvTxBytes e) (RecvTxToAddress e) (RecvTxHash e) (RecvTxTime e)
    (RecvTxRelayerAddress e) (RecvTxGasCostUSD e) (WriteAckTxHash e) (WriteAckTxTime e)
    (WriteAckStatus e) (WriteAckTxFinalizedTime e) (AckTxBytes e) (AckTxToAddress e)
    (AckTxHash e) v (AckTxRelayerAddress e) (AckTxGasCostUSD e) (TimeoutTxBytes e)
    (TimeoutTxHash e) (TimeoutTxTime e) (TimeoutTxRelayerAddress e)
    (TimeoutTxGasCostUSD e) (ProcessingError e).

Definition with_AckTxRelayerAddress (v : option string) (e : IBCV2Transfer) : IBCV2Transfer :=
  mkIBCV2Transfer (State e) (SourceChainID e) (DestinationChainID e) (SourceTxHash e)
    (SourceTxTime e) (SourceTxFinalizedTime e) (PacketSequenceNumber e)
    (PacketSourceClientID e) (PacketDestinationClientID e) (PacketTimeoutTimestamp e)
    (RecvTxBytes e) (RecvTxToAddress e) (RecvTxHash e) (RecvTxTime e)
    (RecvTxRelayerAddress e) (RecvTxGasCostUSD e) (WriteAckTxHash e) (WriteAckTxTime e)
    (WriteAckStatus e) (WriteAckTxFinalizedTime e) (AckTxBytes e) (AckTxToAddress e)
    (AckTxHash e) (AckTxTime e) v (AckTxGasCostUSD e) (TimeoutTxBytes e)
    (TimeoutTxHash e) (TimeoutTxTime e) (TimeoutTxRelayerAddress e)
    (TimeoutTxGasCostUSD e) (ProcessingError e).

Definition with_TimeoutTxHash (v : option string) (e : IBCV2Transfer) : IBCV2Transfer :=
  mkIBCV2Transfer (State e) (SourceChainID e) (DestinationChainID e) (SourceTxHash e)
    (SourceTxTime e) (SourceTxFinalizedTime e) (PacketSequenceNumber e)
    (PacketSourceClientID e) (PacketDestinationClientID e) (PacketTimeoutTimestamp e)
    (RecvTxBytes e) (RecvTxToAddress e) (RecvTxHash e) (RecvTxTime e)
    (RecvTxRelayerAddress e) (RecvTxGasCostUSD e) (WriteAckTxHash e) (WriteAckTxTime e)
    (WriteAckStatus e) (WriteAckTxFinalizedTime e) (AckTxBytes e) (AckTxToAddress e)
    (AckTxHash e) (AckTxTime e) (AckTxRelayerAddress e) (AckTxGasCostUSD e)
    (TimeoutTxBytes e) v (TimeoutTxTime e) (TimeoutTxRelayerAddress e)
    (TimeoutTxGasCostUSD e) (ProcessingError e).

Definition with_TimeoutTxTime (v : option Time) (e : IBCV2Transfer) : IBCV2Transfer :=
  mkIBCV2Transfer (State e) (SourceChainID e) (DestinationChainID e) (SourceTxHash e)
    (SourceTxTime e) (SourceTxFinalizedTime e) (PacketSequenceNumber e)
    (PacketSourceClientID e) (PacketDestinationClientID e) (PacketTimeoutTimestamp e)
    (RecvTxBytes e) (RecvTxToAddress e) (RecvTxHash e) (RecvTxTime e)
    (RecvTxRelayerAddress e) (RecvTxGasCostUSD e) (WriteAckTxHash e) (WriteAckTxTime e)
    (WriteAckStatus e) (WriteAckTxFinalizedTime e) (AckTxBytes e) (AckTxToAddress e)
    (AckTxHash e) (AckTxTime e) (AckTxRelayerAddress e) (AckTxGasCostUSD e)
    (TimeoutTxBytes e) (TimeoutTxHash e) v (TimeoutTxRelayerAddress e)
    (TimeoutTxGasCostUSD e) (ProcessingError e).

Definition with_TimeoutTxRelayerAddress (v : option string) (e : IBCV2Transfer) : IBCV2Transfer :=
  mkIBCV2Transfer (State e) (SourceChainID e) (DestinationChainID e) (SourceTxHash e)
    (SourceTxTime e) (SourceTxFinalizedTime e) (PacketSequenceNumber e)
    (PacketSourceClientID e) (PacketDestinationClientID e) (PacketTimeoutTimestamp e)
    (RecvTxBytes e) (RecvTxToAddress e) (RecvTxHash e) (RecvTxTime e)
    (RecvTxRelayerAddress e) (RecvTxGasCostUSD e) (WriteAckTxHash e) (WriteAckTxTime e)
    (WriteAckStatus e) (WriteAckTxFinalizedTime e) (AckTxBytes e) (AckTxToAddress e)
    (AckTxHash e) (AckTxTime e) (AckTxRelayerAddress e) (AckTxGasCostUSD e)
    (TimeoutTxBytes e) (TimeoutTxHash e) (TimeoutTxTime e) v (TimeoutTxGasCostUSD e)
    (ProcessingError e).

Definition with_ProcessingError (v : option error) (e : IBCV2Transfer) : IBCV2Transfer :=
  mkIBCV2Transfer (State e) (SourceChainID e) (DestinationChainID e) (SourceTxHash e)
    (SourceTxTime e) (SourceTxFinalizedTime e) (PacketSequenceNumber e)
    (PacketSourceClientID e) (PacketDestinationClientID e) (PacketTimeoutTimestamp e)
    (RecvTxBytes e) (RecvTxToAddress e) (RecvTxHash e) (RecvTxTime e)
    (RecvTxRelayerAddress e) (RecvTxGasCostUSD e) (WriteAckTxHash e) (WriteAckTxTime e)
    (WriteAckStatus e) (WriteAckTxFinalizedTime e) (AckTxBytes e) (AckTxToAddress e)
    (AckTxHash e) (AckTxTime e) (AckTxRelayerAddress e) (AckTxGasCostUSD e)
    (TimeoutTxBytes e) (TimeoutTxHash e) (TimeoutTxTime e) (TimeoutTxRelayerAddress e)
    (TimeoutTxGasCostUSD e) v.

(** ** Getters *)

Definition GetSourceChainID (e : IBCV2Transfer) : string := SourceChainID e.
Definition GetSourceTxTime (e : IBCV2Transfer) : Time := SourceTxTime e.
Definition GetSourceTxHash (e : IBCV2Transfer) : string := SourceTxHash e.
Definition GetSourceTxFinalizedTime (e : IBCV2Transfer) : option Time := SourceTxFinalizedTime e.
Definition GetPacketSequenceNumber (e : IBCV2Transfer) : Z := PacketSequenceNumber e.
Definition GetPacketSourceClientID (e : IBCV2Transfer) : string := PacketSourceClientID e.
Definition GetPacketDestinationClientID (e : IBCV2Transfer) : string := PacketDestinationClientID e.
Definition GetPacketTimeoutTimestamp (e : IBCV2Transfer) : Time := PacketTimeoutTimestamp e.
Definition GetRecvTxHash (e : IBCV2Transfer) : option string := RecvTxHash e.
Definition GetRecvTxToAddress (e : IBCV2Transfer) : option string := RecvTxToAddress e.
Definition GetRecvTxTime (e : IBCV2Transfer) : option Time := RecvTxTime e.
Definition GetRecvTxRelayerAddress (e : IBCV2Transfer) : option string := RecvTxRelayerAddress e.
Definition GetRecvGasCostUSD (e : IBCV2Transfer) : option Z := RecvTxGasCostUSD e.
Definition GetWriteAckTxHash (e : IBCV2Transfer) : option string := WriteAckTxHash e.
Definition GetWriteAckTxTime (e : IBCV2Transfer) : option Time := WriteAckTxTime e.
Definition GetWriteAckStatus (e : IBCV2Transfer) : option db.Ibcv2WriteAckStatus := WriteAckStatus e.
Definition GetWriteAckTxFinalizedTime (e : IBCV2Transfer) : option Time := WriteAckTxFinalizedTime e.
Definition GetAckTxHash (e : IBCV2Transfer) : option string := AckTxHash e.
Definition GetAckTxTime (e : IBCV2Transfer) : option Time := AckTxTime e.
Definition GetAckTxRelayerAddress (e : IBCV2Transfer) : option string := AckTxRelayerAddress e.
Definition GetAckGasCostUSD (e : IBCV2Transfer) : option Z := AckTxGasCostUSD e.
Definition GetTimeoutTxHash (e : IBCV2Transfer) : option string := TimeoutTxHash e.
Definition GetTimeoutTxRelayerAddress (e : IBCV2Transfer) : option string := TimeoutTxRelayerAddress e.
Definition GetTimeoutTxTime (e : IBCV2Transfer) : option Time := TimeoutTxTime e.
Definition GetRecvTxBytes (e : IBCV2Transfer) : option (list Z) := RecvTxBytes e.
Definition GetTimeoutTxBytes (e : IBCV2Transfer) : option (list Z) := TimeoutTxBytes e.
Definition GetTimeoutGasCostUSD (e : IBCV2Transfer) : option Z := TimeoutTxGasCostUSD e.
Definition GetAckTxBytes (e : IBCV2Transfer) : option (list Z) := AckTxBytes e.
Definition GetAckTxToAddress (e : IBCV2Transfer) : option string := AckTxToAddress e.
Definition GetDestinationChainID (e : IBCV2Transfer) : string := DestinationChainID e.
Definition GetState (e : IBCV2Transfer) : db.Ibcv2RelayStatus := State e.

(** [e.Error()]: the empty string when nothing went wrong. *)
Definition IBCV2Transfer_Error (e : IBCV2Transfer) : string :=
  match ProcessingError e with None => "" | Some err => error_string err end.

(** ** From the database *)

(** [nullTime], [nullStr] and the [Valid] tests on nullable columns turn an
    invalid column into a nil pointer; with nullable columns as options they
    are the identity. *)
Definition nullTime (t : option Time) : option Time := t.
Definition nullStr (s : option string) : option string := s.

(** The [*big.Int] read from a numeric column: [Int] without its exponent. *)
Definition numeric_int (n : db.Numeric) : option Z :=
  if db.Valid n then db.Int n else None.

Definition NewIBCV2Transfer (transfer : db.Ibcv2Transfer) : IBCV2Transfer := {|
  State := db.Status transfer;
  SourceChainID := db.SourceChainID transfer;
  DestinationChainID := db.DestinationChainID transfer;
  SourceTxHash := db.SourceTxHash transfer;
  SourceTxTime := default zero_time (db.SourceTxTime transfer);
  SourceTxFinalizedTime := db.SourceTxFinalizedTime transfer;
  PacketSequenceNumber := uint32 (db.PacketSequenceNumber transfer);
  PacketSourceClientID := db.PacketSourceClientID transfer;
  PacketDestinationClientID := db.PacketDestinationClientID transfer;
  PacketTimeoutTimestamp := default zero_time (db.PacketTimeoutTimestamp transfer);
  RecvTxBytes := None;
  RecvTxToAddress := None;
  RecvTxHash := nullStr (db.RecvTxHash transfer);
  RecvTxTime := nullTime (db.RecvTxTime transfer);
  RecvTxRelayerAddress := nullStr (db.RecvTxRelayerAddress transfer);
  RecvTxGasCostUSD := numeric_int (db.RecvTxGasCostUsd transfer);
  WriteAckTxHash := nullStr (db.WriteAckTxHash transfer);
  WriteAckTxTime := nullTime (db.WriteAckTxTime transfer);
  WriteAckStatus := db.WriteAckStatus transfer;
  WriteAckTxFinalizedTime := db.WriteAckTxFinalizedTime transfer;
  AckTxBytes := None;
  AckTxToAddress := None;
  AckTxHash := nullStr (db.AckTxHash transfer);
  AckTxTime := nullTime (db.AckTxTime transfer);
  AckTxRelayerAddress := nullStr (db.AckTxRelayerAddress transfer);
  AckTxGasCostUSD := numeric_int (db.AckTxGasCostUsd transfer);
  TimeoutTxBytes := None;
  TimeoutTxHash := nullStr (db.TimeoutTxHash transfer);
  TimeoutTxTime := nullTime (db.TimeoutTxTime transfer);
  TimeoutTxRelayerAddress := nullStr (db.TimeoutTxRelayerAddress transfer);
  TimeoutTxGasCostUSD := numeric_int (db.TimeoutTxGasCostUsd transfer);
  ProcessingError := None;
|}.

(** The key the code puts in the [WHERE] clause of every update it makes for a
    transfer: [int32(transfer.GetPacketSequenceNumber())] goes with the source
    chain and the source client. *)
Definition update_key (e : IBCV2Transfer) : db.packet_key :=
  db.mkPacketKey (GetSourceChainID e) (GetPacketSourceClientID e)
    (int32 (GetPacketSequenceNumber e)).

(** ** Completion *)

Definition isErrorAck (s : db.Ibcv2WriteAckStatus) : bool :=
  bool_decide (s = db.Ibcv2WriteAckStatusERROR) ||
  bool_decide (s = db.Ibcv2WriteAckStatusUNKNOWN).

Definition isSuccessAck (s : db.Ibcv2WriteAckStatus) : bool :=
  bool_decide (s = db.Ibcv2WriteAckStatusSUCCESS).

(** [IsComplete]; the branch without a write ack status also logs a warning
    that it is a bug to get there ([IsComplete_warns]). *)
Definition IsComplete (shouldRelaySuccessAcks shouldRelayErrorAcks : bool)
    (e : IBCV2Transfer) : bool :=
  if has (ProcessingError e) then false
  else if has (GetTimeoutTxHash e) then true
  else if negb (has (GetRecvTxHash e)) || negb (has (GetWriteAckTxHash e)) then false
  else if has (GetAckTxHash e) then true
  else match GetWriteAckStatus e with
       | None => false
       | Some writeAckStatus =>
           if (isErrorAck writeAckStatus && shouldRelayErrorAcks)
              || (isSuccessAck writeAckStatus && shouldRelaySuccessAcks)
           then false
           else true
       end.

(** When [IsComplete] takes its warning branch. *)
Definition IsComplete_warns (e : IBCV2Transfer) : bool :=
  negb (has (ProcessingError e)) && negb (has (GetTimeoutTxHash e)) &&
  has (GetRecvTxHash e) && has (GetWriteAckTxHash e) && negb (has (GetAckTxHash e)) &&
  negb (has (GetWriteAckStatus e)).

(** [IsTimedOut] at the instant [now] read from the clock. *)
Definition IsTimedOut (now : Time) (e : IBCV2Transfer) : bool :=
  After now (GetPacketTimeoutTimestamp e).

(** ** Laws *)

Lemma isErrorAck_not_success s : isErrorAck s = negb (isSuccessAck s).
Proof. by destruct s. Qed.

Lemma Error_empty e : ProcessingError e = None → IBCV2Transfer_Error e = "".
Proof. unfold IBCV2Transfer_Error. by intros ->. Qed.

Lemma update_key_NewIBCV2Transfer r :
  is_int32 (db.PacketSequenceNumber r) → update_key (NewIBCV2Transfer r) = db.row_key r.
Proof.
  intros H. unfold update_key, db.row_key; simpl. unfold GetPacketSequenceNumber; simpl.
  by rewrite int32_uint32_id.
Qed.

(** A transfer that will need an acknowledgement relayed. *)
Definition ack_required (success error : bool) (s : db.Ibcv2WriteAckStatus) : bool :=
  (isErrorAck s && error) || (isSuccessAck s && success).

Lemma IsComplete_iff success error e :
  IsComplete success error e = true ↔
  ProcessingError e = None ∧
  (is_Some (TimeoutTxHash e) ∨
   is_Some (RecvTxHash e) ∧ is_Some (WriteAckTxHash e) ∧
     (is_Some (AckTxHash e) ∨
      ∃ s, WriteAckStatus e = Some s ∧ ack_required success error s = false)).
Proof.
  unfold IsComplete, has, is_nil, ack_required, GetTimeoutTxHash, GetRecvTxHash, GetWriteAckTxHash,
    GetAckTxHash, GetWriteAckStatus.
  destruct (ProcessingError e); simpl; [naive_solver|].
  destruct (TimeoutTxHash e); simpl; [naive_solver|].
  destruct (RecvTxHash e), (WriteAckTxHash e); simpl;
    try (split; [done|intros (_ & [[? ?]|([? ?] & [? ?] & _)]); done]).
  destruct (AckTxHash e); simpl; [naive_solver|].
  destruct (WriteAckStatus e) as [st|]; simpl.
  - destruct (isErrorAck st && error || isSuccessAck st && success) eqn:E; split; try done.
    + intros (_ & [[? ?]|(_ & _ & [[? ?]|(? & [= <-] & ?)])]); congruence.
    + intros _. split; [done|]. right. eauto 10.
  - split; [done|]. intros (_ & [[? ?]|(_ & _ & [[? ?]|(? & ? & _)])]); done.
Qed.
