(* ===== verification/World.v ===== *)
(** * The world the relayer runs in

    - [metrics]: the calls the pipeline makes on [shared/metrics].
    - [BridgeClient]: the interface of [shared/bridges/ibcv2/bridge_client.go].
    - [Env]: everything the pipeline calls that is not its own code. Chains,
      the proof relayer and the price service are reached over the network:
      their state is one abstract type [X], and a call is a function from that
      state to an outcome and a new state. Contexts are not modelled: a
      cancelled or expired context shows as the error a call returns.
    - [World]: the external state, the database, the heap of transfers, and
      the trace of metrics and log lines.
    - [M]: the state and error monad the pipeline code is written in ([Wp.v] has
      the rules to reason about it).
    - [ExecTx] of [db/tx/tx.go] and [GetClient] of
      [relayer/ibcv2/client_manager.go]. *)
From stdpp Require Import prelude strings list gmap.
From Stdlib Require Import ZArith.
From S2P Require Import Prelude Go Config Db Transfer.
Open Scope Z_scope.

(** ** Metrics *)

Module metrics.
Inductive RelayType :=
  | IBCV2SendToRecvRelayType
  | IBCV2SendToTimeoutRelayType
  | IBCV2RecvToAckRelayType.

#[global] Instance RelayType_eq_dec : EqDecision RelayType.
Proof. solve_decision. Defined.

(** One constructor per method of [Metrics] the modelled code calls. *)
Inductive event :=
  | AddTransactionRetryAttempt (sourceChainID destinationChainID sourceChainName
      destinationChainName chainEnvironment : string) (relayType : RelayType)
  | AddExcessiveRelayLatencyObservation (sourceChainName destinationChainName
      chainEnvironment : string) (relayType : RelayType)
  | RelayLatency (sourceChainID destinationChainID sourceChainName destinationChainName
      chainEnvironment : string) (relayType : RelayType) (latency : Duration)
  | AddRelayCompleted (sourceChainID sourceClientID destinationChainID destinationClientID
      : string) (relayType : RelayType)
  | AddRelayRequest (bridgeType : string) (statusCode : Z)
  | SetGasBalance (chainID chainName gasTokenSymbol chainEnvironment : string)
      (gasBalance warningThreshold criticalThreshold gasTokenDecimals : Z)
      (bridgeType : string).

Definition IBCV2BridgeType : string := "ibcv2".
End metrics.

(** ** External services *)

(** A call on external state. *)
Definition Ext (X A : Type) : Type := X → outcome A * X.

Record BridgeTx := mkBridgeTx {
  Hash : string;
  Timestamp : Time;
  RelayerAddress : string;
}.

Record PacketInfo := mkPacketInfo {
  Sequence : Z;
  SourceClient : string;
  DestinationClient : string;
  TimeoutTimestamp : Time;
  PacketInfo_Timestamp : Time;
}.

Record WasmClientState := mkWasmClientState { LatestExecutionBlockNumber : Z }.

Record TendermintClientState := mkTendermintClientState {
  TrustingPeriod : Duration;
  LatestHeight : Z;
}.

Record ClientState := mkClientState {
  ClientState_Wasm : option WasmClientState;
  ClientState_Tendermint : option TendermintClientState;
}.

(** The methods of the Go interface; a pointer result is an [option]. *)
Record BridgeClient (X : Type) := mkBridgeClient {
  IsPacketReceived : string → Z → Ext X bool;
  IsPacketCommitted : string → Z → Ext X bool;
  FindRecvTx : string → string → Z → Time → Ext X (option BridgeTx);
  FindAckTx : string → string → Z → Ext X (option BridgeTx);
  FindTimeoutTx : string → string → Z → Ext X (option BridgeTx);
  DeliverTx : list Z → string → Ext X (option BridgeTx);
  PacketWriteAckStatus : string → Z → string → string → Ext X db.Ibcv2WriteAckStatus;
  SendPacketsFromTx : string → string → Ext X (list PacketInfo);
  ShouldRetryTx : string → Duration → Time → Ext X bool;
  WaitForChain : Ext X unit;
  IsTxFinalized : string → option Z → Ext X bool;
  IsTimestampFinalized : Time → option Z → Ext X bool;
  client_ChainType : config.ChainType;
  LatestOnChainTimestamp : Ext X Time;
  TimestampAtHeight : Z → Ext X Time;
  SignerGasTokenBalance : Ext X (option Z);
  TxFee : string → Ext X (option Z);
  SendTransfer : string → string → string → Z → string → Ext X string;
  BridgeClient_ClientState : string → Ext X ClientState;
  WaitForTx : string → Ext X unit;
  GetTransactionSender : string → Ext X string;
}.
Arguments IsPacketReceived {X}.
Arguments IsPacketCommitted {X}.
Arguments FindRecvTx {X}.
Arguments FindAckTx {X}.
Arguments FindTimeoutTx {X}.
Arguments DeliverTx {X}.
Arguments PacketWriteAckStatus {X}.
Arguments SendPacketsFromTx {X}.
Arguments ShouldRetryTx {X}.
Arguments WaitForChain {X}.
Arguments IsTxFinalized {X}.
Arguments IsTimestampFinalized {X}.
Arguments client_ChainType {X}.
Arguments LatestOnChainTimestamp {X}.
Arguments TimestampAtHeight {X}.
Arguments SignerGasTokenBalance {X}.
Arguments TxFee {X}.
Arguments SendTransfer {X}.
Arguments BridgeClient_ClientState {X}.
Arguments WaitForTx {X}.
Arguments GetTransactionSender {X}.

(** The messages of the proof relayer's [RelayByTx]. *)
Record RelayByTxRequest := mkRelayByTxRequest {
  SrcChain : string;
  DstChain : string;
  SourceTxIds : list (list Z);
  TimeoutTxIds : list (list Z);
  SrcClientId : string;
  DstClientId : string;
  SrcPacketSequences : list Z;
  DstPacketSequences : list Z;
}.

Record RelayByTxResponse := mkRelayByTxResponse {
  Response_Tx : list Z;
  Response_Address : string;
}.

(** What the pipeline is given from outside. [env_storage] is one round trip
    to Postgres: [Some e] when it fails before the statement takes effect.
    [env_race] is a choice the program has no part in: which of two goroutines
    of an errgroup runs first, and whether Postgres had applied a [COMMIT] whose
    answer was lost. *)
Class Env (X : Type) := mkEnv {
  env_clients : gmap string (BridgeClient X);
  env_RelayByTx : RelayByTxRequest → Ext X RelayByTxResponse;
  env_GetCoinUsdValue : option (string → Z → option Z → Ext X db.Numeric);
  env_config : config.configReader;
  env_Now : X → Time * X;
  env_storage : X → option error * X;
  env_NOW : X → Time;
  env_race : X → bool * X;
}.

(** ** State *)

Inductive level := Debug | Info | Warn | Error.

#[global] Instance level_eq_dec : EqDecision level.
Proof. solve_decision. Defined.

(** A non-nil [*IBCV2Transfer]. *)
Definition loc := positive.

Record World (X : Type) := mkWorld {
  w_ext : X;
  w_db : db.Database;
  w_heap : gmap loc IBCV2Transfer;
  w_metrics : list metrics.event;
  w_log : list (level * string);
}.
Arguments mkWorld {X}.
Arguments w_ext {X}.
Arguments w_db {X}.
Arguments w_heap {X}.
Arguments w_metrics {X}.
Arguments w_log {X}.

(** ** The monad *)

Definition M (X A : Type) : Type := World X → outcome A * World X.

#[global] Instance M_ret {X} : MRet (M X) := λ A a w, (Ret a, w).

#[global] Instance M_bind {X} : MBind (M X) := λ A B k m w,
  match m w with
  | (Ret a, w') => k a w'
  | (Fail e, w') => (Fail e, w')
  | (Panic, w') => (Panic, w')
  end.

Section ops.
Context {X : Type}.

(** [return nil, e]. *)
Definition fail {A} (e : error) : M X A := λ w, (Fail e, w).

Definition panic {A} : M X A := λ w, (Panic, w).

(** A call without effects. *)
Definition lift_outcome {A} (o : outcome A) : M X A := λ w, (o, w).

(** [if err != nil { return nil, fmt.Errorf("msg: %w", err) }]. *)
Definition wrap {A} (msg : string) (m : M X A) : M X A := λ w,
  match m w with
  | (Fail e, w') => (Fail (Errorf msg e), w')
  | r => r
  end.

(** [v, err := m], for code that looks at [err] itself. *)
Definition attempt {A} (m : M X A) : M X (A + error) := λ w,
  match m w with
  | (Ret a, w') => (Ret (inl a), w')
  | (Fail e, w') => (Ret (inr e), w')
  | (Panic, w') => (Panic, w')
  end.

Definition ext {A} (f : Ext X A) : M X A := λ '(mkWorld x d h mt lg),
  let '(o, x') := f x in (o, mkWorld x' d h mt lg).

Definition logger (l : level) (msg : string) : M X unit := λ '(mkWorld x d h mt lg),
  (Ret tt, mkWorld x d h mt (lg ++ [(l, msg)])).

Definition record (e : metrics.event) : M X unit := λ '(mkWorld x d h mt lg),
  (Ret tt, mkWorld x d h (mt ++ [e]) lg).

(** Reading the fields of a transfer. *)
Definition load (l : loc) : M X IBCV2Transfer := λ w,
  match w_heap w !! l with
  | Some t => (Ret t, w)
  | None => (Panic, w)
  end.

(** Assigning fields of a transfer. *)
Definition modify (l : loc) (f : IBCV2Transfer → IBCV2Transfer) : M X unit :=
  λ '(mkWorld x d h mt lg), (Ret tt, mkWorld x d (alter f l h) mt lg).

(** A nilable pointer that is dereferenced. *)
Definition deref {A} (o : option A) : M X A :=
  match o with Some a => mret a | None => panic end.

Fixpoint forM {A} (l : list A) (f : A → M X unit) : M X unit :=
  match l with
  | [] => mret tt
  | a :: l' => f a ≫= λ _, forM l' f
  end.
End ops.

Section effects.
Context {X : Type} {E : Env X}.

(** [time.Now()]. *)
Definition Now : M X Time := λ '(mkWorld x d h mt lg),
  let '(t, x') := env_Now x in (Ret t, mkWorld x' d h mt lg).

(** [time.Since(t)]. *)
Definition Since (t : Time) : M X Duration :=
  now ← Now; mret (time_Sub now t).

Definition race : M X bool := λ '(mkWorld x d h mt lg),
  let '(b, x') := env_race x in (Ret b, mkWorld x' d h mt lg).

(** One round trip to the database without a statement. *)
Definition storage : M X unit := λ '(mkWorld x d h mt lg),
  let '(err, x') := env_storage x in
  (match err with Some e => Fail e | None => Ret tt end, mkWorld x' d h mt lg).

(** A statement of [db.Queries]. *)
Definition query {A} (q : Time → db.Database → outcome A * db.Database) : M X A :=
  λ '(mkWorld x d h mt lg),
    let '(err, x') := env_storage x in
    match err with
    | Some e => (Fail e, mkWorld x' d h mt lg)
    | None => let '(o, d') := q (env_NOW x') d in (o, mkWorld x' d' h mt lg)
    end.

Definition exec (q : Time → db.Database → db.Database) : M X unit :=
  query (λ now d, (Ret tt, q now d)).

(** Rolling a transaction back: the rows are those of before; sequences are
    not transactional in Postgres. *)
Definition rollback (d d' : db.Database) : db.Database :=
  db.mkDatabase (db.ibcv2_transfers d) (db.ibcv2_transfers_id_seq d')
    (db.ibcv2_relay_submissions d) (db.ibcv2_relay_submissions_id_seq d').

Definition undo (d : db.Database) : M X unit := λ '(mkWorld x d' h mt lg),
  (Ret tt, mkWorld x (rollback d d') h mt lg).

Definition get_db : M X db.Database := λ w, (Ret (w_db w), w).

(** [ExecTx]. Postgres undoes a transaction that is rolled back or whose
    connection is lost before [COMMIT]. When [Commit] returns an error the
    transaction may have been applied all the same: the answer was lost, and
    [err] is returned although the rows have changed. *)
Definition ExecTx (fn : M X unit) : M X unit :=
  storage ≫= λ _,
  d ← get_db;
  r ← attempt fn;
  match r with
  | inr err =>
      rb ← attempt storage;
      undo d ≫= λ _,
      match rb with
      | inr rbErr => fail (Errorf2 "tx err" err rbErr)
      | inl _ => fail err
      end
  | inl _ =>
      c ← attempt storage;
      match c with
      | inr err =>
          applied ← race;
          (if applied : bool then mret tt else undo d) ≫= λ _,
          fail err
      | inl _ => mret tt
      end
  end.

(** [ClientManager.GetClient]. *)
Definition GetClient (chainID : string) : M X (BridgeClient X) :=
  match env_clients !! chainID with
  | None => fail (ErrorNew "no configured ibcv2 bridge client for chain ID")
  | Some client => mret client
  end.
End effects.
