(* ===== verification/Wp.v ===== *)
(** * Symbolic execution of the monad

    A weakest precondition for the monad of [World.v] with one rule per
    effect, the tactic [wp_auto] that runs a program by these rules, and what a
    statement may do to the database ([db_local], [db_wf]). *)
From stdpp Require Import prelude strings list gmap.
From Stdlib Require Import ZArith.
From S2P Require Import Prelude Go Config Db Transfer World.
Open Scope Z_scope.

(** ** Weakest preconditions *)

Definition wp {X A} (m : M X A) (Q : outcome A → World X → Prop) (w : World X) : Prop :=
  Q (m w).1 (m w).2.

(** Going on after the first half of a [bind]. *)
Definition then_wp {X A B} (k : A → M X B) (Q : outcome B → World X → Prop)
    (o : outcome A) (w : World X) : Prop :=
  match o with
  | Ret a => wp (k a) Q w
  | Fail e => Q (Fail e) w
  | Panic => Q Panic w
  end.

Section rules.
Context {X : Type}.
Implicit Types w : World X.

Lemma wp_ret {A} (a : A) Q w : Q (Ret a) w → wp (mret a) Q w.
Proof. done. Qed.

Lemma wp_fail {A} e (Q : outcome A → _) w : Q (Fail e) w → wp (fail e) Q w.
Proof. done. Qed.

Lemma wp_panic {A} (Q : outcome A → _) w : Q Panic w → wp panic Q w.
Proof. done. Qed.

Lemma wp_lift {A} (o : outcome A) Q w : Q o w → wp (lift_outcome o) Q w.
Proof. done. Qed.

Lemma wp_bind {A B} (m : M X A) (k : A → M X B) Q w :
  wp m (then_wp k Q) w → wp (m ≫= k) Q w.
Proof. unfold wp, then_wp, mbind, M_bind. by destruct (m w) as [[] ?]. Qed.

Lemma wp_mono {A} (m : M X A) (P Q : outcome A → World X → Prop) w :
  (∀ o w', P o w' → Q o w') → wp m P w → wp m Q w.
Proof. unfold wp. auto. Qed.

Lemma wp_and {A} (m : M X A) (P Q : outcome A → World X → Prop) w :
  wp m P w → wp m Q w → wp m (λ o w', P o w' ∧ Q o w') w.
Proof. done. Qed.

Lemma wp_wrap {A} msg (m : M X A) Q w :
  wp m (λ o w', match o with Fail e => Q (Fail (Errorf msg e)) w' | _ => Q o w' end) w →
  wp (wrap msg m) Q w.
Proof. unfold wp, wrap. by destruct (m w) as [[] ?]. Qed.

Lemma wp_attempt {A} (m : M X A) Q w :
  wp m (λ o w', match o with
                | Ret a => Q (Ret (inl a)) w'
                | Fail e => Q (Ret (inr e)) w'
                | Panic => Q Panic w'
                end) w →
  wp (attempt m) Q w.
Proof. unfold wp, attempt. by destruct (m w) as [[] ?]. Qed.

Lemma wp_ext {A} (f : Ext X A) Q (x : X) d h mt lg :
  (∀ o x', f x = (o, x') → Q o (mkWorld x' d h mt lg)) →
  wp (ext f) Q (mkWorld x d h mt lg).
Proof. unfold wp, ext. destruct (f x) as [o x'] eqn:E; simpl. auto. Qed.

Lemma wp_logger l msg Q (x : X) d h mt lg :
  (∀ lg', Q (Ret tt) (mkWorld x d h mt lg')) →
  wp (logger l msg) Q (mkWorld x d h mt lg).
Proof. unfold wp; simpl. auto. Qed.

Lemma wp_record e Q (x : X) d h mt lg :
  (∀ mt', Q (Ret tt) (mkWorld x d h mt' lg)) →
  wp (record e) Q (mkWorld x d h mt lg).
Proof. unfold wp; simpl. auto. Qed.

Lemma wp_load l t Q w : w_heap w !! l = Some t → Q (Ret t) w → wp (load l) Q w.
Proof. unfold wp, load. by intros ->. Qed.

Lemma wp_modify l f Q (x : X) d h mt lg :
  Q (Ret tt) (mkWorld x d (alter f l h) mt lg) →
  wp (modify l f) Q (mkWorld x d h mt lg).
Proof. done. Qed.

(** A loop keeps what every turn keeps. *)
Lemma wp_forM_keep {A} (R : World X → Prop) (f : A → M X unit) l : ∀ w,
  (∀ a w', a ∈ l → R w' → wp (f a) (λ _ w'', R w'') w') → R w →
  wp (forM l f) (λ _ w', R w') w.
Proof.
  induction l as [|a l IH]; intros w Hf Hw; simpl; [done|].
  apply wp_bind. eapply wp_mono; [|by apply Hf; [left|]].
  intros [[]| |] w' Hw'; simpl; [|done..]. apply IH; [|done]. intros. apply Hf; [by right|done].
Qed.

Context {E : Env X}.

Lemma wp_Now Q (x : X) d h mt lg :
  (∀ t x', Q (Ret t) (mkWorld x' d h mt lg)) → wp Now Q (mkWorld x d h mt lg).
Proof. unfold wp; simpl. destruct (env_Now x). simpl. auto. Qed.

Lemma wp_Since u Q (x : X) d h mt lg :
  (∀ t x', Q (Ret t) (mkWorld x' d h mt lg)) → wp (Since u) Q (mkWorld x d h mt lg).
Proof. intros H. apply wp_bind, wp_Now. intros. apply wp_ret, H. Qed.

Lemma wp_race Q (x : X) d h mt lg :
  (∀ b x', Q (Ret b) (mkWorld x' d h mt lg)) → wp race Q (mkWorld x d h mt lg).
Proof. unfold wp; simpl. destruct (env_race x). simpl. auto. Qed.

Lemma wp_exec q Q (x : X) d h mt lg :
  (∀ e x', Q (Fail e) (mkWorld x' d h mt lg)) →
  (∀ now x', Q (Ret tt) (mkWorld x' (q now d) h mt lg)) →
  wp (exec q) Q (mkWorld x d h mt lg).
Proof. unfold wp; simpl. destruct (env_storage x) as [[] ?]; simpl; auto. Qed.

Lemma wp_query {A} (q : Time → db.Database → outcome A * db.Database) Q (x : X) d h mt lg :
  (∀ e x', Q (Fail e) (mkWorld x' d h mt lg)) →
  (∀ now x', Q (q now d).1 (mkWorld x' (q now d).2 h mt lg)) →
  wp (query q) Q (mkWorld x d h mt lg).
Proof.
  intros H1 H2. unfold wp; simpl. destruct (env_storage x) as [[] x']; simpl; [auto|].
  specialize (H2 (env_NOW x') x'). by destruct (q (env_NOW x') d).
Qed.

Lemma wp_storage Q (x : X) d h mt lg :
  (∀ e x', Q (Fail e) (mkWorld x' d h mt lg)) →
  (∀ x', Q (Ret tt) (mkWorld x' d h mt lg)) →
  wp storage Q (mkWorld x d h mt lg).
Proof. unfold wp; simpl. destruct (env_storage x) as [[] ?]; simpl; auto. Qed.

Lemma wp_get_db Q (w : World X) : Q (Ret (w_db w)) w → wp get_db Q w.
Proof. done. Qed.

Lemma wp_undo d0 Q (x : X) d h mt lg :
  Q (Ret tt) (mkWorld x (rollback d0 d) h mt lg) → wp (undo d0) Q (mkWorld x d h mt lg).
Proof. done. Qed.

Lemma wp_GetClient id Q w :
  (∀ e, Q (Fail e) w) → (∀ c, env_clients !! id = Some c → Q (Ret c) w) →
  wp (GetClient id) Q w.
Proof. unfold wp, GetClient. destruct (env_clients !! id); simpl; auto. Qed.

(** *** Rules for what is known of the environment *)

(** Round trips to the database succeed. *)
Definition healthy : Prop := ∀ x : X, (env_storage x).1 = None.

Lemma wp_query_healthy {A} (q : Time → db.Database → outcome A * db.Database) Q (x : X) d h mt lg :
  healthy → (∀ now x', Q (q now d).1 (mkWorld x' (q now d).2 h mt lg)) →
  wp (query q) Q (mkWorld x d h mt lg).
Proof.
  intros Hh HQ. unfold wp; simpl. pose proof (Hh x) as Hx.
  destruct (env_storage x) as [err x']; simpl in Hx. subst err.
  specialize (HQ (env_NOW x') x'). by destruct (q (env_NOW x') d).
Qed.

Lemma wp_exec_healthy q Q (x : X) d h mt lg :
  healthy → (∀ now x', Q (Ret tt) (mkWorld x' (q now d) h mt lg)) →
  wp (exec q) Q (mkWorld x d h mt lg).
Proof. intros Hh HQ. by apply wp_query_healthy. Qed.

(** A statement fails only against an unhealthy database. *)
Lemma wp_exec_cases q Q (x : X) d h mt lg :
  (¬ healthy → ∀ e x', Q (Fail e) (mkWorld x' d h mt lg)) →
  (∀ now x', Q (Ret tt) (mkWorld x' (q now d) h mt lg)) →
  wp (exec q) Q (mkWorld x d h mt lg).
Proof.
  intros H1 H2. unfold wp; simpl. destruct (env_storage x) as [[e|] x'] eqn:Hx; simpl; [|auto].
  apply H1. intros Hh. specialize (Hh x). by rewrite Hx in Hh.
Qed.

Lemma wp_GetClient_known id c Q w :
  env_clients !! id = Some c → Q (Ret c) w → wp (GetClient id) Q w.
Proof. unfold wp, GetClient. by intros ->. Qed.

(** A call that gives the same answer in every state of the outside. *)
Definition answers {A} (call : Ext X A) (o : outcome A) : Prop :=
  ∀ x, ∃ x', call x = (o, x').

Lemma wp_ext_answers {A} (call : Ext X A) o Q (x : X) d h mt lg :
  answers call o → (∀ x', Q o (mkWorld x' d h mt lg)) →
  wp (ext call) Q (mkWorld x d h mt lg).
Proof.
  intros Ha HQ. apply wp_ext. intros o' x'. destruct (Ha x) as [x1 ->]. intros [= <- <-].
  apply HQ.
Qed.
End rules.

(** Runs the program up to its end, one subgoal per path. *)
Ltac wp_step :=
  lazymatch goal with
  | |- wp (_ ≫= _) _ _ => apply wp_bind
  | |- wp (mret _) _ _ => apply wp_ret
  | |- wp (fail _) _ _ => apply wp_fail
  | |- wp panic _ _ => apply wp_panic
  | |- wp (lift_outcome ?o) _ _ => apply wp_lift; destruct o eqn:?
  | |- wp (wrap _ _) _ _ => apply wp_wrap
  | |- wp (attempt _) _ _ => apply wp_attempt
  | |- wp (ext _) _ _ => apply wp_ext; intros [?|?|] ? _
  | |- wp (logger _ _) _ _ => apply wp_logger; intros ?
  | |- wp (record _) _ _ => apply wp_record; intros ?
  | |- wp (load _) _ _ => eapply wp_load; [simpl; by rewrite ?lookup_alter_eq; simplify_option_eq|]
  | |- wp (modify _ _) _ _ => apply wp_modify
  | |- wp Now _ _ => apply wp_Now; intros ? ?
  | |- wp (Since _) _ _ => apply wp_Since; intros ? ?
  | |- wp race _ _ => apply wp_race; intros [|] ?
  | |- wp (exec _) _ _ => apply wp_exec; [intros ? ?|intros ? ?]
  | |- wp (query _) _ _ => apply wp_query; [intros ? ?|intros ? ?]
  | |- wp storage _ _ => apply wp_storage; [intros ? ?|intros ?]
  | |- wp get_db _ _ => apply wp_get_db
  | |- wp (undo _) _ _ => apply wp_undo
  | |- wp (GetClient _) _ _ => apply wp_GetClient; [intros ?|intros ? ?]
  | |- wp (deref ?o) _ _ => destruct o eqn:?; try discriminate; simpl
  | |- wp (match ?o with _ => _ end) _ _ => destruct o eqn:?; try discriminate
  | |- then_wp _ _ _ _ => unfold then_wp
  end.

Ltac wp_auto := repeat (wp_step; cbn beta iota).

Lemma wp_run {X A} (m : M X A) Q w o w' : m w = (o, w') → wp m Q w → Q o w'.
Proof. unfold wp. by intros ->. Qed.

(** Proves a goal about the outcome of a run by symbolic execution. *)
Ltac by_running Hrun :=
  lazymatch type of Hrun with
  | ?m ?w = (?o, ?w') =>
      pattern o, w'; apply (wp_run m _ w o w' Hrun); clear Hrun; clear o w'
  end.

(** ** Frames on the database *)

(** What a call made for the packets [ks] may do to the tables: it changes no
    row of another packet and no submission, and no row appears or disappears.
    The exception is the row of the zero key, which one of the processors
    writes to (see [CheckWriteAckFinalityProcessor_Process]). *)
Record db_within (ks : list db.packet_key) (d d' : db.Database) : Prop := {
  within_others : ∀ k', k' ∉ ks → k' ≠ db.zero_key → db.row k' d' = db.row k' d;
  within_keys : map db.row_key (db.ibcv2_transfers d') = map db.row_key (db.ibcv2_transfers d);
  within_routes : ∀ k', db.row_route <$> db.row k' d' = db.row_route <$> db.row k' d;
  within_submissions : db.ibcv2_relay_submissions d' = db.ibcv2_relay_submissions d;
}.

Definition db_local (k : db.packet_key) : relation db.Database := db_within [k].

#[global] Instance db_within_preorder ks : PreOrder (db_within ks).
Proof.
  split; [by split|].
  intros d1 d2 d3 [H1 H2 H3 H4] [H1' H2' H3' H4'].
  split; [|congruence|intros; by rewrite H3'|congruence].
  intros k' ? ?. rewrite H1' by done. auto.
Qed.

#[global] Instance db_local_preorder k : PreOrder (db_local k) := db_within_preorder [k].

Lemma db_within_mono ks ks' d d' : ks ⊆ ks' → db_within ks d d' → db_within ks' d d'.
Proof. intros Hs [H1 H2 H3 H4]. split; [|done..]. intros k' Hk. apply H1. auto. Qed.

Lemma local_within k ks d d' : k ∈ ks → db_local k d d' → db_within ks d d'.
Proof. intros Hk. apply db_within_mono. by intros k' ->%list_elem_of_singleton. Qed.

Lemma row_update_local k q f d : db.is_row_update k q f → db_local k d (q d).
Proof.
  intros Hq. split.
  - intros k' Hne%not_elem_of_cons _. apply (db.row_update_row_ne Hq). naive_solver.
  - apply (db.row_update_keys Hq).
  - intros k'. apply (db.row_update_routes Hq).
  - apply (db.row_update_submissions Hq).
Qed.

Lemma zero_update_local k q f d : db.is_row_update db.zero_key q f → db_local k d (q d).
Proof.
  intros Hq. split.
  - intros k' _ Hne. by apply (db.row_update_row_ne Hq).
  - apply (db.row_update_keys Hq).
  - intros k'. apply (db.row_update_routes Hq).
  - apply (db.row_update_submissions Hq).
Qed.

Lemma within_index_ok ks d d' : db_within ks d d' → db.index_ok d → db.index_ok d'.
Proof. intros [_ Hk _ Hs] [? ?]. split; congruence. Qed.

Lemma within_row_None ks k' d d' :
  db_within ks d d' → db.row k' d' = None ↔ db.row k' d = None.
Proof. intros [_ Hk _ _]. unfold db.row. rewrite !lookup_by_None. by rewrite Hk. Qed.

Lemma within_row_Some ks k' d d' r :
  db_within ks d d' → db.row k' d = Some r →
  ∃ r', db.row k' d' = Some r' ∧ db.row_route r' = db.row_route r.
Proof.
  intros Hw Hr. pose proof (within_routes _ _ _ Hw k') as Heq. rewrite Hr in Heq.
  destruct (db.row k' d') as [r'|]; [|done]. exists r'. split; [done|]. by apply (inj Some).
Qed.
