(* ===== verification/TransferMetrics.v ===== *)
(** * Metrics of a transfer

    Models [relayer/ibcv2/ibcv2_transfer_metrics.go]. The methods only read the
    transfer, so they take its value. *)
From stdpp Require Import prelude strings list gmap.
From Stdlib Require Import ZArith.
From S2P Require Import Prelude Go Config Db Transfer World Wp.
Open Scope Z_scope.

Section transfer_metrics.
Context {X : Type} {E : Env X}.

(** [IsComplete] with its warning. *)
Definition IsComplete_logged (shouldRelaySuccessAcks shouldRelayErrorAcks : bool)
    (e : IBCV2Transfer) : M X bool :=
  (if IsComplete_warns e
   then logger Warn "this is a bug! tx has write ack tx hash but does not have a write ack status"
   else mret tt) ≫= λ _,
  mret (IsComplete shouldRelaySuccessAcks shouldRelayErrorAcks e).

Definition RecordLatency (sourceChainID destChainID : string) (from to : Time)
    (relayType : metrics.RelayType) : M X unit :=
  match config.GetChainConfig env_config sourceChainID with
  | Ret sourceConfig =>
      match config.GetChainConfig env_config destChainID with
      | Ret destConfig =>
          record (metrics.RelayLatency sourceChainID destChainID
            (config.ChainName sourceConfig) (config.ChainName destConfig)
            (config.Environment sourceConfig) relayType (time_Sub to from))
      | _ => mret tt
      end
  | _ => mret tt
  end.

Definition RecordRecvSendLatency (e : IBCV2Transfer) : M X unit :=
  match GetRecvTxTime e with
  | None => mret tt
  | Some recvTxTime =>
      RecordLatency (GetSourceChainID e) (GetDestinationChainID e) (GetSourceTxTime e)
        recvTxTime metrics.IBCV2SendToRecvRelayType
  end.

Definition RecordRecvRelayed (e : IBCV2Transfer) : M X unit :=
  record (metrics.AddRelayCompleted (GetSourceChainID e) (GetPacketSourceClientID e)
    (GetDestinationChainID e) (GetPacketDestinationClientID e)
    metrics.IBCV2SendToRecvRelayType).

Definition RecordSendTimeoutLatency (e : IBCV2Transfer) : M X unit :=
  match GetTimeoutTxTime e with
  | None => mret tt
  | Some timeoutTxTime =>
      RecordLatency (GetSourceChainID e) (GetDestinationChainID e) (GetSourceTxTime e)
        timeoutTxTime metrics.IBCV2SendToTimeoutRelayType
  end.

Definition RecordTimeoutRelayed (e : IBCV2Transfer) : M X unit :=
  record (metrics.AddRelayCompleted (GetSourceChainID e) (GetPacketSourceClientID e)
    (GetDestinationChainID e) (GetPacketDestinationClientID e)
    metrics.IBCV2SendToRecvRelayType).

Definition RecordAckRecvLatency (e : IBCV2Transfer) : M X unit :=
  match GetAckTxTime e with
  | None => mret tt
  | Some ackTxTime =>
      match GetRecvTxTime e with
      | None => mret tt
      | Some recvTxTime =>
          RecordLatency (GetDestinationChainID e) (GetSourceChainID e) recvTxTime ackTxTime
            metrics.IBCV2RecvToAckRelayType
      end
  end.

Definition RecordAckRelayed (e : IBCV2Transfer) : M X unit :=
  record (metrics.AddRelayCompleted (GetDestinationChainID e) (GetPacketDestinationClientID e)
    (GetSourceChainID e) (GetPacketSourceClientID e) metrics.IBCV2RecvToAckRelayType).

Definition RecordTransactionRetried (relayType : metrics.RelayType) (e : IBCV2Transfer)
    : M X unit :=
  match config.GetChainConfig env_config (GetSourceChainID e) with
  | Ret sourceConfig =>
      match config.GetChainConfig env_config (GetDestinationChainID e) with
      | Ret destConfig =>
          record (metrics.AddTransactionRetryAttempt (GetSourceChainID e)
            (GetDestinationChainID e) (config.ChainName sourceConfig)
            (config.ChainName destConfig) (config.Environment sourceConfig) relayType)
      | _ => mret tt
      end
  | _ => mret tt
  end.

Definition ongoingRelayType (shouldRelaySuccessAcks shouldRelayErrorAcks : bool)
    (e : IBCV2Transfer) : M X (option metrics.RelayType) :=
  complete ← IsComplete_logged shouldRelaySuccessAcks shouldRelayErrorAcks e;
  if complete : bool then mret None
  else if negb (has (GetWriteAckTxHash e)) then
    now ← Now;
    if After now (GetPacketTimeoutTimestamp e)
    then mret (Some metrics.IBCV2SendToTimeoutRelayType)
    else mret (Some metrics.IBCV2SendToRecvRelayType)
  else mret (Some metrics.IBCV2RecvToAckRelayType).

Definition evmSourceExcessiveLatency : Duration := 60 * Minute.
Definition evmSourceFinality : Duration := 15 * Minute.
Definition cosmosSourceExcessiveLatency : Duration := 30 * Minute.

(** The alert shared by the branches: [time.Since(start) > limit] on a chain
    of the given type. The arguments of the warning read the clock again. *)
Definition alert_if (c : config.ChainConfig) (chainType : config.ChainType) (start : Time)
    (limit : Duration) (msg : string) (ev : metrics.event) : M X unit :=
  if bool_decide (config.ChainConfig_Type c = chainType) then
    since ← Since start;
    if bool_decide (limit < since) then
      Since start ≫= λ _,
      logger Warn msg ≫= λ _,
      record ev
    else mret tt
  else mret tt.

(** [sourceConfig.IBCV2] is a pointer that is dereferenced without a test. *)
Definition AlertOnExcessiveRelayLatency (e : IBCV2Transfer) : M X unit :=
  match config.GetChainConfig env_config (GetSourceChainID e),
        config.GetChainConfig env_config (GetDestinationChainID e) with
  | Ret sourceConfig, Ret destConfig =>
      ibcv2 ← deref (config.IBCV2 sourceConfig);
      ongoing ← ongoingRelayType (config.ShouldRelaySuccessAcks ibcv2)
                  (config.ShouldRelayErrorAcks ibcv2) e;
      match ongoing with
      | None => mret tt
      | Some metrics.IBCV2SendToRecvRelayType =>
          let ev := metrics.AddExcessiveRelayLatencyObservation
                      (config.ChainName sourceConfig) (config.ChainName destConfig)
                      (config.Environment sourceConfig) metrics.IBCV2SendToRecvRelayType in
          alert_if sourceConfig config.ChainType_EVM (GetSourceTxTime e)
            evmSourceExcessiveLatency "excessive recv packet relay latency" ev ≫= λ _,
          alert_if sourceConfig config.ChainType_COSMOS (GetSourceTxTime e)
            cosmosSourceExcessiveLatency "excessive recv packet relay latency" ev
      | Some metrics.IBCV2RecvToAckRelayType =>
          let writeAckTime := default zero_time (GetWriteAckTxTime e) in
          let ev := metrics.AddExcessiveRelayLatencyObservation
                      (config.ChainName destConfig) (config.ChainName sourceConfig)
                      (config.Environment sourceConfig) metrics.IBCV2RecvToAckRelayType in
          alert_if destConfig config.ChainType_EVM writeAckTime
            evmSourceExcessiveLatency "excessive ack packet relay latency" ev ≫= λ _,
          alert_if destConfig config.ChainType_COSMOS writeAckTime
            cosmosSourceExcessiveLatency "excessive ack packet relay latency" ev
      | Some metrics.IBCV2SendToTimeoutRelayType =>
          since ← Since (GetPacketTimeoutTimestamp e);
          if bool_decide (since < 5 * Minute) then mret tt
          else
            young ← (if bool_decide (config.ChainConfig_Type sourceConfig = config.ChainType_EVM)
                     then d ← Since (GetSourceTxTime e);
                          mret (bool_decide (d < evmSourceFinality))
                     else mret false);
            if young : bool then mret tt
            else
              Since (GetSourceTxTime e) ≫= λ _,
              logger Warn "excessive timeout packet relay latency" ≫= λ _,
              record (metrics.AddExcessiveRelayLatencyObservation
                (config.ChainName sourceConfig) (config.ChainName destConfig)
                (config.Environment sourceConfig) metrics.IBCV2SendToTimeoutRelayType)
      end
  | _, _ => mret tt
  end.

(** ** Metrics leave the rest of the world alone *)

(** A call that only reads the clock, logs and records metrics. *)
Definition silent {A} (m : M X A) : Prop :=
  ∀ x d h mt lg, wp m (λ o w, (∃ a, o = Ret a) ∧ w_db w = d ∧ w_heap w = h)
                   (mkWorld x d h mt lg).

Lemma wp_silent {A} (m : M X A) Q x d h mt lg :
  silent m → (∀ a x' mt' lg', Q (Ret a) (mkWorld x' d h mt' lg')) →
  wp m Q (mkWorld x d h mt lg).
Proof.
  intros Hm HQ. specialize (Hm x d h mt lg). unfold wp in *.
  destruct (m _) as [o [x' d' h' mt' lg']]; simpl in *.
  destruct Hm as ([a ->] & -> & ->). auto.
Qed.

Ltac silent_tac := intros x d h mt lg; wp_auto; simpl; eauto.

Lemma RecordLatency_silent a b f t r : silent (RecordLatency a b f t r).
Proof. unfold RecordLatency. silent_tac. Qed.

Lemma RecordRecvSendLatency_silent e : silent (RecordRecvSendLatency e).
Proof.
  unfold RecordRecvSendLatency. destruct (GetRecvTxTime e); [apply RecordLatency_silent|silent_tac].
Qed.

Lemma RecordRecvRelayed_silent e : silent (RecordRecvRelayed e).
Proof. unfold RecordRecvRelayed. silent_tac. Qed.

Lemma RecordSendTimeoutLatency_silent e : silent (RecordSendTimeoutLatency e).
Proof.
  unfold RecordSendTimeoutLatency.
  destruct (GetTimeoutTxTime e); [apply RecordLatency_silent|silent_tac].
Qed.

Lemma RecordTimeoutRelayed_silent e : silent (RecordTimeoutRelayed e).
Proof. unfold RecordTimeoutRelayed. silent_tac. Qed.

Lemma RecordAckRecvLatency_silent e : silent (RecordAckRecvLatency e).
Proof.
  unfold RecordAckRecvLatency.
  destruct (GetAckTxTime e), (GetRecvTxTime e); (apply RecordLatency_silent || silent_tac).
Qed.

Lemma RecordAckRelayed_silent e : silent (RecordAckRelayed e).
Proof. unfold RecordAckRelayed. silent_tac. Qed.

Lemma RecordTransactionRetried_silent r e : silent (RecordTransactionRetried r e).
Proof. unfold RecordTransactionRetried. silent_tac. Qed.

Lemma IsComplete_logged_wp s r e Q x d h mt lg :
  (∀ lg', Q (Ret (IsComplete s r e)) (mkWorld x d h mt lg')) →
  wp (IsComplete_logged s r e) Q (mkWorld x d h mt lg).
Proof. unfold IsComplete_logged. intros. wp_auto; auto. Qed.

Lemma alert_if_silent c ct start limit msg ev : silent (alert_if c ct start limit msg ev).
Proof. unfold alert_if. silent_tac. Qed.

Lemma ongoingRelayType_silent s r e : silent (ongoingRelayType s r e).
Proof. unfold ongoingRelayType, IsComplete_logged. silent_tac. Qed.
End transfer_metrics.

Create HintDb silence.
#[export] Hint Resolve RecordRecvSendLatency_silent RecordRecvRelayed_silent
  RecordSendTimeoutLatency_silent RecordTimeoutRelayed_silent RecordAckRecvLatency_silent
  RecordAckRelayed_silent RecordTransactionRetried_silent alert_if_silent
  ongoingRelayType_silent : silence.

(** [wp_step] that also steps over calls that only record metrics. *)
Ltac wp_go_step :=
  first
    [ wp_step
    | lazymatch goal with
      | |- wp (IsComplete_logged _ _ _) _ _ => apply IsComplete_logged_wp; intros ?
      | |- wp _ _ _ => apply wp_silent; [solve [auto with silence]|intros ? ? ? ?]
      end ].

Ltac wp_go := repeat (wp_go_step; cbn beta iota).

(** [wp_go] that uses what is known of the clients and of the database. *)
Ltac wp_known :=
  repeat (first
    [ lazymatch goal with
      | |- wp (GetClient _) _ _ => eapply wp_GetClient_known; [eassumption|]
      | |- wp (ext _) _ _ => eapply wp_ext_answers; [eassumption|intros ?]
      | |- wp (exec _) _ _ => apply wp_exec_healthy; [assumption|intros ? ?]
      end
    | wp_go_step ]; cbn beta iota).

(** [wp_go] that also opens the definitions it meets. *)
Ltac head_of m :=
  lazymatch m with
  | ?f _ => head_of f
  | _ => m
  end.

Ltac wp_open :=
  lazymatch goal with
  | |- wp ?m _ _ => let f := head_of m in unfold f; cbn beta iota
  end.

Ltac wp_run := simpl; repeat (progress wp_go || wp_open).

Section alert.
Context {X : Type} {E : Env X}.

(** With the source chain configured for IBC v2 the alert only reads the
    clock, logs and records. *)
Lemma AlertOnExcessiveRelayLatency_silent (e : IBCV2Transfer) :
  (∀ c, config.GetChainConfig env_config (GetSourceChainID e) = Ret c →
        is_Some (config.IBCV2 c)) →
  silent (AlertOnExcessiveRelayLatency e).
Proof.
  intros Hc x d h mt lg. unfold AlertOnExcessiveRelayLatency.
  destruct (config.GetChainConfig env_config (GetSourceChainID e)) as [c| |];
    [|wp_go; eauto..].
  destruct (config.GetChainConfig env_config (GetDestinationChainID e)); [|wp_go; eauto..].
  destruct (Hc c eq_refl) as [i ->]. wp_go; simpl; eauto.
Qed.
End alert.
