(* ===== verification/Processors.v ===== *)
(** * The processors of the relaying pipeline

    One group of definitions per file of [relayer/ibcv2]: the checks
    ([check_*.go]), the wait for the write acknowledgement
    ([wait_for_write_ack.go]), the retries ([retry_*.go]), the gas cost
    calculators ([*_tx_gas_calculator.go]) and the state finisher
    ([state_finisher.go]). The methods of a Go processor [P] are
    [P_ShouldProcess], [P_Process] and [P_Cancel]; its struct fields other than
    the bridge clients and the storage (which are the environment) are a record
    or arguments. A processor's four methods are bundled as an
    [IBCV2Processor], the interface of [processor_mw.go].

    Every [Process] reads the transfer once at its start: until it assigns to
    the transfer itself nothing else does. *)
From stdpp Require Import prelude strings list gmap.
From Stdlib Require Import ZArith.
From S2P Require Import Prelude Go Config Db Transfer World Wp TransferMetrics.
Open Scope Z_scope.

(** The interface [IBCV2Processor]: [ShouldProcess], [State], and the
    [Process] and [Cancel] of [pipeline.Processor]. *)
Record IBCV2Processor (X : Type) := mkIBCV2Processor {
  ShouldProcess : loc → M X bool;
  Processor_State : db.Ibcv2RelayStatus;
  Process : loc → M X loc;
  Cancel : loc → error → M X unit;
}.
Arguments mkIBCV2Processor {X}.
Arguments ShouldProcess {X}.
Arguments Processor_State {X}.
Arguments Process {X}.
Arguments Cancel {X}.

Section processors.
Context {X : Type} {E : Env X}.

(** ** check_recv_packet_delivery.go *)

Definition CheckRecvPacketDeliveryProcessor_Process (l : loc) : M X loc :=
  transfer ← load l;
  destinationBridgeClient ←
    wrap "getting bridge client for transfer destination chain"
      (GetClient (GetDestinationChainID transfer));
  received ←
    wrap "checking if packet is already received on destination chain"
      (ext (IsPacketReceived destinationBridgeClient
              (GetPacketDestinationClientID transfer)
              (uint64 (GetPacketSequenceNumber transfer))));
  if negb received then mret l
  else
    logger Info "packet already received on destination chain, searching chain for recv tx hash"
      ≫= λ _,
    found ←
      wrap "finding for recv tx hash for transfer"
        (ext (FindRecvTx destinationBridgeClient
                (GetPacketSourceClientID transfer)
                (GetPacketDestinationClientID transfer)
                (uint64 (GetPacketSequenceNumber transfer))
                (GetPacketTimeoutTimestamp transfer)));
    recvTx ← deref found;
    logger Info "found existing recv tx for packet on destination chain" ≫= λ _,
    wrap "updating transfer recv tx with existing tx hash"
      (exec (db.UpdateTransferRecvTx (Some (Hash recvTx)) (Some (Timestamp recvTx))
               (Some (RelayerAddress recvTx)) (update_key transfer))) ≫= λ _,
    modify l (λ t, with_RecvTxRelayerAddress (Some (RelayerAddress recvTx))
                     (with_RecvTxTime (Some (Timestamp recvTx))
                        (with_RecvTxHash (Some (Hash recvTx)) t))) ≫= λ _,
    mret l.

Definition CheckRecvPacketDeliveryProcessor_Cancel (l : loc) (err : error) : M X unit :=
  load l ≫= λ _,
  logger Error "checking if recv packet has already been delivered on the destination client".

Definition CheckRecvPacketDeliveryProcessor_ShouldProcess (l : loc) : M X bool :=
  transfer ← load l;
  mret (negb (has (GetRecvTxHash transfer)) && negb (has (GetAckTxHash transfer)) &&
        negb (has (GetTimeoutTxHash transfer))).

Definition NewCheckRecvPacketDeliveryProcessor : IBCV2Processor X :=
  mkIBCV2Processor CheckRecvPacketDeliveryProcessor_ShouldProcess
    db.Ibcv2RelayStatusCHECKRECVPACKETDELIVERY
    CheckRecvPacketDeliveryProcessor_Process CheckRecvPacketDeliveryProcessor_Cancel.

(** ** check_packet_commitment.go *)

(** The body of one goroutine of the errgroup. An error it returns (even the
    one that says the transaction was found) is only used to cancel the
    other's context. *)
Definition find_tx (warning found : string) (call : Ext X (option BridgeTx))
    : M X (option BridgeTx) :=
  r ← attempt (ext call);
  match r with
  | inr err =>
      if errors_Is err ErrTxNotFound && errors_Is err ContextCanceled then mret None
      else logger Warn warning ≫= λ _, mret None
  | inl p =>
      tx ← deref p;
      logger Info found ≫= λ _,
      mret (Some tx)
  end.

Definition find_ack_tx (c : BridgeClient X) (transfer : IBCV2Transfer) : M X (option BridgeTx) :=
  find_tx "error finding ack tx after packet commitment already found"
    "found existing ack packet for transfer"
    (FindAckTx c (GetPacketSourceClientID transfer) (GetPacketDestinationClientID transfer)
       (uint64 (GetPacketSequenceNumber transfer))).

Definition find_timeout_tx (c : BridgeClient X) (transfer : IBCV2Transfer)
    : M X (option BridgeTx) :=
  find_tx "error finding timeout tx after packet commitment already found"
    "found existing timeout packet for transfer"
    (FindTimeoutTx c (GetPacketSourceClientID transfer) (GetPacketDestinationClientID transfer)
       (uint64 (GetPacketSequenceNumber transfer))).

(** The two goroutines, in either order, then [g.Wait()]. *)
Definition find_ack_and_timeout_txs (c : BridgeClient X) (transfer : IBCV2Transfer)
    : M X (option BridgeTx * option BridgeTx) :=
  ack_first ← race;
  if ack_first : bool then
    ackTx ← find_ack_tx c transfer;
    timeoutTx ← find_timeout_tx c transfer;
    mret (ackTx, timeoutTx)
  else
    timeoutTx ← find_timeout_tx c transfer;
    ackTx ← find_ack_tx c transfer;
    mret (ackTx, timeoutTx).

Definition CheckPacketCommitmentProcessor_Process (l : loc) : M X loc :=
  transfer ← load l;
  sourceChainClient ←
    wrap "getting bridge client for transfer source chain"
      (GetClient (GetSourceChainID transfer));
  committed ←
    wrap "checking if packet is already ack'd on source chain"
      (ext (IsPacketCommitted sourceChainClient (GetPacketSourceClientID transfer)
              (uint64 (GetPacketSequenceNumber transfer))));
  if committed : bool then mret l
  else
    logger Info "no packet commitment exists for packet on source chain" ≫= λ _,
    txs ← find_ack_and_timeout_txs sourceChainClient transfer;
    match txs with
    | (Some _, Some _) =>
        fail (ErrorNew "found both timeout tx and ack tx packet, should not be possible")
    | (Some ackTx, None) =>
        wrap "updating transfer ack tx with existing tx hash"
          (exec (db.UpdateTransferAckTx (Some (Hash ackTx)) (Some (Timestamp ackTx))
                   (Some (RelayerAddress ackTx)) (update_key transfer))) ≫= λ _,
        modify l (λ t, with_AckTxRelayerAddress (Some (RelayerAddress ackTx))
                         (with_AckTxTime (Some (Timestamp ackTx))
                            (with_AckTxHash (Some (Hash ackTx)) t))) ≫= λ _,
        mret l
    | (None, Some timeoutTx) =>
        wrap "updating transfer timeout tx with existing tx hash"
          (exec (db.UpdateTransferTimeoutTx (Some (Hash timeoutTx)) (Some (Timestamp timeoutTx))
                   (Some (RelayerAddress timeoutTx)) (update_key transfer))) ≫= λ _,
        modify l (λ t, with_TimeoutTxRelayerAddress (Some (RelayerAddress timeoutTx))
                         (with_TimeoutTxTime (Some (Timestamp timeoutTx))
                            (with_TimeoutTxHash (Some (Hash timeoutTx)) t))) ≫= λ _,
        mret l
    | (None, None) =>
        fail (ErrorNew "could not find timeout tx or ack tx after packet commitment not found")
    end.

Definition CheckPacketCommitmentProcessor_Cancel (l : loc) (err : error) : M X unit :=
  load l ≫= λ _, logger Error "checking if packet commitment is found on the source client".

Definition CheckPacketCommitmentProcessor_ShouldProcess (l : loc) : M X bool :=
  transfer ← load l;
  mret (negb (has (GetAckTxHash transfer)) && negb (has (GetTimeoutTxHash transfer))).

Definition NewCheckPacketCommitmentProcessor : IBCV2Processor X :=
  mkIBCV2Processor CheckPacketCommitmentProcessor_ShouldProcess
    db.Ibcv2RelayStatusCHECKACKPACKETDELIVERY
    CheckPacketCommitmentProcessor_Process CheckPacketCommitmentProcessor_Cancel.

(** ** check_send_finality.go *)

Record CheckSendFinalityProcessor := mkCheckSendFinalityProcessor {
  csf_sourceChainID : string;
  csf_sourceFinalityOffset : option Z;
}.

Definition CheckSendFinalityProcessor_Process (processor : CheckSendFinalityProcessor)
    (l : loc) : M X loc :=
  transfer ← load l;
  sourceChainClient ←
    wrap "getting source bridge client for chain" (GetClient (GetSourceChainID transfer));
  finalized ←
    wrap "checking if tx is finalized on chain"
      (ext (IsTxFinalized sourceChainClient (GetSourceTxHash transfer)
              (csf_sourceFinalityOffset processor)));
  if negb finalized then fail (Sentinel ErrSendNotFinalized)
  else if negb (has (GetSourceTxFinalizedTime transfer)) then
    finalizedTime ← Now;
    wrap "updating source tx finalized time"
      (exec (db.UpdateTransferSourceTxFinalizedTime (Some finalizedTime) (update_key transfer)))
      ≫= λ _,
    modify l (with_SourceTxFinalizedTime (Some finalizedTime)) ≫= λ _,
    mret l
  else mret l.

Definition CheckSendFinalityProcessor_Cancel (l : loc) (err : error) : M X unit :=
  transfer ← load l;
  if errors_Is err ErrSendNotFinalized then
    since ← Since (GetSourceTxTime transfer);
    if bool_decide (Minute * 30 < since)
    then logger Warn "source transaction not finalized on source chain after 30 mins, is the node lagging behind?"
    else mret tt
  else logger Error "error checking finality of send tx".

Definition CheckSendFinalityProcessor_ShouldProcess (l : loc) : M X bool :=
  transfer ← load l;
  mret (negb (has (GetRecvTxHash transfer))).

Definition NewCheckSendFinalityProcessor (sourceChainID : string)
    (sourceFinalityOffset : option Z) : IBCV2Processor X :=
  mkIBCV2Processor CheckSendFinalityProcessor_ShouldProcess
    db.Ibcv2RelayStatusAWAITINGSENDFINALITY
    (CheckSendFinalityProcessor_Process
       (mkCheckSendFinalityProcessor sourceChainID sourceFinalityOffset))
    CheckSendFinalityProcessor_Cancel.

(** ** check_timeout_finality.go *)

Record CheckTimeoutFinalityProcessor := mkCheckTimeoutFinalityProcessor {
  ctf_destinationFinalityOffset : option Z;
}.

Definition CheckTimeoutFinalityProcessor_Process (processor : CheckTimeoutFinalityProcessor)
    (l : loc) : M X loc :=
  transfer ← load l;
  destinationChainClient ←
    wrap "getting destination bridge client for chain"
      (GetClient (GetDestinationChainID transfer));
  finalized ←
    wrap "checking timeout finality on chain"
      (ext (IsTimestampFinalized destinationChainClient (GetPacketTimeoutTimestamp transfer)
              (ctf_destinationFinalityOffset processor)));
  if negb finalized then fail (Sentinel ErrTimeoutNotFinalized)
  else mret l.

Definition CheckTimeoutFinalityProcessor_Cancel (l : loc) (err : error) : M X unit :=
  transfer ← load l;
  if errors_Is err ErrTimeoutNotFinalized then
    since ← Since (GetPacketTimeoutTimestamp transfer);
    if bool_decide (Minute * 30 < since)
    then logger Warn "packet timeout timestamp not finalized on transfer destination chain 30 minutes after packet timeout timestamp, is the node lagging behind?"
    else mret tt
  else logger Error "error checking finality of packet timeout timeout on transfer destination chain".

Definition CheckTimeoutFinalityProcessor_ShouldProcess (l : loc) : M X bool :=
  transfer ← load l;
  now ← Now;
  let shouldBeTimedOut :=
    IsTimedOut now transfer && negb (has (GetRecvTxHash transfer)) &&
    negb (has (GetAckTxHash transfer)) in
  mret (shouldBeTimedOut && negb (has (GetTimeoutTxHash transfer))).

Definition NewCheckTimeoutFinalityProcessor (destinationFinalityOffset : option Z)
    : IBCV2Processor X :=
  mkIBCV2Processor CheckTimeoutFinalityProcessor_ShouldProcess
    db.Ibcv2RelayStatusAWAITINGTIMEOUTFINALITY
    (CheckTimeoutFinalityProcessor_Process
       (mkCheckTimeoutFinalityProcessor destinationFinalityOffset))
    CheckTimeoutFinalityProcessor_Cancel.

(** ** check_write_ack_finality.go *)

Record CheckWriteAckFinalityProcessor := mkCheckWriteAckFinalityProcessor {
  cwf_destinationChainID : string;
  cwf_shouldRelaySuccessAcks : bool;
  cwf_shouldRelayErrorAcks : bool;
  cwf_destinationFinalityOffset : option Z;
}.

(** The update's key columns are not filled in by the code. *)
Definition CheckWriteAckFinalityProcessor_Process (processor : CheckWriteAckFinalityProcessor)
    (l : loc) : M X loc :=
  transfer ← load l;
  destinationChainClient ←
    wrap "getting source bridge client for chain" (GetClient (GetDestinationChainID transfer));
  match GetWriteAckTxHash transfer with
  | None => fail (ErrorNew "write ack tx hash not finalized, violates should process")
  | Some writeAckTxHash =>
      finalized ←
        wrap "checking if tx is finalized on chain"
          (ext (IsTxFinalized destinationChainClient writeAckTxHash
                  (cwf_destinationFinalityOffset processor)));
      if negb finalized then fail (Sentinel ErrWriteAckNotFinalized)
      else if negb (has (GetWriteAckTxFinalizedTime transfer)) then
        finalizedTime ← Now;
        wrap "updating write ack tx finalized time"
          (exec (db.UpdateTransferWriteAckTxFinalizedTime (Some finalizedTime) db.zero_key))
          ≫= λ _,
        modify l (with_WriteAckTxFinalizedTime (Some finalizedTime)) ≫= λ _,
        mret l
      else mret l
  end.

Definition CheckWriteAckFinalityProcessor_Cancel (l : loc) (err : error) : M X unit :=
  transfer ← load l;
  if errors_Is err ErrWriteAckNotFinalized then
    since ← Since (default zero_time (GetWriteAckTxTime transfer));
    if bool_decide (Minute * 30 < since)
    then logger Warn "write ack transaction not finalized on destination chain after 30 mins, is the node lagging behind?"
    else mret tt
  else logger Error "error checking finality of write ack tx".

Definition CheckWriteAckFinalityProcessor_ShouldProcess
    (processor : CheckWriteAckFinalityProcessor) (l : loc) : M X bool :=
  transfer ← load l;
  if negb (has (GetWriteAckTxHash transfer)) then mret false
  else match GetWriteAckStatus transfer with
       | None =>
           logger Warn "this is a bug! transfer does not have a write ack status when checking write ack finality"
             ≫= λ _, mret false
       | Some writeAckStatus =>
           mret ((isErrorAck writeAckStatus && cwf_shouldRelayErrorAcks processor) ||
                 (isSuccessAck writeAckStatus && cwf_shouldRelaySuccessAcks processor))
       end.

Definition NewCheckWriteAckFinalityProcessor (destinationChainID : string)
    (shouldRelaySuccessAcks shouldRelayErrorAcks : bool)
    (destinationFinalityOffset : option Z) : IBCV2Processor X :=
  let processor := mkCheckWriteAckFinalityProcessor destinationChainID
                     shouldRelaySuccessAcks shouldRelayErrorAcks destinationFinalityOffset in
  mkIBCV2Processor (CheckWriteAckFinalityProcessor_ShouldProcess processor)
    db.Ibcv2RelayStatusAWAITINGWRITEACKFINALITY
    (CheckWriteAckFinalityProcessor_Process processor)
    CheckWriteAckFinalityProcessor_Cancel.

(** ** wait_for_write_ack.go *)

(** From the status of the acknowledgement on: record it. *)
Definition record_write_ack (l : loc) (transfer : IBCV2Transfer) (recvHash : string)
    (status : db.Ibcv2WriteAckStatus) : M X loc :=
  RecordRecvSendLatency transfer ≫= λ _,
  RecordRecvRelayed transfer ≫= λ _,
  (if has (GetRecvTxTime transfer) then mret tt
   else logger Error "transfer has recv tx hash but not recv tx time") ≫= λ _,
  let recvTxTime := default zero_time (GetRecvTxTime transfer) in
  wrap "updating transfer with write ack tx hash, time and status"
    (exec (db.UpdateTransferWriteAckTx (Some recvHash) (Some recvTxTime) (Some status)
             (update_key transfer))) ≫= λ _,
  modify l (λ t, with_WriteAckStatus (Some status)
                   (with_WriteAckTxTime (Some recvTxTime)
                      (with_WriteAckTxHash (Some recvHash) t))) ≫= λ _,
  mret l.

Definition WaitForWriteAckPacket_Process (l : loc) : M X loc :=
  transfer ← load l;
  destinationChainClient ←
    wrap "getting client for transfer destination chain"
      (GetClient (GetDestinationChainID transfer));
  match GetRecvTxHash transfer with
  | None => fail (ErrorNew "transfer does not have recv tx hash, violating ShouldProcess")
  | Some recvHash =>
      r ← attempt (ext (PacketWriteAckStatus destinationChainClient recvHash
                          (uint64 (GetPacketSequenceNumber transfer))
                          (GetPacketSourceClientID transfer)
                          (GetPacketDestinationClientID transfer)));
      match r with
      | inr err =>
          if errors_Is err ErrWriteAckNotFoundForPacket then
            wrap "clearing transfer recv tx hash"
              (exec (db.ClearRecvTx (update_key transfer))) ≫= λ _,
            fail (ErrorNew "write ack for transfer not found in recv tx")
          else if negb (errors_Is err ErrWriteAckDecoding) then
            fail (Errorf "finding write ack for packet" err)
          else
            logger Warn "could not decode write ack data for packet, ack status is unknown"
              ≫= λ _,
            record_write_ack l transfer recvHash db.Ibcv2WriteAckStatusUNKNOWN
      | inl status => record_write_ack l transfer recvHash status
      end
  end.

Definition WaitForWriteAckPacket_Cancel (l : loc) (err : error) : M X unit :=
  load l ≫= λ _,
  if errors_Is err ErrTxNotFound then logger Debug "write ack tx not yet found on chain"
  else logger Error "error waiting for write ack packet".

Definition WaitForWriteAckPacket_ShouldProcess (l : loc) : M X bool :=
  transfer ← load l;
  mret ((has (GetRecvTxHash transfer) && negb (has (GetWriteAckTxHash transfer))) &&
        negb (has (GetTimeoutTxHash transfer))).

Definition NewWaitFoWriteAckPacketProcessor : IBCV2Processor X :=
  mkIBCV2Processor WaitForWriteAckPacket_ShouldProcess db.Ibcv2RelayStatusWAITFORWRITEACK
    WaitForWriteAckPacket_Process WaitForWriteAckPacket_Cancel.

(** ** retry_recv_packet.go *)

Definition RetryRecvExpiry : Duration := 2 * Minute.

Record RetryRecvPacketProcessor := mkRetryRecvPacketProcessor {
  retry_recv_destinationChainID : string;
}.

Definition RetryRecvPacketProcessor_Process (processor : RetryRecvPacketProcessor) (l : loc)
    : M X loc :=
  transfer ← load l;
  destinationChainClient ←
    wrap "getting client for transfer destination chain"
      (GetClient (retry_recv_destinationChainID processor));
  match GetRecvTxHash transfer with
  | None => fail (ErrorNew "transfer does not have recv tx hash, violates should process, this is a bug")
  | Some recvTxHash =>
      match GetRecvTxTime transfer with
      | None => fail (ErrorNew "transfer does not have a recv tx time, violates should process, this is a bug")
      | Some recvTxTime =>
          retry ←
            wrap "checking if transfer with recv tx hash should be retried"
              (ext (ShouldRetryTx destinationChainClient recvTxHash RetryRecvExpiry recvTxTime));
          if negb retry then mret l
          else
            wrap "clearing recv tx hash"
              (exec (db.ClearRecvTx (update_key transfer))) ≫= λ _,
            RecordTransactionRetried metrics.IBCV2SendToRecvRelayType transfer ≫= λ _,
            fail (Sentinel ErrRetryingRecvPacket)
      end
  end.

Definition RetryRecvPacketProcessor_Cancel (l : loc) (err : error) : M X unit :=
  load l ≫= λ _,
  if errors_Is err ErrRetryingRecvPacket then logger Warn "retrying recv packet tx"
  else if errors_Is err ErrTxNotFound then
    logger Debug "recv packet tx not yet found on chain, waiting for it to be found"
  else logger Error "error checking recv packet retry".

Definition RetryRecvPacketProcessor_ShouldProcess (l : loc) : M X bool :=
  transfer ← load l;
  mret (has (GetRecvTxHash transfer) && has (GetRecvTxTime transfer) &&
        negb (has (GetWriteAckTxHash transfer))).

Definition NewRetryRecvPacketProcessor (destinationChainID : string) : IBCV2Processor X :=
  mkIBCV2Processor RetryRecvPacketProcessor_ShouldProcess
    db.Ibcv2RelayStatusDELIVERRECVPACKET
    (RetryRecvPacketProcessor_Process (mkRetryRecvPacketProcessor destinationChainID))
    RetryRecvPacketProcessor_Cancel.

(** ** retry_ack_packet.go *)

Definition RetryAckExpiry : Duration := 2 * Minute.

Record RetryAckPacketProcessor := mkRetryAckPacketProcessor {
  retry_ack_sourceChainID : string;
}.

Definition RetryAckPacketProcessor_Process (processor : RetryAckPacketProcessor) (l : loc)
    : M X loc :=
  transfer ← load l;
  sourceChainClient ←
    wrap "getting client for transfer source chain"
      (GetClient (retry_ack_sourceChainID processor));
  match GetAckTxHash transfer with
  | None => fail (ErrorNew "transfer does not have ack tx hash, violates should process, this is a bug")
  | Some ackTxHash =>
      match GetAckTxTime transfer with
      | None => fail (ErrorNew "transfer does not have a ack tx time, violates should process, this is a bug")
      | Some ackTxTime =>
          retry ←
            wrap "checking if transfer with ack tx hash should be retried"
              (ext (ShouldRetryTx sourceChainClient ackTxHash RetryAckExpiry ackTxTime));
          if negb retry then mret l
          else
            logger Warn "clearing ack tx for retry" ≫= λ _,
            wrap "clearing ack tx hash"
              (exec (db.ClearAckTx (update_key transfer))) ≫= λ _,
            RecordTransactionRetried metrics.IBCV2RecvToAckRelayType transfer ≫= λ _,
            fail (Sentinel ErrRetryingAckPacket)
      end
  end.

Definition RetryAckPacketProcessor_Cancel (l : loc) (err : error) : M X unit :=
  load l ≫= λ _,
  if errors_Is err ErrRetryingAckPacket then logger Warn "retrying ack packet tx"
  else if errors_Is err ErrTxNotFound then
    logger Debug "ack packet tx not yet found on chain, waiting for it to be found"
  else logger Error "error checking ack packet retry".

Definition RetryAckPacketProcessor_ShouldProcess (l : loc) : M X bool :=
  transfer ← load l;
  mret (has (GetAckTxHash transfer) && has (GetAckTxTime transfer)).

Definition NewRetryAckPacketProcessor (sourceChainID : string) : IBCV2Processor X :=
  mkIBCV2Processor RetryAckPacketProcessor_ShouldProcess
    db.Ibcv2RelayStatusDELIVERACKPACKET
    (RetryAckPacketProcessor_Process (mkRetryAckPacketProcessor sourceChainID))
    RetryAckPacketProcessor_Cancel.

(** ** retry_timeout_packet.go *)

Definition RetryTimeoutExpiry : Duration := 2 * Minute.

Record RetryTimeoutPacketProcessor := mkRetryTimeoutPacketProcessor {
  retry_timeout_sourceChainID : string;
}.

Definition RetryTimeoutPacketProcessor_Process (processor : RetryTimeoutPacketProcessor) (l : loc)
    : M X loc :=
  transfer ← load l;
  sourceChainClient ←
    wrap "getting client for transfer source chain"
      (GetClient (retry_timeout_sourceChainID processor));
  match GetTimeoutTxHash transfer with
  | None => fail (ErrorNew "transfer does not have timeout tx hash, violates should process, this is a bug")
  | Some timeoutTxHash =>
      match GetTimeoutTxTime transfer with
      | None => fail (ErrorNew "transfer does not have a timeout tx time, violates should process, this is a bug")
      | Some timeoutTxTime =>
          retry ←
            wrap "checking if transfer with timeout tx hash should be retried"
              (ext (ShouldRetryTx sourceChainClient timeoutTxHash RetryTimeoutExpiry timeoutTxTime));
          if negb retry then mret l
          else
            logger Warn "clearing timeout tx for retry" ≫= λ _,
            wrap "clearing timeout tx hash"
              (exec (db.ClearTimeoutTx (update_key transfer))) ≫= λ _,
            RecordTransactionRetried metrics.IBCV2SendToTimeoutRelayType transfer ≫= λ _,
            fail (Sentinel ErrRetryingTimeoutPacket)
      end
  end.

Definition RetryTimeoutPacketProcessor_Cancel (l : loc) (err : error) : M X unit :=
  load l ≫= λ _,
  if errors_Is err ErrRetryingTimeoutPacket then logger Warn "retrying timeout packet tx"
  else if errors_Is err ErrTxNotFound then
    logger Debug "timeout packet tx not yet found on chain, waiting for it to be found"
  else logger Error "error checking timeout packet retry".

Definition RetryTimeoutPacketProcessor_ShouldProcess (l : loc) : M X bool :=
  transfer ← load l;
  mret (has (GetTimeoutTxHash transfer) && has (GetTimeoutTxTime transfer)).

Definition NewRetryTimeoutPacketProcessor (sourceChainID : string) : IBCV2Processor X :=
  mkIBCV2Processor RetryTimeoutPacketProcessor_ShouldProcess
    db.Ibcv2RelayStatusDELIVERTIMEOUTPACKET
    (RetryTimeoutPacketProcessor_Process (mkRetryTimeoutPacketProcessor sourceChainID))
    RetryTimeoutPacketProcessor_Cancel.

(** ** recv_tx_gas_calculator.go *)

Record RecvTxGasCalculatorProcessor := mkRecvTxGasCalculatorProcessor {
  recv_priceClient : string → Z → option Z → Ext X db.Numeric;
  recv_destinationChainGasTokenCoingeckoID : string;
  recv_destinationChainGasTokenDecimals : Z;
}.

Definition RecvTxGasCalculatorProcessor_Process (processor : RecvTxGasCalculatorProcessor)
    (l : loc) : M X loc :=
  transfer ← load l;
  destinationBridgeClient ←
    wrap "getting ibcv2 bridge client for transfer destination chain"
      (GetClient (GetDestinationChainID transfer));
  match GetRecvTxHash transfer with
  | None => fail (ErrorNew "this is a bug! transfer does not have a recv tx, violating should process")
  | Some recvTxHash =>
      gasCostInGasToken ←
        wrap "getting gas cost of recv tx" (ext (TxFee destinationBridgeClient recvTxHash));
      gasCostUSD ←
        wrap "getting usd value of recv tx gas cost"
          (ext (recv_priceClient processor (recv_destinationChainGasTokenCoingeckoID processor)
                  (recv_destinationChainGasTokenDecimals processor) gasCostInGasToken));
      wrap "updating transfer recv tx gas cost usd value"
        (exec (db.UpdateTransferRecvTxGasCostUSD gasCostUSD (update_key transfer))) ≫= λ _,
      mret l
  end.

Definition RecvTxGasCalculatorProcessor_Cancel (l : loc) (err : error) : M X unit :=
  load l ≫= λ _, logger Error "calculating recv packet gas cost".

Definition RecvTxGasCalculatorProcessor_ShouldProcess (l : loc) : M X bool :=
  transfer ← load l;
  if has (GetRecvGasCostUSD transfer) then mret false
  else mret (has (GetRecvTxHash transfer)).

Definition NewRecvTxGasCalculatorProcessor
    (priceClient : string → Z → option Z → Ext X db.Numeric)
    (destinationChainGasTokenCoingeckoID : string) (destinationChainGasTokenDecimals : Z)
    : IBCV2Processor X :=
  mkIBCV2Processor RecvTxGasCalculatorProcessor_ShouldProcess
    db.Ibcv2RelayStatusCALCULATINGRECVTXGASCOST
    (RecvTxGasCalculatorProcessor_Process
       (mkRecvTxGasCalculatorProcessor priceClient destinationChainGasTokenCoingeckoID
          destinationChainGasTokenDecimals))
    RecvTxGasCalculatorProcessor_Cancel.

(** ** ack_tx_gas_calculator.go *)

Record AckTxGasCalculatorProcessor := mkAckTxGasCalculatorProcessor {
  ack_priceClient : string → Z → option Z → Ext X db.Numeric;
  ack_sourceChainGasTokenCoingeckoID : string;
  ack_sourceChainGasTokenDecimals : Z;
}.

Definition AckTxGasCalculatorProcessor_Process (processor : AckTxGasCalculatorProcessor)
    (l : loc) : M X loc :=
  transfer ← load l;
  sourceBridgeClient ←
    wrap "getting ibcv2 bridge client for transfer source chain"
      (GetClient (GetSourceChainID transfer));
  match GetAckTxHash transfer with
  | None => fail (ErrorNew "this is a bug! transfer does not have a ack tx, violating should process")
  | Some ackTxHash =>
      gasCostInGasToken ←
        wrap "getting gas cost of ack tx" (ext (TxFee sourceBridgeClient ackTxHash));
      gasCostUSD ←
        wrap "getting usd value of ack tx gas cost"
          (ext (ack_priceClient processor (ack_sourceChainGasTokenCoingeckoID processor)
                  (ack_sourceChainGasTokenDecimals processor) gasCostInGasToken));
      wrap "updating transfer ack tx gas cost usd value"
        (exec (db.UpdateTransferAckTxGasCostUSD gasCostUSD (update_key transfer))) ≫= λ _,
      mret l
  end.

Definition AckTxGasCalculatorProcessor_Cancel (l : loc) (err : error) : M X unit :=
  load l ≫= λ _, logger Error "calculating ack packet gas cost".

Definition AckTxGasCalculatorProcessor_ShouldProcess (l : loc) : M X bool :=
  transfer ← load l;
  if has (GetAckGasCostUSD transfer) then mret false
  else mret (has (GetAckTxHash transfer)).

Definition NewAckTxGasCalculatorProcessor
    (priceClient : string → Z → option Z → Ext X db.Numeric)
    (sourceChainGasTokenCoingeckoID : string) (sourceChainGasTokenDecimals : Z)
    : IBCV2Processor X :=
  mkIBCV2Processor AckTxGasCalculatorProcessor_ShouldProcess
    db.Ibcv2RelayStatusCALCULATINGACKTXGASCOST
    (AckTxGasCalculatorProcessor_Process
       (mkAckTxGasCalculatorProcessor priceClient sourceChainGasTokenCoingeckoID
          sourceChainGasTokenDecimals))
    AckTxGasCalculatorProcessor_Cancel.

(** ** timeout_tx_gas_calculator.go *)

Record TimeoutTxGasCalculatorProcessor := mkTimeoutTxGasCalculatorProcessor {
  timeout_priceClient : string → Z → option Z → Ext X db.Numeric;
  timeout_sourceChainGasTokenCoingeckoID : string;
  timeout_sourceChainGasTokenDecimals : Z;
}.

Definition TimeoutTxGasCalculatorProcessor_Process (processor : TimeoutTxGasCalculatorProcessor)
    (l : loc) : M X loc :=
  transfer ← load l;
  sourceBridgeClient ←
    wrap "getting ibcv2 bridge client for transfer source chain"
      (GetClient (GetSourceChainID transfer));
  match GetTimeoutTxHash transfer with
  | None => fail (ErrorNew "this is a bug! transfer does not have a recv tx, violating should process")
  | Some timeoutTxHash =>
      gasCostInGasToken ←
        wrap "getting gas cost of timeout tx" (ext (TxFee sourceBridgeClient timeoutTxHash));
      gasCostUSD ←
        wrap "getting usd value of timeout tx gas cost"
          (ext (timeout_priceClient processor (timeout_sourceChainGasTokenCoingeckoID processor)
                  (timeout_sourceChainGasTokenDecimals processor) gasCostInGasToken));
      wrap "updating transfer timeout tx gas cost usd value"
        (exec (db.UpdateTransferTimeoutTxGasCostUSD gasCostUSD (update_key transfer))) ≫= λ _,
      mret l
  end.

Definition TimeoutTxGasCalculatorProcessor_Cancel (l : loc) (err : error) : M X unit :=
  load l ≫= λ _, logger Error "calculating timeout packet gas cost".

Definition TimeoutTxGasCalculatorProcessor_ShouldProcess (l : loc) : M X bool :=
  transfer ← load l;
  if has (GetTimeoutGasCostUSD transfer) then mret false
  else mret (has (GetTimeoutTxHash transfer)).

Definition NewTimeoutTxGasCalculatorProcessor
    (priceClient : string → Z → option Z → Ext X db.Numeric)
    (sourceChainGasTokenCoingeckoID : string) (sourceChainGasTokenDecimals : Z)
    : IBCV2Processor X :=
  mkIBCV2Processor TimeoutTxGasCalculatorProcessor_ShouldProcess
    db.Ibcv2RelayStatusCALCULATINGTIMEOUTTXGASCOST
    (TimeoutTxGasCalculatorProcessor_Process
       (mkTimeoutTxGasCalculatorProcessor priceClient sourceChainGasTokenCoingeckoID
          sourceChainGasTokenDecimals))
    TimeoutTxGasCalculatorProcessor_Cancel.

(** ** state_finisher.go *)

Record StateFinisher := mkStateFinisher {
  sf_shouldRelaySuccessAcks : bool;
  sf_shouldRelayErrorAcks : bool;
}.

(** Writing the final state that is already in the transfer. *)
Definition finish_state (l : loc) : M X loc :=
  transfer ← load l;
  r ← attempt (exec (db.UpdateTransferState (GetState transfer) (update_key transfer)));
  match r with
  | inr err =>
      logger Error "error updating transfer to finalized state" ≫= λ _,
      modify l (with_ProcessingError (Some (Errorf "updating transfer state" err)))
  | inl _ => mret tt
  end ≫= λ _,
  logger Info "transfer complete" ≫= λ _,
  mret l.

Definition StateFinisher_Process (processor : StateFinisher) (l : loc) : M X loc :=
  transfer ← load l;
  if negb (bool_decide (IBCV2Transfer_Error transfer = "")) then mret l
  else
    complete ← IsComplete_logged (sf_shouldRelaySuccessAcks processor)
                 (sf_shouldRelayErrorAcks processor) transfer;
    if negb complete then
      logger Warn "state finisher received transfer that is not errored and not complete"
        ≫= λ _, mret l
    else if has (GetTimeoutTxHash transfer) then
      modify l (with_State db.Ibcv2RelayStatusCOMPLETEWITHTIMEOUT) ≫= λ _,
      RecordSendTimeoutLatency transfer ≫= λ _,
      RecordTimeoutRelayed transfer ≫= λ _,
      finish_state l
    else
      match GetWriteAckStatus transfer with
      | None =>
          logger Warn "this is a bug! non timeout transfer is trying to be marked as complete without any write ack status, not marking as complete!"
            ≫= λ _, mret l
      | Some writeAckStatus =>
          if has (GetAckTxHash transfer) then
            modify l (with_State db.Ibcv2RelayStatusCOMPLETEWITHACK) ≫= λ _,
            RecordAckRecvLatency transfer ≫= λ _,
            RecordAckRelayed transfer ≫= λ _,
            finish_state l
          else
            (if isErrorAck writeAckStatus
             then modify l (with_State db.Ibcv2RelayStatusCOMPLETEWITHWRITEACKERROR)
             else mret tt) ≫= λ _,
            (if isSuccessAck writeAckStatus
             then modify l (with_State db.Ibcv2RelayStatusCOMPLETEWITHWRITEACKSUCCESS)
             else mret tt) ≫= λ _,
            finish_state l
      end.

Definition StateFinisher_Cancel (l : loc) (err : error) : M X unit :=
  load l ≫= λ _, logger Error "error updating transfer to finalized state".
End processors.
