(* ===== verification/Laws.v ===== *)
(** * What the processors promise

    The contract between a processor and the middleware that runs it, and the
    proof that every processor of [Processors.v] keeps it.

    - [synced]: a transfer in memory agrees with its database row.
    - [row_ok]: the life cycle of a row. A write acknowledgement is recorded
      only for the recorded recv transaction, and a completed row holds what
      its status says.
    - [ProcessorLaws]: from a synced transfer the processor stays within its
      own row, keeps the life cycle, and either returns the transfer synced
      again or fails with the transfer in memory untouched. An error it fails
      with has a non-empty message: the code tells an errored transfer by
      [Error() != ""]. *)
From stdpp Require Import prelude strings list gmap.
From Stdlib Require Import ZArith.
From S2P Require Import Prelude Go Config Db Transfer World Wp TransferMetrics Processors.
Open Scope Z_scope.

(** ** Relations between a transfer and its row *)

(** The two describe the same packet. *)
Record same_packet (t t' : IBCV2Transfer) : Prop := {
  same_SourceChainID : SourceChainID t' = SourceChainID t;
  same_DestinationChainID : DestinationChainID t' = DestinationChainID t;
  same_SourceTxHash : SourceTxHash t' = SourceTxHash t;
  same_SourceTxTime : SourceTxTime t' = SourceTxTime t;
  same_PacketSequenceNumber : PacketSequenceNumber t' = PacketSequenceNumber t;
  same_PacketSourceClientID : PacketSourceClientID t' = PacketSourceClientID t;
  same_PacketDestinationClientID : PacketDestinationClientID t' = PacketDestinationClientID t;
  same_PacketTimeoutTimestamp : PacketTimeoutTimestamp t' = PacketTimeoutTimestamp t;
}.

#[global] Instance same_packet_preorder : PreOrder same_packet.
Proof. split; [by split|]. intros ? ? ? [] []. split; congruence. Qed.

Lemma same_packet_update_key t t' : same_packet t t' → update_key t' = update_key t.
Proof.
  intros []. unfold update_key, GetSourceChainID, GetPacketSourceClientID,
    GetPacketSequenceNumber. congruence.
Qed.

(** Where the packet of a transfer is bound for. *)
Definition route (t : IBCV2Transfer) : string * string :=
  (DestinationChainID t, PacketDestinationClientID t).

Lemma same_packet_route t t' : same_packet t t' → route t' = route t.
Proof. intros []. unfold route. congruence. Qed.

Record synced (t : IBCV2Transfer) (r : db.Ibcv2Transfer) : Prop := {
  sync_key : update_key t = db.row_key r;
  sync_State : State t = db.Status r;
  sync_RecvTxHash : RecvTxHash t = db.RecvTxHash r;
  sync_RecvTxTime : RecvTxTime t = db.RecvTxTime r;
  sync_WriteAckTxHash : WriteAckTxHash t = db.WriteAckTxHash r;
  sync_WriteAckTxTime : WriteAckTxTime t = db.WriteAckTxTime r;
  sync_WriteAckStatus : WriteAckStatus t = db.WriteAckStatus r;
  sync_AckTxHash : AckTxHash t = db.AckTxHash r;
  sync_AckTxTime : AckTxTime t = db.AckTxTime r;
  sync_TimeoutTxHash : TimeoutTxHash t = db.TimeoutTxHash r;
  sync_TimeoutTxTime : TimeoutTxTime t = db.TimeoutTxTime r;
  sync_SourceTxFinalizedTime : SourceTxFinalizedTime t = db.SourceTxFinalizedTime r;
}.

(** A transfer that has just been read is synced with its row. *)
Lemma NewIBCV2Transfer_synced r :
  is_int32 (db.PacketSequenceNumber r) → synced (NewIBCV2Transfer r) r.
Proof. intros. split; try done. by apply update_key_NewIBCV2Transfer. Qed.

(** The life cycle of a row. *)
Record row_ok (r : db.Ibcv2Transfer) : Prop := {
  ok_write_ack : ∀ h, db.WriteAckTxHash r = Some h →
    db.RecvTxHash r = Some h ∧ is_Some (db.WriteAckStatus r);
  ok_COMPLETEWITHACK : db.Status r = db.Ibcv2RelayStatusCOMPLETEWITHACK →
    is_Some (db.AckTxHash r) ∧ is_Some (db.WriteAckTxHash r);
  ok_COMPLETEWITHTIMEOUT : db.Status r = db.Ibcv2RelayStatusCOMPLETEWITHTIMEOUT →
    is_Some (db.TimeoutTxHash r);
  ok_COMPLETEWITHWRITEACKSUCCESS :
    db.Status r = db.Ibcv2RelayStatusCOMPLETEWITHWRITEACKSUCCESS →
    is_Some (db.WriteAckTxHash r) ∧
    db.WriteAckStatus r = Some db.Ibcv2WriteAckStatusSUCCESS;
  ok_COMPLETEWITHWRITEACKERROR :
    db.Status r = db.Ibcv2RelayStatusCOMPLETEWITHWRITEACKERROR →
    is_Some (db.WriteAckTxHash r) ∧
    (db.WriteAckStatus r = Some db.Ibcv2WriteAckStatusERROR ∨
     db.WriteAckStatus r = Some db.Ibcv2WriteAckStatusUNKNOWN);
}.

(** A row that is not in a terminal state only has to keep the first clause. *)
Lemma row_ok_unfinished r :
  db.unfinished (db.Status r) = true →
  (∀ h, db.WriteAckTxHash r = Some h →
     db.RecvTxHash r = Some h ∧ is_Some (db.WriteAckStatus r)) →
  row_ok r.
Proof. intros Hu Hw. split; [done|..]; intros Hs; rewrite Hs in Hu; discriminate. Qed.

(** ** The contract *)

Section laws.
Context {X : Type}.

(** After a call for the transfer [t] at [l], from heap [h] and tables [d]. *)
Definition process_post (l : loc) (t : IBCV2Transfer) (h : gmap loc IBCV2Transfer)
    (d : db.Database) (o : outcome loc) (w : World X) : Prop :=
  db_local (update_key t) d (w_db w) ∧
  ∃ r', db.row (update_key t) (w_db w) = Some r' ∧ row_ok r' ∧ db.Status r' = State t ∧
    match o with
    | Ret l' =>
        l' = l ∧ ∃ t', w_heap w = <[l := t']> h ∧ same_packet t t' ∧
          ProcessingError t' = None ∧ synced t' r'
    | Fail e => error_string e ≠ "" ∧ w_heap w = h
    | Panic => w_heap w = h
    end.

(** A call that changes neither the tables nor the heap. *)
Definition unchanged {A} (d : db.Database) (h : gmap loc IBCV2Transfer) (P : outcome A → Prop)
    (o : outcome A) (w : World X) : Prop :=
  w_db w = d ∧ w_heap w = h ∧ P o.

Class ProcessorLaws (p : IBCV2Processor X) := {
  (** What [ShouldProcess] guarantees when it says yes. *)
  pre : IBCV2Transfer → Prop;
  law_pre_state : ∀ t s, pre t → pre (with_State s t);
  law_unfinished : db.unfinished (Processor_State p) = true;
  law_should : ∀ l t x d h mt lg, h !! l = Some t →
    wp (ShouldProcess p l) (unchanged d h (λ o, ∃ b, o = Ret b ∧ (b = true → pre t)))
      (mkWorld x d h mt lg);
  law_process : ∀ l t r x d h mt lg,
    h !! l = Some t → pre t → ProcessingError t = None → State t = Processor_State p →
    update_key t ≠ db.zero_key → db.row (update_key t) d = Some r → synced t r → row_ok r →
    wp (Process p l) (process_post l t h d) (mkWorld x d h mt lg);
  law_cancel : ∀ l t err x d h mt lg, h !! l = Some t →
    wp (Cancel p l err) (unchanged d h (λ o, o = Ret tt)) (mkWorld x d h mt lg);
}.
End laws.

Arguments pre {X} p {_}.
Arguments process_post : simpl never.

(** ** Ways to end *)

Section endings.
Context {X : Type}.
Context (l : loc) (t : IBCV2Transfer) (r : db.Ibcv2Transfer)
  (h : gmap loc IBCV2Transfer) (d : db.Database).
Context (Hl : h !! l = Some t) (Herr : ProcessingError t = None)
  (Hrow : db.row (update_key t) d = Some r) (Hsync : synced t r) (Hok : row_ok r).

(** Nothing was done. *)
Lemma post_nothing (x : X) mt lg : process_post l t h d (Ret l) (mkWorld x d h mt lg).
Proof.
  split; [done|]. exists r. split_and!; [done|done|symmetry; by apply sync_State|done|].
  exists t. by rewrite insert_id.
Qed.

Lemma post_error e (x : X) mt lg :
  error_string e ≠ "" → process_post l t h d (Fail e) (mkWorld x d h mt lg).
Proof. intros He. split; [done|]. exists r. split_and!; try done. symmetry. by apply sync_State. Qed.

Lemma post_panic (x : X) mt lg : process_post l t h d Panic (mkWorld x d h mt lg).
Proof. split; [done|]. exists r. split_and!; try done. symmetry. by apply sync_State. Qed.

(** The row was written and the transfer assigned accordingly. *)
Lemma post_written q f g (x : X) mt lg :
  db.is_row_update (update_key t) q f →
  row_ok (f r) → synced (g t) (f r) → same_packet t (g t) →
  ProcessingError (g t) = None → State (g t) = State t →
  process_post l t h d (Ret l) (mkWorld x (q d) (alter g l h) mt lg).
Proof.
  intros Hq Hok' Hs' Hp He HS. split; [by eapply row_update_local|]. exists (f r). simpl.
  rewrite (db.row_update_row_eq Hq), Hrow.
  split_and!; [done|done|rewrite <- HS; symmetry; by apply sync_State|done|].
  exists (g t). split_and!; try done.
  apply map_eq. intros l'. destruct (decide (l = l')) as [<-|Hne].
  - by rewrite lookup_alter_eq, Hl, lookup_insert_eq.
  - by rewrite lookup_alter_ne, lookup_insert_ne.
Qed.

(** Only the row was written. *)
Lemma post_row_only q f (x : X) mt lg :
  db.is_row_update (update_key t) q f → row_ok (f r) → synced t (f r) →
  process_post l t h d (Ret l) (mkWorld x (q d) h mt lg).
Proof.
  intros Hq Hok' Hs'. split; [by eapply row_update_local|]. exists (f r). simpl.
  rewrite (db.row_update_row_eq Hq), Hrow.
  split_and!; [done|done|symmetry; by apply sync_State|done|].
  exists t. by rewrite insert_id.
Qed.

(** The row was written and the call then failed. *)
Lemma post_written_error q f e (x : X) mt lg :
  error_string e ≠ "" →
  db.is_row_update (update_key t) q f → row_ok (f r) → db.Status (f r) = db.Status r →
  process_post l t h d (Fail e) (mkWorld x (q d) h mt lg).
Proof.
  intros He Hq Hok' Hs. split; [by eapply row_update_local|]. exists (f r). simpl.
  rewrite (db.row_update_row_eq Hq), Hrow. split_and!; try done.
  rewrite Hs. symmetry. by apply sync_State.
Qed.

(** The update hit the zero key, and the transfer was assigned. *)
Lemma post_zero_key q f g (x : X) mt lg :
  db.is_row_update db.zero_key q f → update_key t ≠ db.zero_key →
  synced (g t) r → same_packet t (g t) → ProcessingError (g t) = None →
  process_post l t h d (Ret l) (mkWorld x (q d) (alter g l h) mt lg).
Proof.
  intros Hq Hne Hs Hp He. split; [by eapply zero_update_local|]. exists r. simpl.
  rewrite (db.row_update_row_ne Hq) by done.
  split_and!; [done|done|symmetry; by apply sync_State|done|].
  exists (g t). split_and!; try done.
  apply map_eq. intros l'. destruct (decide (l = l')) as [<-|Hne'].
  - by rewrite lookup_alter_eq, Hl, lookup_insert_eq.
  - by rewrite lookup_alter_ne, lookup_insert_ne.
Qed.
End endings.

(** ** The processors keep the contract *)

Lemma has_negb {A} (o : option A) : negb (has o) = true → o = None.
Proof. by destruct o. Qed.

(** [ShouldProcess] and [Cancel]: run to the end, nothing has changed. *)
Ltac law_reads :=
  intros; wp_run; unfold unchanged; simpl; split_and!; eauto;
  try (eexists; split; [reflexivity|]; rewrite ?andb_true_iff; intros; destruct_and?;
       split_and?; by (apply has_negb || apply has_true)).

(** The side conditions of the endings: [synced], [same_packet] and [row_ok]
    after an update. *)
Ltac law_side :=
  match goal with
  | |- db.is_row_update _ _ _ => solve [eauto with dbquery]
  | Hsync : synced _ _ |- synced _ _ => by destruct Hsync; split; simpl; try done; congruence
  | |- same_packet _ _ => by split
  | HS : State _ = _, Hsync : synced _ _, Hok : row_ok _ |- row_ok _ =>
      let H := fresh in
      unfold GetRecvTxHash in *;
      pose proof (ok_write_ack _ Hok) as H;
      destruct Hsync; apply row_ok_unfinished; simpl in *;
      [ repeat match goal with Hs : State _ = db.Status _ |- _ => rewrite <- Hs; clear Hs end;
        by rewrite HS
      | intros; destruct_and?;
        first [by split; [congruence|eexists] | simplify_eq; naive_solver congruence] ]
  | _ => done
  end.

(** [Process]: run to the end, and recognise how it ended. *)
Ltac law_process_tac :=
  intros l t r x d h mt lg Hl Hpre Herr HS Hz Hrow Hsync Hok; wp_run; simpl;
  first
    [ by apply (post_nothing l t r h d)
    | apply (post_error l t r h d); [done|done|done|]; apply Errorf_string_nonempty || done
    | by apply (post_panic l t r h d)
    | eapply (post_written l t r h d); eauto; law_side
    | eapply (post_row_only l t r h d); eauto; law_side
    | eapply (post_written_error l t r h d); eauto; law_side
    | eapply (post_zero_key l t r h d); eauto; law_side
    | idtac ].

(** The whole contract, given what [ShouldProcess] guarantees. *)
Ltac processor_laws P :=
  refine {| pre := P |}; [done|done|law_reads|law_process_tac|law_reads].

Section instances.
Context {X : Type} {E : Env X}.

#[global] Instance CheckRecvPacketDelivery_laws :
  ProcessorLaws NewCheckRecvPacketDeliveryProcessor.
Proof. processor_laws (λ t, RecvTxHash t = None). Qed.

#[global] Instance CheckPacketCommitment_laws : ProcessorLaws NewCheckPacketCommitmentProcessor.
Proof. processor_laws (λ _ : IBCV2Transfer, True). Qed.

#[global] Instance CheckSendFinality_laws chain offset :
  ProcessorLaws (NewCheckSendFinalityProcessor chain offset).
Proof. processor_laws (λ _ : IBCV2Transfer, True). Qed.

#[global] Instance CheckTimeoutFinality_laws offset :
  ProcessorLaws (NewCheckTimeoutFinalityProcessor offset).
Proof. processor_laws (λ _ : IBCV2Transfer, True). Qed.

#[global] Instance CheckWriteAckFinality_laws chain success errors offset :
  ProcessorLaws (NewCheckWriteAckFinalityProcessor chain success errors offset).
Proof. processor_laws (λ _ : IBCV2Transfer, True). Qed.

#[global] Instance WaitForWriteAck_laws : ProcessorLaws NewWaitFoWriteAckPacketProcessor.
Proof. processor_laws (λ t, WriteAckTxHash t = None). Qed.

#[global] Instance RetryRecvPacket_laws chain :
  ProcessorLaws (NewRetryRecvPacketProcessor chain).
Proof. processor_laws (λ t, WriteAckTxHash t = None). Qed.

#[global] Instance RetryAckPacket_laws chain : ProcessorLaws (NewRetryAckPacketProcessor chain).
Proof. processor_laws (λ _ : IBCV2Transfer, True). Qed.

#[global] Instance RetryTimeoutPacket_laws chain :
  ProcessorLaws (NewRetryTimeoutPacketProcessor chain).
Proof. processor_laws (λ _ : IBCV2Transfer, True). Qed.

#[global] Instance RecvTxGasCalculator_laws price id decimals :
  ProcessorLaws (NewRecvTxGasCalculatorProcessor price id decimals).
Proof. processor_laws (λ _ : IBCV2Transfer, True). Qed.

#[global] Instance AckTxGasCalculator_laws price id decimals :
  ProcessorLaws (NewAckTxGasCalculatorProcessor price id decimals).
Proof. processor_laws (λ _ : IBCV2Transfer, True). Qed.

#[global] Instance TimeoutTxGasCalculator_laws price id decimals :
  ProcessorLaws (NewTimeoutTxGasCalculatorProcessor price id decimals).
Proof. processor_laws (λ _ : IBCV2Transfer, True). Qed.
End instances.
