(* ===== verification/ProcessorMW.v ===== *)
(** * The processor middleware

    Models [relayer/ibcv2/processor_mw.go]: the wrapper of every processor of
    the pipeline, which skips errored and failed transfers, tracks the state of
    a transfer in the database and in memory, and turns an error of the inner
    processor into the transfer's [ProcessingError]; and its batch variant. *)
From stdpp Require Import prelude strings list gmap.
From Stdlib Require Import ZArith.
From S2P Require Import Prelude Go Config Db Transfer World Wp TransferMetrics Processors.
Open Scope Z_scope.

(** The interface [IBCV2BatchProcessor]. *)
Record IBCV2BatchProcessor (X : Type) := mkIBCV2BatchProcessor {
  Batch_ShouldProcess : loc → M X bool;
  Batch_State : db.Ibcv2RelayStatus;
  Batch_Process : list loc → M X (list loc);
  Batch_Cancel : list loc → error → M X unit;
}.
Arguments mkIBCV2BatchProcessor {X}.
Arguments Batch_ShouldProcess {X}.
Arguments Batch_State {X}.
Arguments Batch_Process {X}.
Arguments Batch_Cancel {X}.

Section middleware.
Context {X : Type} {E : Env X}.

(** ** Single transfers *)

Definition IBCV2ProcessorMW_Cancel (internal : IBCV2Processor X) (input : option loc)
    (err : error) : M X unit :=
  match input with
  | None => mret tt
  | Some l => Cancel internal l err
  end.

(** [input.Error()] reads a field of [*input], so the test for a nil [input]
    that follows it in the code comes too late. *)
Definition IBCV2ProcessorMW_Process (internal : IBCV2Processor X) (input : option loc)
    : M X (option loc) :=
  l ← deref input;
  transfer ← load l;
  if negb (bool_decide (IBCV2Transfer_Error transfer = "")) || is_nil input then mret input
  else if bool_decide (GetState transfer = db.Ibcv2RelayStatusFAILED) then mret input
  else
    should ← ShouldProcess internal l;
    if negb should then mret input
    else
      r ← attempt (exec (db.UpdateTransferState (Processor_State internal)
                           (update_key transfer)));
      match r with
      | inr err =>
          let wrapped := Errorf "updating transfer state" err in
          IBCV2ProcessorMW_Cancel internal input wrapped ≫= λ _,
          modify l (with_ProcessingError (Some wrapped)) ≫= λ _,
          mret input
      | inl _ =>
          modify l (with_State (Processor_State internal)) ≫= λ _,
          logger Debug "processing transfer at state" ≫= λ _,
          r ← attempt (Process internal l);
          match r with
          | inr err =>
              if errors_Is err ContextCanceled then fail err
              else
                IBCV2ProcessorMW_Cancel internal input err ≫= λ _,
                modify l (with_ProcessingError (Some err)) ≫= λ _,
                mret input
          | inl output =>
              logger Debug "successfully processed transfer at state" ≫= λ _,
              mret (Some output)
          end
      end.

(** ** Batches *)

(** The loop that splits a batch into [notProcessing] and [toProcess]. When
    the state update fails the code goes on past the [if]: the transfer is
    added to both. *)
Fixpoint split_batch (internal : IBCV2BatchProcessor X) (batch notProcessing toProcess : list loc)
    : M X (list loc * list loc) :=
  match batch with
  | [] => mret (notProcessing, toProcess)
  | input :: batch' =>
      transfer ← load input;
      if negb (bool_decide (IBCV2Transfer_Error transfer = "")) then
        split_batch internal batch' (notProcessing ++ [input]) toProcess
      else if bool_decide (GetState transfer = db.Ibcv2RelayStatusFAILED) then
        split_batch internal batch' (notProcessing ++ [input]) toProcess
      else
        should ← Batch_ShouldProcess internal input;
        if negb should then
          split_batch internal batch' (notProcessing ++ [input]) toProcess
        else
          r ← attempt (exec (db.UpdateTransferState (Batch_State internal)
                               (update_key transfer)));
          notProcessing' ←
            match r with
            | inr err =>
                let wrapped := Errorf "updating transfer state" err in
                Batch_Cancel internal [input] wrapped ≫= λ _,
                modify input (with_ProcessingError (Some wrapped)) ≫= λ _,
                mret (notProcessing ++ [input])
            | inl _ => mret notProcessing
            end;
          modify input (with_State (Batch_State internal)) ≫= λ _,
          split_batch internal batch' notProcessing' (toProcess ++ [input])
  end.

Definition IBCV2BatchProcessorMW_Cancel (internal : IBCV2BatchProcessor X) (input : list loc)
    (err : error) : M X unit :=
  Batch_Cancel internal input err.

Definition IBCV2BatchProcessorMW_Process (internal : IBCV2BatchProcessor X) (batch : list loc)
    : M X (list loc) :=
  logger Debug "processing transfer batch" ≫= λ _,
  split ← split_batch internal batch [] [];
  let '(notProcessing, toProcess) := split in
  r ← attempt (Batch_Process internal toProcess);
  match r with
  | inr err =>
      if errors_Is err ContextCanceled then fail err
      else
        IBCV2BatchProcessorMW_Cancel internal toProcess err ≫= λ _,
        forM toProcess (λ input, modify input (with_ProcessingError (Some err))) ≫= λ _,
        mret (toProcess ++ notProcessing)
  | inl output => mret (output ++ notProcessing)
  end.

Definition IBCV2BatchProcessorMW_ShouldProcess (internal : IBCV2BatchProcessor X) (input : loc)
    : M X bool :=
  Batch_ShouldProcess internal input.

Definition IBCV2BatchProcessorMW_State (internal : IBCV2BatchProcessor X)
    : db.Ibcv2RelayStatus :=
  Batch_State internal.

(** The middleware around a batch processor is one itself. *)
Definition NewIBCV2BatchProcessorMW (internal : IBCV2BatchProcessor X) : IBCV2BatchProcessor X :=
  mkIBCV2BatchProcessor (IBCV2BatchProcessorMW_ShouldProcess internal)
    (IBCV2BatchProcessorMW_State internal) (IBCV2BatchProcessorMW_Process internal)
    (IBCV2BatchProcessorMW_Cancel internal).
End middleware.
