(* ===== verification/MWLaws.v ===== *)
(** * What the middleware guarantees

    [db_wf] is the invariant of the database, [attached] what holds of a
    transfer in the pipeline: its row exists, and it is synced with the row
    unless it has errored. The middleware around any processor that keeps
    [ProcessorLaws] preserves both. *)
From stdpp Require Import prelude strings list gmap.
From Stdlib Require Import ZArith.
From S2P Require Import Prelude Go Config Db Transfer World Wp TransferMetrics Processors Laws.
From S2P Require Import ProcessorMW.
Open Scope Z_scope.

(** ** The database invariant *)

Record db_wf (d : db.Database) : Prop := {
  wf_index : db.index_ok d;
  wf_zero : db.zero_key ∉ map db.row_key (db.ibcv2_transfers d);
  wf_int32 : Forall (λ k, is_int32 (db.key_PacketSequenceNumber k))
               (map db.row_key (db.ibcv2_transfers d));
  wf_rows : ∀ k r, db.row k d = Some r → row_ok r;
}.

Lemma wf_zero_row d : db_wf d → db.row db.zero_key d = None.
Proof. intros Hwf. apply lookup_by_None, Hwf. Qed.

Lemma wf_row_not_zero d k r : db_wf d → db.row k d = Some r → k ≠ db.zero_key.
Proof. intros Hwf Hr ->. by rewrite wf_zero_row in Hr. Qed.

(** With no row at the zero key a change leaves all other rows alone. *)
Lemma within_row_ne ks k' d d' :
  db_within ks d d' → db_wf d → k' ∉ ks → db.row k' d' = db.row k' d.
Proof.
  intros Hl Hwf Hne. destruct (decide (k' = db.zero_key)) as [->|].
  - rewrite (wf_zero_row d) by done. eapply within_row_None; [done|by apply wf_zero_row].
  - by apply (within_others _ _ _ Hl).
Qed.

Lemma local_row_ne k k' d d' :
  db_local k d d' → db_wf d → k' ≠ k → db.row k' d' = db.row k' d.
Proof.
  intros Hl Hwf Hne. apply (within_row_ne [k]); [done|done|]. by rewrite list_elem_of_singleton.
Qed.

Lemma within_wf ks d d' :
  db_within ks d d' → db_wf d →
  (∀ k r, k ∈ ks → db.row k d' = Some r → row_ok r) → db_wf d'.
Proof.
  intros Hl Hwf Hrows. pose proof (within_keys _ _ _ Hl) as Hk. split.
  - eapply within_index_ok; [done|apply Hwf].
  - rewrite Hk. apply Hwf.
  - rewrite Hk. apply Hwf.
  - intros k' r Hr. destruct (decide (k' ∈ ks)) as [|Hn]; [eauto|].
    rewrite (within_row_ne ks k' d d') in Hr by done. by eapply wf_rows.
Qed.

Lemma local_wf k d d' r' :
  db_local k d d' → db_wf d → db.row k d' = Some r' → row_ok r' → db_wf d'.
Proof.
  intros Hl Hwf Hr Hok. eapply within_wf; [done|done|].
  intros k' r ->%list_elem_of_singleton ?. by simplify_eq.
Qed.

(** Moving a row to a state that is not terminal. *)
Lemma state_update_ok s r now :
  db.unfinished s = true → row_ok r → row_ok (db.set_Status s (db.set_UpdatedAt (Some now) r)).
Proof. intros Hs Hok. apply row_ok_unfinished; [done|]. apply Hok. Qed.

(** ** Transfers in the pipeline *)

Definition attached (d : db.Database) (t : IBCV2Transfer) : Prop :=
  ∃ r, db.row (update_key t) d = Some r ∧ route t = db.row_route r ∧
    match ProcessingError t with
    | None => synced t r
    | Some e => error_string e ≠ ""
    end.

(** A transfer is not affected by what is done to other packets; one that has
    errored is not affected by anything. *)
Lemma attached_frame ks d d' t :
  db_within ks d d' → db_wf d → (ProcessingError t = None → update_key t ∉ ks) →
  attached d t → attached d' t.
Proof.
  intros Hl Hwf Hne (r & Hr & Hro & Hs). unfold attached. destruct (ProcessingError t).
  - destruct (within_row_Some ks (update_key t) d d' r) as (r' & ? & ?); [done|done|].
    exists r'. split_and!; [done|congruence|done].
  - exists r. split; [|done]. by rewrite (within_row_ne ks (update_key t) d d') by auto.
Qed.

(** A transfer is attached again after its own row has changed. *)
Lemma attached_again ks d d' t t' r' :
  db_within ks d d' → attached d t → same_packet t t' → db.row (update_key t) d' = Some r' →
  match ProcessingError t' with None => synced t' r' | Some e => error_string e ≠ "" end →
  attached d' t'.
Proof.
  intros Hw (r & Hr & Hro & _) Hp Hr' Hm. exists r'.
  rewrite (same_packet_update_key t t'), (same_packet_route t t') by done.
  split_and!; [done| |done]. rewrite Hro.
  destruct (within_row_Some ks (update_key t) d d' r) as (r2 & Hr2 & <-); [done|done|]. congruence.
Qed.

(** The state update that precedes a processor. *)
Lemma state_updated s t r d now :
  db.unfinished s = true → db_wf d → db.row (update_key t) d = Some r → synced t r →
  db_local (update_key t) d (db.UpdateTransferState s (update_key t) now d) ∧
  db_wf (db.UpdateTransferState s (update_key t) now d) ∧
  ∃ r', db.row (update_key t) (db.UpdateTransferState s (update_key t) now d) = Some r' ∧
    synced (with_State s t) r'.
Proof.
  intros Hs Hwf Hr Hsync.
  pose proof (db.UpdateTransferState_row_update s (update_key t) now) as Hq.
  assert (db_local (update_key t) d (db.UpdateTransferState s (update_key t) now d))
    by (by eapply row_update_local).
  pose proof (db.row_update_row_eq Hq d) as Hr'. rewrite Hr in Hr'.
  split_and!; [done|eapply local_wf; eauto; by eapply state_update_ok, wf_rows|].
  eexists. split; [done|]. by destruct Hsync; split.
Qed.

(** A transfer whose error is empty has none. *)
Lemma attached_live d t :
  attached d t → IBCV2Transfer_Error t = "" → ProcessingError t = None.
Proof.
  intros (r & _ & _ & Hs). unfold IBCV2Transfer_Error. by destruct (ProcessingError t).
Qed.

(** ** The contract used as rules *)

Section law_rules.
Context {X : Type} (p : IBCV2Processor X) `{!ProcessorLaws p}.

Lemma wp_should l t Q (x : X) d h mt lg :
  h !! l = Some t →
  (∀ b x' mt' lg', (b = true → pre p t) → Q (Ret b) (mkWorld x' d h mt' lg')) →
  wp (ShouldProcess p l) Q (mkWorld x d h mt lg).
Proof.
  intros Hl HQ. eapply wp_mono; [|by apply law_should].
  intros o [x' d' h' mt' lg'] (Hd & Hh & b & -> & Hb); simpl in *. subst. auto.
Qed.

Lemma wp_cancel l t err Q (x : X) d h mt lg :
  h !! l = Some t →
  (∀ x' mt' lg', Q (Ret tt) (mkWorld x' d h mt' lg')) →
  wp (Cancel p l err) Q (mkWorld x d h mt lg).
Proof.
  intros Hl HQ. eapply wp_mono; [|by eapply law_cancel].
  intros o [x' d' h' mt' lg'] (Hd & Hh & ->); simpl in *. subst. auto.
Qed.

Lemma wp_process l t r Q (x : X) d h mt lg :
  h !! l = Some t → pre p t → ProcessingError t = None → State t = Processor_State p →
  db_wf d → db.row (update_key t) d = Some r → synced t r →
  (∀ x' d' t' r' mt' lg',
     db_local (update_key t) d d' → db_wf d' → db.row (update_key t) d' = Some r' →
     same_packet t t' → ProcessingError t' = None → synced t' r' → State t' = State t →
     Q (Ret l) (mkWorld x' d' (<[l := t']> h) mt' lg')) →
  (∀ e x' d' r' mt' lg',
     error_string e ≠ "" →
     db_local (update_key t) d d' → db_wf d' → db.row (update_key t) d' = Some r' →
     Q (Fail e) (mkWorld x' d' h mt' lg')) →
  (∀ x' d' r' mt' lg',
     db_local (update_key t) d d' → db_wf d' → db.row (update_key t) d' = Some r' →
     Q Panic (mkWorld x' d' h mt' lg')) →
  wp (Process p l) Q (mkWorld x d h mt lg).
Proof.
  intros Hl Hp He HS Hwf Hr Hs H1 H2 H3.
  eapply wp_mono; [|eapply law_process; eauto using wf_row_not_zero, wf_rows].
  intros o [x' d' h' mt' lg'] (Hloc & r' & Hr' & Hok & Hst & Ho); simpl in *.
  assert (db_wf d') by (by eapply local_wf).
  destruct o; [destruct Ho as (-> & t' & -> & ? & ? & Hs')|destruct Ho as [? ->]|subst h']; eauto.
  eapply H1; eauto. by rewrite (sync_State _ _ Hs').
Qed.
End law_rules.

(** ** The middleware *)

Lemma alter_known {A} (h : gmap loc A) l t f : h !! l = Some t → alter f l h = <[l := f t]> h.
Proof.
  intros Hl. apply map_eq. intros l'. destruct (decide (l = l')) as [<-|Hne].
  - by rewrite lookup_alter_eq, Hl, lookup_insert_eq.
  - by rewrite lookup_alter_ne, lookup_insert_ne.
Qed.

Section mw.
Context {X : Type} {E : Env X}.

(** What a pass of a transfer through a stage leaves behind; [ret] is what
    the stage returns. *)
Definition pass_post {A} (ret : A) (l : loc) (t : IBCV2Transfer) (h : gmap loc IBCV2Transfer)
    (d : db.Database) (o : outcome A) (w : World X) : Prop :=
  db_local (update_key t) d (w_db w) ∧ db_wf (w_db w) ∧
  ∃ t', w_heap w = <[l := t']> h ∧ same_packet t t' ∧
    (is_Some (ProcessingError t) → is_Some (ProcessingError t')) ∧
    match o with
    | Ret out => out = ret ∧ attached (w_db w) t'
    | Fail e => errors_Is e ContextCanceled = true
    | Panic => True
    end.

Lemma pass_skip {A} (ret : A) l t h d (x : X) mt lg :
  h !! l = Some t → db_wf d → attached d t →
  pass_post ret l t h d (Ret ret) (mkWorld x d h mt lg).
Proof.
  intros Hl Hwf Ha. split; [done|]. split; [done|]. exists t. by rewrite insert_id.
Qed.

(** Ending with a [ProcessingError]: nothing is left to be synced. *)
Lemma pass_errored {A} (ret : A) l t t' r' h d d' e (x : X) mt lg :
  db_local (update_key t) d d' → db_wf d' → db.row (update_key t) d' = Some r' →
  attached d t → same_packet t t' → ProcessingError t' = Some e → error_string e ≠ "" →
  pass_post ret l t h d (Ret ret) (mkWorld x d' (<[l := t']> h) mt lg).
Proof.
  intros Hloc Hwf Hr Ha Hp He Hne. split; [done|]. split; [done|]. exists t'. simpl.
  split_and!; [done|done|by rewrite He|done|]. eapply attached_again; [done..|]. by rewrite He.
Qed.

Lemma IBCV2ProcessorMW_Process_post (p : IBCV2Processor X) `{!ProcessorLaws p} l t x d h mt lg :
  h !! l = Some t → db_wf d → attached d t →
  wp (IBCV2ProcessorMW_Process p (Some l)) (pass_post (Some l) l t h d) (mkWorld x d h mt lg).
Proof.
  intros Hl Hwf Ha. unfold IBCV2ProcessorMW_Process, IBCV2ProcessorMW_Cancel. simpl.
  pose proof Ha as (r & Hr & _ & Hs).
  wp_go; try (apply pass_skip; done).
  eapply wp_should; [done|]. intros [] x1 mt1 lg1 Hpre; simpl;
    [|wp_go; by apply pass_skip].
  specialize (Hpre eq_refl).
  assert (ProcessingError t = None) as He.
  { apply (attached_live d); [done|]. by apply orb_false_iff in Heqb as [Heqb%negb_false_iff%bool_decide_eq_true _]. }
  rewrite He in Hs. wp_go.
  - (* the state update failed *)
    eapply (wp_cancel p); [done|]. intros. wp_go. rewrite (alter_known _ _ t) by done.
    eapply pass_errored; [done|done|done|done|by split|done|apply Errorf_string_nonempty].
  - destruct (state_updated (Processor_State p) t r d now)
      as (Hloc & Hwf1 & r1 & Hr1 & Hs1); [apply law_unfinished|done..|].
    rewrite (alter_known _ _ t) by done.
    eapply (wp_process p l (with_State (Processor_State p) t) r1);
      [by rewrite lookup_insert_eq|by apply law_pre_state|exact He|done|exact Hwf1|exact Hr1|exact Hs1| | |].
    + (* processed *)
      intros x3 d3 t3 r3 mt3 lg3 Hloc3 Hwf3 Hr3 Hp3 He3 Hs3 _. wp_go.
      rewrite insert_insert_eq. split; [by etrans|]. split; [done|]. exists t3. simpl.
      assert (same_packet t t3) by (by transitivity (with_State (Processor_State p) t)).
      split_and!; [done|done|by rewrite He; intros []|done|].
      eapply (attached_again [update_key t] d); [by etrans|done|done|done|].
      by rewrite He3.
    + (* errored *)
      intros e x3 d3 r3 mt3 lg3 Hne Hloc3 Hwf3 Hr3. wp_go.
      { split; [by etrans|]. split; [done|]. by eexists. }
      eapply (wp_cancel p); [by rewrite lookup_insert_eq|]. intros. wp_go.
      rewrite (alter_known _ _ (with_State (Processor_State p) t)) by (by rewrite lookup_insert_eq).
      rewrite insert_insert_eq. eapply pass_errored; [by etrans|done|done|done|by split|done|done].
    + (* panicked *)
      intros x3 d3 r3 mt3 lg3 Hloc3 Hwf3 Hr3. simpl.
      split; [by etrans|]. split; [done|]. by eexists.
Qed.

(** No stage but the finisher finishes a transfer. *)
Lemma IBCV2ProcessorMW_Process_open (p : IBCV2Processor X) `{!ProcessorLaws p} l t x d h mt lg :
  h !! l = Some t → db_wf d → attached d t →
  (ProcessingError t = None → db.unfinished (State t) = true) →
  wp (IBCV2ProcessorMW_Process p (Some l)) (λ _ w, ∀ t', w_heap w !! l = Some t' →
    ProcessingError t' = None → db.unfinished (State t') = true) (mkWorld x d h mt lg).
Proof.
  intros Hl Hwf Ha Ho. unfold IBCV2ProcessorMW_Process, IBCV2ProcessorMW_Cancel. simpl.
  pose proof Ha as (r & Hr & _ & Hs).
  assert (∀ t', h !! l = Some t' → ProcessingError t' = None →
    db.unfinished (State t') = true) as Hsame by (intros; simplify_eq; auto).
  pose proof (law_unfinished (p := p)) as Hst.
  wp_go; try exact Hsame.
  eapply wp_should; [done|]. intros [] x1 mt1 lg1 Hpre; simpl; [|wp_go; exact Hsame].
  specialize (Hpre eq_refl).
  apply orb_false_iff in Heqb as [Heqb%negb_false_iff%bool_decide_eq_true _].
  apply (attached_live d) in Heqb; [|done].
  rewrite Heqb in Hs. wp_go.
  - eapply (wp_cancel p); [done|]. intros. wp_go. intros t' Ht'. simpl in Ht'.
    rewrite lookup_alter_eq, Hl in Ht'. by simplify_eq/=.
  - destruct (state_updated (Processor_State p) t r d now)
      as (Hloc & Hwf1 & r1 & Hr1 & Hs1); [done..|].
    rewrite (alter_known _ _ t) by done.
    eapply (wp_process p l (with_State (Processor_State p) t) r1);
      [by rewrite lookup_insert_eq|by apply law_pre_state|exact Heqb|done|exact Hwf1|exact Hr1|
       exact Hs1| | |].
    + intros x3 d3 t3 r3 mt3 lg3 _ _ _ _ _ _ HS. wp_go. simpl. rewrite lookup_insert_eq.
      intros t' [= <-] _. by rewrite HS.
    + intros e x3 d3 r3 mt3 lg3 Hne _ _ _. wp_go.
      { simpl. rewrite lookup_insert_eq. by intros t' [= <-] _. }
      eapply (wp_cancel p); [by rewrite lookup_insert_eq|]. intros. wp_go. simpl.
      rewrite lookup_alter_eq, lookup_insert_eq. by intros t' [= <-].
    + intros. simpl. rewrite lookup_insert_eq. by intros t' [= <-] _.
Qed.

(** A transfer that carries an error is left alone. *)
Lemma IBCV2ProcessorMW_Process_errored (p : IBCV2Processor X) l t (w : World X) :
  w_heap w !! l = Some t → IBCV2Transfer_Error t ≠ "" →
  IBCV2ProcessorMW_Process p (Some l) w = (Ret (Some l), w).
Proof.
  intros Hl He. unfold IBCV2ProcessorMW_Process, mbind, M_bind, load. simpl. rewrite Hl. simpl.
  by rewrite bool_decide_eq_false_2.
Qed.

(** ** The state finisher *)

(** The state a complete transfer is finished in. *)
Definition final_state (t : IBCV2Transfer) : option db.Ibcv2RelayStatus :=
  if has (TimeoutTxHash t) then Some db.Ibcv2RelayStatusCOMPLETEWITHTIMEOUT
  else
    match WriteAckStatus t with
    | None => None
    | Some s =>
        if has (AckTxHash t) then Some db.Ibcv2RelayStatusCOMPLETEWITHACK
        else if isErrorAck s then Some db.Ibcv2RelayStatusCOMPLETEWITHWRITEACKERROR
        else Some db.Ibcv2RelayStatusCOMPLETEWITHWRITEACKSUCCESS
    end.

Lemma final_state_terminal t s : final_state t = Some s → db.unfinished s = false.
Proof. unfold final_state. intros. repeat split_match; by simplify_eq. Qed.

(** The final state is one the row supports. *)
Lemma final_state_ok success error t r now s :
  IsComplete success error t = true → final_state t = Some s → synced t r → row_ok r →
  row_ok (db.set_Status s (db.set_UpdatedAt (Some now) r)).
Proof.
  intros Hc Hf Hs Hok. apply IsComplete_iff in Hc as [_ Hc].
  destruct Hok as [Hw _ _ _ _]. unfold final_state in Hf.
  rewrite (sync_TimeoutTxHash _ _ Hs), (sync_WriteAckStatus _ _ Hs), (sync_AckTxHash _ _ Hs),
    ?(sync_WriteAckTxHash _ _ Hs) in *.
  split; simpl; [done|..]; intros ->; revert Hf;
    destruct (db.TimeoutTxHash r); try done; simpl;
    destruct (db.WriteAckStatus r) as [[]|]; try done; simpl;
    destruct (db.AckTxHash r); try done; simpl; intros _;
    destruct Hc as [[? ?]|(_ & ? & _)]; naive_solver.
Qed.

(** What the finisher does with a complete transfer whose state it has set. *)
Lemma finish_state_post success error l t r s (x : X) d h mt lg :
  h !! l = Some t → db_wf d → attached d t → db.row (update_key t) d = Some r → synced t r →
  ProcessingError t = None → IsComplete success error t = true → final_state t = Some s →
  wp (finish_state l) (pass_post l l t h d)
    (mkWorld x d (<[l := with_State s t]> h) mt lg).
Proof.
  intros Hl Hwf Ha Hr Hs He Hc Hf. unfold finish_state.
  wp_step. eapply wp_load; [simpl; by rewrite lookup_insert_eq|]. wp_go; simpl.
  - (* the update failed *)
    rewrite (alter_known _ _ (with_State s t)) by (by rewrite lookup_insert_eq).
    rewrite insert_insert_eq. eapply pass_errored; [done|done|done|done|by split|done|].
    apply Errorf_string_nonempty.
  - pose proof (db.UpdateTransferState_row_update s (update_key t) now) as Hq.
    pose proof (db.row_update_row_eq Hq d) as Hr'. rewrite Hr in Hr'.
    assert (db_local (update_key t) d (db.UpdateTransferState s (update_key t) now d))
      by (by eapply row_update_local).
    split; [done|]. split.
    { eapply local_wf; [done..|]. eapply final_state_ok; [done..|]. by eapply wf_rows. }
    exists (with_State s t). split_and!; [done|by split|done|done|].
    eapply (attached_again [update_key t] d); [done|done|by split|done|]. simpl. rewrite He.
    by destruct Hs; split.
Qed.

Lemma StateFinisher_Process_errored f l t (w : World X) :
  w_heap w !! l = Some t → IBCV2Transfer_Error t ≠ "" → StateFinisher_Process f l w = (Ret l, w).
Proof.
  intros Hl He. unfold StateFinisher_Process, mbind, M_bind, load. rewrite Hl.
  by rewrite bool_decide_eq_false_2.
Qed.

Lemma StateFinisher_Process_post f l t (x : X) d h mt lg :
  h !! l = Some t → db_wf d → attached d t →
  wp (StateFinisher_Process f l) (pass_post l l t h d) (mkWorld x d h mt lg).
Proof.
  intros Hl Hwf Ha. pose proof Ha as (r & Hr & _ & Hs). unfold StateFinisher_Process.
  wp_step. eapply wp_load; [done|]. simpl.
  wp_go; try (apply pass_skip; done);
    (assert (ProcessingError t = None) as He;
     [unfold IBCV2Transfer_Error in *; destruct (ProcessingError t); [|done];
      by rewrite bool_decide_eq_false_2 in Heqb|]);
    rewrite He in Hs; apply negb_false_iff in Heqb0;
    rewrite ?(alter_known _ _ t) by done; rewrite ?alter_insert_eq.
  all: try (eapply finish_state_post; eauto; unfold final_state;
            unfold GetTimeoutTxHash, GetWriteAckStatus, GetAckTxHash in *;
            rewrite ?Heqb1, ?Heqo, ?Heqb2, ?Heqb3; try done).
  all: by destruct i.
Qed.
End mw.
