(* ===== verification/Batch.v ===== *)
(** * The batch processors

    Models [batch_recv_packet.go], [batch_ack_packet.go] and
    [timeout_packet.go] of [relayer/ibcv2]: one transaction is requested from
    the proof relayer and delivered for a whole batch, and its hash recorded
    for every transfer of the batch in one database transaction. *)
From stdpp Require Import prelude strings list gmap.
From Stdlib Require Import ZArith.
From S2P Require Import Prelude Go Config Db Transfer World Wp TransferMetrics Processors.
From S2P Require Import ProcessorMW.
Open Scope Z_scope.

(** The fields the three structs share. *)
Record BatchPacketProcessor := mkBatchPacketProcessor {
  batch_sourceChainID : string;
  batch_sourceClientID : string;
  batch_destinationChainID : string;
  batch_destinationClientID : string;
}.

Section batch.
Context {X : Type} {E : Env X}.

(** [hex.DecodeString(strings.TrimPrefix(hash, "0x"))]. *)
Definition decode_hash (hash : string) : option (list Z) := DecodeString (TrimPrefix hash "0x").

Definition err_decoding : error := Errorf "decoding hex tx hash to bytes" (ErrorNew "encoding/hex").

(** The first loop of the recv and timeout processors: the transaction IDs
    and the sequences of the batch. What is put into [txSet] is the source
    chain ID, while what is looked up in it is the source transaction's
    hash. *)
Fixpoint collect_send_txs (transfers : list loc) (txSet : gset string)
    (txIDs : list (list Z)) (sequences : list Z) : M X (list (list Z) * list Z) :=
  match transfers with
  | [] => mret (txIDs, sequences)
  | l :: transfers' =>
      transfer ← load l;
      if bool_decide (GetSourceTxHash transfer ∈ txSet) then
        collect_send_txs transfers' txSet txIDs
          (sequences ++ [uint64 (GetPacketSequenceNumber transfer)])
      else
        match decode_hash (GetSourceTxHash transfer) with
        | None =>
            modify l (with_ProcessingError (Some err_decoding)) ≫= λ _,
            collect_send_txs transfers' txSet txIDs sequences
        | Some txID =>
            collect_send_txs transfers' ({[GetSourceChainID transfer]} ∪ txSet)
              (txIDs ++ [txID]) (sequences ++ [uint64 (GetPacketSequenceNumber transfer)])
        end
  end.

Definition err_no_write_ack : error :=
  ErrorNew "trying to deliver ack packet, no write ack tx hash found".

(** The first loop of the ack processor. *)
Fixpoint collect_ack_txs (transfers : list loc) (txSet : gset string)
    (txIDs : list (list Z)) (sequences : list Z) : M X (list (list Z) * list Z) :=
  match transfers with
  | [] => mret (txIDs, sequences)
  | l :: transfers' =>
      transfer ← load l;
      match GetWriteAckTxHash transfer with
      | None =>
          modify l (with_ProcessingError (Some err_no_write_ack)) ≫= λ _,
          collect_ack_txs transfers' txSet txIDs sequences
      | Some writeAckTxHash =>
          if bool_decide (writeAckTxHash ∈ txSet) then
            collect_ack_txs transfers' txSet txIDs
              (sequences ++ [uint64 (GetPacketSequenceNumber transfer)])
          else
            match decode_hash writeAckTxHash with
            | None =>
                modify l (with_ProcessingError (Some err_decoding)) ≫= λ _,
                collect_ack_txs transfers' txSet txIDs sequences
            | Some txID =>
                collect_ack_txs transfers' ({[writeAckTxHash]} ∪ txSet)
                  (txIDs ++ [txID]) (sequences ++ [uint64 (GetPacketSequenceNumber transfer)])
            end
      end
  end.

(** From the request to the proof relayer to the delivered transaction. The
    three processors differ in the chain they deliver to. *)
Definition relay_and_deliver (kind chain deliver_err : string) (chainID : string)
    (req : RelayByTxRequest) : M X BridgeTx :=
  Now ≫= λ _,
  resp ← wrap ("getting " +:+ kind +:+ " tx bytes for batch") (ext (env_RelayByTx req));
  Now ≫= λ _,
  logger Info ("ibc relayer returned " +:+ kind +:+ " tx bytes") ≫= λ _,
  client ← wrap ("getting client for transfer " +:+ chain +:+ " chain") (GetClient chainID);
  (if bool_decide (client_ChainType client = config.ChainType_EVM)
   then wrap "waiting for chain" (ext (WaitForChain client))
   else mret tt) ≫= λ _,
  delivered ← wrap deliver_err
    (ext (DeliverTx client (Response_Tx resp) (Response_Address resp)));
  tx ← deref delivered;
  logger Info ("delivered batch " +:+ kind +:+ " tx") ≫= λ _,
  mret tx.

(** The body of the database transaction: [update] for every transfer
    without an error. *)
Definition update_batch (msg : string) (update : db.packet_key → Time → db.Database → db.Database)
    (transfers : list loc) : M X unit :=
  forM transfers (λ l,
    transfer ← load l;
    if has (ProcessingError transfer) then mret tt
    else wrap msg (exec (update (update_key transfer)))).

(** The same fields set in memory. *)
Definition set_batch (f : IBCV2Transfer → IBCV2Transfer) (transfers : list loc) : M X unit :=
  forM transfers (λ l,
    transfer ← load l;
    if has (ProcessingError transfer) then mret tt else modify l f).

Definition log_each (msg : string) (transfers : list loc) : M X unit :=
  forM transfers (λ l, load l ≫= λ _, logger Error msg).

(** ** batch_recv_packet.go *)

Definition BatchRecvPacketProcessor_Process (processor : BatchPacketProcessor)
    (transfers : list loc) : M X (list loc) :=
  collected ← collect_send_txs transfers ∅ [] [];
  let '(txIDs, sequences) := collected in
  logger Info "processing batch recv submission" ≫= λ _,
  recvTx ← relay_and_deliver "recv" "destination"
    "signing and submitting recv tx bytes for batch" (batch_destinationChainID processor)
    {| SrcChain := batch_sourceChainID processor;
       DstChain := batch_destinationChainID processor;
       SourceTxIds := txIDs;
       TimeoutTxIds := [];
       SrcClientId := batch_sourceClientID processor;
       DstClientId := batch_destinationClientID processor;
       SrcPacketSequences := sequences;
       DstPacketSequences := [] |};
  wrap "updating batch transfers recv txs"
    (ExecTx (update_batch "updating transfer with recv hash"
       (db.UpdateTransferRecvTx (Some (Hash recvTx)) (Some (Timestamp recvTx))
          (Some (RelayerAddress recvTx))) transfers)) ≫= λ _,
  set_batch (λ t, with_RecvTxRelayerAddress (Some (RelayerAddress recvTx))
                    (with_RecvTxTime (Some (Timestamp recvTx))
                       (with_RecvTxHash (Some (Hash recvTx)) t))) transfers ≫= λ _,
  mret transfers.

Definition BatchRecvPacketProcessor_Cancel (transfers : list loc) (err : error) : M X unit :=
  log_each "error submitting batch recv" transfers.

Definition BatchRecvPacketProcessor_ShouldProcess (l : loc) : M X bool :=
  transfer ← load l;
  if has (GetRecvTxHash transfer) then mret false
  else
    now ← Now;
    mret (negb (IsTimedOut now transfer)).

Definition NewBatchRecvPacketProcessor (sourceChainID sourceClientID destinationChainID
    destinationClientID : string) : IBCV2BatchProcessor X :=
  mkIBCV2BatchProcessor BatchRecvPacketProcessor_ShouldProcess
    db.Ibcv2RelayStatusDELIVERRECVPACKET
    (BatchRecvPacketProcessor_Process
       (mkBatchPacketProcessor sourceChainID sourceClientID destinationChainID
          destinationClientID))
    BatchRecvPacketProcessor_Cancel.

(** ** batch_ack_packet.go *)

Record BatchAckPacketProcessor := mkBatchAckPacketProcessor {
  ack_batch : BatchPacketProcessor;
  ack_shouldRelaySuccessAcks : bool;
  ack_shouldRelayErrorAcks : bool;
}.

Definition BatchAckPacketProcessor_Process (processor : BatchAckPacketProcessor)
    (transfers : list loc) : M X (list loc) :=
  collected ← collect_ack_txs transfers ∅ [] [];
  let '(txIDs, sequences) := collected in
  logger Info "processing batch ack submission" ≫= λ _,
  ackTx ← relay_and_deliver "ack" "source"
    "signing and submitting ack tx bytes for batch" (batch_sourceChainID (ack_batch processor))
    {| SrcChain := batch_destinationChainID (ack_batch processor);
       DstChain := batch_sourceChainID (ack_batch processor);
       SourceTxIds := txIDs;
       TimeoutTxIds := [];
       SrcClientId := batch_destinationClientID (ack_batch processor);
       DstClientId := batch_sourceClientID (ack_batch processor);
       SrcPacketSequences := [];
       DstPacketSequences := sequences |};
  wrap "updating batch transfers ack txs"
    (ExecTx (update_batch "updating transfer with ack hash"
       (db.UpdateTransferAckTx (Some (Hash ackTx)) (Some (Timestamp ackTx))
          (Some (RelayerAddress ackTx))) transfers)) ≫= λ _,
  set_batch (λ t, with_AckTxTime (Some (Timestamp ackTx))
                    (with_AckTxHash (Some (Hash ackTx)) t)) transfers ≫= λ _,
  mret transfers.

Definition BatchAckPacketProcessor_Cancel (transfers : list loc) (err : error) : M X unit :=
  log_each "error submitting batch ack" transfers.

Definition BatchAckPacketProcessor_ShouldProcess (processor : BatchAckPacketProcessor)
    (l : loc) : M X bool :=
  transfer ← load l;
  if negb (has (GetWriteAckTxHash transfer)) then mret false
  else
    match GetWriteAckStatus transfer with
    | None =>
        logger Warn "this is a bug! transfer does not have a write ack status when delivering ack packet"
          ≫= λ _, mret false
    | Some writeAckStatus =>
        if (isErrorAck writeAckStatus && negb (ack_shouldRelayErrorAcks processor)) ||
           (isSuccessAck writeAckStatus && negb (ack_shouldRelaySuccessAcks processor))
        then mret false
        else mret (negb (has (GetAckTxHash transfer)) && negb (has (GetTimeoutTxHash transfer)))
    end.

Definition NewBatchAckPacketProcessor (sourceChainID sourceClientID destinationChainID
    destinationClientID : string) (shouldRelaySuccessAcks shouldRelayErrorAcks : bool)
    : IBCV2BatchProcessor X :=
  let processor :=
    mkBatchAckPacketProcessor
      (mkBatchPacketProcessor sourceChainID sourceClientID destinationChainID
         destinationClientID) shouldRelaySuccessAcks shouldRelayErrorAcks in
  mkIBCV2BatchProcessor (BatchAckPacketProcessor_ShouldProcess processor)
    db.Ibcv2RelayStatusDELIVERACKPACKET
    (BatchAckPacketProcessor_Process processor) BatchAckPacketProcessor_Cancel.

(** ** timeout_packet.go *)

Definition BatchTimeoutPacketProcessor_Process (processor : BatchPacketProcessor)
    (transfers : list loc) : M X (list loc) :=
  collected ← collect_send_txs transfers ∅ [] [];
  let '(txIDs, sequences) := collected in
  logger Info "processing batch timeout submission" ≫= λ _,
  timeoutTx ← relay_and_deliver "timeout" "source" "submitting batch timeout tx"
    (batch_sourceChainID processor)
    {| SrcChain := batch_destinationChainID processor;
       DstChain := batch_sourceChainID processor;
       SourceTxIds := [];
       TimeoutTxIds := txIDs;
       SrcClientId := batch_destinationClientID processor;
       DstClientId := batch_sourceClientID processor;
       SrcPacketSequences := [];
       DstPacketSequences := sequences |};
  wrap "updating batch transfers timeout txs"
    (ExecTx (update_batch "updating transfer timeout tx"
       (db.UpdateTransferTimeoutTx (Some (Hash timeoutTx)) (Some (Timestamp timeoutTx))
          (Some (RelayerAddress timeoutTx))) transfers)) ≫= λ _,
  set_batch (λ t, with_TimeoutTxTime (Some (Timestamp timeoutTx))
                    (with_TimeoutTxHash (Some (Hash timeoutTx)) t)) transfers ≫= λ _,
  mret transfers.

Definition BatchTimeoutPacketProcessor_Cancel (transfers : list loc) (err : error)
    : M X unit :=
  log_each "error timing out packet" transfers.

Definition BatchTimeoutPacketProcessor_ShouldProcess (l : loc) : M X bool :=
  transfer ← load l;
  now ← Now;
  let shouldBeTimedOut :=
    IsTimedOut now transfer && negb (has (GetRecvTxHash transfer)) &&
    negb (has (GetAckTxHash transfer)) in
  mret (shouldBeTimedOut && negb (has (GetTimeoutTxHash transfer))).

Definition NewBatchTimeoutPacketProcessor (sourceChainID sourceClientID destinationChainID
    destinationClientID : string) : IBCV2BatchProcessor X :=
  mkIBCV2BatchProcessor BatchTimeoutPacketProcessor_ShouldProcess
    db.Ibcv2RelayStatusDELIVERTIMEOUTPACKET
    (BatchTimeoutPacketProcessor_Process
       (mkBatchPacketProcessor sourceChainID sourceClientID destinationChainID
          destinationClientID))
    BatchTimeoutPacketProcessor_Cancel.
End batch.
