(* ===== verification/BatchLaws.v ===== *)
(** * What the batch processors and their middleware guarantee

    The contract [BatchProcessorLaws] between a batch processor and the batch
    middleware, the proof that the three batch processors keep it, and that the
    middleware preserves [db_wf] and [attached] for every transfer of a batch.

    The database transaction of a batch is described by [rows_updated]: every
    row of a set of keys updated by the same assignment, all others as they
    were. *)
From stdpp Require Import prelude strings list gmap.
From Stdlib Require Import ZArith.
From S2P Require Import Prelude Go Config Db Transfer World Wp TransferMetrics Processors Laws.
From S2P Require Import ProcessorMW MWLaws Batch.
Open Scope Z_scope.

(** ** Updating a set of rows *)

Record rows_updated (F : Time → db.Ibcv2Transfer → db.Ibcv2Transfer) (ks : list db.packet_key)
    (d d' : db.Database) : Prop := {
  updated_in : ∀ k, k ∈ ks → ∃ now, db.row k d' = F now <$> db.row k d;
  updated_out : ∀ k, k ∉ ks → db.row k d' = db.row k d;
  updated_keys : map db.row_key (db.ibcv2_transfers d') = map db.row_key (db.ibcv2_transfers d);
  updated_routes : ∀ k, db.row_route <$> db.row k d' = db.row_route <$> db.row k d;
  updated_submissions : db.ibcv2_relay_submissions d' = db.ibcv2_relay_submissions d;
}.

Lemma rows_updated_nil F d : rows_updated F [] d d.
Proof. split; try done. by intros k ?%elem_of_nil. Qed.

Lemma rows_updated_within F ks d d' : rows_updated F ks d d' → db_within ks d d'.
Proof. intros []. split; auto. Qed.

Lemma rows_updated_snoc F ks d d1 k q now :
  (∀ n1 n2 r, F n2 (F n1 r) = F n2 r) → db.is_row_update k q (F now) →
  rows_updated F ks d d1 → rows_updated F (ks ++ [k]) d (q d1).
Proof.
  intros Hidem Hq [Hin Hout Hk Hro Hs]. split.
  - intros k' Hk'. destruct (decide (k' = k)) as [->|Hne].
    + rewrite (db.row_update_row_eq Hq). exists now.
      destruct (decide (k ∈ ks)) as [Hk''|Hk''].
      * destruct (Hin k Hk'') as [now' ->]. destruct (db.row k d); simpl; [|done]. by rewrite Hidem.
      * by rewrite Hout.
    + rewrite (db.row_update_row_ne Hq) by done. apply Hin. set_solver.
  - intros k' Hk'. rewrite (db.row_update_row_ne Hq) by set_solver. apply Hout. set_solver.
  - by rewrite (db.row_update_keys Hq).
  - intros k'. by rewrite (db.row_update_routes Hq).
  - by rewrite (db.row_update_submissions Hq).
Qed.

(** ** The transfers of a batch *)

(** The key of a transfer that has not errored. *)
Definition live_key (h : gmap loc IBCV2Transfer) (l : loc) : option db.packet_key :=
  match h !! l with
  | Some t => if has (ProcessingError t) then None else Some (update_key t)
  | None => None
  end.

Definition live_keys (h : gmap loc IBCV2Transfer) (ls : list loc) : list db.packet_key :=
  omap (live_key h) ls.

Lemma live_keys_elem h ls k :
  k ∈ live_keys h ls ↔
  ∃ l t, l ∈ ls ∧ h !! l = Some t ∧ ProcessingError t = None ∧ update_key t = k.
Proof.
  unfold live_keys. rewrite list_elem_of_omap. split.
  - intros (l & Hl & Hk). unfold live_key in Hk. destruct (h !! l) as [t|] eqn:Ht; [|done].
    destruct (ProcessingError t) eqn:He; simplify_eq/=. eauto 10.
  - intros (l & t & Hl & Ht & He & Hk). exists l. split; [done|]. unfold live_key.
    rewrite Ht, He. simpl. by rewrite Hk.
Qed.

(** No packet is represented twice by transfers that have not errored. *)
Definition keys_distinct (h : gmap loc IBCV2Transfer) (ls : list loc) : Prop :=
  ∀ l1 l2 t1 t2, l1 ∈ ls → l2 ∈ ls → h !! l1 = Some t1 → h !! l2 = Some t2 →
    ProcessingError t1 = None → ProcessingError t2 = None →
    update_key t1 = update_key t2 → l1 = l2.

(** How the heap evolves: transfers outside [ls] are untouched, those of [ls]
    stay about the same packet, and an errored one stays errored. *)
Record heap_frame (ls : list loc) (h h' : gmap loc IBCV2Transfer) : Prop := {
  pass_out : ∀ l, l ∉ ls → h' !! l = h !! l;
  pass_in : ∀ l t, h !! l = Some t → ∃ t', h' !! l = Some t' ∧ same_packet t t' ∧
    (is_Some (ProcessingError t) → is_Some (ProcessingError t'));
}.

(** No unfinished transfer becomes a finished one. *)
Definition stays_open (t t' : IBCV2Transfer) : Prop :=
  db.unfinished (State t) = true → db.unfinished (State t') = true.

#[global] Instance stays_open_preorder : PreOrder stays_open.
Proof. split; unfold stays_open; repeat intros ?; auto. Qed.

Record heap_pass (ls : list loc) (h h' : gmap loc IBCV2Transfer) : Prop := {
  pass_frame :> heap_frame ls h h';
  pass_open : ∀ l t t', h !! l = Some t → h' !! l = Some t' → stays_open t t';
}.

#[global] Instance heap_frame_preorder ls : PreOrder (heap_frame ls).
Proof.
  split.
  - intros h. split; [done|]. intros l t Hl. exists t. by split_and!.
  - intros h1 h2 h3 [O1 I1] [O2 I2]. split.
    + intros l Hl. by rewrite O2, O1.
    + intros l t Hl. destruct (I1 l t Hl) as (t2 & Hl2 & P2 & E2).
      destruct (I2 l t2 Hl2) as (t3 & Hl3 & P3 & E3). exists t3.
      split_and!; [done|by etrans|auto].
Qed.

#[global] Instance heap_pass_preorder ls : PreOrder (heap_pass ls).
Proof.
  split.
  - intros h. split; [done|]. intros l t t' Ht Ht'. by simplify_eq.
  - intros h1 h2 h3 [F1 O1] [F2 O2]. split; [by etrans|]. intros l t t' Ht Ht' Hu.
    destruct (pass_in _ _ _ F1 l t Ht) as (t2 & Ht2 & _). eapply O2; eauto. by eapply O1.
Qed.

Lemma heap_pass_mono ls ls' h h' : ls ⊆ ls' → heap_pass ls h h' → heap_pass ls' h h'.
Proof. intros Hs [[O I] P]. split; [|done]. split; [|done]. intros l Hl. apply O. auto. Qed.

Lemma heap_frame_alter l ls h f :
  l ∈ ls → (∀ t, same_packet t (f t)) →
  (∀ t, is_Some (ProcessingError t) → is_Some (ProcessingError (f t))) →
  heap_frame ls h (alter f l h).
Proof.
  intros Hl Hp He. split.
  - intros l' Hl'. apply lookup_alter_ne. set_solver.
  - intros l' t Ht. destruct (decide (l = l')) as [<-|Hne].
    + exists (f t). rewrite lookup_alter_eq, Ht. split_and!; auto.
    + exists t. rewrite lookup_alter_ne by done. by split_and!.
Qed.

Lemma heap_pass_alter l ls h f :
  l ∈ ls → (∀ t, same_packet t (f t)) →
  (∀ t, is_Some (ProcessingError t) → is_Some (ProcessingError (f t))) →
  (∀ t, db.unfinished (State t) = true → db.unfinished (State (f t)) = true) →
  heap_pass ls h (alter f l h).
Proof.
  intros Hl Hp He Ho. split; [by apply heap_frame_alter|].
  intros l' t t' Ht. destruct (decide (l = l')) as [<-|Hne].
  - rewrite lookup_alter_eq, Ht. intros [= <-]. exact (Ho t).
  - rewrite lookup_alter_ne, Ht by done. by intros [= <-].
Qed.

Lemma heap_pass_distinct ls h h' :
  heap_frame ls h h' → ∀ ls', (∀ l, l ∈ ls' → is_Some (h !! l)) →
  keys_distinct h ls' → keys_distinct h' ls'.
Proof.
  intros Hp ls' Hdom Hd l1 l2 t1 t2 H1 H2 Ht1 Ht2 He1 He2 Hk.
  destruct (Hdom l1 H1) as [s1 Hs1], (Hdom l2 H2) as [s2 Hs2].
  destruct (pass_in _ _ _ Hp l1 s1 Hs1) as (u1 & Hu1 & P1 & E1).
  destruct (pass_in _ _ _ Hp l2 s2 Hs2) as (u2 & Hu2 & P2 & E2).
  rewrite Ht1 in Hu1. rewrite Ht2 in Hu2. injection Hu1 as <-. injection Hu2 as <-.
  rewrite (same_packet_update_key s1 t1), (same_packet_update_key s2 t2) in Hk by done.
  apply (Hd l1 l2 s1 s2); try done.
  - destruct (ProcessingError s1); [|done]. by destruct E1; [eexists|congruence].
  - destruct (ProcessingError s2); [|done]. by destruct E2; [eexists|congruence].
Qed.

(** ** Rules for the loops and the transaction *)

Section loops.
Context {X : Type} {E : Env X}.

Lemma wp_ExecTx fn Q (x : X) d h mt lg :
  (∀ e x', Q (Fail e) (mkWorld x' d h mt lg)) →
  (∀ x', wp fn (λ o '(mkWorld x1 d1 h1 mt1 lg1),
      match o with
      | Ret _ => (∀ x2, Q (Ret tt) (mkWorld x2 d1 h1 mt1 lg1)) ∧
                 (∀ e x2, Q (Fail e) (mkWorld x2 d1 h1 mt1 lg1)) ∧
                 (∀ e x2, Q (Fail e) (mkWorld x2 (rollback d d1) h1 mt1 lg1))
      | Fail _ => ∀ e x2, Q (Fail e) (mkWorld x2 (rollback d d1) h1 mt1 lg1)
      | Panic => Q Panic (mkWorld x1 d1 h1 mt1 lg1)
      end) (mkWorld x' d h mt lg)) →
  wp (ExecTx fn) Q (mkWorld x d h mt lg).
Proof.
  intros H1 H2. unfold ExecTx. wp_step. apply wp_storage; [auto|]. intros x'. simpl.
  do 4 wp_step. simpl. apply wp_attempt.
  eapply wp_mono; [|apply (H2 x')]. intros [?|?|] [x1 d1 h1 mt1 lg1] Ho; simpl; [..|done].
  - destruct Ho as (Ho1 & Ho2 & Ho3). wp_go; auto.
  - wp_go; auto.
Qed.

(** A failed or rolled back transaction leaves the rows as they were. *)
Lemma rollback_within d d' : db_within [] d (rollback d d').
Proof. by split. Qed.

Lemma wp_log_each msg ls Q : ∀ (x : X) d h mt lg,
  (∀ l, l ∈ ls → is_Some (h !! l)) →
  (∀ x' mt' lg', Q (Ret tt) (mkWorld x' d h mt' lg')) →
  wp (log_each msg ls) Q (mkWorld x d h mt lg).
Proof.
  unfold log_each. induction ls as [|l ls IH]; intros x d h mt lg Hd HQ; simpl; [by apply wp_ret|].
  destruct (Hd l) as [t Ht]; [by left|].
  do 2 wp_step. eapply wp_load; [done|]. wp_go. apply IH; [set_solver|done].
Qed.

Lemma wp_update_batch msg update F ls Q :
  (∀ k now, db.is_row_update k (update k now) (F now)) →
  (∀ n1 n2 r, F n2 (F n1 r) = F n2 r) →
  ∀ ks (x : X) d0 d h mt lg,
  (∀ l, l ∈ ls → is_Some (h !! l)) → rows_updated F ks d0 d →
  (∀ x' d', rows_updated F (ks ++ live_keys h ls) d0 d' → Q (Ret tt) (mkWorld x' d' h mt lg)) →
  (∀ e x' d', Q (Fail e) (mkWorld x' d' h mt lg)) →
  wp (update_batch msg update ls) Q (mkWorld x d h mt lg).
Proof.
  intros Hq Hidem. unfold update_batch.
  induction ls as [|l ls IH]; intros ks x d0 d h mt lg Hd Hr H1 H2; simpl.
  { apply wp_ret, H1. by rewrite app_nil_r. }
  destruct (Hd l) as [t Ht]; [by left|].
  do 2 wp_step. eapply wp_load; [done|].
  unfold live_keys in H1; simpl in H1; unfold live_key at 1 in H1; rewrite Ht in H1.
  wp_go; auto; simpl in H1.
  - apply (IH ks _ d0 d); auto. set_solver.
  - apply (IH (ks ++ [update_key t]) _ d0); auto; [set_solver|by eapply rows_updated_snoc|].
    intros x2 d2 Hr2. apply H1. by rewrite <- app_assoc in Hr2.
Qed.

(** What [set_batch f] does to one transfer. *)
Definition set_live (f : IBCV2Transfer → IBCV2Transfer) (t : IBCV2Transfer) : IBCV2Transfer :=
  if has (ProcessingError t) then t else f t.

Lemma wp_set_batch f ls Q :
  (∀ t, f (f t) = f t) → (∀ t, ProcessingError (f t) = ProcessingError t) →
  ∀ (x : X) d h mt lg,
  (∀ l, l ∈ ls → is_Some (h !! l)) →
  (∀ h', (∀ l, l ∉ ls → h' !! l = h !! l) → (∀ l, l ∈ ls → h' !! l = set_live f <$> h !! l) →
     Q (Ret tt) (mkWorld x d h' mt lg)) →
  wp (set_batch f ls) Q (mkWorld x d h mt lg).
Proof.
  intros Hidem Herr. unfold set_batch.
  induction ls as [|l ls IH]; intros x d h mt lg Hd HQ; simpl.
  { apply wp_ret, HQ; [done|]. by intros l ?%elem_of_nil. }
  destruct (Hd l) as [t Ht]; [by left|].
  do 2 wp_step. eapply wp_load; [done|].
  assert (∀ t, set_live f (set_live f t) = set_live f t) as Hs.
  { intros u. unfold set_live. destruct (has (ProcessingError u)) eqn:Hu; [by rewrite Hu|].
    by rewrite Herr, Hu, Hidem. }
  assert (wp (forM ls (λ l, transfer ← load l;
            if has (ProcessingError transfer) then mret tt else modify l f)) Q
            (mkWorld x d (alter (set_live f) l h) mt lg)) as Hgo.
  { apply IH.
    - intros l' Hl'. rewrite lookup_alter_is_Some. apply Hd. by right.
    - intros h' Ho Hi. apply HQ.
      + intros l' [Hne Hn]%not_elem_of_cons. by rewrite Ho, lookup_alter_ne.
      + intros l' Hl'. destruct (decide (l = l')) as [<-|Hne].
        * destruct (decide (l ∈ ls)); [rewrite Hi by done|rewrite Ho by done];
            rewrite lookup_alter_eq, Ht; simpl; by rewrite ?Hs.
        * rewrite Hi by set_solver. by rewrite lookup_alter_ne. }
  wp_go.
  - replace h with (alter (set_live f) l h); [done|].
    rewrite (alter_known h l t) by done. unfold set_live. rewrite Heqb. by apply insert_id.
  - replace (alter f l h) with (alter (set_live f) l h); [done|].
    rewrite !(alter_known h l t) by done. unfold set_live. by rewrite Heqb.
Qed.
End loops.

(** ** Marking transfers as errored *)

(** Some transfers of [ls] have been given a [ProcessingError]; nothing else
    has changed. *)
Definition marks (ls : list loc) (h h' : gmap loc IBCV2Transfer) : Prop :=
  ∀ l, h' !! l = h !! l ∨
    l ∈ ls ∧ ∃ e, error_string e ≠ "" ∧ h' !! l = with_ProcessingError (Some e) <$> h !! l.

#[global] Instance marks_preorder ls : PreOrder (marks ls).
Proof.
  split; [intros h l; by left|].
  intros h1 h2 h3 H12 H23 l. destruct (H23 l) as [->|(Hl & e & He & ->)]; [done|].
  right. split; [done|]. exists e. split; [done|].
  destruct (H12 l) as [->|(_ & e' & _ & ->)]; [done|]. by destruct (h1 !! l).
Qed.

Lemma marks_alter l ls h e :
  l ∈ ls → error_string e ≠ "" → marks ls h (alter (with_ProcessingError (Some e)) l h).
Proof.
  intros Hl He l'. destruct (decide (l = l')) as [<-|Hne].
  - right. split; [done|]. exists e. by rewrite lookup_alter_eq.
  - left. by rewrite lookup_alter_ne.
Qed.

Lemma marks_mono ls ls' h h' : ls ⊆ ls' → marks ls h h' → marks ls' h h'.
Proof. intros Hs H l. destruct (H l) as [?|(? & ?)]; [by left|right; auto]. Qed.

(** The loop marked its first transfer and went on. *)
Lemma marks_cons l ls h h' e :
  error_string e ≠ "" → marks ls (alter (with_ProcessingError (Some e)) l h) h' →
  marks (l :: ls) h h'.
Proof.
  intros He Hm. transitivity (alter (with_ProcessingError (Some e)) l h).
  - apply marks_alter; [by left|done].
  - eapply marks_mono; [|done]. set_solver.
Qed.

Lemma marks_dom ls h h' l : marks ls h h' → is_Some (h !! l) → is_Some (h' !! l).
Proof. intros H [t Ht]. destruct (H l) as [->|(_ & e & _ & ->)]; rewrite Ht; eauto. Qed.

Lemma marks_lookup ls h h' l t' :
  marks ls h h' → h' !! l = Some t' →
  ∃ t, h !! l = Some t ∧
    (t' = t ∨ l ∈ ls ∧ ∃ e, error_string e ≠ "" ∧ t' = with_ProcessingError (Some e) t).
Proof.
  intros H Ht'. destruct (H l) as [Heq|(Hl & e & He & Heq)]; rewrite Ht' in Heq.
  - exists t'. auto.
  - destruct (h !! l) as [t|]; simplify_eq/=. eauto 10.
Qed.

Lemma marks_heap_pass ls h h' : marks ls h h' → heap_pass ls h h'.
Proof.
  intros H. split; [split|].
  - intros l Hl. destruct (H l) as [?|[? _]]; done.
  - intros l t Ht. destruct (H l) as [Heq|(Hl & e & He & Heq)]; rewrite Ht in Heq.
    + exists t. by split_and!.
    + exists (with_ProcessingError (Some e) t). split_and!; [done|by split|by eexists].
  - intros l t t' Ht Ht'. destruct (H l) as [Heq|(_ & e & _ & Heq)]; rewrite Ht, Ht' in Heq;
      intros Hu; by simplify_eq/=.
Qed.

Lemma attached_mark d t e :
  error_string e ≠ "" → attached d t → attached d (with_ProcessingError (Some e) t).
Proof. intros He (r & Hr & Hro & _). by exists r. Qed.

Section collect.
Context {X : Type} {E : Env X}.

Lemma wp_collect_send_txs ls Q : ∀ txSet txIDs seqs (x : X) d h mt lg,
  (∀ l, l ∈ ls → is_Some (h !! l)) →
  (∀ res h', marks ls h h' → Q (Ret res) (mkWorld x d h' mt lg)) →
  wp (collect_send_txs ls txSet txIDs seqs) Q (mkWorld x d h mt lg).
Proof.
  induction ls as [|l ls IH]; intros txSet txIDs seqs x d h mt lg Hd HQ; simpl.
  { by apply wp_ret, HQ. }
  destruct (Hd l) as [t Ht]; [by left|].
  wp_step. eapply wp_load; [done|].
  wp_go; (apply IH; [try (by intros; apply Hd; right)|intros res h' Hm; apply HQ]).
  - eapply marks_mono; [|done]. set_solver.
  - eapply marks_mono; [|done]. set_solver.
  - intros l' Hl'. rewrite lookup_alter_is_Some. apply Hd. by right.
  - eapply marks_cons; [|exact Hm]; done.
Qed.

Lemma wp_collect_ack_txs ls Q : ∀ txSet txIDs seqs (x : X) d h mt lg,
  (∀ l, l ∈ ls → is_Some (h !! l)) →
  (∀ res h', marks ls h h' → Q (Ret res) (mkWorld x d h' mt lg)) →
  wp (collect_ack_txs ls txSet txIDs seqs) Q (mkWorld x d h mt lg).
Proof.
  induction ls as [|l ls IH]; intros txSet txIDs seqs x d h mt lg Hd HQ; simpl.
  { by apply wp_ret, HQ. }
  destruct (Hd l) as [t Ht]; [by left|].
  wp_step. eapply wp_load; [done|].
  wp_go; (apply IH; [try (by intros; apply Hd; right)|intros res h' Hm; apply HQ]).
  1,2: eapply marks_mono; [|done]; set_solver.
  1,3: intros l' Hl'; rewrite lookup_alter_is_Some; apply Hd; by right.
  all: eapply marks_cons; [|exact Hm]; done.
Qed.

(** [tx] is what the client of chain [id] returned when it was given the bytes
    the proof relayer returned for [req]. *)
Definition delivered (id : string) (req : RelayByTxRequest) (tx : BridgeTx) : Prop :=
  ∃ client resp x1 x1' x2 x2',
    env_RelayByTx req x1 = (Ret resp, x1') ∧ env_clients !! id = Some client ∧
    DeliverTx client (Response_Tx resp) (Response_Address resp) x2 = (Ret (Some tx), x2').

Lemma wp_relay_and_deliver kind chain de id req Q (x : X) d h mt lg :
  (∀ tx x' mt' lg', delivered id req tx → Q (Ret tx) (mkWorld x' d h mt' lg')) →
  (∀ e x' mt' lg', error_string e ≠ "" → Q (Fail e) (mkWorld x' d h mt' lg')) →
  (∀ x' mt' lg', Q Panic (mkWorld x' d h mt' lg')) →
  wp (relay_and_deliver kind chain de id req) Q (mkWorld x d h mt lg).
Proof.
  intros H1 H2 H3. unfold relay_and_deliver. do 2 wp_step. simpl. do 2 wp_step.
  apply wp_ext. intros [resp|e|] x1' Hresp; simpl; [|by apply H2, Errorf_string_nonempty|done].
  do 2 wp_step. simpl. do 2 wp_step. simpl. do 2 wp_step. apply wp_GetClient; simpl.
  { intros e. apply H2, Errorf_string_nonempty. }
  intros client Hclient. wp_step.
  assert (∀ x2 mt2 lg2, wp (delivered ← wrap de
      (ext (DeliverTx client (Response_Tx resp) (Response_Address resp)));
    tx ← deref delivered;
    logger Info ("delivered batch " +:+ kind +:+ " tx") ≫= λ _, mret tx) Q
    (mkWorld x2 d h mt2 lg2)) as Hdeliver.
  { intros x2 mt2 lg2. do 2 wp_step. apply wp_ext.
    intros [[tx|]|e|] x2' Htx; simpl; wp_go; auto; [|apply H2, Errorf_string_nonempty].
    apply H1. exists client, resp; eauto 10. }
  destruct (bool_decide _); wp_step; [|apply Hdeliver].
  apply wp_ext. intros [[]|e|] x2 _; simpl; [apply Hdeliver|apply H2, Errorf_string_nonempty|done].
Qed.
End collect.

(** ** The contract *)

Section laws.
Context {X : Type} {E : Env X}.

(** The transfers handed to [Process]: each is attached, and those that have
    not errored satisfy [P] and are in state [st]. *)
Definition batch_in (P : IBCV2Transfer → Prop) (st : db.Ibcv2RelayStatus) (d : db.Database)
    (h : gmap loc IBCV2Transfer) (ls : list loc) : Prop :=
  ∀ l, l ∈ ls → ∃ t, h !! l = Some t ∧ attached d t ∧
    (ProcessingError t = None → P t ∧ State t = st).

(** After [Process]. A failure says nothing of the rows of the batch: the
    database transaction may have been applied. *)
Definition batch_post (ls : list loc) (h : gmap loc IBCV2Transfer) (d : db.Database)
    (o : outcome (list loc)) (w : World X) : Prop :=
  db_within (live_keys h ls) d (w_db w) ∧ db_wf (w_db w) ∧ heap_pass ls h (w_heap w) ∧
  match o with
  | Ret out => out = ls ∧ ∀ l t', l ∈ ls → w_heap w !! l = Some t' → attached (w_db w) t'
  | Fail e => error_string e ≠ ""
  | Panic => True
  end.

Class BatchProcessorLaws (p : IBCV2BatchProcessor X) := {
  bpre : IBCV2Transfer → Prop;
  law_bpre_state : ∀ t s, bpre t → bpre (with_State s t);
  law_bunfinished : db.unfinished (Batch_State p) = true;
  law_bshould : ∀ l t x d h mt lg, h !! l = Some t →
    wp (Batch_ShouldProcess p l) (unchanged d h (λ o, ∃ b, o = Ret b ∧ (b = true → bpre t)))
      (mkWorld x d h mt lg);
  law_bprocess : ∀ ls x d h mt lg, db_wf d → batch_in bpre (Batch_State p) d h ls →
    wp (Batch_Process p ls) (batch_post ls h d) (mkWorld x d h mt lg);
  law_bcancel : ∀ ls err x d h mt lg, (∀ l, l ∈ ls → is_Some (h !! l)) →
    wp (Batch_Cancel p ls err) (unchanged d h (λ o, o = Ret tt)) (mkWorld x d h mt lg);
}.
End laws.
Arguments bpre {X} p {_}.
Arguments batch_post : simpl never.

(** ** The shared body of the three processors *)

Section body.
Context {X : Type} {E : Env X}.
Context (ls : list loc) (collect : M X (list (list Z) * list Z))
  (req : list (list Z) → list Z → RelayByTxRequest)
  (update : BridgeTx → db.packet_key → Time → db.Database → db.Database)
  (F : BridgeTx → Time → db.Ibcv2Transfer → db.Ibcv2Transfer)
  (f : BridgeTx → IBCV2Transfer → IBCV2Transfer).
Context (P : IBCV2Transfer → Prop) (st : db.Ibcv2RelayStatus).
Context (Hcollect : ∀ Q x d h mt lg, (∀ l, l ∈ ls → is_Some (h !! l)) →
  (∀ res h', marks ls h h' → Q (Ret res) (mkWorld x d h' mt lg)) →
  wp collect Q (mkWorld x d h mt lg)).
Context (Hupdate : ∀ tx k now, db.is_row_update k (update tx k now) (F tx now)).
Context (HF : ∀ tx n1 n2 r, F tx n2 (F tx n1 r) = F tx n2 r).
Context (Hf : ∀ tx t, f tx (f tx t) = f tx t)
  (Hf_err : ∀ tx t, ProcessingError (f tx t) = ProcessingError t)
  (Hf_same : ∀ tx t, same_packet t (f tx t)) (Hf_State : ∀ tx t, State (f tx t) = State t).
Context (Hsynced : ∀ tx now t r, synced t r → synced (f tx t) (F tx now r)).
Context (Hrow : ∀ tx now t r, P t → State t = st → synced t r → row_ok r →
  row_ok (F tx now r)).

(** In the marked heap the live transfers are live transfers of before. *)
Lemma marks_live h h' k : marks ls h h' → k ∈ live_keys h' ls → k ∈ live_keys h ls.
Proof.
  intros Hm. rewrite !live_keys_elem. intros (l & t' & Hl & Ht' & He & Hk).
  destruct (marks_lookup _ _ _ _ _ Hm Ht') as (t & Ht & [->|(_ & e & _ & ->)]); [|done].
  by exists l, t.
Qed.

(** The updated rows are in order. *)
Lemma updated_wf h h' d d' tx :
  db_wf d → batch_in P st d h ls → marks ls h h' →
  rows_updated (F tx) (live_keys h' ls) d d' → db_wf d'.
Proof.
  intros Hwf Hin Hm Hu. eapply within_wf; [by eapply rows_updated_within|done|].
  intros k r' Hk Hr'. destruct (updated_in _ _ _ _ Hu k Hk) as [now Heq].
  apply (marks_live h) in Hk; [|done].
  apply live_keys_elem in Hk as (l & t & Hl & Ht & He & <-).
  destruct (Hin l Hl) as (t0 & Ht0 & (r & Hr & _ & Ha) & HP). simplify_eq.
  rewrite He in Ha. rewrite Hr' , Hr in Heq. simplify_eq/=. destruct (HP He) as [? ?].
  eapply Hrow; eauto using wf_rows.
Qed.

(** A transfer of the batch after both updates. *)
Lemma updated_attached h h' d d' tx l t' :
  batch_in P st d h ls → marks ls h h' → rows_updated (F tx) (live_keys h' ls) d d' →
  l ∈ ls → h' !! l = Some t' → attached d' (set_live (f tx) t').
Proof.
  intros Hin Hm Hu Hl Ht'. destruct (Hin l Hl) as (t & Ht & Ha & _).
  destruct (marks_lookup _ _ _ _ _ Hm Ht') as (t0 & Ht0 & Hcase). simplify_eq.
  assert (attached d t') as Ha'.
  { destruct Hcase as [->|(_ & e & He & ->)]; [done|by apply attached_mark]. }
  pose proof (rows_updated_within _ _ _ _ Hu) as Hw. pose proof Ha' as (r & Hr & _ & Hs).
  unfold set_live, has. destruct (ProcessingError t') eqn:He; simpl.
  - destruct (within_row_Some (live_keys h' ls) (update_key t') d d' r) as (r' & Hr' & _);
      [done|done|]. eapply attached_again; [done..|]. by rewrite He.
  - assert (update_key t' ∈ live_keys h' ls) as Hk by (apply live_keys_elem; eauto 10).
    destruct (updated_in _ _ _ _ Hu _ Hk) as [now Heq]. rewrite Hr in Heq; simpl in Heq.
    eapply attached_again; [done|done|done|done|]. rewrite Hf_err, He. by apply Hsynced.
Qed.

(** The assignment to the live transfers of the batch. *)
Lemma set_live_pass tx h h' :
  (∀ l, l ∉ ls → h' !! l = h !! l) → (∀ l, l ∈ ls → h' !! l = set_live (f tx) <$> h !! l) →
  heap_pass ls h h'.
Proof.
  intros Ho Hi.
  assert (∀ t, same_packet t (set_live (f tx) t) ∧
    ProcessingError (set_live (f tx) t) = ProcessingError t ∧
    State (set_live (f tx) t) = State t) as Hset.
  { intros t. unfold set_live. by destruct (has _). }
  split; [split; [done|]|].
  - intros l t Ht. destruct (decide (l ∈ ls)) as [Hl|Hl].
    + rewrite Hi, Ht by done. simpl. eexists. destruct (Hset t) as (? & -> & _). eauto.
    + rewrite Ho, Ht by done. eexists. by split_and!.
  - intros l t t' Ht. destruct (decide (l ∈ ls)) as [Hl|Hl].
    + rewrite Hi, Ht by done. intros [= <-]. unfold stays_open.
      by destruct (Hset t) as (_ & _ & ->).
    + rewrite Ho, Ht by done. by intros [= <-].
Qed.

(** What a run of the body does. [h1] is the heap in which the transfers that
    cannot be part of the batch carry an error. On success one transaction was
    delivered and written to every live transfer of the batch and its row. On
    failure the transfers are those of [h1], and either the tables are as they
    were or the rows of exactly the live transfers have the transaction. *)
Definition batch_run (id : string) (h : gmap loc IBCV2Transfer) (d : db.Database)
    (o : outcome (list loc)) (w : World X) : Prop :=
  let recorded h1 tx := (∃ txIDs seqs, delivered id (req txIDs seqs) tx) ∧
    rows_updated (F tx) (live_keys h1 ls) d (w_db w) in
  ∃ h1, marks ls h h1 ∧
  match o with
  | Ret out => out = ls ∧ ∃ tx, recorded h1 tx ∧ (∀ l, l ∉ ls → w_heap w !! l = h1 !! l) ∧
      ∀ l, l ∈ ls → w_heap w !! l = set_live (f tx) <$> h1 !! l
  | Fail e => w_heap w = h1 ∧ error_string e ≠ "" ∧
      (rollback d (w_db w) = w_db w ∨ ∃ tx, recorded h1 tx)
  | Panic => w_heap w = h1 ∧ rollback d (w_db w) = w_db w
  end.

Lemma batch_body_run msg kind chain de id m2 m3 (x : X) d h mt lg :
  (∀ l, l ∈ ls → is_Some (h !! l)) →
  wp (collected ← collect;
      let '(txIDs, sequences) := collected in
      logger Info msg ≫= λ _,
      tx ← relay_and_deliver kind chain de id (req txIDs sequences);
      wrap m2 (ExecTx (update_batch m3 (update tx) ls)) ≫= λ _,
      set_batch (f tx) ls ≫= λ _,
      mret ls) (batch_run id h d) (mkWorld x d h mt lg).
Proof.
  intros Hdom. wp_step. apply Hcollect; [done|]. intros [txIDs seqs] h1 Hm. simpl.
  assert (∀ l, l ∈ ls → is_Some (h1 !! l)) as Hdom1 by eauto using marks_dom.
  assert (rollback d d = d) as Hback by (by destruct d).
  wp_step. wp_step. simpl. wp_step. apply wp_relay_and_deliver; simpl.
  2: { intros. exists h1. by split_and!; [..|left]. }
  2: { intros. by exists h1. }
  intros tx x1 mt1 lg1 Htx. wp_step. apply wp_wrap, wp_ExecTx; simpl.
  { intros e x2. exists h1. split_and!; [done|done|apply Errorf_string_nonempty|by left]. }
  intros x2. apply (wp_update_batch m3 (update tx) (F tx) ls _ (Hupdate tx) (HF tx) [] x2 d);
    [done|apply rows_updated_nil| |].
  2: { intros e x3 d3 e' x4. exists h1.
       split_and!; [done|done|apply Errorf_string_nonempty|by left]. }
  simpl. intros x3 d3 Hu. split; [|split].
  2: { intros e x4. exists h1. split_and!; [done|done|apply Errorf_string_nonempty|].
       right. exists tx. split; [by eauto|done]. }
  2: { intros e x4. exists h1. split_and!; [done|done|apply Errorf_string_nonempty|by left]. }
  intros x4. wp_step. apply (wp_set_batch (f tx)); [done|done|done|]. intros h' Ho Hi. simpl.
  apply wp_ret. exists h1. split_and!; [done|done|]. exists tx. split_and!; eauto.
Qed.

(** The run keeps the contract. *)
Lemma batch_run_post id (d : db.Database) h o w :
  db_wf d → batch_in P st d h ls → batch_run id h d o w → batch_post ls h d o w.
Proof.
  intros Hwf Hin (h1 & Hm & Ho).
  assert (∀ d', rollback d d' = d' → db_within (live_keys h ls) d d' ∧ db_wf d') as Hsame.
  { intros d' Hd. assert (db_within [] d d') as Hw by (rewrite <- Hd; apply rollback_within).
    split; [eapply db_within_mono; [|done]; set_solver|].
    eapply within_wf; [done..|]. by intros ? ? ?%elem_of_nil. }
  assert (∀ tx d', rows_updated (F tx) (live_keys h1 ls) d d' →
    db_within (live_keys h ls) d d' ∧ db_wf d') as Hupd.
  { intros tx d' Hu. split; [|by eapply updated_wf].
    eapply db_within_mono; [|by eapply rows_updated_within]. intros k. by apply marks_live. }
  assert (heap_pass ls h h1) as Hpass by (by apply marks_heap_pass).
  unfold batch_post. destruct o as [out|e|]; simpl in *.
  - destruct Ho as (-> & tx & [_ Hu] & Hout & Hset).
    destruct (Hupd tx _ Hu). split_and!; try done.
    + transitivity h1; [done|]. by apply (set_live_pass tx).
    + intros l t' Hl Ht'. rewrite Hset in Ht' by done.
      destruct (h1 !! l) as [t1|] eqn:Ht1; simplify_eq/=. by eapply updated_attached.
  - destruct Ho as (-> & ? & [Hd|(tx & _ & Hu)]); [destruct (Hsame _ Hd)|destruct (Hupd tx _ Hu)];
      by split_and!.
  - destruct Ho as [-> Hd]. destruct (Hsame _ Hd). by split_and!.
Qed.

Lemma batch_body_post msg kind chain de id m2 m3 (x : X) d h mt lg :
  db_wf d → batch_in P st d h ls →
  wp (collected ← collect;
      let '(txIDs, sequences) := collected in
      logger Info msg ≫= λ _,
      tx ← relay_and_deliver kind chain de id (req txIDs sequences);
      wrap m2 (ExecTx (update_batch m3 (update tx) ls)) ≫= λ _,
      set_batch (f tx) ls ≫= λ _,
      mret ls) (batch_post ls h d) (mkWorld x d h mt lg).
Proof.
  intros Hwf Hin. eapply wp_mono; [intros o w; by apply (batch_run_post id)|].
  apply batch_body_run. intros l Hl. destruct (Hin l Hl) as (t & Ht & _). eauto.
Qed.
End body.

(** ** The batch processors keep the contract *)

Ltac blaw_reads :=
  intros; wp_run; unfold unchanged; simpl; split_and!; eauto;
  try (eexists; split; [reflexivity|]; done).

Section instances.
Context {X : Type} {E : Env X}.

Lemma log_each_unchanged msg ls (x : X) d h mt lg :
  (∀ l, l ∈ ls → is_Some (h !! l)) →
  wp (log_each msg ls) (unchanged d h (λ o, o = Ret tt)) (mkWorld x d h mt lg).
Proof. intros Hd. by apply wp_log_each. Qed.

#[global] Instance BatchRecvPacket_laws sc si dc di :
  BatchProcessorLaws (NewBatchRecvPacketProcessor sc si dc di).
Proof.
  refine {| bpre := λ t, RecvTxHash t = None |}; [done|done| | |].
  - blaw_reads. eexists. split; [done|]. intros _. by apply has_false.
  - intros ls x d h mt lg Hwf Hin. simpl. unfold BatchRecvPacketProcessor_Process.
    eapply batch_body_post; try done.
    + intros. by apply wp_collect_send_txs.
    + intros tx now t r []. split; done.
    + intros tx now t r HP HS Hs Hok. simpl in HP. apply row_ok_unfinished; simpl.
      * by rewrite <- (sync_State _ _ Hs), HS.
      * intros h' Hh. rewrite (sync_RecvTxHash _ _ Hs) in HP.
        destruct (ok_write_ack _ Hok h' Hh). congruence.
  - intros. by apply log_each_unchanged.
Defined.

#[global] Instance BatchAckPacket_laws sc si dc di s e :
  BatchProcessorLaws (NewBatchAckPacketProcessor sc si dc di s e).
Proof.
  refine {| bpre := λ _ : IBCV2Transfer, True |}; [done|done|blaw_reads| |].
  - intros ls x d h mt lg Hwf Hin. simpl. unfold BatchAckPacketProcessor_Process.
    eapply batch_body_post; try done.
    + intros. by apply wp_collect_ack_txs.
    + intros tx now t r []. split; done.
    + intros tx now t r _ HS Hs Hok. apply row_ok_unfinished; simpl; [|apply Hok].
      by rewrite <- (sync_State _ _ Hs), HS.
  - intros. by apply log_each_unchanged.
Defined.

#[global] Instance BatchTimeoutPacket_laws sc si dc di :
  BatchProcessorLaws (NewBatchTimeoutPacketProcessor sc si dc di).
Proof.
  refine {| bpre := λ _ : IBCV2Transfer, True |}; [done|done|blaw_reads| |].
  - intros ls x d h mt lg Hwf Hin. simpl. unfold BatchTimeoutPacketProcessor_Process.
    eapply batch_body_post; try done.
    + intros. by apply wp_collect_send_txs.
    + intros tx now t r []. split; done.
    + intros tx now t r _ HS Hs Hok. apply row_ok_unfinished; simpl; [|apply Hok].
      by rewrite <- (sync_State _ _ Hs), HS.
  - intros. by apply log_each_unchanged.
Defined.
End instances.

(** ** The batch middleware *)

(** The transfers of a batch while the middleware works on it. *)
Record batch_inv (ls : list loc) (d : db.Database) (h : gmap loc IBCV2Transfer) : Prop := {
  inv_wf : db_wf d;
  inv_attached : ∀ l, l ∈ ls → ∃ t, h !! l = Some t ∧ attached d t;
  inv_distinct : keys_distinct h ls;
}.

Lemma inv_dom ls d h l : batch_inv ls d h → l ∈ ls → is_Some (h !! l).
Proof. intros Hi Hl. destruct (inv_attached _ _ _ Hi l Hl) as (t & ? & _). eauto. Qed.

Definition errored (h : gmap loc IBCV2Transfer) (l : loc) : Prop :=
  ∃ t, h !! l = Some t ∧ is_Some (ProcessingError t).

Lemma errored_pass ls h h' l : heap_pass ls h h' → errored h l → errored h' l.
Proof.
  intros Hp (t & Ht & He). destruct (pass_in _ _ _ Hp l t Ht) as (t' & Ht' & _ & He').
  exists t'. auto.
Qed.

(** Live transfers were live before. *)
Lemma live_pass ls h h' all k :
  heap_pass ls h h' → (∀ l, l ∈ all → is_Some (h !! l)) →
  k ∈ live_keys h' all → k ∈ live_keys h all.
Proof.
  intros Hp Hd. rewrite !live_keys_elem. intros (l & t' & Hl & Ht' & He & Hk).
  destruct (Hd l Hl) as [t Ht].
  destruct (pass_in _ _ _ Hp l t Ht) as (t2 & Ht2 & Hs & Herr).
  rewrite Ht' in Ht2. injection Ht2 as <-.
  exists l, t. rewrite <- (same_packet_update_key t t') by done. split_and!; try done.
  destruct (ProcessingError t); [|done]. destruct Herr; [by eexists|congruence].
Qed.

(** One transfer [l] of the batch and its row are changed. *)
Lemma batch_inv_step ls l t f d d' h :
  batch_inv ls d h → l ∈ ls → h !! l = Some t → (∀ u, same_packet u (f u)) →
  (∀ u, is_Some (ProcessingError u) → is_Some (ProcessingError (f u))) →
  ProcessingError t = None → db_local (update_key t) d d' → db_wf d' → attached d' (f t) →
  batch_inv ls d' (alter f l h).
Proof.
  intros Hi Hl Ht Hp He Hlive Hloc Hwf Ha. split; [done| |].
  - intros l' Hl'. destruct (decide (l = l')) as [<-|Hne].
    { exists (f t). by rewrite lookup_alter_eq, Ht. }
    destruct (inv_attached _ _ _ Hi l' Hl') as (t' & Ht' & Ha'). exists t'.
    rewrite lookup_alter_ne by done. split; [done|].
    eapply attached_frame; [done|apply Hi| |done]. intros He'.
    rewrite list_elem_of_singleton. intros Hk. apply Hne.
    by eapply (inv_distinct _ _ _ Hi l l' t t').
  - apply (heap_pass_distinct ls h); [by apply heap_frame_alter| |apply Hi].
    intros l' Hl'. by eapply inv_dom.
Qed.

Section mw.
Context {X : Type} {E : Env X} (p : IBCV2BatchProcessor X) `{!BatchProcessorLaws p}.

Lemma wp_bshould l t Q (x : X) d h mt lg :
  h !! l = Some t →
  (∀ b x' mt' lg', (b = true → bpre p t) → Q (Ret b) (mkWorld x' d h mt' lg')) →
  wp (Batch_ShouldProcess p l) Q (mkWorld x d h mt lg).
Proof.
  intros Hl HQ. eapply wp_mono; [|by apply law_bshould].
  intros o [x' d' h' mt' lg'] (Hd & Hh & b & -> & Hb); simpl in *. subst. auto.
Qed.

Lemma wp_bcancel ls err Q (x : X) d h mt lg :
  (∀ l, l ∈ ls → is_Some (h !! l)) →
  (∀ x' mt' lg', Q (Ret tt) (mkWorld x' d h mt' lg')) →
  wp (Batch_Cancel p ls err) Q (mkWorld x d h mt lg).
Proof.
  intros Hl HQ. eapply wp_mono; [|by eapply law_bcancel].
  intros o [x' d' h' mt' lg'] (Hd & Hh & ->); simpl in *. subst. auto.
Qed.

(** What is known of the transfers selected for processing. *)
Definition selected (h : gmap loc IBCV2Transfer) (tp : list loc) : Prop :=
  ∀ l t, l ∈ tp → h !! l = Some t → ProcessingError t = None →
    bpre p t ∧ State t = Batch_State p.

Lemma selected_alter h tp l t f :
  h !! l = Some t → selected h tp →
  (ProcessingError (f t) = None → bpre p (f t) ∧ State (f t) = Batch_State p) →
  selected (alter f l h) (tp ++ [l]).
Proof.
  intros Ht Hs Hf l' t' Hl' Ht' He. destruct (decide (l = l')) as [<-|Hne].
  - rewrite lookup_alter_eq, Ht in Ht'. simplify_eq/=. auto.
  - rewrite lookup_alter_ne in Ht' by done. apply (Hs l'); try done. set_solver.
Qed.

(** What the loop that splits a batch ends with: [batch] is spread over the two
    lists, with [extra] the transfers that went to both. *)
Definition split_done (all batch np tp : list loc) (d : db.Database)
    (h : gmap loc IBCV2Transfer) (o : outcome (list loc * list loc)) (w : World X) : Prop :=
  ∃ np' tp' extra, o = Ret (np', tp') ∧ np' ++ tp' ≡ₚ np ++ tp ++ batch ++ extra ∧
    (∀ l, l ∈ extra → l ∈ all ∧ errored (w_heap w) l) ∧ (healthy → extra = []) ∧
    tp' ⊆ all ∧ batch_inv all (w_db w) (w_heap w) ∧ selected (w_heap w) tp' ∧
    db_within (live_keys h all) d (w_db w) ∧ heap_pass all h (w_heap w).

Lemma split_done_skip all batch l np tp d h o w :
  split_done all batch (np ++ [l]) tp d h o w → split_done all (l :: batch) np tp d h o w.
Proof.
  intros (np' & tp' & extra & -> & Hperm & H). exists np', tp', extra. split_and!; try apply H;
    [done|]. rewrite Hperm. solve_Permutation.
Qed.

(** The loop goes on with the tables and the heap a step has left behind. *)
Lemma split_done_within all d d1 h h1 d2 h2 :
  batch_inv all d h → db_within (live_keys h all) d d1 → heap_pass all h h1 →
  db_within (live_keys h1 all) d1 d2 → heap_pass all h1 h2 →
  db_within (live_keys h all) d d2 ∧ heap_pass all h h2.
Proof.
  intros Hinv Hd1 Hh1 Hd2 Hh2. split; [|by etrans]. etrans; [done|].
  eapply db_within_mono; [|done]. intros k. eapply live_pass; [done|].
  intros. by eapply inv_dom.
Qed.

(** The state was updated: the transfer goes to [toProcess]. *)
Lemma split_done_updated all batch l np tp d d1 h f o w :
  batch_inv all d h → db_within (live_keys h all) d d1 → heap_pass all h (alter f l h) →
  split_done all batch np (tp ++ [l]) d1 (alter f l h) o w →
  split_done all (l :: batch) np tp d h o w.
Proof.
  intros Hinv Hd Hh (np' & tp' & extra & -> & Hperm & Hex & Hok & Htp & Hi & Hs & Hw).
  exists np', tp', extra. split_and!; try done; [rewrite Hperm; solve_Permutation|..];
    by eapply split_done_within; [..|apply Hw|apply Hw].
Qed.

(** It was not: the transfer has errored and goes to both lists. *)
Lemma split_done_failed all batch l t np tp d h f o w :
  ¬ healthy → batch_inv all d h → l ∈ all → h !! l = Some t → is_Some (ProcessingError (f t)) →
  heap_pass all h (alter f l h) →
  split_done all batch (np ++ [l]) (tp ++ [l]) d (alter f l h) o w →
  split_done all (l :: batch) np tp d h o w.
Proof.
  intros Hsick Hinv Hl Ht He Hh (np' & tp' & extra & -> & Hperm & Hex & _ & Htp & Hi & Hs & Hw).
  exists np', tp', (l :: extra). split_and!; try done; [rewrite Hperm; solve_Permutation| |..];
    [|by eapply split_done_within; [..|apply Hw|apply Hw]..].
  intros l' [->|?]%elem_of_cons; [|auto]. split; [done|].
  eapply errored_pass; [apply Hw|]. exists (f t). by rewrite lookup_alter_eq, Ht.
Qed.

Lemma split_batch_post all : ∀ batch np tp (x : X) d h mt lg,
  batch ⊆ all → tp ⊆ all → batch_inv all d h → selected h tp →
  wp (split_batch p batch np tp) (split_done all batch np tp d h) (mkWorld x d h mt lg).
Proof.
  induction batch as [|l batch IH]; intros np tp x d h mt lg Hsub Htp Hinv Hsel; simpl.
  { apply wp_ret. exists np, tp, []. by split_and!; [|rewrite !app_nil_r|set_solver|..]. }
  assert (l ∈ all) as Hl by set_solver.
  destruct (inv_attached _ _ _ Hinv l Hl) as (t & Ht & Ha).
  assert (∀ y mt1 lg1, wp (split_batch p batch (np ++ [l]) tp)
    (split_done all (l :: batch) np tp d h) (mkWorld y d h mt1 lg1)) as Hskip.
  { intros y mt1 lg1. eapply wp_mono; [intros ? ?; apply split_done_skip|].
    apply IH; [set_solver|done..]. }
  wp_step. eapply wp_load; [done|]. simpl.
  case_bool_decide as He; simpl; [|apply Hskip]. apply (attached_live d) in He; [|done].
  case_bool_decide; [apply Hskip|].
  wp_step. eapply (wp_bshould l); [done|]. intros [] x1 mt1 lg1 Hpre; simpl; [|apply Hskip].
  specialize (Hpre eq_refl). pose proof Ha as (r & Hr & _ & Hs). rewrite He in Hs.
  wp_step. apply wp_attempt, wp_exec_cases; simpl.
  - intros Hsick e x2. do 2 wp_step.
    eapply wp_bcancel; [intros ? ->%list_elem_of_singleton; eauto|]. intros x3 mt3 lg3. wp_go.
    rewrite alter_alter_eq.
    set (f := with_State (Batch_State p) ∘
              with_ProcessingError (Some (Errorf "updating transfer state" e))).
    eapply wp_mono; [intros ? ? Hd; apply (split_done_failed all batch l t np tp d h f); try done;
      apply heap_pass_alter; [done|done|by eexists|intros; apply law_bunfinished]|].
    apply IH; [set_solver|set_solver| |by eapply selected_alter].
    apply (batch_inv_step all l t f d d h);
      [done|done|done|by split|by eexists|done|done|apply Hinv|].
    eapply (attached_again [] d d t); [done|done|by split|done|]. apply Errorf_string_nonempty.
  - intros now x2. wp_go.
    destruct (state_updated (Batch_State p) t r d now) as (Hloc & Hwf1 & r1 & Hr1 & Hs1);
      [apply law_bunfinished|apply Hinv|done|done|].
    assert (update_key t ∈ live_keys h all) as Hk by (apply live_keys_elem; by exists l, t).
    assert (heap_pass all h (alter (with_State (Batch_State p)) l h)) as Hpass
      by (apply heap_pass_alter; try done; intros; apply law_bunfinished).
    eapply wp_mono; [intros o w Hd; exact (split_done_updated all batch l np tp d _ h _ o w Hinv
      (local_within _ _ _ _ Hk Hloc) Hpass Hd)|].
    apply IH; [set_solver|set_solver| |].
    + eapply (batch_inv_step all l t); [done|done|done|by split|done|done|done|done|].
      eapply attached_again; [done|done|by split|done|]. simpl. by rewrite He.
    + eapply selected_alter; [done|done|]. intros _. split; [by apply law_bpre_state|done].
Qed.

(** The middleware's error branch marks every selected transfer. *)
Lemma wp_mark_all e ls Q : ∀ (x : X) d h mt lg,
  (∀ h', (∀ l, l ∉ ls → h' !! l = h !! l) →
     (∀ l, l ∈ ls → h' !! l = with_ProcessingError (Some e) <$> h !! l) →
     Q (Ret tt) (mkWorld x d h' mt lg)) →
  wp (forM ls (λ l, modify l (with_ProcessingError (Some e)))) Q (mkWorld x d h mt lg).
Proof.
  induction ls as [|l ls IH]; intros x d h mt lg HQ; simpl.
  { apply wp_ret, HQ; [done|]. by intros ? ?%elem_of_nil. }
  do 2 wp_step. apply IH. intros h' Ho Hi. apply HQ.
  - intros l' [Hne Hn]%not_elem_of_cons. by rewrite Ho, lookup_alter_ne.
  - intros l' Hl'. destruct (decide (l' ∈ ls)) as [Hin|Hin].
    + rewrite Hi by done. destruct (decide (l = l')) as [<-|Hne].
      * rewrite lookup_alter_eq. by destruct (h !! l).
      * by rewrite lookup_alter_ne.
    + assert (l' = l) as -> by set_solver. by rewrite Ho, lookup_alter_eq.
Qed.

(** Handling the selected transfers [tp] keeps the whole batch in order. *)
Lemma batch_inv_process all tp d1 d2 h1 h2 :
  batch_inv all d1 h1 → tp ⊆ all → db_within (live_keys h1 tp) d1 d2 → db_wf d2 →
  heap_pass tp h1 h2 → (∀ l t', l ∈ tp → h2 !! l = Some t' → attached d2 t') →
  batch_inv all d2 h2.
Proof.
  intros Hinv Hsub Hd Hwf Hp Ha. split; [done| |].
  - intros l Hl. destruct (inv_attached _ _ _ Hinv l Hl) as (t & Ht & Hat).
    destruct (pass_in _ _ _ Hp l t Ht) as (t' & Ht' & _). exists t'. split; [done|].
    destruct (decide (l ∈ tp)) as [Hin|Hin]; [by eapply Ha|].
    rewrite (pass_out _ _ _ Hp l Hin), Ht in Ht'. injection Ht' as <-.
    eapply attached_frame; [done|apply Hinv| |done]. intros He (l2 & t2 & Hl2 & Ht2 & He2 & Hk)%live_keys_elem.
    apply Hin. by rewrite (inv_distinct _ _ _ Hinv l l2 t t2); auto.
  - eapply heap_pass_distinct; [exact Hp| |apply Hinv]. intros. by eapply inv_dom.
Qed.

(** A batch after the middleware. The output holds every transfer of the
    batch, and repeats only transfers that have errored, none if the database
    works. *)
Definition bmw_post (batch : list loc) (h : gmap loc IBCV2Transfer) (d : db.Database)
    (o : outcome (list loc)) (w : World X) : Prop :=
  db_within (live_keys h batch) d (w_db w) ∧ heap_pass batch h (w_heap w) ∧
  match o with
  | Ret out => batch_inv batch (w_db w) (w_heap w) ∧
      ∃ extra, out ≡ₚ batch ++ extra ∧ (healthy → extra = []) ∧
        ∀ l, l ∈ extra → l ∈ batch ∧ errored (w_heap w) l
  | Fail e => db_wf (w_db w) ∧ errors_Is e ContextCanceled = true
  | Panic => db_wf (w_db w)
  end.

Lemma IBCV2BatchProcessorMW_Process_post batch (x : X) d h mt lg :
  batch_inv batch d h →
  wp (IBCV2BatchProcessorMW_Process p batch) (bmw_post batch h d) (mkWorld x d h mt lg).
Proof.
  intros Hinv. unfold IBCV2BatchProcessorMW_Process, IBCV2BatchProcessorMW_Cancel.
  wp_step. apply wp_logger. intros lg0. simpl. wp_step.
  eapply wp_mono; [|apply (split_batch_post batch); [done|set_solver|done|by intros ? ? ?%elem_of_nil]].
  intros ? [x1 d1 h1 mt1 lg1] (np & tp & extra & -> & Hperm & Hex & Hno & Htp & Hinv1 & Hsel & Hd1 & Hh1);
    simpl in *.
  assert (batch_in (bpre p) (Batch_State p) d1 h1 tp) as Hin.
  { intros l Hl. destruct (inv_attached _ _ _ Hinv1 l) as (t & Ht & Ha); [auto|]. eauto 10. }
  assert (∀ k, k ∈ live_keys h1 tp → k ∈ live_keys h batch) as Hkeys.
  { intros k Hk. eapply live_pass; [done|by intros; eapply inv_dom|].
    apply live_keys_elem in Hk as (l & t & ? & ?). apply live_keys_elem. exists l, t. naive_solver. }
  simpl. wp_step. apply wp_attempt.
  eapply wp_mono; [|apply (law_bprocess tp); [apply Hinv1|done]].
  intros o [x2 d2 h2 mt2 lg2] (Hd2 & Hwf2 & Hh2 & Ho); simpl in *.
  assert (db_within (live_keys h batch) d d2) as Hd by (etrans; [done|by eapply db_within_mono]).
  assert (heap_pass batch h h2) as Hh by (etrans; [done|by eapply heap_pass_mono]).
  destruct o as [out|e|]; simpl; [| |by split_and!].
  - destruct Ho as [-> Ha]. wp_go. split; [done|]. split; [done|]. simpl.
    split; [by apply (batch_inv_process batch tp d1 d2 h1)|]. exists extra. split.
    { rewrite (Permutation_app_comm tp np), Hperm. by simpl. }
    split; [done|]. intros l Hl. destruct (Hex l Hl). split; [done|]. by apply (errored_pass tp h1).
  - wp_go; [by split_and!|].
    eapply wp_bcancel.
    { intros l Hl. destruct (inv_dom _ _ _ l Hinv1) as [t Ht]; [auto|].
      destruct (pass_in _ _ _ Hh2 l t Ht) as (? & ? & _). eauto. }
    intros x3 mt3 lg3. wp_go. apply wp_mark_all. intros h3 Ho3 Hi3. simpl. wp_go.
    assert (heap_pass tp h2 h3) as Hh3.
    { apply marks_heap_pass. intros l. destruct (decide (l ∈ tp)); [right|left]; eauto. }
    split; [done|]. split; [etrans; [done|by eapply heap_pass_mono]|]. simpl. split.
    { eapply (batch_inv_process batch tp d1 d2 h1); [done|done|done|done|by etrans|].
      intros l t' Hl Ht'. destruct (inv_attached _ _ _ Hinv1 l) as (t & Ht & Ha); [auto|].
      pose proof Ha as (r & Hr & _).
      destruct (pass_in _ _ _ Hh2 l t Ht) as (t2 & Ht2 & Hsp & _).
      rewrite Hi3, Ht2 in Ht' by done. simplify_eq/=.
      destruct (within_row_Some (live_keys h1 tp) (update_key t) d1 d2 r) as (r2 & Hr2 & _);
        [done|done|].
      eapply (attached_again (live_keys h1 tp) d1); [done|done| |done|done]. transitivity t2; [done|by split]. }
    exists extra. split; [rewrite (Permutation_app_comm tp np), Hperm; by simpl|].
    split; [done|]. intros l Hl. destruct (Hex l Hl). split; [done|].
    apply (errored_pass tp h2); [done|]. by apply (errored_pass tp h1).
Qed.
End mw.

(** ** What the middleware returns, in any world *)

Section mw_any.
Context {X : Type} {E : Env X} (p : IBCV2BatchProcessor X).

(** A batch processor that returns its batch when it succeeds. *)
Definition returns_batch : Prop :=
  ∀ ls (w w' : World X) out, Batch_Process p ls w = (Ret out, w') → out = ls.

(** Neither the test nor [Cancel] fails: they may only return or panic. *)
Definition no_error {A} (o : outcome A) : Prop := match o with Fail _ => False | _ => True end.

Definition tests_only_panic : Prop :=
  (∀ l w, no_error (Batch_ShouldProcess p l w).1) ∧ (∀ ls e w, no_error (Batch_Cancel p ls e w).1).

Lemma split_batch_any batch : tests_only_panic → ∀ np tp (w : World X),
  wp (split_batch p batch np tp) (λ o _, match o with
    | Ret (np', tp') => ∃ extra, np' ++ tp' ≡ₚ np ++ tp ++ batch ++ extra ∧ extra ⊆+ batch
    | Fail _ => False
    | Panic => True
    end) w.
Proof.
  intros [Hsh Hca]. induction batch as [|l batch IH]; intros np tp w; simpl.
  { apply wp_ret. exists []. split; [by rewrite !app_nil_r|done]. }
  assert (∀ w, wp (split_batch p batch (np ++ [l]) tp) (λ o _, match o with
    | Ret (np', tp') => ∃ extra, np' ++ tp' ≡ₚ np ++ tp ++ (l :: batch) ++ extra ∧
        extra ⊆+ l :: batch
    | Fail _ => False
    | Panic => True
    end) w) as Hskip.
  { intros w1. eapply wp_mono; [|apply IH].
    intros [[np' tp']|e|] w2 Ho; [|done..]. destruct Ho as (extra & Hperm & Hsub).
    exists extra. split; [rewrite Hperm; solve_Permutation|by apply submseteq_cons]. }
  apply wp_bind. unfold wp at 1, load. destruct (w_heap w !! l) as [t|]; simpl; [|done].
  destruct (negb _); [apply Hskip|]. case_bool_decide; [apply Hskip|].
  apply wp_bind. unfold wp at 1. specialize (Hsh l w).
  destruct (Batch_ShouldProcess p l w) as [[[]|e|] [x1 d1 h1 mt1 lg1]]; simpl in *;
    [|apply Hskip|done..].
  do 2 wp_step. wp_step; simpl.
  - do 2 wp_step. unfold wp at 1. rename x' into x2.
    pose proof (Hca [l] (Errorf "updating transfer state" e) (mkWorld x2 d1 h1 mt1 lg1)) as Hc.
    destruct (Batch_Cancel p _ _ _) as [[[]|e2|] [x3 d3 h3 mt3 lg3]]; simpl in *; [|done..].
    wp_go. eapply wp_mono; [|apply IH].
    intros [[np' tp']|e2|] w2 Ho; [|done..]. destruct Ho as (extra & Hperm & Hsub).
    exists (l :: extra). split; [rewrite Hperm; solve_Permutation|by apply submseteq_skip].
  - wp_go. eapply wp_mono; [|apply IH].
    intros [[np' tp']|e2|] w2 Ho; [|done..]. destruct Ho as (extra & Hperm & Hsub).
    exists extra. split; [rewrite Hperm; solve_Permutation|by apply submseteq_cons].
Qed.

(** The output is the batch with some transfers of it once more; an error is
    a cancelled context. *)
Lemma batch_mw_any batch (w w' : World X) o :
  returns_batch → tests_only_panic → IBCV2BatchProcessorMW_Process p batch w = (o, w') →
  match o with
  | Ret out => ∃ reps, out ≡ₚ batch ++ reps ∧ reps ⊆+ batch
  | Fail e => errors_Is e ContextCanceled = true
  | Panic => True
  end.
Proof.
  intros Hret Htests Hrun. apply (wp_run _ (λ o _, match o with
    | Ret out => ∃ reps, out ≡ₚ batch ++ reps ∧ reps ⊆+ batch
    | Fail e => errors_Is e ContextCanceled = true
    | Panic => True
    end) _ _ _ Hrun). clear Hrun. unfold IBCV2BatchProcessorMW_Process.
  destruct w as [x d h mt lg]. do 2 wp_step. simpl. wp_step.
  eapply wp_mono; [|by apply split_batch_any].
  intros [[np tp]|e|] w1 Ho; simpl in *; [|done..]. destruct Ho as (reps & Hperm & Hsub).
  assert (tp ++ np ≡ₚ batch ++ reps) as Hout by (by rewrite (Permutation_app_comm tp np), Hperm).
  do 2 wp_step. unfold wp at 1.
  destruct (Batch_Process p tp w1) as [[out|e|] w2] eqn:Hp; simpl; [| |done].
  - apply Hret in Hp as ->. apply wp_ret. by exists reps.
  - destruct (errors_Is e ContextCanceled) eqn:Hc; [by apply wp_fail|].
    unfold IBCV2BatchProcessorMW_Cancel. wp_step. pose proof (proj2 Htests tp e w2) as Hca.
    unfold wp at 1. destruct (Batch_Cancel p tp e w2) as [[[]|e2|] [x3 d3 h3 mt3 lg3]];
      simpl in *; [|done..].
    wp_step. apply wp_mark_all. intros h4 _ _. simpl. apply wp_ret. by exists reps.
Qed.
End mw_any.
