(* ===== verification/PipelineOpts.v ===== *)
(** * Pipeline options

    Models [relayer/ibcv2/pipeline_opts.go]. *)
From stdpp Require Import prelude strings list gmap.
From Stdlib Require Import ZArith.
From S2P Require Import Prelude Go Config Db Transfer World Wp TransferMetrics.
Open Scope Z_scope.

Definition DefaultShouldRelaySuccessAcks : bool := false.
Definition DefaultShouldRelayErrorAcks : bool := true.
Definition DefaultAckBatchSize : Z := 50.
Definition DefaultAckBatchTimeout : Duration := 10 * Second.
Definition DefaultAckBatchConcurrency : Z := 10.
Definition DefaultRecvBatchSize : Z := 50.
Definition DefaultRecvBatchTimeout : Duration := 10 * Second.
Definition DefaultRecvBatchConcurrency : Z := 10.
Definition DefaultTimeoutBatchSize : Z := 50.
Definition DefaultTimeoutBatchTimeout : Duration := 1 * Minute.
Definition DefaultTimeoutBatchConcurrency : Z := 10.

Record PipelineOptions := mkPipelineOptions {
  opts_ShouldRelaySuccessAcks : bool;
  opts_ShouldRelayErrorAcks : bool;
  opts_AckBatchSize : Z;
  opts_AckBatchTimeout : Duration;
  opts_AckBatchConcurrency : Z;
  opts_RecvBatchSize : Z;
  opts_RecvBatchTimeout : Duration;
  opts_RecvBatchConcurrency : Z;
  opts_TimeoutBatchSize : Z;
  opts_TimeoutBatchTimeout : Duration;
  opts_TimeoutBatchConcurrency : Z;
  opts_SourceChainGasTokenCoingeckoID : string;
  opts_SourceChainGasTokenDecimals : Z;
  opts_DestinationChainGasTokenCoingeckoID : string;
  opts_DestinationChainGasTokenDecimals : Z;
  opts_SourceFinalityOffset : option Z;
  opts_DestinationFinalityOffset : option Z;
}.

(** The recv concurrency is set from the recv batch size. *)
Definition NewDefaultPipelineOpts : PipelineOptions := {|
  opts_ShouldRelaySuccessAcks := false;
  opts_ShouldRelayErrorAcks := true;
  opts_AckBatchSize := DefaultAckBatchSize;
  opts_AckBatchTimeout := DefaultAckBatchTimeout;
  opts_AckBatchConcurrency := DefaultAckBatchConcurrency;
  opts_RecvBatchSize := DefaultRecvBatchSize;
  opts_RecvBatchTimeout := DefaultRecvBatchTimeout;
  opts_RecvBatchConcurrency := DefaultRecvBatchSize;
  opts_TimeoutBatchSize := DefaultTimeoutBatchSize;
  opts_TimeoutBatchTimeout := DefaultTimeoutBatchTimeout;
  opts_TimeoutBatchConcurrency := DefaultTimeoutBatchConcurrency;
  opts_SourceChainGasTokenCoingeckoID := "";
  opts_SourceChainGasTokenDecimals := 0;
  opts_DestinationChainGasTokenCoingeckoID := "";
  opts_DestinationChainGasTokenDecimals := 0;
  opts_SourceFinalityOffset := None;
  opts_DestinationFinalityOffset := None;
|}.

Definition NewSmallPipelineOpts : PipelineOptions := {|
  opts_ShouldRelaySuccessAcks := false;
  opts_ShouldRelayErrorAcks := true;
  opts_AckBatchSize := 3;
  opts_AckBatchTimeout := 250 * Millisecond;
  opts_AckBatchConcurrency := 2;
  opts_RecvBatchSize := 3;
  opts_RecvBatchTimeout := 250 * Millisecond;
  opts_RecvBatchConcurrency := 2;
  opts_TimeoutBatchSize := 3;
  opts_TimeoutBatchTimeout := 250 * Millisecond;
  opts_TimeoutBatchConcurrency := 2;
  opts_SourceChainGasTokenCoingeckoID := "";
  opts_SourceChainGasTokenDecimals := 0;
  opts_DestinationChainGasTokenCoingeckoID := "";
  opts_DestinationChainGasTokenDecimals := 0;
  opts_SourceFinalityOffset := None;
  opts_DestinationFinalityOffset := None;
|}.

(** [v := def; if cfg != 0 { v = cfg }]. *)
Definition or_default (cfg def : Z) : Z := if bool_decide (cfg ≠ 0) then cfg else def.

Section opts.
Context {X : Type} {E : Env X}.

Definition NewPipelineOpts (transfer : IBCV2Transfer) : M X PipelineOptions :=
  sourceChainConfig ←
    wrap "getting config for chain"
      (lift_outcome (config.GetChainConfig env_config (GetSourceChainID transfer)));
  destinationChainConfig ←
    wrap "getting config for chain"
      (lift_outcome (config.GetChainConfig env_config (GetDestinationChainID transfer)));
  match config.IBCV2 sourceChainConfig with
  | None => fail (ErrorNew "no ibcv2 config for source chain")
  | Some src =>
      match config.IBCV2 destinationChainConfig with
      | None => fail (ErrorNew "no ibcv2 config for destination chain")
      | Some dst =>
          (if is_nil (config.GasTokenCoingeckoID sourceChainConfig)
           then logger Warn "source chain has no gas token coingecko id configured, no ack tx or timeout tx gas cost info will be calculated"
           else mret tt) ≫= λ _,
          (if is_nil (config.GasTokenCoingeckoID destinationChainConfig)
           then logger Warn "destination chain has no gas token coingecko id configured, no recv tx gas cost info will be calculated"
           else mret tt) ≫= λ _,
          (if bool_decide (config.GasTokenDecimals sourceChainConfig = 0)
           then logger Warn "source chain has no gas token decimals configured, no ack tx or timeout tx gas cost info will be calculated"
           else mret tt) ≫= λ _,
          (if bool_decide (config.GasTokenDecimals destinationChainConfig = 0)
           then logger Warn "destination chain has no gas token decimals configured, no recv tx gas cost info will be calculated"
           else mret tt) ≫= λ _,
          mret {|
            opts_ShouldRelaySuccessAcks := config.ShouldRelaySuccessAcks src;
            opts_ShouldRelayErrorAcks := config.ShouldRelayErrorAcks src;
            opts_AckBatchSize := or_default (config.AckBatchSize src) DefaultAckBatchSize;
            opts_AckBatchTimeout :=
              or_default (config.AckBatchTimeout src) DefaultAckBatchTimeout;
            opts_AckBatchConcurrency :=
              or_default (config.AckBatchConcurrency src) DefaultAckBatchConcurrency;
            opts_RecvBatchSize := or_default (config.RecvBatchSize dst) DefaultRecvBatchSize;
            opts_RecvBatchTimeout :=
              or_default (config.RecvBatchTimeout dst) DefaultRecvBatchTimeout;
            opts_RecvBatchConcurrency :=
              or_default (config.RecvBatchConcurrency dst) DefaultRecvBatchConcurrency;
            opts_TimeoutBatchSize :=
              or_default (config.TimeoutBatchSize src) DefaultTimeoutBatchSize;
            opts_TimeoutBatchTimeout :=
              or_default (config.TimeoutBatchTimeout src) DefaultTimeoutBatchTimeout;
            opts_TimeoutBatchConcurrency :=
              or_default (config.TimeoutBatchConcurrency src) DefaultTimeoutBatchConcurrency;
            opts_SourceChainGasTokenCoingeckoID :=
              default "" (config.GasTokenCoingeckoID sourceChainConfig);
            opts_SourceChainGasTokenDecimals := config.GasTokenDecimals sourceChainConfig;
            opts_DestinationChainGasTokenCoingeckoID :=
              default "" (config.GasTokenCoingeckoID destinationChainConfig);
            opts_DestinationChainGasTokenDecimals :=
              config.GasTokenDecimals destinationChainConfig;
            opts_SourceFinalityOffset := config.FinalityOffset src;
            opts_DestinationFinalityOffset := config.FinalityOffset dst;
          |}
      end
  end.
End opts.
