(* ===== verification/Pipeline.v ===== *)
(** * The pipeline

    Models [relayer/ibcv2/pipeline.go] and
    [relayer/ibcv2/conditional_batch_processor.go]: the stages a pipeline is
    built from, the manager that keeps one pipeline per pair of clients, and
    the deduper in front of each pipeline.

    The channels and goroutines are those of [github.com/deliveryhero/pipeline]
    and of the Go runtime: what the code relies on is that a stage takes each
    transfer from the channel before it, hands it to [Process], and puts what
    comes back on the channel after it, and that an error of [Process] goes to
    [Cancel] and drops the transfer. That is the step relation of
    [System.v]; here are the stages themselves. *)
From stdpp Require Import prelude strings list gmap.
From Stdlib Require Import ZArith.
From S2P Require Import Prelude Go Config Db Transfer World Wp TransferMetrics Processors.
From S2P Require Import ProcessorMW Batch PipelineOpts.
Open Scope Z_scope.

(** ** Stages *)

(** A processor in its middleware, a batch processor in its middleware behind
    [ConditionallyBatchProcess] with its concurrency, size and time limits, or
    the state finisher. *)
Inductive stage (X : Type) :=
  | ProcessConcurrently (p : IBCV2Processor X)
  | ConditionallyBatchProcess (concurrency maxSize : Z) (maxDuration : Duration)
      (p : IBCV2BatchProcessor X)
  | FinishConcurrently (f : StateFinisher).
Arguments ProcessConcurrently {X}.
Arguments ConditionallyBatchProcess {X}.
Arguments FinishConcurrently {X}.

Section pipeline.
Context {X : Type} {E : Env X}.

(** The guard of the gas cost stages. *)
Definition gas_stage (id : string) (decimals : Z)
    (new : (string → Z → option Z → Ext X db.Numeric) → string → Z → IBCV2Processor X)
    : list (stage X) :=
  match env_GetCoinUsdValue with
  | Some priceClient =>
      if negb (bool_decide (id = "")) && negb (bool_decide (decimals = 0))
      then [ProcessConcurrently (new priceClient id decimals)]
      else []
  | None => []
  end.

(** The stages of [NewPipeline], from the input channel to the output. *)
Definition NewPipeline (sourceChainID sourceClientID destinationChainID destinationClientID
    : string) (opts : PipelineOptions) : list (stage X) :=
  [ProcessConcurrently NewCheckRecvPacketDeliveryProcessor;
   ProcessConcurrently NewCheckPacketCommitmentProcessor;
   ProcessConcurrently
     (NewCheckSendFinalityProcessor sourceChainID (opts_SourceFinalityOffset opts));
   ProcessConcurrently
     (NewCheckTimeoutFinalityProcessor (opts_DestinationFinalityOffset opts));
   ConditionallyBatchProcess (opts_TimeoutBatchConcurrency opts) (opts_TimeoutBatchSize opts)
     (opts_TimeoutBatchTimeout opts)
     (NewBatchTimeoutPacketProcessor sourceChainID sourceClientID destinationChainID
        destinationClientID);
   ProcessConcurrently (NewRetryTimeoutPacketProcessor sourceChainID)] ++
  gas_stage (opts_SourceChainGasTokenCoingeckoID opts) (opts_SourceChainGasTokenDecimals opts)
    NewTimeoutTxGasCalculatorProcessor ++
  [ConditionallyBatchProcess (opts_RecvBatchConcurrency opts) (opts_RecvBatchSize opts)
     (opts_RecvBatchTimeout opts)
     (NewBatchRecvPacketProcessor sourceChainID sourceClientID destinationChainID
        destinationClientID);
   ProcessConcurrently (NewRetryRecvPacketProcessor destinationChainID)] ++
  gas_stage (opts_DestinationChainGasTokenCoingeckoID opts)
    (opts_DestinationChainGasTokenDecimals opts) NewRecvTxGasCalculatorProcessor ++
  [ProcessConcurrently NewWaitFoWriteAckPacketProcessor;
   ProcessConcurrently
     (NewCheckWriteAckFinalityProcessor destinationChainID (opts_ShouldRelaySuccessAcks opts)
        (opts_ShouldRelayErrorAcks opts) (opts_DestinationFinalityOffset opts));
   ProcessConcurrently NewCheckPacketCommitmentProcessor;
   ConditionallyBatchProcess (opts_AckBatchConcurrency opts) (opts_AckBatchSize opts)
     (opts_AckBatchTimeout opts)
     (NewBatchAckPacketProcessor sourceChainID sourceClientID destinationChainID
        destinationClientID (opts_ShouldRelaySuccessAcks opts)
        (opts_ShouldRelayErrorAcks opts));
   ProcessConcurrently (NewRetryAckPacketProcessor sourceChainID)] ++
  gas_stage (opts_SourceChainGasTokenCoingeckoID opts) (opts_SourceChainGasTokenDecimals opts)
    NewAckTxGasCalculatorProcessor ++
  [FinishConcurrently
     (mkStateFinisher (opts_ShouldRelaySuccessAcks opts) (opts_ShouldRelayErrorAcks opts))].

(** What [ConditionallyBatchProcess] does with a transfer it receives: [true]
    when it goes into the batch, [false] when it goes straight to the
    output. *)
Definition goes_to_batch (p : IBCV2BatchProcessor X) (l : loc) : M X bool :=
  transfer ← load l;
  if negb (bool_decide (IBCV2Transfer_Error transfer = "")) then mret false
  else
    should ← IBCV2BatchProcessorMW_ShouldProcess p l;
    if negb should then mret false
    else logger Debug "pushing transfer into batch" ≫= λ _, mret true.
End pipeline.

(** ** Keys *)

Record pipelineKey := mkPipelineKey {
  pk_SourceChainID : string;
  pk_SourceClientID : string;
  pk_DestinationChainID : string;
  pk_DestinationClientID : string;
}.

#[global] Instance pipelineKey_eq_dec : EqDecision pipelineKey.
Proof. solve_decision. Defined.

#[global] Instance pipelineKey_countable : Countable pipelineKey.
Proof.
  apply (inj_countable'
    (λ k, (pk_SourceChainID k, pk_SourceClientID k, pk_DestinationChainID k,
           pk_DestinationClientID k))
    (λ '(a, b, c, d), mkPipelineKey a b c d)).
  by intros [].
Defined.

Definition newPipelineKey (transfer : IBCV2Transfer) : pipelineKey := {|
  pk_SourceChainID := GetSourceChainID transfer;
  pk_SourceClientID := GetPacketSourceClientID transfer;
  pk_DestinationChainID := GetDestinationChainID transfer;
  pk_DestinationClientID := GetPacketDestinationClientID transfer;
|}.

Record transferKey := mkTransferKey {
  tk_SourceChainID : string;
  tk_PacketSequenceNumber : Z;
  tk_PacketSourceClientID : string;
}.

#[global] Instance transferKey_eq_dec : EqDecision transferKey.
Proof. solve_decision. Defined.

#[global] Instance transferKey_countable : Countable transferKey.
Proof.
  apply (inj_countable'
    (λ k, (tk_SourceChainID k, tk_PacketSequenceNumber k, tk_PacketSourceClientID k))
    (λ '(a, b, c), mkTransferKey a b c)).
  by intros [].
Defined.

Definition newTransferKey (transfer : IBCV2Transfer) : transferKey := {|
  tk_SourceChainID := GetSourceChainID transfer;
  tk_PacketSequenceNumber := GetPacketSequenceNumber transfer;
  tk_PacketSourceClientID := GetPacketSourceClientID transfer;
|}.

(** Two transfers read from the database have the same transfer key exactly
    when they have the same row key. *)
Lemma transferKey_update_key t1 t2 :
  is_uint32 (PacketSequenceNumber t1) → is_uint32 (PacketSequenceNumber t2) →
  newTransferKey t1 = newTransferKey t2 ↔ update_key t1 = update_key t2.
Proof.
  intros H1 H2. unfold newTransferKey, update_key, GetSourceChainID, GetPacketSequenceNumber,
    GetPacketSourceClientID. split; intros [=]; f_equal; try done; [congruence|].
  rewrite <- (uint32_int32_id (PacketSequenceNumber t1)),
    <- (uint32_int32_id (PacketSequenceNumber t2)) by done. congruence.
Qed.

(** ** Running pipelines, the deduper and the manager *)

(** Where a transfer is: waiting in front of stage [n], or collected for the
    batch of stage [n]. A transfer past the last stage is on the output
    channel. *)
Record position := mkPosition { pos_stage : nat; pos_batch : bool }.

#[global] Instance position_eq_dec : EqDecision position.
Proof. solve_decision. Defined.

(** A pipeline with the [PipelineDeduper] around it: its stages, the transfers
    inside, and the keys in [inPipeline]. *)
Record Pipeline (X : Type) := mkPipeline {
  pl_stages : list (stage X);
  pl_inside : list (position * loc);
  pl_inPipeline : gset transferKey;
}.
Arguments mkPipeline {X}.
Arguments pl_stages {X}.
Arguments pl_inside {X}.
Arguments pl_inPipeline {X}.

Definition NewPipelineDeduper {X} (stages : list (stage X)) : Pipeline X :=
  mkPipeline stages [] ∅.

(** [Pipeline.Push]: the transfer enters the input channel. *)
Definition Pipeline_Push {X} (l : loc) (pl : Pipeline X) : Pipeline X :=
  mkPipeline (pl_stages pl) (pl_inside pl ++ [(mkPosition 0 false, l)]) (pl_inPipeline pl).

(** [PipelineDeduper.Push]; the lock makes it one step. *)
Definition PipelineDeduper_Push {X} (l : loc) (transfer : IBCV2Transfer) (pl : Pipeline X)
    : bool * Pipeline X :=
  let key := newTransferKey transfer in
  if bool_decide (key ∈ pl_inPipeline pl) then (false, pl)
  else
    (true, Pipeline_Push l (mkPipeline (pl_stages pl) (pl_inside pl)
                              ({[key]} ∪ pl_inPipeline pl))).

(** The deduper's goroutine takes one transfer from the output channel and
    deletes its key. *)
Definition PipelineDeduper_output {X} (transfer : IBCV2Transfer) (pl : Pipeline X) : Pipeline X :=
  mkPipeline (pl_stages pl) (pl_inside pl) (pl_inPipeline pl ∖ {[newTransferKey transfer]}).

Section manager.
Context {X : Type} {E : Env X}.

(** [newPipelineForTransfer]. *)
Definition newPipelineForTransfer (transfer : IBCV2Transfer) : M X (Pipeline X) :=
  let key := newPipelineKey transfer in
  opts ← wrap "creating pipeline options" (NewPipelineOpts transfer);
  mret (NewPipelineDeduper
          (NewPipeline (pk_SourceChainID key) (pk_SourceClientID key)
             (pk_DestinationChainID key) (pk_DestinationClientID key) opts)).

(** [IBCV2PipelineManager.Pipeline]: the pipelines known afterwards. *)
Definition IBCV2PipelineManager_Pipeline (transfer : IBCV2Transfer)
    (pipelines : gmap pipelineKey (Pipeline X)) : M X (gmap pipelineKey (Pipeline X)) :=
  let key := newPipelineKey transfer in
  match pipelines !! key with
  | Some _ => mret pipelines
  | None =>
      pipeline ← wrap "creating new pipeline for transfer" (newPipelineForTransfer transfer);
      mret (<[key := pipeline]> pipelines)
  end.
End manager.
