(* ===== verification/Dispatcher.v ===== *)
(** * The dispatcher

    Models [relayer/ibcv2/relay_dispatcher.go]: on every tick all unfinished
    transfers are read from the database and pushed into their pipelines. The
    pipelines of the manager are passed along explicitly. *)
From stdpp Require Import prelude strings list gmap.
From Stdlib Require Import ZArith.
From S2P Require Import Prelude Go Config Db Transfer World Wp TransferMetrics Processors.
From S2P Require Import ProcessorMW Batch PipelineOpts Pipeline.
Open Scope Z_scope.

Section dispatcher.
Context {X : Type} {E : Env X}.

(** [&IBCV2Transfer{...}]. *)
Definition alloc (t : IBCV2Transfer) : M X loc := λ '(mkWorld x d h mt lg),
  let l := fresh (dom h) in (Ret l, mkWorld x d (<[l := t]> h) mt lg).

(** [SubmitTransfer]: its error, if any, and the pipelines afterwards. *)
Definition SubmitTransfer (l : loc) (pipelines : gmap pipelineKey (Pipeline X))
    : M X (option error * gmap pipelineKey (Pipeline X)) :=
  transfer ← load l;
  r ← attempt (IBCV2PipelineManager_Pipeline transfer pipelines);
  match r with
  | inr err =>
      mret (Some (Errorf "getting pipeline to push transfer onto from manager" err), pipelines)
  | inl pipelines' =>
      pl ← deref (pipelines' !! newPipelineKey transfer);
      let '(pushed, pl') := PipelineDeduper_Push l transfer pl in
      if (pushed : bool)
      then mret (None, <[newPipelineKey transfer := pl']> pipelines')
      else mret (Some (Sentinel ErrTransferAlreadyInPipeline), pipelines')
  end.

(** One iteration of the loop over the unfinished transfers. *)
Definition submit_row (transfer : db.Ibcv2Transfer) (pipelines : gmap pipelineKey (Pipeline X))
    : M X (gmap pipelineKey (Pipeline X)) :=
  let t := NewIBCV2Transfer transfer in
  l ← alloc t;
  AlertOnExcessiveRelayLatency t ≫= λ _,
  res ← SubmitTransfer l pipelines;
  let '(err, pipelines') := res in
  match err with
  | None => mret pipelines'
  | Some e =>
      if errors_Is e ErrTransferAlreadyInPipeline then mret pipelines'
      else
        logger Error "unable to submit transfer to pipeline, marking as FAILED and not retrying"
          ≫= λ _,
        r ← attempt (exec (db.UpdateTransferState db.Ibcv2RelayStatusFAILED (update_key t)));
        match r with
        | inr _ => logger Error "error updating transfer state to FAILED"
        | inl _ => mret tt
        end ≫= λ _,
        mret pipelines'
  end.

Fixpoint submit_rows (transfers : list db.Ibcv2Transfer)
    (pipelines : gmap pipelineKey (Pipeline X)) : M X (gmap pipelineKey (Pipeline X)) :=
  match transfers with
  | [] => mret pipelines
  | transfer :: transfers' =>
      pipelines' ← submit_row transfer pipelines;
      submit_rows transfers' pipelines'
  end.

Definition SubmitWaitingUnfinishedTransfers (pipelines : gmap pipelineKey (Pipeline X))
    : M X (gmap pipelineKey (Pipeline X)) :=
  transfers ← wrap "getting unfinished ibcv2 transfers from storage"
                (query db.GetUnfinishedIBCV2Transfers);
  submit_rows transfers pipelines.

(** One turn of the loop of [Run] on a tick of its timer. With relaying
    disabled the timer is stopped before the loop, and no tick comes. *)
Definition Run_tick (pipelines : gmap pipelineKey (Pipeline X))
    : M X (gmap pipelineKey (Pipeline X)) :=
  r ← attempt (SubmitWaitingUnfinishedTransfers pipelines);
  match r with
  | inr _ =>
      logger Error "error submitting unfinished transfers to pipeline" ≫= λ _,
      mret pipelines
  | inl pipelines' => mret pipelines'
  end.
End dispatcher.
