(* ===== verification/Service.v ===== *)
(** * The relayer API

    Models [relayerapi/services/relayerapi/service.go], the gRPC service that
    takes transactions to relay and answers where their packets are, and
    [shared/utils/validate_address_list.go], the list of sanctioned addresses.
    The protobuf messages are records with the fields of the messages; a
    pointer to a message is an [option]. *)
From stdpp Require Import prelude strings list gmap.
From Stdlib Require Import ZArith.
From S2P Require Import Prelude Go Config Db Transfer World.
Open Scope Z_scope.

(** ** Sanctioned addresses *)

Module utils.

Definition OFACAddressMap : list string :=
  ["0x04dba1194ee10112fe6c3207c0687def0e78bacf";
   "0x08723392ed15743cc38513c4925f5e6be5c17243";
   "0x08b2efdcd8822efe5ad0eae55517cf5dc544251";
   "0x0931ca4d13bb4ba75d9b7132ab690265d749a5e7";
   "0x098b716b8aaf21512996dc57eb0615e2383e2f96";
   "0x0ee5067b06776a89ccc7dc8ee369984ad7db5e06";
   "0x12de548f79a50d2bd05481c8515c1ef5183666a9";
   "0x1967d8af5bd86a497fb3dd7899a020e47560daaf";
   "0x1999ef52700c34de7ec2b68a28aafb37db0c5ade";
   "0x19f8f2b0915daa12a3f5c9cf01df9e24d53794f7";
   "0x19aa5fe80d33a56d56c78e82ea5e50e5d80b4dff";
   "0x1da5821544e25c636c1417ba96ade4cf6d2f9b5a";
   "0x21b8d56bda776bbe68655a16895afd96f5534fed";
   "0x2f389ce8bd8ff92de3402ffce4691d17fc4f6535";
   "0x308ed4b7b49797e1a98d3818bff6fe5385410370";
   "0x35fb6f6db4fb05e6a4ce86f2c93691425626d4b1";
   "0x39d908dac893cbcb53cc86e0ecc369aa4def1a29";
   "0x3ad9db589d201a710ed237c829c7860ba86510fc";
   "0x3cffd56b47b7b41c56258d9c7731abadc360e073";
   "0x3cbded43efdaf0fc77b9c55f6fc9988fcc9b757d";
   "0x3e37627deaa754090fbfbb8bd226c1ce66d255e9";
   "0x43fa21d92141ba9db43052492e0deee5aa5f0a93";
   "0x48549a34ae37b12f6a30566245176994e17c6b4a";
   "0x4f47bc496083c727c5fbe3ce9cdf2b0f6496270c";
   "0x502371699497d08d5339c870851898d6d72521dd";
   "0x530a64c0ce595026a4a556b703644228179e2d57";
   "0x532b77b33a040587e9fd1800088225f99b8b0e8a";
   "0x53b6936513e738f44fb50d2b9476730c0ab3bfc1";
   "0x5512d943ed1f7c8a43f3435c85f7ab68b30121b0";
   "0x57ec89a0c056163a0314e413320f9b3abe761259";
   "0x5a14e72060c11313e38738009254a90968f58f51";
   "0x5a7a51bfb49f190e5a6060a5bc6052ac14a3b59f";
   "0x5d5b5dafecbf31bdb08bfd3edad4f2694372d0ef";
   "0x5f48c2a71b2cc96e3f0ccae4e39318ff0dc375b2";
   "0x67d40ee1a85bf4a4bb7ffae16de985e8427b6b45";
   "0x6be0ae71e6c41f2f9d0d1a3b8d0f75e6f6a0b46e";
   "0x6f1ca141a28907f78ebaa64fb83a9088b02a8352";
   "0x72a5843cc08275c8171e582972aa4fda8c397b2a";
   "0x797d7ae72ebddcdea2a346c1834e04d1f8df102b";
   "0x7ced75026204ac29c34bea98905d4c949f27361e";
   "0x7db418b5d567a4e0e8c59ad71be1fce48f3e6107";
   "0x7f19720a857f834887fc9a7bc0a0fbe7fc7f8102";
   "0x7f367cc41522ce07553e823bf3be79a889debe1b";
   "0x7ff9cfad3877f21d41da833e2f775db0569ee3d9";
   "0x83e5bc4ffa856bb84bb88581f5dd62a433a25e0d";
   "0x8576acc5c05d6ce88f4e49bf65bdf0c62f91353c";
   "0x8dce2aac0de82bdcaf6b4373b79f94331b8e4995";
   "0x901bb9583b24d97e995513c6778dc6888ab6870e";
   "0x931546d9e66836abf687d2bc64b30407bac8c568";
   "0x961c5be54a2ffc17cf4cb021d863c42dacd47fc1";
   "0x97b1043abd9e6fc31681635166d430a458d14f9c";
   "0x983a81ca6fb1e441266d2fbcb7d8e530ac2e05a2";
   "0x9c2bc757b66f24d60f016b6237f8cdd414a879fa";
   "0x9f4cda013e354b8fc285bf4b9a60460cee7f7ea9";
   "0xd8500c631dc32fa18645b7436344a99e4825e10e";
   "0xe950dc316b836e4eefb8308bf32bf7c72a1358ff";
   "0xefe301d259f525ca1ba74a7977b80d5b060b3cca";
   "0xf7b31119c2682c88d88d455dbb9d5932c65cf1be";
   "0xa0e1c89ef1a489c9c7de96311ed5ce5d32c20e4b";
   "0xa7e5d5a720f06526557c513402f2e6b5fa20b008";
   "0xb338962b92cd818d6aef0a32a9ecd01212a71f33";
   "0xb6f5ec1a0a9cd1526536d3f0426c429529471f40";
   "0xc103b7dc095c904b92081eef0c1640081ec01c10";
   "0xc2a3829f459b3edd87791c74cd45402ba0a20be3";
   "0xc455f7fd3e0e12afd51fba5c106909934d8a0e4a";
   "0xd0975b32cea532eadddfc9c60481976e39db3472";
   "0xd5ed34b52ac4ab84d8fa8a231a3218bbf01ed510";
   "0xd882cfc20f52f2599d84b8e8d58c7fb62cfe344b";
   "0xdb2720ebad55399117ddb4c4a4afd9a4ccada8fe";
   "0xdcbefbfeccce100cce9e4b153c4e15cb885643193";
   "0xe1d865c3d669dcc8c57c8d023140cb204e672ee4";
   "0xe1e4c5e5ed8f03ae61b581e2def126025f2b9401";
   "0xe3d35f68383732649669aa990832e017340dbca5";
   "0xe7aa314c77f4233c18c6cc84384a9247c0cf367b";
   "0xed6e0a7e4ac94d976eebfb82ccf777a3c6bad921";
   "0xf3701f445b6bdafedbca97d1e477357839e4120d";
   "0xf4377eda661e04b6dda78969796ed31658d602d4"].

Fixpoint ValidateNoOFACAddress (addressList : list string) : outcome unit :=
  match addressList with
  | [] => Ret tt
  | address :: addressList' =>
      if bool_decide (address ∈ OFACAddressMap) then
        Fail (StatusError InvalidArgument
          ("Address " +:+ address +:+
           " is in the OFAC Sanctioned Digital Currency Addresses list"))
      else ValidateNoOFACAddress addressList'
  end.

End utils.

(** ** Messages *)

Inductive TransferState :=
  | TRANSFER_STATE_COMPLETE
  | TRANSFER_STATE_FAILED
  | TRANSFER_STATE_PENDING.

#[global] Instance TransferState_eq_dec : EqDecision TransferState.
Proof. solve_decision. Defined.

Record TransactionInfo := mkTransactionInfo { TxHash : string; ChainId : string }.

Record PacketStatus := mkPacketStatus {
  PacketStatus_State : TransferState;
  SequenceNumber : Z;
  SourceClientId : string;
  SendTx : option TransactionInfo;
  RecvTx : option TransactionInfo;
  AckTx : option TransactionInfo;
  TimeoutTx : option TransactionInfo;
}.

(** [RelayRequest] and [StatusRequest] have the same two fields. *)
Record TxRequest := mkTxRequest { GetTxHash : string; GetChainId : string }.

Record StatusResponse := mkStatusResponse { PacketStatuses : list PacketStatus }.

(** ** The service *)

Definition ErrCode_DuplicateKey : string := "23505".

(** [errors.As(err, &pgErr) && pgErr.Code == ErrCode_DuplicateKey]. *)
Definition is_duplicate_key (err : error) : bool :=
  bool_decide (errors_As_PgError err = Some ErrCode_DuplicateKey).

Definition mapDBStatusToProto (s : db.Ibcv2RelayStatus) : TransferState :=
  match s with
  | db.Ibcv2RelayStatusCOMPLETEWITHACK
  | db.Ibcv2RelayStatusCOMPLETEWITHTIMEOUT
  | db.Ibcv2RelayStatusCOMPLETEWITHWRITEACKSUCCESS
  | db.Ibcv2RelayStatusCOMPLETEWITHWRITEACKERROR => TRANSFER_STATE_COMPLETE
  | db.Ibcv2RelayStatusFAILED => TRANSFER_STATE_FAILED
  | _ => TRANSFER_STATE_PENDING
  end.

Definition toTxInfo (hash : option string) (chainID : string) : option TransactionInfo :=
  match hash with
  | None => None
  | Some h => Some (mkTransactionInfo h chainID)
  end.

(** The message for one row; the sequence number is converted from [int32] to
    [uint64]. *)
Definition packet_status (t : db.Ibcv2Transfer) : PacketStatus :=
  mkPacketStatus
    (mapDBStatusToProto (db.Status t))
    (uint64 (db.PacketSequenceNumber t))
    (db.PacketSourceClientID t)
    (Some (mkTransactionInfo (db.SourceTxHash t) (db.SourceChainID t)))
    (toTxInfo (db.RecvTxHash t) (db.DestinationChainID t))
    (toTxInfo (db.AckTxHash t) (db.SourceChainID t))
    (toTxInfo (db.TimeoutTxHash t) (db.SourceChainID t)).

(** [request.GetTxHash() == "" || request.GetChainId() == ""]. *)
Definition incomplete (request : TxRequest) : bool :=
  bool_decide (GetTxHash request = "") || bool_decide (GetChainId request = "").

Section service.
Context {X : Type} {E : Env X}.

Definition RelayerAPIService_Status (request : TxRequest) : M X StatusResponse :=
  if incomplete request then
    fail (StatusError InvalidArgument "tx_hash and chain_id are required")
  else
    r ← attempt (query (db.GetRelaySubmission (GetChainId request) (GetTxHash request)));
    match r with
    | inr err =>
        if errors_Is err ErrNoRows
        then fail (StatusError NotFound "transaction not submitted to relayer")
        else fail (StatusError Internal "failed to query relay submission")
    | inl _ =>
        r2 ← attempt (query (db.GetTransfersBySourceTx (GetChainId request)
                               (GetTxHash request)));
        match r2 with
        | inr _ => fail (StatusError Internal "failed to query transfers")
        | inl transfers => mret (mkStatusResponse (map packet_status transfers))
        end
    end.

(** [metrics.FromContext(ctx).AddRelayRequest(metrics.IBCV2BridgeType, uint32(code))]. *)
Definition count_request (code : grpc_code) : M X unit :=
  record (metrics.AddRelayRequest metrics.IBCV2BridgeType (uint32 (grpc_code_num code))).

(** The parameters of the insert for one packet of the transaction. *)
Definition packet_insert (request : TxRequest) (destChainID : string) (packet : PacketInfo)
    : db.InsertIBCV2TransferParams :=
  db.mkInsertIBCV2TransferParams (GetChainId request) destChainID (GetTxHash request)
    (Some (PacketInfo_Timestamp packet)) (int32 (Sequence packet)) (SourceClient packet)
    (DestinationClient packet) (Some (TimeoutTimestamp packet)).

(** The body of the loop over the packets of the transaction. *)
Definition relay_packet (request : TxRequest) (packet : PacketInfo) : M X unit :=
  match config.GetClientCounterpartyChainID env_config (GetChainId request)
          (SourceClient packet) with
  | Panic => panic
  | Fail _ => logger Warn "skipping packet with unknown destination"
  | Ret destChainID =>
      r ← attempt (query (db.InsertIBCV2Transfer (packet_insert request destChainID packet)));
      match r with
      | inr err =>
          if is_duplicate_key err then logger Debug "packet already exists"
          else
            count_request Internal ≫= λ _,
            fail (StatusError Internal "failed to insert packet")
      | inl _ => logger Info "submitted packet to be relayed"
      end
  end.

(** The OFAC check. *)
Definition check_sender (client : BridgeClient X) (request : TxRequest) : M X unit :=
  if bool_decide (client_ChainType client = config.ChainType_EVM) then
    transactionSender ← wrap "checking OFAC Blacklist - error getting transaction sender"
                          (ext (GetTransactionSender client (GetTxHash request)));
    if bool_decide (ToLower transactionSender ∈ utils.OFACAddressMap) then
      fail (StatusError InvalidArgument "Transaction sender is blacklisted - cannot relay")
    else mret tt
  else mret tt.

(** [Relay] after the submission has been recorded. *)
Definition relay_submitted (request : TxRequest) : M X unit :=
  r ← attempt (GetClient (GetChainId request));
  match r with
  | inr _ =>
      count_request InvalidArgument ≫= λ _,
      fail (StatusError InvalidArgument ("unsupported chain: " +:+ GetChainId request))
  | inl client =>
      check_sender client request ≫= λ _,
      p ← attempt (ext (SendPacketsFromTx client (GetChainId request) (GetTxHash request)));
      match p with
      | inr err =>
          fail (StatusError Internal ("failed to get packets from tx: " +:+ error_string err))
      | inl packets =>
          logger Info "found packets in transaction" ≫= λ _,
          forM packets (relay_packet request) ≫= λ _,
          count_request OK
      end
  end.

(** The response has no fields. *)
Definition RelayerAPIService_Relay (request : TxRequest) : M X unit :=
  if incomplete request then
    fail (StatusError InvalidArgument "tx_hash and chain_id are required")
  else
    logger Info "received relay request" ≫= λ _,
    r ← attempt (query (db.InsertRelaySubmission (GetChainId request) (GetTxHash request)));
    match r with
    | inr err =>
        if is_duplicate_key err then count_request OK
        else
          count_request Internal ≫= λ _,
          fail (StatusError Internal "failed to insert relay submission")
    | inl _ => relay_submitted request
    end.
End service.
