(* ===== verification/System.v ===== *)
(** * The running relayer

    The database, the pipelines and the transfers in them as a transition
    system. The dispatcher takes a step to read the unfinished rows and one to
    submit each of them; other steps are one call of a stage on a transfer or
    on a batch, a transfer leaving on the output channel, one insert of the API,
    or something that happens outside (the state of the chains moves on, a
    metric or a log line is written); the process may also stop between calls
    and start again with the tables as they are. Calls of different stages run
    concurrently in the program; a step here is one whole call, which is
    justified by the frame the calls are proved to keep ([db_within],
    [heap_frame]): two of them touch neither the same row nor the same
    transfer. The reading of the rows is not framed so, which is why it is a
    step of its own: between reading and submitting a row anything may happen.

    [sys_inv] is the invariant: the database is well formed, and every transfer
    in a pipeline is attached to its row, is in the pipeline of its own clients,
    is there once, and is not finished before the last stage. *)
From stdpp Require Import prelude strings list gmap relations.
From Stdlib Require Import ZArith.
From S2P Require Import Prelude Go Config Db Transfer World Wp TransferMetrics Processors Laws.
From S2P Require Import ProcessorMW MWLaws Batch BatchLaws PipelineOpts Pipeline Dispatcher.
Open Scope Z_scope.

(** [sys_waiting] are the rows the dispatcher has read on its current tick and
    not yet submitted. *)
Record System (X : Type) := mkSystem {
  sys_world : World X;
  sys_pipelines : gmap pipelineKey (Pipeline X);
  sys_waiting : list db.Ibcv2Transfer;
}.
Arguments mkSystem {X}.
Arguments sys_world {X}.
Arguments sys_pipelines {X}.
Arguments sys_waiting {X}.

Definition with_inside {X} (pl : Pipeline X) (inside : list (position * loc)) : Pipeline X :=
  mkPipeline (pl_stages pl) inside (pl_inPipeline pl).

(** The transfers inside a pipeline. *)
Definition locs {X} (pl : Pipeline X) : list loc := map snd (pl_inside pl).

Section steps.
Context {X : Type} {E : Env X}.

Inductive step : System X → System X → Prop :=
  | step_read w w' pls rows :
      query db.GetUnfinishedIBCV2Transfers w = (Ret rows, w') →
      step (mkSystem w pls []) (mkSystem w' pls rows)
  | step_submit w w' pls pls' r rows :
      submit_row r pls w = (Ret pls', w') →
      step (mkSystem w pls (r :: rows)) (mkSystem w' pls' rows)
  | step_outside x x' d h mt mt' lg lg' pls rows :
      step (mkSystem (mkWorld x d h mt lg) pls rows) (mkSystem (mkWorld x' d h mt' lg') pls rows)
  | step_restart x d h mt lg pls rows :
      step (mkSystem (mkWorld x d h mt lg) pls rows) (mkSystem (mkWorld x d ∅ mt lg) ∅ [])
  | step_submission x d h mt lg pls rows sourceChainID sourceTxHash now :
      step (mkSystem (mkWorld x d h mt lg) pls rows)
           (mkSystem (mkWorld x (db.InsertRelaySubmission sourceChainID sourceTxHash now d).2
              h mt lg) pls rows)
  | step_insert x d h mt lg pls rows arg now :
      is_int32 (db.ins_PacketSequenceNumber arg) → db.insert_key arg ≠ db.zero_key →
      step (mkSystem (mkWorld x d h mt lg) pls rows)
           (mkSystem (mkWorld x (db.InsertIBCV2Transfer arg now d).2 h mt lg) pls rows)
  | step_process w w' pls rows pk pl n p l out ins1 ins2 :
      pls !! pk = Some pl → pl_stages pl !! n = Some (ProcessConcurrently p) →
      pl_inside pl = ins1 ++ (mkPosition n false, l) :: ins2 →
      IBCV2ProcessorMW_Process p (Some l) w = (Ret (Some out), w') →
      step (mkSystem w pls rows)
           (mkSystem w' (<[pk := with_inside pl
              (ins1 ++ (mkPosition (S n) false, out) :: ins2)]> pls) rows)
  | step_process_error w w' w'' pls rows pk pl n p l e ins1 ins2 :
      pls !! pk = Some pl → pl_stages pl !! n = Some (ProcessConcurrently p) →
      pl_inside pl = ins1 ++ (mkPosition n false, l) :: ins2 →
      IBCV2ProcessorMW_Process p (Some l) w = (Fail e, w') →
      IBCV2ProcessorMW_Cancel p (Some l) e w' = (Ret tt, w'') →
      step (mkSystem w pls rows) (mkSystem w'' (<[pk := with_inside pl (ins1 ++ ins2)]> pls) rows)
  | step_route w w' pls rows pk pl n c s t p l b ins1 ins2 :
      pls !! pk = Some pl → pl_stages pl !! n = Some (ConditionallyBatchProcess c s t p) →
      pl_inside pl = ins1 ++ (mkPosition n false, l) :: ins2 →
      goes_to_batch p l w = (Ret b, w') →
      step (mkSystem w pls rows)
           (mkSystem w' (<[pk := with_inside pl (ins1 ++
              (if b then mkPosition n true else mkPosition (S n) false, l) :: ins2)]> pls) rows)
  | step_batch w w' pls rows pk pl n c s t p ls out rest :
      pls !! pk = Some pl → pl_stages pl !! n = Some (ConditionallyBatchProcess c s t p) →
      pl_inside pl ≡ₚ map (λ l, (mkPosition n true, l)) ls ++ rest →
      Batch_Process (NewIBCV2BatchProcessorMW p) ls w = (Ret out, w') →
      step (mkSystem w pls rows)
           (mkSystem w' (<[pk := with_inside pl
              (rest ++ map (λ l, (mkPosition (S n) false, l)) out)]> pls) rows)
  | step_batch_error w w' w'' pls rows pk pl n c s t p ls e rest :
      pls !! pk = Some pl → pl_stages pl !! n = Some (ConditionallyBatchProcess c s t p) →
      pl_inside pl ≡ₚ map (λ l, (mkPosition n true, l)) ls ++ rest →
      Batch_Process (NewIBCV2BatchProcessorMW p) ls w = (Fail e, w') →
      Batch_Cancel (NewIBCV2BatchProcessorMW p) ls e w' = (Ret tt, w'') →
      step (mkSystem w pls rows) (mkSystem w'' (<[pk := with_inside pl rest]> pls) rows)
  | step_finish w w' pls rows pk pl n f l out ins1 ins2 :
      pls !! pk = Some pl → pl_stages pl !! n = Some (FinishConcurrently f) →
      pl_inside pl = ins1 ++ (mkPosition n false, l) :: ins2 →
      StateFinisher_Process f l w = (Ret out, w') →
      step (mkSystem w pls rows)
           (mkSystem w' (<[pk := with_inside pl
              (ins1 ++ (mkPosition (S n) false, out) :: ins2)]> pls) rows)
  | step_output w pls rows pk pl l t ins1 ins2 :
      pls !! pk = Some pl →
      pl_inside pl = ins1 ++ (mkPosition (length (pl_stages pl)) false, l) :: ins2 →
      w_heap w !! l = Some t →
      step (mkSystem w pls rows)
           (mkSystem w (<[pk := PipelineDeduper_output t (with_inside pl (ins1 ++ ins2))]> pls) rows).

(** ** The invariant *)

Definition stage_laws (s : stage X) : Prop :=
  match s with
  | ProcessConcurrently p => inhabited (ProcessorLaws p)
  | ConditionallyBatchProcess _ _ _ p => inhabited (BatchProcessorLaws p)
  | FinishConcurrently _ => True
  end.

(** Only the last stage finishes transfers. *)
Definition finisher_last (stages : list (stage X)) : Prop :=
  ∀ n f, stages !! n = Some (FinishConcurrently f) → S n = length stages.

Definition lawful_stages (stages : list (stage X)) : Prop :=
  Forall stage_laws stages ∧ finisher_last stages.

Definition key_at (h : gmap loc IBCV2Transfer) (l : loc) : option transferKey :=
  newTransferKey <$> h !! l.

(** A transfer that belongs in the pipeline [pk]. *)
Definition member (pk : pipelineKey) (d : db.Database) (h : gmap loc IBCV2Transfer)
    (l : loc) : Prop :=
  ∃ t, h !! l = Some t ∧ attached d t ∧ newPipelineKey t = pk ∧
    is_uint32 (PacketSequenceNumber t).

(** A transfer that has not errored and not passed the last stage is not
    finished. *)
Definition open_inside (pl : Pipeline X) (h : gmap loc IBCV2Transfer) : Prop :=
  ∀ pos l t, (pos, l) ∈ pl_inside pl → (pos_stage pos < length (pl_stages pl))%nat →
    h !! l = Some t → ProcessingError t = None → db.unfinished (State t) = true.

Record pipeline_inv (pk : pipelineKey) (pl : Pipeline X) (d : db.Database)
    (h : gmap loc IBCV2Transfer) : Prop := {
  pi_laws : lawful_stages (pl_stages pl);
  pi_member : ∀ l, l ∈ locs pl → member pk d h l;
  pi_nodup : NoDup (map (key_at h) (locs pl));
  pi_keys : ∀ l t, l ∈ locs pl → h !! l = Some t → newTransferKey t ∈ pl_inPipeline pl;
  pi_open : open_inside pl h;
}.

Record world_inv (d : db.Database) (h : gmap loc IBCV2Transfer)
    (pls : gmap pipelineKey (Pipeline X)) : Prop := {
  wi_wf : db_wf d;
  wi_pipelines : ∀ pk pl, pls !! pk = Some pl → pipeline_inv pk pl d h;
}.

(** A row the dispatcher has read was unfinished. *)
Definition sys_inv (s : System X) : Prop :=
  world_inv (w_db (sys_world s)) (w_heap (sys_world s)) (sys_pipelines s) ∧
  Forall (λ r, db.unfinished (db.Status r) = true) (sys_waiting s).

(** No pipeline holds a transfer twice. The batch middleware repeats a
    transfer when the update of its state fails; the theorems about the whole
    system are about runs in which that does not happen. *)
Definition no_repeats (s : System X) : Prop :=
  ∀ pk pl, sys_pipelines s !! pk = Some pl → NoDup (locs pl).
(** The deduper of the transfer's pipeline knows it. *)
Definition in_pipeline (t : IBCV2Transfer) (pls : gmap pipelineKey (Pipeline X)) : Prop :=
  ∃ pl, pls !! newPipelineKey t = Some pl ∧ newTransferKey t ∈ pl_inPipeline pl.

(** The row the dispatcher submits next is still as it was read, unless its
    packet is in its pipeline, where the deduper refuses it. A packet that
    leaves its pipeline after its row was read and before it is submitted goes
    against this; see [stale_row_reopens]. *)
Definition not_stale (s : System X) : Prop :=
  match sys_waiting s with
  | [] => True
  | r :: _ => db.row (db.row_key r) (w_db (sys_world s)) = Some r ∨
      in_pipeline (NewIBCV2Transfer r) (sys_pipelines s)
  end.
End steps.

Lemma NoDup_map_inj {A B} (f : A → B) (l : list A) x y :
  NoDup (map f l) → x ∈ l → y ∈ l → f x = f y → x = y.
Proof.
  induction l as [|z l IH]; simpl; [by intros _ ?%elem_of_nil|].
  intros [Hz Hnd]%NoDup_cons [->|Hx]%elem_of_cons [->|Hy]%elem_of_cons Hf; auto.
  - destruct Hz. rewrite Hf. by apply list_elem_of_fmap_2.
  - destruct Hz. rewrite <- Hf. by apply list_elem_of_fmap_2.
Qed.

Lemma submseteq_NoDup {A} (l k : list A) : l ⊆+ k → NoDup k → NoDup l.
Proof. intros [k' ->]%submseteq_Permutation Hk. by apply NoDup_app in Hk as (? & _ & _). Qed.

Section invariant.
Context {X : Type} {E : Env X}.

Lemma gas_stage_laws id decimals new :
  (∀ price i n, inhabited (ProcessorLaws (new price i n))) →
  Forall stage_laws (gas_stage id decimals new).
Proof.
  intros Hn. unfold gas_stage. destruct env_GetCoinUsdValue; [|constructor].
  destruct (_ && _); [apply Forall_singleton, Hn|constructor].
Qed.

Lemma finisher_last_snoc (stages : list (stage X)) s :
  Forall (λ s, match s with FinishConcurrently _ => False | _ => True end) stages →
  finisher_last (stages ++ [s]).
Proof.
  intros Hn n f. rewrite lookup_app_Some, length_app. simpl. intros [Hl|[Hl Hs]].
  - rewrite Forall_lookup in Hn. by destruct (Hn _ _ Hl).
  - apply list_lookup_singleton_Some in Hs. lia.
Qed.

Lemma gas_stage_processes id decimals new :
  Forall (λ s : stage X, match s with FinishConcurrently _ => False | _ => True end)
    (gas_stage id decimals new).
Proof.
  unfold gas_stage. destruct env_GetCoinUsdValue; [|constructor].
  destruct (_ && _); by repeat constructor.
Qed.

(** Every stage of a pipeline keeps its contract. *)
Lemma NewPipeline_laws sc si dc di opts : lawful_stages (NewPipeline sc si dc di opts).
Proof.
  unfold NewPipeline. split.
  - rewrite !Forall_app. split_and!;
      try (apply gas_stage_laws; intros; constructor; apply _);
      repeat (apply Forall_cons; split; [first [exact I|constructor; apply _]|]);
      apply Forall_nil; exact I.
  - rewrite !app_assoc. apply finisher_last_snoc. rewrite !Forall_app.
    split_and!; try apply gas_stage_processes; by repeat constructor.
Qed.

Lemma newPipelineKey_same t t' : same_packet t t' → newPipelineKey t' = newPipelineKey t.
Proof.
  intros []. unfold newPipelineKey, GetSourceChainID, GetPacketSourceClientID,
    GetDestinationChainID, GetPacketDestinationClientID. congruence.
Qed.

Lemma newTransferKey_same t t' : same_packet t t' → newTransferKey t' = newTransferKey t.
Proof.
  intros []. unfold newTransferKey, GetSourceChainID, GetPacketSourceClientID,
    GetPacketSequenceNumber. congruence.
Qed.

(** A row key determines the pipeline: the packet's destination is in its
    row. *)
Lemma attached_pipelineKey d t1 t2 :
  attached d t1 → attached d t2 → update_key t1 = update_key t2 →
  newPipelineKey t1 = newPipelineKey t2.
Proof.
  intros (r1 & Hr1 & Hro1 & _) (r2 & Hr2 & Hro2 & _) Hk.
  rewrite Hk in Hr1. assert (r1 = r2) as -> by congruence.
  unfold update_key in Hk. unfold route in *. unfold newPipelineKey, GetDestinationChainID,
    GetPacketDestinationClientID in *. simplify_eq. f_equal; congruence.
Qed.

(** At most one transfer in all pipelines is about a packet. *)
Lemma world_inv_unique d h (pls : gmap pipelineKey (Pipeline X)) pk1 pk2 pl1 pl2 l1 l2 t1 t2 :
  world_inv d h pls → pls !! pk1 = Some pl1 → pls !! pk2 = Some pl2 →
  l1 ∈ locs pl1 → l2 ∈ locs pl2 → h !! l1 = Some t1 → h !! l2 = Some t2 →
  update_key t1 = update_key t2 → pk1 = pk2 ∧ l1 = l2.
Proof.
  intros Hinv Hp1 Hp2 Hl1 Hl2 Ht1 Ht2 Hk.
  pose proof (wi_pipelines _ _ _ Hinv pk1 pl1 Hp1) as Hi1.
  pose proof (wi_pipelines _ _ _ Hinv pk2 pl2 Hp2) as Hi2.
  destruct (pi_member _ _ _ _ Hi1 l1 Hl1) as (u1 & Hu1 & Ha1 & <- & Hs1).
  destruct (pi_member _ _ _ _ Hi2 l2 Hl2) as (u2 & Hu2 & Ha2 & <- & Hs2).
  rewrite Ht1 in Hu1. rewrite Ht2 in Hu2. injection Hu1 as <-. injection Hu2 as <-.
  assert (newPipelineKey t1 = newPipelineKey t2) as Heq
    by (by apply (attached_pipelineKey d)).
  split; [done|]. rewrite Heq in Hp1. assert (pl1 = pl2) as -> by congruence.
  apply (NoDup_map_inj (key_at h) (locs pl2)); [apply Hi2|done|done|].
  unfold key_at. rewrite Ht1, Ht2. simpl. f_equal. by apply transferKey_update_key.
Qed.

(** ** Working on transfers of one pipeline

    The transfers [ls] of the pipeline [pk] have been worked on, which took
    the tables from [d] to [d'] and the heap from [h] to [h']. *)

Section update.
Context (d d' : db.Database) (h h' : gmap loc IBCV2Transfer)
  (pls : gmap pipelineKey (Pipeline X)) (pk : pipelineKey) (pl pl' : Pipeline X)
  (ks : list db.packet_key) (ls : list loc).
Context (Hinv : world_inv d h pls) (Hpl : pls !! pk = Some pl) (Hls : ls ⊆ locs pl).
Context (Hks : ∀ k, k ∈ ks → ∃ l t, l ∈ ls ∧ h !! l = Some t ∧ update_key t = k).
Context (Hd : db_within ks d d') (Hwf : db_wf d') (Hh : heap_frame ls h h').

(** A member that was not worked on stays one. *)
Lemma update_other pk2 pl2 l :
  pls !! pk2 = Some pl2 → l ∈ locs pl2 → l ∉ ls → member pk2 d' h' l.
Proof.
  intros Hpl2 Hl Hn.
  destruct (pi_member _ _ _ _ (wi_pipelines _ _ _ Hinv pk2 pl2 Hpl2) l Hl)
    as (t & Ht & Hat & Hpk & Hseq).
  exists t. rewrite (pass_out _ _ _ Hh l Hn). split_and!; try done.
  eapply attached_frame; [done|apply Hinv| |done]. intros _ Hk.
  destruct (Hks _ Hk) as (l2 & t2 & Hl2 & Ht2 & Heq). apply Hn.
  destruct (world_inv_unique d h pls pk2 pk pl2 pl l l2 t t2) as [_ ->]; auto.
Qed.

(** No other pipeline holds a transfer that was worked on. *)
Lemma update_apart pk2 pl2 l : pk ≠ pk2 → pls !! pk2 = Some pl2 → l ∈ locs pl2 → l ∉ ls.
Proof.
  intros Hne Hpl2 Hl Hin.
  destruct (pi_member _ _ _ _ (wi_pipelines _ _ _ Hinv pk2 pl2 Hpl2) l Hl) as (t & Ht & _ & <- & _).
  destruct (pi_member _ _ _ _ (wi_pipelines _ _ _ Hinv pk pl Hpl) l (Hls l Hin))
    as (t2 & Ht2 & _ & <- & _). congruence.
Qed.

(** No transfer changes its key. *)
Lemma update_key_at pk2 pl2 l :
  pls !! pk2 = Some pl2 → l ∈ locs pl2 → key_at h' l = key_at h l.
Proof.
  intros Hpl2 Hl.
  destruct (pi_member _ _ _ _ (wi_pipelines _ _ _ Hinv pk2 pl2 Hpl2) l Hl) as (t & Ht & _).
  destruct (pass_in _ _ _ Hh l t Ht) as (t' & Ht' & Hp & _).
  unfold key_at. rewrite Ht, Ht'. simpl. by rewrite (newTransferKey_same t t').
Qed.

Lemma update_keys pk2 pl2 l t' :
  pls !! pk2 = Some pl2 → l ∈ locs pl2 → h' !! l = Some t' →
  newTransferKey t' ∈ pl_inPipeline pl2.
Proof.
  intros Hpl2 Hl Ht'. pose proof (update_key_at pk2 pl2 l Hpl2 Hl) as Hk.
  unfold key_at in Hk. rewrite Ht' in Hk. destruct (h !! l) as [t|] eqn:Ht; [|done].
  injection Hk as Hk1 Hk2 Hk3. assert (newTransferKey t' = newTransferKey t) as ->
    by (unfold newTransferKey; congruence).
  by eapply (pi_keys _ _ _ _ (wi_pipelines _ _ _ Hinv pk2 pl2 Hpl2)).
Qed.

Lemma update_nodup pk2 pl2 ls2 :
  pls !! pk2 = Some pl2 → ls2 ⊆+ locs pl2 → NoDup (map (key_at h') ls2).
Proof.
  intros Hpl2 Hsub.
  assert (map (key_at h') ls2 = map (key_at h) ls2) as ->.
  { apply map_ext_in. intros l Hl%list_elem_of_In. eapply update_key_at; [done|].
    by eapply elem_of_submseteq. }
  eapply submseteq_NoDup; [by apply fmap_submseteq|].
  apply (wi_pipelines _ _ _ Hinv pk2 pl2 Hpl2).
Qed.

(** What remains in order afterwards, [pl'] being the pipeline now. *)
Lemma world_inv_update :
  pl_stages pl' = pl_stages pl → pl_inPipeline pl' = pl_inPipeline pl →
  locs pl' ⊆+ locs pl →
  (∀ l t', l ∈ locs pl' → l ∈ ls → h' !! l = Some t' → attached d' t') →
  open_inside pl' h' → world_inv d' h' (<[pk := pl']> pls).
Proof.
  intros Hst Hin Hlocs Ha Hopen. split; [done|]. intros pk2 pl2.
  rewrite lookup_insert_Some. intros [[<- <-]|[Hne Hpl2]].
  - pose proof (wi_pipelines _ _ _ Hinv pk pl Hpl) as Hpi.
    assert (∀ l, l ∈ locs pl' → l ∈ locs pl) as Hsub by (intros; by eapply elem_of_submseteq).
    split.
    + rewrite Hst. apply Hpi.
    + intros l Hl. destruct (decide (l ∈ ls)) as [Hin'|Hn]; [|eapply update_other; eauto].
      destruct (pi_member _ _ _ _ Hpi l (Hsub l Hl)) as (t & Ht & _ & <- & Hseq).
      destruct (pass_in _ _ _ Hh l t Ht) as (t' & Ht' & Hp & _). exists t'.
      split_and!; [done|by eapply Ha|by apply newPipelineKey_same|].
      by rewrite (same_PacketSequenceNumber _ _ Hp).
    + by eapply update_nodup.
    + intros l t' Hl Ht'. rewrite Hin. eapply update_keys; eauto.
    + done.
  - pose proof (wi_pipelines _ _ _ Hinv pk2 pl2 Hpl2) as Hpi.
    assert (∀ l, l ∈ locs pl2 → l ∉ ls) as Hout by (intros l Hl; by eapply update_apart).
    split; [apply Hpi| |by eapply update_nodup|by intros; eapply update_keys|].
    + intros l Hl. eapply update_other; eauto.
    + intros pos l t Hl Hn Ht. assert (l ∈ locs pl2) by by apply (list_elem_of_fmap_2' snd _ (pos, l)).
      rewrite (pass_out _ _ _ Hh) in Ht by auto. by eapply (pi_open _ _ _ _ Hpi).
Qed.
End update.
End invariant.
