(* ===== verification/SystemInv.v ===== *)
(** * The invariant of the running relayer

    Every step of [System.v] preserves [sys_inv]. *)
From stdpp Require Import prelude strings list gmap relations.
From Stdlib Require Import ZArith.
From S2P Require Import Prelude Go Config Db Transfer World Wp TransferMetrics Processors Laws.
From S2P Require Import ProcessorMW MWLaws Batch BatchLaws PipelineOpts Pipeline Dispatcher.
From S2P Require Import System.
Open Scope Z_scope.

(** From a weakest precondition to a run. *)
Lemma locs_app {X} (pl : Pipeline X) ins1 ins2 pos l :
  locs (with_inside pl (ins1 ++ (pos, l) :: ins2)) = map snd ins1 ++ l :: map snd ins2.
Proof. unfold locs; simpl. by rewrite map_app. Qed.

Section steps.
Context {X : Type} {E : Env X}.
Implicit Types (d : db.Database) (h : gmap loc IBCV2Transfer)
  (pls : gmap pipelineKey (Pipeline X)).

Lemma pipeline_NoDup pk pl d h : @pipeline_inv X pk pl d h → NoDup (locs pl).
Proof. intros Hp. by apply (NoDup_fmap_1 (key_at h)), (pi_nodup _ _ _ _ Hp). Qed.

Lemma insert_heap_frame l t t' h :
  h !! l = Some t → same_packet t t' →
  (is_Some (ProcessingError t) → is_Some (ProcessingError t')) →
  heap_frame [l] h (<[l := t']> h).
Proof.
  intros Hl Hp He. split.
  - intros l' Hn. rewrite lookup_insert_ne; [done|]. set_solver.
  - intros l' u Hu. destruct (decide (l = l')) as [<-|Hne].
    + exists t'. rewrite lookup_insert_eq. by simplify_eq.
    + exists u. by rewrite lookup_insert_ne.
Qed.

(** ** One transfer *)

(** The transfers inside that were not worked on are where they were; of the
    others it has to be shown. *)
Lemma open_inside_update (pl : Pipeline X) inside ls h h' :
  open_inside pl h → heap_frame ls h h' →
  (∀ pos l, (pos, l) ∈ inside → (pos, l) ∈ pl_inside pl ∧ l ∉ ls ∨
     ∀ t', (pos_stage pos < length (pl_stages pl))%nat → h' !! l = Some t' →
       ProcessingError t' = None → db.unfinished (State t') = true) →
  open_inside (with_inside pl inside) h'.
Proof.
  intros Ho Hh Hin pos l t' Hl Hn Ht' He. simpl in *.
  destruct (Hin pos l Hl) as [[Hold Hls]|Hnew]; [|by eapply Hnew].
  rewrite (pass_out _ _ _ Hh) in Ht' by done. by eapply Ho.
Qed.

Lemma inside_apart (pl : Pipeline X) d h pk ins1 ins2 pos l :
  pipeline_inv pk pl d h → pl_inside pl = ins1 ++ (pos, l) :: ins2 →
  ∀ pos2 l2, (pos2, l2) ∈ ins1 ++ ins2 → (pos2, l2) ∈ pl_inside pl ∧ l2 ∉ [l].
Proof.
  intros Hpi Hins pos2 l2 Hl2. pose proof (pipeline_NoDup _ _ _ _ Hpi) as Hnd.
  unfold locs in Hnd. rewrite Hins in *. rewrite map_app in Hnd. simpl in Hnd.
  assert (l2 ∈ map snd ins1 ++ map snd ins2) as Hin.
  { rewrite <- map_app. by apply (list_elem_of_fmap_2' snd _ (pos2, l2)). }
  split; [set_solver|]. rewrite list_elem_of_singleton. intros ->.
  apply NoDup_app in Hnd as (_ & Hn1 & [Hn2 _]%NoDup_cons). set_solver.
Qed.

(** After a stage has worked on the transfer [l] of [pk]: it has moved on. *)
Lemma world_inv_pass {A} (ret : A) d h pls pk pl l t (w' : World X) ins1 ins2 pos pos' :
  world_inv d h pls → pls !! pk = Some pl → pl_inside pl = ins1 ++ (pos, l) :: ins2 →
  h !! l = Some t → pass_post ret l t h d (Ret ret) w' →
  (∀ t', (pos_stage pos' < length (pl_stages pl))%nat → w_heap w' !! l = Some t' →
     ProcessingError t' = None → db.unfinished (State t') = true) →
  world_inv (w_db w') (w_heap w') (<[pk := with_inside pl (ins1 ++ (pos', l) :: ins2)]> pls).
Proof.
  intros Hinv Hpl Hins Ht (Hd & Hwf & t' & Hh & Hp & He & _ & Ha) Ho. rewrite Hh in *.
  pose proof (wi_pipelines _ _ _ Hinv pk pl Hpl) as Hpi.
  pose proof (insert_heap_frame l t t' h Ht Hp He) as Hf.
  eapply (world_inv_update d _ h _ pls pk pl _ [update_key t] [l]); eauto.
  - intros ? ->%list_elem_of_singleton. unfold locs. rewrite Hins, map_app. set_solver.
  - intros k ->%list_elem_of_singleton. exists l, t. split; [by left|done].
  - rewrite locs_app. unfold locs. by rewrite Hins, map_app.
  - intros l' u _ ->%list_elem_of_singleton. rewrite lookup_insert_eq. by intros [= <-].
  - eapply open_inside_update; [apply Hpi|done|]. intros pos2 l2 Hl2.
    rewrite elem_of_app, elem_of_cons in Hl2.
    destruct Hl2 as [?|[[= -> ->]|?]]; [left|by right|left];
      (eapply inside_apart; [done..|]); set_solver.
Qed.

(** It has been dropped. *)
Lemma world_inv_drop {A} (ret : A) d h pls pk pl l t e (w' : World X) ins1 ins2 pos :
  world_inv d h pls → pls !! pk = Some pl → pl_inside pl = ins1 ++ (pos, l) :: ins2 →
  h !! l = Some t → pass_post ret l t h d (Fail e) w' →
  world_inv (w_db w') (w_heap w') (<[pk := with_inside pl (ins1 ++ ins2)]> pls).
Proof.
  intros Hinv Hpl Hins Ht (Hd & Hwf & t' & Hh & Hp & He & _).
  pose proof (wi_pipelines _ _ _ Hinv pk pl Hpl) as Hpi.
  pose proof (insert_heap_frame l t t' h Ht Hp He) as Hf.
  assert (locs pl = map snd ins1 ++ l :: map snd ins2) as Hlocs.
  { unfold locs. rewrite Hins. by rewrite map_app. }
  pose proof (pipeline_NoDup _ _ _ _ (wi_pipelines _ _ _ Hinv pk pl Hpl)) as Hnd.
  rewrite Hlocs in Hnd.
  rewrite Hh. eapply (world_inv_update d _ h _ pls pk pl _ [update_key t] [l]); eauto.
  - intros ? ->%list_elem_of_singleton. rewrite Hlocs. set_solver.
  - intros k ->%list_elem_of_singleton. exists l, t. split; [by left|done].
  - rewrite Hlocs. unfold locs; simpl. rewrite map_app. apply submseteq_app; [done|].
    by constructor.
  - intros l' u Hl' ->%list_elem_of_singleton. exfalso. unfold locs in Hl'; simpl in Hl'.
    rewrite map_app in Hl'. apply NoDup_app in Hnd as (_ & Hn1 & [Hn2 _]%NoDup_cons).
    set_solver.
  - eapply open_inside_update; [apply Hpi|done|]. intros. left. by eapply inside_apart.
Qed.

Lemma inside_elem (pl : Pipeline X) ins1 ins2 pos l :
  pl_inside pl = ins1 ++ (pos, l) :: ins2 → l ∈ locs pl.
Proof. intros Hins. unfold locs. rewrite Hins, map_app. set_solver. Qed.

Lemma locs_move (pl : Pipeline X) ins1 ins2 pos pos' l :
  pl_inside pl = ins1 ++ (pos, l) :: ins2 →
  locs (with_inside pl (ins1 ++ (pos', l) :: ins2)) = locs pl.
Proof. intros Hins. rewrite locs_app. unfold locs. by rewrite Hins, map_app. Qed.

Lemma member_heap d h pls pk pl l :
  world_inv d h pls → pls !! pk = Some pl → l ∈ locs pl →
  ∃ t, h !! l = Some t ∧ attached d t.
Proof.
  intros Hinv Hpl Hl.
  destruct (pi_member _ _ _ _ (wi_pipelines _ _ _ Hinv pk pl Hpl) l Hl) as (t & ? & ? & _).
  eauto.
Qed.

Lemma stage_at d h pls pk pl n s :
  world_inv d h pls → pls !! pk = Some pl → pl_stages pl !! n = Some s → stage_laws s.
Proof.
  intros Hinv Hpl Hn.
  pose proof (pi_laws _ _ _ _ (wi_pipelines _ _ _ Hinv pk pl Hpl)) as Hlaws.
  destruct Hlaws as [Hlaws _]. rewrite Forall_lookup in Hlaws. eauto.
Qed.

(** In front of a stage or in its batch a transfer is not finished. *)
Lemma inside_open d h pls pk pl n b st l t ins1 ins2 :
  world_inv d h pls → pls !! pk = Some pl → pl_stages pl !! n = Some st →
  pl_inside pl = ins1 ++ (mkPosition n b, l) :: ins2 → h !! l = Some t →
  ProcessingError t = None → db.unfinished (State t) = true.
Proof.
  intros Hinv Hpl Hn Hins Ht.
  eapply (pi_open _ _ _ _ (wi_pipelines _ _ _ Hinv pk pl Hpl) (mkPosition n b) l t); [|
    simpl; by eapply lookup_lt_Some|done]. rewrite Hins. set_solver.
Qed.

Lemma process_inv w w' pls pk pl n p l out ins1 ins2 :
  world_inv (w_db w) (w_heap w) pls → pls !! pk = Some pl →
  pl_stages pl !! n = Some (ProcessConcurrently p) →
  pl_inside pl = ins1 ++ (mkPosition n false, l) :: ins2 →
  IBCV2ProcessorMW_Process p (Some l) w = (Ret (Some out), w') →
  world_inv (w_db w') (w_heap w')
    (<[pk := with_inside pl (ins1 ++ (mkPosition (S n) false, out) :: ins2)]> pls).
Proof.
  intros Hinv Hpl Hn Hins Hrun. pose proof (inside_elem _ _ _ _ _ Hins) as Hl.
  destruct (member_heap _ _ _ _ _ _ Hinv Hpl Hl) as (t & Ht & Ha).
  destruct (stage_at _ _ _ _ _ _ _ Hinv Hpl Hn) as [Hlaws].
  destruct w as [x d h mt lg]; simpl in *.
  pose proof (wp_run _ _ _ _ _ Hrun
    (IBCV2ProcessorMW_Process_post p l t x d h mt lg Ht (wi_wf _ _ _ Hinv) Ha)) as Hpost.
  assert (out = l) as -> by (destruct Hpost as (_ & _ & ? & _ & _ & _ & [= ->] & _); done).
  eapply world_inv_pass; eauto. intros t' _.
  apply (wp_run _ _ _ _ _ Hrun (IBCV2ProcessorMW_Process_open p l t x d h mt lg Ht
    (wi_wf _ _ _ Hinv) Ha (inside_open _ _ _ _ _ _ _ _ _ _ _ _ Hinv Hpl Hn Hins Ht))).
Qed.

Lemma process_error_inv w w' w'' pls pk pl n p l e ins1 ins2 :
  world_inv (w_db w) (w_heap w) pls → pls !! pk = Some pl →
  pl_stages pl !! n = Some (ProcessConcurrently p) →
  pl_inside pl = ins1 ++ (mkPosition n false, l) :: ins2 →
  IBCV2ProcessorMW_Process p (Some l) w = (Fail e, w') →
  IBCV2ProcessorMW_Cancel p (Some l) e w' = (Ret tt, w'') →
  world_inv (w_db w'') (w_heap w'') (<[pk := with_inside pl (ins1 ++ ins2)]> pls).
Proof.
  intros Hinv Hpl Hn Hins Hrun Hcan. pose proof (inside_elem _ _ _ _ _ Hins) as Hl.
  destruct (member_heap _ _ _ _ _ _ Hinv Hpl Hl) as (t & Ht & Ha).
  destruct (stage_at _ _ _ _ _ _ _ Hinv Hpl Hn) as [Hlaws].
  destruct w as [x d h mt lg]; simpl in *.
  pose proof (wp_run _ _ _ _ _ Hrun
    (IBCV2ProcessorMW_Process_post p l t x d h mt lg Ht (wi_wf _ _ _ Hinv) Ha)) as Hpost.
  pose proof (world_inv_drop _ _ _ _ _ _ _ _ _ _ _ _ _ Hinv Hpl Hins Ht Hpost) as Hinv'.
  destruct Hpost as (_ & _ & t' & Hh & _). destruct w' as [x1 d1 h1 mt1 lg1]; simpl in *.
  destruct (wp_run _ _ _ _ _ Hcan
    (law_cancel l t' e x1 d1 h1 mt1 lg1 ltac:(rewrite Hh; apply lookup_insert_eq)))
    as (-> & -> & _). done.
Qed.

Lemma finish_inv w w' pls pk pl n f l out ins1 ins2 :
  world_inv (w_db w) (w_heap w) pls → pls !! pk = Some pl →
  pl_stages pl !! n = Some (FinishConcurrently f) →
  pl_inside pl = ins1 ++ (mkPosition n false, l) :: ins2 →
  StateFinisher_Process f l w = (Ret out, w') →
  world_inv (w_db w') (w_heap w')
    (<[pk := with_inside pl (ins1 ++ (mkPosition (S n) false, out) :: ins2)]> pls).
Proof.
  intros Hinv Hpl Hn Hins Hrun. pose proof (inside_elem _ _ _ _ _ Hins) as Hl.
  destruct (member_heap _ _ _ _ _ _ Hinv Hpl Hl) as (t & Ht & Ha).
  destruct w as [x d h mt lg]; simpl in *.
  pose proof (wp_run _ _ _ _ _ Hrun
    (StateFinisher_Process_post f l t x d h mt lg Ht (wi_wf _ _ _ Hinv) Ha)) as Hpost.
  assert (out = l) as -> by (destruct Hpost as (_ & _ & ? & _ & _ & _ & -> & _); done).
  eapply world_inv_pass; eauto. intros t' Hlt. exfalso. simpl in Hlt.
  rewrite <- (proj2 (pi_laws _ _ _ _ (wi_pipelines _ _ _ Hinv pk pl Hpl)) n f Hn) in Hlt. lia.
Qed.

(** ** Batches *)

Lemma goes_to_batch_unchanged p `{!BatchProcessorLaws p} l t (x : X) d h mt lg :
  h !! l = Some t →
  wp (goes_to_batch p l) (unchanged d h (λ _, True)) (mkWorld x d h mt lg).
Proof.
  intros Ht. unfold goes_to_batch, IBCV2BatchProcessorMW_ShouldProcess.
  wp_step. eapply wp_load; [done|]. simpl. wp_go; [done|].
  eapply wp_bshould; [done|]. intros [] x1 mt1 lg1 _; simpl; wp_go; done.
Qed.

Lemma route_inv w w' pls pk pl n c s tm p l b ins1 ins2 :
  world_inv (w_db w) (w_heap w) pls → pls !! pk = Some pl →
  pl_stages pl !! n = Some (ConditionallyBatchProcess c s tm p) →
  pl_inside pl = ins1 ++ (mkPosition n false, l) :: ins2 →
  goes_to_batch p l w = (Ret b, w') →
  world_inv (w_db w') (w_heap w') (<[pk := with_inside pl (ins1 ++
    (if b then mkPosition n true else mkPosition (S n) false, l) :: ins2)]> pls).
Proof.
  intros Hinv Hpl Hn Hins Hrun. pose proof (inside_elem _ _ _ _ _ Hins) as Hl.
  destruct (member_heap _ _ _ _ _ _ Hinv Hpl Hl) as (t & Ht & Ha).
  destruct (stage_at _ _ _ _ _ _ _ Hinv Hpl Hn) as [Hlaws].
  destruct w as [x d h mt lg]; simpl in *.
  destruct (wp_run _ _ _ _ _ Hrun (goes_to_batch_unchanged p l t x d h mt lg Ht))
    as (-> & -> & _).
  eapply (world_inv_update d d h h pls pk pl _ [] []); [done|done| | |done|apply Hinv|done|done|done| | |].
  - set_solver.
  - by intros k ?%elem_of_nil.
  - by rewrite (locs_move pl ins1 ins2 (mkPosition n false)).
  - by intros ? ? _ ?%elem_of_nil.
  - pose proof (wi_pipelines _ _ _ Hinv pk pl Hpl) as Hpi.
    eapply (open_inside_update pl _ [] h); [apply Hpi|done|]. intros pos2 l2 Hl2.
    rewrite elem_of_app, elem_of_cons in Hl2. destruct Hl2 as [?|[[= _ ->]|?]].
    1,3: left; rewrite Hins; split; [set_solver|apply not_elem_of_nil].
    right. intros t' _ Ht'. by eapply inside_open.
Qed.

(** The transfers of a batch satisfy the middleware's precondition. *)
Lemma world_batch_inv d h pls pk pl ls :
  world_inv d h pls → pls !! pk = Some pl → ls ⊆ locs pl → batch_inv ls d h.
Proof.
  intros Hinv Hpl Hls. split; [apply Hinv| |].
  - intros l Hl. eapply member_heap; eauto.
  - intros l1 l2 t1 t2 H1 H2 Ht1 Ht2 _ _ Hk.
    by destruct (world_inv_unique d h pls pk pk pl pl l1 l2 t1 t2) as [_ ?]; auto.
Qed.

Lemma batch_locs (pl : Pipeline X) pos ls rest :
  pl_inside pl ≡ₚ map (λ l, (pos, l)) ls ++ rest → locs pl ≡ₚ ls ++ map snd rest.
Proof.
  intros Hp. unfold locs. rewrite Hp, map_app, map_map. simpl. by rewrite map_id.
Qed.

Lemma live_keys_of h ls k :
  k ∈ live_keys h ls → ∃ l t, l ∈ ls ∧ h !! l = Some t ∧ update_key t = k.
Proof. intros (l & t & ? & ? & _ & ?)%live_keys_elem. eauto. Qed.

(** What is not in the batch. *)
Lemma batch_apart (pl : Pipeline X) d h pk pos ls rest pos2 l2 :
  pipeline_inv pk pl d h → pl_inside pl ≡ₚ map (λ l, (pos, l)) ls ++ rest →
  (pos2, l2) ∈ rest → (pos2, l2) ∈ pl_inside pl ∧ l2 ∉ ls.
Proof.
  intros Hpi Hins Hr. split; [rewrite Hins; set_solver|]. intros Hl.
  pose proof (pipeline_NoDup _ _ _ _ Hpi) as Hnd. rewrite (batch_locs _ _ _ _ Hins) in Hnd.
  apply NoDup_app in Hnd as (_ & Hnd & _). apply (Hnd l2 Hl).
  by apply (list_elem_of_fmap_2' snd _ (pos2, l2)).
Qed.

(** What is in it is not finished, before and after. *)
Lemma batch_open d h h' pls pk pl n b st ls rest l t' :
  world_inv d h pls → pls !! pk = Some pl → pl_stages pl !! n = Some st →
  pl_inside pl ≡ₚ map (λ l, (mkPosition n b, l)) ls ++ rest → l ∈ ls → heap_pass ls h h' →
  h' !! l = Some t' → ProcessingError t' = None → db.unfinished (State t') = true.
Proof.
  intros Hinv Hpl Hn Hins Hl Hh Ht' He.
  pose proof (wi_pipelines _ _ _ Hinv pk pl Hpl) as Hpi.
  destruct (member_heap _ _ _ _ _ l Hinv Hpl) as (t & Ht & _).
  { rewrite (batch_locs _ _ _ _ Hins). set_solver. }
  eapply (pass_open _ _ _ Hh l t t'); [done..|].
  eapply (pi_open _ _ _ _ Hpi (mkPosition n b) l t);
    [|simpl; by eapply lookup_lt_Some|done|].
  - rewrite Hins. apply elem_of_app. left. by apply (list_elem_of_fmap_2' _ _ l).
  - destruct (pass_in _ _ _ Hh l t Ht) as (t2 & Ht2 & _ & Herr). simplify_eq.
    destruct (ProcessingError t); [|done]. destruct Herr; [by eexists|congruence].
Qed.

Lemma batch_step_inv w w' pls pk pl n c s tm p ls out rest :
  world_inv (w_db w) (w_heap w) pls → pls !! pk = Some pl →
  pl_stages pl !! n = Some (ConditionallyBatchProcess c s tm p) →
  pl_inside pl ≡ₚ map (λ l, (mkPosition n true, l)) ls ++ rest →
  IBCV2BatchProcessorMW_Process p ls w = (Ret out, w') →
  healthy ∨ NoDup (map snd rest ++ out) →
  world_inv (w_db w') (w_heap w')
    (<[pk := with_inside pl (rest ++ map (λ l, (mkPosition (S n) false, l)) out)]> pls).
Proof.
  intros Hinv Hpl Hn Hins Hrun Hnd. pose proof (batch_locs _ _ _ _ Hins) as Hlocs.
  assert (ls ⊆ locs pl) as Hls by (rewrite Hlocs; set_solver).
  destruct (stage_at _ _ _ _ _ _ _ Hinv Hpl Hn) as [Hlaws].
  destruct w as [x d h mt lg]; simpl in *.
  destruct (wp_run _ _ _ _ _ Hrun (IBCV2BatchProcessorMW_Process_post p ls x d h mt lg
    (world_batch_inv _ _ _ _ _ _ Hinv Hpl Hls))) as (Hd & Hh & Hb & extra & Hout & Hno & Hex).
  assert (extra = []) as ->.
  { destruct Hnd as [Hhealthy|Hnd]; [auto|].
    destruct extra as [|l extra]; [done|]. exfalso. apply NoDup_app in Hnd as (_ & _ & Hnd).
    rewrite Hout in Hnd. apply NoDup_app in Hnd as (_ & Hnd & _).
    destruct (Hex l) as [Hl _]; [by left|]. apply (Hnd l Hl). by left. }
  rewrite app_nil_r in Hout.
  assert (locs (with_inside pl (rest ++ map (λ l, (mkPosition (S n) false, l)) out)) ≡ₚ locs pl)
    as Hlocs'.
  { rewrite Hlocs. unfold locs; simpl. rewrite map_app, map_map. simpl. rewrite map_id, Hout.
    apply Permutation_app_comm. }
  eapply (world_inv_update d _ h _ pls pk pl _ (live_keys h ls) ls);
    [done|done|done|intros k; apply live_keys_of|done|apply Hb|apply Hh|done|done|by rewrite Hlocs'|..].
  - intros l t' _ Hl Ht'. destruct (inv_attached _ _ _ Hb l Hl) as (u & Hu & Ha). congruence.
  - pose proof (wi_pipelines _ _ _ Hinv pk pl Hpl) as Hpi.
    eapply (open_inside_update pl _ ls h); [apply Hpi|apply Hh|]. intros pos2 l2.
    rewrite elem_of_app. intros [Hr|[l3 [[= -> ->] Hl3]]%list_elem_of_fmap]; [left|right].
    + by eapply batch_apart.
    + rewrite Hout in Hl3. intros t' _. by eapply batch_open.
Qed.

Lemma batch_error_inv w w' w'' pls pk pl n c s tm p ls e rest :
  world_inv (w_db w) (w_heap w) pls → pls !! pk = Some pl →
  pl_stages pl !! n = Some (ConditionallyBatchProcess c s tm p) →
  pl_inside pl ≡ₚ map (λ l, (mkPosition n true, l)) ls ++ rest →
  IBCV2BatchProcessorMW_Process p ls w = (Fail e, w') →
  IBCV2BatchProcessorMW_Cancel p ls e w' = (Ret tt, w'') →
  world_inv (w_db w'') (w_heap w'') (<[pk := with_inside pl rest]> pls).
Proof.
  intros Hinv Hpl Hn Hins Hrun Hcan. pose proof (batch_locs _ _ _ _ Hins) as Hlocs.
  assert (ls ⊆ locs pl) as Hls by (rewrite Hlocs; set_solver).
  destruct (stage_at _ _ _ _ _ _ _ Hinv Hpl Hn) as [Hlaws].
  pose proof (pipeline_NoDup _ _ _ _ (wi_pipelines _ _ _ Hinv pk pl Hpl)) as Hnd.
  rewrite Hlocs in Hnd. apply NoDup_app in Hnd as (_ & Hnd & _).
  destruct w as [x d h mt lg]; simpl in *.
  pose proof (world_batch_inv _ _ _ _ _ _ Hinv Hpl Hls) as Hb.
  destruct (wp_run _ _ _ _ _ Hrun (IBCV2BatchProcessorMW_Process_post p ls x d h mt lg Hb))
    as (Hd & Hh & Hwf & _).
  destruct w' as [x1 d1 h1 mt1 lg1]; simpl in *.
  destruct (wp_run _ _ _ _ _ Hcan (law_bcancel ls e x1 d1 h1 mt1 lg1
    ltac:(intros l Hl; destruct (inv_dom _ _ _ l Hb Hl) as [u Hu];
          destruct (pass_in _ _ _ Hh l u Hu) as (? & ? & _); eauto))) as (-> & -> & _).
  eapply (world_inv_update d _ h _ pls pk pl _ (live_keys h ls) ls);
    [done|done|done|intros k; apply live_keys_of|done|done|apply Hh|done|done|..].
  - rewrite Hlocs. unfold locs; simpl. by apply submseteq_inserts_l.
  - intros l t' Hl' Hl. exfalso. by apply (Hnd l).
  - pose proof (wi_pipelines _ _ _ Hinv pk pl Hpl) as Hpi.
    eapply (open_inside_update pl _ ls h); [apply Hpi|apply Hh|]. intros. left.
    by eapply batch_apart.
Qed.

(** ** Leaving *)

Lemma output_inv (w : World X) pls pk pl l t ins1 ins2 pos :
  world_inv (w_db w) (w_heap w) pls → pls !! pk = Some pl →
  pl_inside pl = ins1 ++ (pos, l) :: ins2 → w_heap w !! l = Some t →
  world_inv (w_db w) (w_heap w)
    (<[pk := PipelineDeduper_output t (with_inside pl (ins1 ++ ins2))]> pls).
Proof.
  intros Hinv Hpl Hins Ht. split; [apply Hinv|]. intros pk2 pl2.
  rewrite lookup_insert_Some. intros [[<- <-]|[Hne Hpl2]]; [|by apply Hinv].
  pose proof (wi_pipelines _ _ _ Hinv pk pl Hpl) as Hpi.
  assert (locs pl ≡ₚ l :: map snd (ins1 ++ ins2)) as Hlocs.
  { unfold locs. rewrite Hins, !map_app. simpl. solve_Permutation. }
  pose proof (pi_nodup _ _ _ _ Hpi) as Hnd. rewrite Hlocs in Hnd. simpl in Hnd.
  apply NoDup_cons in Hnd as [Hn Hnd].
  assert (∀ l', l' ∈ map snd (ins1 ++ ins2) → l' ∈ locs pl) as Hsub
    by (intros; rewrite Hlocs; by right).
  split; unfold locs; simpl.
  - apply Hpi.
  - intros l' Hl'. apply Hpi. auto.
  - done.
  - intros l' t' Hl' Ht'. apply elem_of_difference. split; [apply (pi_keys _ _ _ _ Hpi l' t'); auto|].
    rewrite elem_of_singleton. intros Hk. apply Hn.
    apply list_elem_of_fmap. exists l'. split; [|done].
    unfold key_at. rewrite Ht, Ht'. simpl. by rewrite Hk.
  - intros pos2 l2 t2 Hl2. eapply (pi_open _ _ _ _ Hpi). rewrite Hins. simpl in Hl2. set_solver.
Qed.

(** ** A packet inserted by the API *)

Lemma insert_wf arg now d :
  is_int32 (db.ins_PacketSequenceNumber arg) → db.insert_key arg ≠ db.zero_key →
  db_wf d → db_wf (db.InsertIBCV2Transfer arg now d).2.
Proof.
  intros Hseq Hz Hwf. pose proof (db.InsertIBCV2Transfer_index_ok arg now d (wf_index _ Hwf)) as Hi.
  assert (∀ k r, db.row k (db.InsertIBCV2Transfer arg now d).2 = Some r → row_ok r) as Hrows.
  { intros k r. rewrite db.InsertIBCV2Transfer_row.
    destruct (db.row k d) as [r0|] eqn:Hr0; [intros [= <-]; by eapply wf_rows|].
    case_decide; [|done]. intros [= <-]. by apply row_ok_unfinished. }
  split; [done| | |done]; unfold db.InsertIBCV2Transfer;
    destruct (db.row (db.insert_key arg) d); simpl; try apply Hwf.
  - rewrite map_app, elem_of_app. intros [?|?%list_elem_of_singleton]; [by apply (wf_zero d)|].
    by apply Hz.
  - rewrite map_app, Forall_app. split; [apply Hwf|]. by apply Forall_singleton.
Qed.

Lemma insert_inv arg now d h pls :
  is_int32 (db.ins_PacketSequenceNumber arg) → db.insert_key arg ≠ db.zero_key →
  world_inv d h pls → world_inv (db.InsertIBCV2Transfer arg now d).2 h pls.
Proof.
  intros Hseq Hz Hinv. split; [by apply insert_wf, Hinv|]. intros pk pl Hpl.
  destruct (wi_pipelines _ _ _ Hinv pk pl Hpl) as [H1 H2 H3 H4 H5]. split; try done.
  intros l Hl. destruct (H2 l Hl) as (t & Ht & (r & Hr & Ha) & Hpk & Hs).
  exists t. split_and!; try done. exists r. split; [|done].
  by apply db.InsertIBCV2Transfer_row_other.
Qed.

(** ** A submission recorded by the API *)

Lemma submission_transfers c hash now d :
  db.ibcv2_transfers (db.InsertRelaySubmission c hash now d).2 = db.ibcv2_transfers d.
Proof. unfold db.InsertRelaySubmission. by destruct (db.submission _ _ _). Qed.

Lemma submission_row c hash now d k :
  db.row k (db.InsertRelaySubmission c hash now d).2 = db.row k d.
Proof. unfold db.row. by rewrite submission_transfers. Qed.

Lemma submission_inv c hash now d h pls :
  world_inv d h pls → world_inv (db.InsertRelaySubmission c hash now d).2 h pls.
Proof.
  intros Hinv. pose proof (wi_wf _ _ _ Hinv) as Hwf. split.
  - split; [apply db.InsertRelaySubmission_index_ok, Hwf|..]; rewrite ?submission_transfers;
      try apply Hwf. intros k r. rewrite submission_row. apply (wf_rows _ Hwf).
  - intros pk pl Hpl. destruct (wi_pipelines _ _ _ Hinv pk pl Hpl) as [H1 H2 H3 H4 H5].
    split; try done. intros l Hl. destruct (H2 l Hl) as (t & Ht & (r & Hr & Ha) & Hpk & Hs).
    exists t. split_and!; try done. exists r. by rewrite submission_row.
Qed.
End steps.
