(* ===== verification/DispatcherInv.v ===== *)
(** * The dispatcher keeps the invariant

    Submitting a row that is not stale preserves [world_inv]: a transfer that is
    pushed is attached to the row it was read from and is not in the pipeline
    yet, and a row that is marked as failed has no transfer in any pipeline.
    Then the invariant of the whole system, [sys_inv] in every reachable state,
    and a tick that nothing interrupts as a run of the system. *)
From stdpp Require Import prelude strings list gmap relations.
From Stdlib Require Import ZArith.
From S2P Require Import Prelude Go Config Db Transfer World Wp TransferMetrics Processors Laws.
From S2P Require Import ProcessorMW MWLaws Batch BatchLaws PipelineOpts Pipeline Dispatcher.
From S2P Require Import System SystemInv.
Open Scope Z_scope.

Section dispatcher_inv.
Context {X : Type} {E : Env X}.
Implicit Types (d : db.Database) (h : gmap loc IBCV2Transfer)
  (pls : gmap pipelineKey (Pipeline X)).

Lemma wp_alloc t Q (x : X) d h mt lg :
  (∀ l, h !! l = None → Q (Ret l) (mkWorld x d (<[l := t]> h) mt lg)) →
  wp (alloc t) Q (mkWorld x d h mt lg).
Proof.
  intros HQ. unfold wp; simpl. apply HQ. apply not_elem_of_dom, is_fresh.
Qed.

(** ** What a tick does to the pipelines *)

Lemma world_inv_alloc d h pls l t :
  world_inv d h pls → h !! l = None → world_inv d (<[l := t]> h) pls.
Proof.
  intros Hinv Hl. split; [apply Hinv|]. intros pk pl Hpl.
  pose proof (wi_pipelines _ _ _ Hinv pk pl Hpl) as Hpi.
  assert (∀ l', l' ∈ locs pl → <[l := t]> h !! l' = h !! l') as Heq.
  { intros l' Hl'. apply lookup_insert_ne. intros <-.
    destruct (pi_member _ _ _ _ Hpi l Hl') as (? & ? & _). congruence. }
  split; [apply Hpi| | | |].
  - intros l' Hl'. destruct (pi_member _ _ _ _ Hpi l' Hl') as (u & Hu & ?).
    exists u. by rewrite Heq.
  - assert (map (key_at (<[l:=t]> h)) (locs pl) = map (key_at h) (locs pl)) as ->; [|apply Hpi].
    apply map_ext_in. intros l' Hl'%list_elem_of_In. unfold key_at. by rewrite Heq.
  - intros l' u Hl'. rewrite Heq by done. by apply Hpi.
  - intros pos l' u Hl' Hn. rewrite Heq; [by apply (pi_open _ _ _ _ Hpi pos)|].
    by apply (list_elem_of_fmap_2' snd _ (pos, l')).
Qed.

Lemma world_inv_new d h pls pk stages :
  world_inv d h pls → lawful_stages stages →
  world_inv d h (<[pk := NewPipelineDeduper stages]> pls).
Proof.
  intros Hinv Hst. split; [apply Hinv|]. intros pk2 pl2.
  rewrite lookup_insert_Some. intros [[<- <-]|[Hne Hpl2]]; [|by apply Hinv].
  split; [done| |constructor| |]; unfold locs; simpl.
  - by intros ? ?%elem_of_nil.
  - by intros ? ? ?%elem_of_nil.
  - by intros ? ? ? ?%elem_of_nil.
Qed.

Lemma world_inv_push d h pls pl l t :
  world_inv d h pls → pls !! newPipelineKey t = Some pl → h !! l = Some t → attached d t →
  is_uint32 (PacketSequenceNumber t) → db.unfinished (State t) = true →
  newTransferKey t ∉ pl_inPipeline pl →
  world_inv d h (<[newPipelineKey t := Pipeline_Push l (mkPipeline (pl_stages pl)
    (pl_inside pl) ({[newTransferKey t]} ∪ pl_inPipeline pl))]> pls).
Proof.
  intros Hinv Hpl Ht Ha Hseq Hu Hn. split; [apply Hinv|]. intros pk2 pl2.
  rewrite lookup_insert_Some. intros [[<- <-]|[Hne Hpl2]]; [|by apply Hinv].
  pose proof (wi_pipelines _ _ _ Hinv _ pl Hpl) as Hpi.
  split; unfold locs; simpl; rewrite ?map_app; [apply Hpi| | | |].
  - intros l'. rewrite elem_of_app. intros [Hl'|Hl'%list_elem_of_singleton]; [by apply Hpi|].
    subst l'. by exists t.
  - apply NoDup_app. split; [apply Hpi|]. split; [|apply NoDup_singleton].
    intros k Hk ->%list_elem_of_singleton. simpl in Hk.
    apply list_elem_of_fmap in Hk as (l' & Hk & Hl').
    destruct (pi_member _ _ _ _ Hpi l' Hl') as (t' & Ht' & _).
    unfold key_at in Hk. rewrite Ht, Ht' in Hk. apply (inj Some) in Hk.
    apply Hn. rewrite Hk. by eapply (pi_keys _ _ _ _ Hpi).
  - intros l' t'. rewrite elem_of_app. intros [Hl'|Hl'%list_elem_of_singleton] Ht'.
    + apply elem_of_union_r. by eapply (pi_keys _ _ _ _ Hpi).
    + subst l'. simpl in Ht'. rewrite Ht in Ht'. injection Ht' as <-. set_solver.
  - intros pos l' t'. simpl. rewrite elem_of_app, list_elem_of_singleton.
    intros [Hl'|[= -> ->]]; [by apply (pi_open _ _ _ _ Hpi)|]. intros _ Ht' _. by simplify_eq.
Qed.

(** A change to rows that no transfer in a pipeline is about. *)
Lemma world_inv_rows d d' h pls ks :
  world_inv d h pls → db_within ks d d' → db_wf d' →
  (∀ pk pl l t, pls !! pk = Some pl → l ∈ locs pl → h !! l = Some t → update_key t ∉ ks) →
  world_inv d' h pls.
Proof.
  intros Hinv Hd Hwf Hks. split; [done|]. intros pk pl Hpl.
  destruct (wi_pipelines _ _ _ Hinv pk pl Hpl) as [H1 H2 H3 H4 H5]. split; try done.
  intros l Hl. destruct (H2 l Hl) as (t & Ht & Ha & Hpk & Hs).
  exists t. split_and!; try done.
  eapply attached_frame; [done|apply Hinv|intros _; by eapply Hks|done].
Qed.

Lemma failed_row_ok r now :
  row_ok r → row_ok (db.set_Status db.Ibcv2RelayStatusFAILED (db.set_UpdatedAt (Some now) r)).
Proof. intros [Hw _ _ _ _]. split; simpl; done. Qed.

(** Marking a packet that has no pipeline as failed. *)
Lemma world_inv_failed d h pls t r now :
  world_inv d h pls → attached d t → db.row (update_key t) d = Some r →
  pls !! newPipelineKey t = None →
  world_inv (db.UpdateTransferState db.Ibcv2RelayStatusFAILED (update_key t) now d) h pls.
Proof.
  intros Hinv Ha Hr Hn.
  pose proof (db.UpdateTransferState_row_update db.Ibcv2RelayStatusFAILED (update_key t) now) as Hq.
  pose proof (db.row_update_row_eq Hq d) as Hr'. rewrite Hr in Hr'.
  pose proof (row_update_local _ _ _ d Hq) as Hd.
  eapply world_inv_rows; [done|exact Hd| |].
  - eapply local_wf; [done|apply Hinv|done|]. eapply failed_row_ok, wf_rows; [apply Hinv|done].
  - intros pk pl l t' Hpl Hl Ht' Hk%list_elem_of_singleton.
    destruct (pi_member _ _ _ _ (wi_pipelines _ _ _ Hinv pk pl Hpl) l Hl)
      as (u & Hu & Hau & <- & _).
    assert (u = t') as -> by congruence.
    rewrite <- (attached_pipelineKey d t' t) in Hn by done. congruence.
Qed.

(** ** The calls of a tick *)

Lemma wp_Alert e Q (x : X) d h mt lg :
  (∀ x' mt' lg', Q (Ret tt) (mkWorld x' d h mt' lg')) →
  (∀ x' mt' lg', Q Panic (mkWorld x' d h mt' lg')) →
  wp (AlertOnExcessiveRelayLatency e) Q (mkWorld x d h mt lg).
Proof.
  intros H1 H2. unfold AlertOnExcessiveRelayLatency.
  wp_go; repeat match goal with u : () |- _ => destruct u end; auto.
Qed.

Lemma wp_NewPipelineOpts t Q (x : X) d h mt lg :
  (∀ opts lg', Q (Ret opts) (mkWorld x d h mt lg')) →
  (∀ e lg', Q (Fail e) (mkWorld x d h mt lg')) →
  (∀ lg', Q Panic (mkWorld x d h mt lg')) →
  wp (NewPipelineOpts t) Q (mkWorld x d h mt lg).
Proof.
  intros H1 H2 H3. unfold NewPipelineOpts. wp_go; auto.
Qed.

Lemma wp_Pipeline t pls Q (x : X) d h mt lg :
  (∀ pl lg', pls !! newPipelineKey t = Some pl → Q (Ret pls) (mkWorld x d h mt lg')) →
  (∀ stages lg', pls !! newPipelineKey t = None → lawful_stages stages →
     Q (Ret (<[newPipelineKey t := NewPipelineDeduper stages]> pls)) (mkWorld x d h mt lg')) →
  (∀ e lg', pls !! newPipelineKey t = None → Q (Fail e) (mkWorld x d h mt lg')) →
  (∀ lg', Q Panic (mkWorld x d h mt lg')) →
  wp (IBCV2PipelineManager_Pipeline t pls) Q (mkWorld x d h mt lg).
Proof.
  intros H1 H2 H3 H4. unfold IBCV2PipelineManager_Pipeline, newPipelineForTransfer.
  destruct (pls !! newPipelineKey t) eqn:Hpl; [wp_go; eauto|].
  wp_step. apply wp_wrap. wp_step. apply wp_wrap, wp_NewPipelineOpts; intros; simpl; auto.
  apply wp_ret. simpl. apply wp_ret. apply H2; [done|]. apply NewPipeline_laws.
Qed.

(** [SubmitTransfer] of an attached transfer: pushed, already there, or no
    pipeline for it. *)
Lemma wp_SubmitTransfer l t pls Q (x : X) d h mt lg :
  world_inv d h pls → h !! l = Some t → attached d t → is_uint32 (PacketSequenceNumber t) →
  db.unfinished (State t) = true →
  (∀ pls' lg', world_inv d h pls' → Q (Ret (None, pls')) (mkWorld x d h mt lg')) →
  (∀ pls' lg', world_inv d h pls' →
     Q (Ret (Some (Sentinel ErrTransferAlreadyInPipeline), pls')) (mkWorld x d h mt lg')) →
  (∀ e lg', pls !! newPipelineKey t = None → Q (Ret (Some e, pls)) (mkWorld x d h mt lg')) →
  (∀ lg', Q Panic (mkWorld x d h mt lg')) →
  wp (SubmitTransfer l pls) Q (mkWorld x d h mt lg).
Proof.
  intros Hinv Ht Ha Hseq Hu H1 H2 H3 H4. unfold SubmitTransfer, PipelineDeduper_Push.
  wp_step. eapply wp_load; [done|]. simpl. wp_step. apply wp_attempt, wp_Pipeline; simpl; auto.
  - intros pl lg' Hpl. rewrite Hpl. simpl. wp_step. apply wp_ret. simpl.
    case_bool_decide; wp_go; [by apply H2|]. apply H1. by apply world_inv_push.
  - intros stages lg' Hn Hst. rewrite lookup_insert_eq. simpl. wp_step. apply wp_ret. simpl.
    assert (world_inv d h (<[newPipelineKey t := NewPipelineDeduper stages]> pls)) as Hinv'
      by (by apply world_inv_new).
    case_bool_decide; wp_go; [by apply H2|]. apply H1.
    apply (world_inv_push d h _ (NewPipelineDeduper stages)); try done.
    by rewrite lookup_insert_eq.
  - intros e lg' Hn. wp_go. auto.
Qed.

(** ** A tick *)

(** The rows still to be submitted are the ones in the database. *)
Definition current d (rows : list db.Ibcv2Transfer) : Prop :=
  ∀ r, r ∈ rows → db.row (db.row_key r) d = Some r.

Lemma row_int32 d r :
  db_wf d → db.row (db.row_key r) d = Some r → is_int32 (db.PacketSequenceNumber r).
Proof.
  intros Hwf Hr. destruct (db.row_elem _ _ _ Hr) as [Hin _].
  pose proof (wf_int32 _ Hwf) as Hf. rewrite Forall_forall in Hf.
  apply (Hf (db.row_key r)). by apply list_elem_of_fmap_2.
Qed.

Lemma row_attached d r :
  db_wf d → db.row (db.row_key r) d = Some r → attached d (NewIBCV2Transfer r).
Proof.
  intros Hwf Hr. pose proof (row_int32 d r Hwf Hr) as Hi.
  exists r. rewrite update_key_NewIBCV2Transfer by done. split_and!; [done|done|].
  by apply NewIBCV2Transfer_synced.
Qed.

Lemma wp_submit_row r pls Q (x : X) d h mt lg :
  world_inv d h pls → db.row (db.row_key r) d = Some r →
  db.unfinished (db.Status r) = true →
  (∀ pls' x' d' h' mt' lg', world_inv d' h' pls' → db_local (db.row_key r) d d' →
     Q (Ret pls') (mkWorld x' d' h' mt' lg')) →
  (∀ w, Q Panic w) →
  wp (submit_row r pls) Q (mkWorld x d h mt lg).
Proof.
  intros Hinv Hr Hu H1 H2. pose proof (row_attached d r (wi_wf _ _ _ Hinv) Hr) as Ha.
  assert (update_key (NewIBCV2Transfer r) = db.row_key r) as Hk
    by (by apply update_key_NewIBCV2Transfer, (row_int32 d r (wi_wf _ _ _ Hinv))).
  unfold submit_row. wp_step. apply wp_alloc. intros l Hl. simpl.
  pose proof (world_inv_alloc d h pls l (NewIBCV2Transfer r) Hinv Hl) as Hinv1.
  wp_step. apply wp_Alert; simpl; [|auto]. intros x1 mt1 lg1.
  wp_step. eapply (wp_SubmitTransfer l (NewIBCV2Transfer r));
    [done|apply lookup_insert_eq|done|apply uint32_range|done|..]; simpl; auto.
  - intros pls' lg' Hinv2. wp_go. by eapply H1.
  - intros pls' lg' Hinv2. wp_go. by eapply H1.
  - intros e lg' Hn. wp_go; try by eapply H1.
    eapply H1; [eapply world_inv_failed; [done|done|by rewrite Hk|done]|].
    rewrite Hk. eapply row_update_local, db.UpdateTransferState_row_update.
Qed.

(** A row whose packet is in its pipeline is refused. *)
Lemma wp_submit_row_known r pls Q (x : X) d h mt lg :
  in_pipeline (NewIBCV2Transfer r) pls →
  (∀ l x' mt' lg', h !! l = None →
     Q (Ret pls) (mkWorld x' d (<[l := NewIBCV2Transfer r]> h) mt' lg')) →
  (∀ w, Q Panic w) →
  wp (submit_row r pls) Q (mkWorld x d h mt lg).
Proof.
  intros (pl & Hpl & Hin) H1 H2. unfold submit_row. wp_step. apply wp_alloc. intros l Hl. simpl.
  wp_step. apply wp_Alert; simpl; [|auto]. intros x1 mt1 lg1. wp_step.
  unfold SubmitTransfer, IBCV2PipelineManager_Pipeline, PipelineDeduper_Push.
  wp_step. eapply wp_load; [apply lookup_insert_eq|]. simpl. rewrite Hpl.
  wp_step. apply wp_attempt, wp_ret. simpl. rewrite Hpl. wp_step. apply wp_ret. simpl.
  rewrite bool_decide_eq_true_2 by done. wp_go. auto.
Qed.

(** The unfinished rows are rows of the table, each once. *)
Lemma unfinished_current now d :
  db_wf d → ∃ rows, (db.GetUnfinishedIBCV2Transfers now d) = (Ret rows, d) ∧
    NoDup (map db.row_key rows) ∧ current d rows ∧
    ∀ r, r ∈ rows → db.unfinished (db.Status r) = true.
Proof.
  intros Hwf. eexists. split; [done|]. split_and!.
  - eapply submseteq_NoDup; [|apply (wf_index _ Hwf)].
    apply fmap_submseteq, sublist_submseteq, sublist_filter.
  - intros r [_ Hr]%list_elem_of_filter. apply db.row_unique; [apply Hwf|done].
  - by intros r [Hr _]%list_elem_of_filter.
Qed.

(** Reading the rows changes nothing. *)
Lemma read_rows (w w' : World X) rows :
  query db.GetUnfinishedIBCV2Transfers w = (Ret rows, w') →
  w_db w' = w_db w ∧ w_heap w' = w_heap w ∧
  rows = filter (λ r, db.unfinished (db.Status r) = true) (db.ibcv2_transfers (w_db w)).
Proof.
  destruct w as [x d h mt lg]. simpl. destruct (env_storage x) as [[e|] x']; [done|].
  by intros [= <- <-].
Qed.

Lemma submit_inv w w' pls pls' r rows :
  world_inv (w_db w) (w_heap w) pls → not_stale (mkSystem w pls (r :: rows)) →
  db.unfinished (db.Status r) = true → submit_row r pls w = (Ret pls', w') → world_inv (w_db w') (w_heap w') pls'.
Proof.
  intros Hinv Hfresh Hu Hrun. destruct w as [x d h mt lg]; simpl in *.
  apply (wp_run _ (λ o w, match o with Ret p => world_inv (w_db w) (w_heap w) p | _ => True end)
    _ _ _ Hrun). destruct Hfresh as [Hr|Hin].
  - by apply wp_submit_row.
  - apply wp_submit_row_known; [done| |done]. intros. by apply world_inv_alloc.
Qed.

(** ** The whole system *)

Lemma step_inv (s s' : System X) :
  step s s' → not_stale s → healthy ∨ no_repeats s' → sys_inv s → sys_inv s'.
Proof.
  unfold sys_inv. intros Hstep Hfresh Hnr [Hinv Hrows].
  destruct Hstep; simpl in *; (split; [|first [done|by apply Forall_cons in Hrows as [_ ?]|idtac]]).
  - by destruct (read_rows w w' rows) as (-> & -> & _).
  - destruct (read_rows w w' rows) as (_ & _ & ->); [done|]. apply Forall_forall.
    by intros r [? _]%list_elem_of_filter.
  - apply Forall_cons in Hrows as [Hu _]. by eapply submit_inv.
  - done.
  - split; [apply Hinv|]. intros pk pl Hpl. by rewrite lookup_empty in Hpl.
  - by apply submission_inv.
  - by apply insert_inv.
  - by eapply process_inv.
  - by eapply process_error_inv.
  - by eapply route_inv.
  - eapply batch_step_inv; eauto. destruct Hnr as [Hnr|Hnr]; [by left|right].
    specialize (Hnr _ _ (lookup_insert_eq _ _ _)). unfold locs in Hnr; simpl in Hnr.
    rewrite map_app, map_map in Hnr. simpl in Hnr. by rewrite map_id in Hnr.
  - by eapply batch_error_inv.
  - by eapply finish_inv.
  - by eapply output_inv.
Qed.

(** Reaching a state without a stale row being submitted and without a
    transfer being repeated in a pipeline. *)
Definition reaches (s s' : System X) : Prop :=
  rtc (λ a b, step a b ∧ not_stale a ∧ no_repeats b) s s'.

#[global] Instance reaches_preorder : PreOrder reaches.
Proof. exact rtc_po. Qed.

Lemma reaches_inv s s' : sys_inv s → reaches s s' → sys_inv s'.
Proof.
  intros Hinv Hr. induction Hr as [|a b c (? & ? & ?) _ IH]; [done|].
  apply IH. eapply step_inv; eauto.
Qed.

Lemma inv_no_repeats (s : System X) : sys_inv s → no_repeats s.
Proof. intros [Hinv _] pk pl Hpl. by eapply pipeline_NoDup, (wi_pipelines _ _ _ Hinv). Qed.

(** With a working database no run repeats a transfer. *)
Lemma healthy_reaches (s s' : System X) :
  healthy → sys_inv s → rtc (λ a b, step a b ∧ not_stale a) s s' → reaches s s'.
Proof.
  intros Hh Hinv Hr. induction Hr as [|a b c [Hab Hfresh] _ IH]; [apply rtc_refl|].
  assert (sys_inv b) as Hb by (eapply step_inv; eauto).
  apply (rtc_l _ a b c); [split_and!; [done|done|by apply inv_no_repeats]|by apply IH].
Qed.

(** A relayer that starts has no pipelines. *)
Lemma start_inv (w : World X) : db_wf (w_db w) → sys_inv (mkSystem w ∅ []).
Proof.
  intros Hwf. split; [|constructor]. split; [done|]. intros pk pl Hpl. simpl in Hpl.
  by rewrite lookup_empty in Hpl.
Qed.

(** ** A tick that nothing interrupts *)

Lemma submit_row_outcome r pls (w w1 : World X) o :
  world_inv (w_db w) (w_heap w) pls → db.row (db.row_key r) (w_db w) = Some r →
  db.unfinished (db.Status r) = true → submit_row r pls w = (o, w1) →
  match o with
  | Ret p => world_inv (w_db w1) (w_heap w1) p ∧ db_local (db.row_key r) (w_db w) (w_db w1)
  | Fail _ => False
  | Panic => True
  end.
Proof.
  intros Hinv Hr Hu Hrow. destruct w as [x d h mt lg]; simpl in *.
  exact (wp_run _ (λ o w, match o with
    | Ret p => world_inv (w_db w) (w_heap w) p ∧ db_local (db.row_key r) d (w_db w)
    | Fail _ => False | Panic => True end) _ _ _ Hrow
    (wp_submit_row r pls _ x d h mt lg Hinv Hr Hu (λ _ _ _ _ _ _ Hi Hl, conj Hi Hl) (λ _, I))).
Qed.

Lemma submit_rows_reach rows w' o : ∀ pls w,
  sys_inv (mkSystem w pls rows) → NoDup (map db.row_key rows) → current (w_db w) rows →
  submit_rows rows pls w = (o, w') →
  match o with
  | Ret pls' => reaches (mkSystem w pls rows) (mkSystem w' pls' [])
  | Fail _ => False
  | Panic => True
  end.
Proof.
  induction rows as [|r rows IH]; intros pls w [Hinv Hrows] Hnd Hcur Hrun; simpl in *.
  { injection Hrun as <- <-. apply rtc_refl. }
  apply Forall_cons in Hrows as [Hu Hrows].
  apply NoDup_cons in Hnd as [Hn Hnd].
  assert (db.row (db.row_key r) (w_db w) = Some r) as Hr by (apply Hcur; by left).
  unfold mbind, M_bind in Hrun.
  destruct (submit_row r pls w) as [o1 w1] eqn:Hrow.
  pose proof (submit_row_outcome r pls w w1 o1 Hinv Hr Hu Hrow) as Ho1.
  destruct o1 as [pls1|e|]; [|done|by injection Hrun as <- <-]. destruct Ho1 as [Hinv1 Hloc].
  assert (current (w_db w1) rows) as Hcur1.
  { intros r' Hr'. rewrite (local_row_ne (db.row_key r) _ (w_db w)); [|done|apply Hinv|].
    { apply Hcur. by right. }
    intros Heq. apply Hn. rewrite <- Heq. by apply list_elem_of_fmap_2. }
  specialize (IH pls1 w1 (conj Hinv1 Hrows) Hnd Hcur1 Hrun). destruct o as [pls'|e|]; try done.
  eapply rtc_l; [|exact IH].
  split_and!; [by apply step_submit|by left|by apply (inv_no_repeats (mkSystem w1 pls1 rows))].
Qed.

(** It reads the rows and submits one after the other. *)
Lemma tick_reaches (w w' : World X) pls pls' :
  sys_inv (mkSystem w pls []) → Run_tick pls w = (Ret pls', w') →
  reaches (mkSystem w pls []) (mkSystem w' pls' []).
Proof.
  intros Hinv. unfold Run_tick, SubmitWaitingUnfinishedTransfers, attempt, wrap, mbind, M_bind.
  destruct (query db.GetUnfinishedIBCV2Transfers w) as [[rows|e|] w1] eqn:Hq.
  - destruct (read_rows w w1 rows Hq) as (Hd & Hh & ->).
    destruct (unfinished_current 0 (w_db w) (wi_wf _ _ _ (proj1 Hinv))) as (rows & Heq & Hnd & Hcur & Hu).
    injection Heq as <-.
    assert (sys_inv (mkSystem w1 pls (filter (λ r, db.unfinished (db.Status r) = true)
      (db.ibcv2_transfers (w_db w))))) as Hinv1.
    { split; [simpl; rewrite Hd, Hh; apply Hinv|by apply Forall_forall]. }
    destruct (submit_rows _ pls w1) as [o w2] eqn:Hs.
    rewrite <- Hd in Hcur at 1.
    pose proof (submit_rows_reach _ _ _ _ _ Hinv1 Hnd Hcur Hs) as Ho.
    destruct o as [p|e|]; [|done..]. intros [= <- <-]. eapply rtc_l; [|exact Ho].
    split_and!; [by apply step_read|done|by apply inv_no_repeats].
  - destruct w as [x d h mt lg]. simpl in Hq. destruct (env_storage x) as [[e'|] x']; [|done].
    injection Hq as <- <-. simpl. intros [= <- <-]. apply rtc_once.
    split_and!; [apply step_outside|done|by apply (inv_no_repeats (mkSystem _ pls []))].
  - done.
Qed.
End dispatcher_inv.
