(* ===== verification/Finality.v ===== *)
(** * Finished rows

    A row in a final state ([COMPLETE_*] or [FAILED]) is never written again.
    Every write of a pipeline is about a live transfer in front of a stage,
    which is not finished ([pi_open]), and the dispatcher marks only rows that
    are not finished. The exception is a row that is stale when it is
    submitted; it is what [not_stale] excludes. *)
From stdpp Require Import prelude strings list gmap relations.
From Stdlib Require Import ZArith.
From S2P Require Import Prelude Go Config Db Transfer World Wp TransferMetrics Processors Laws.
From S2P Require Import ProcessorMW MWLaws Batch BatchLaws PipelineOpts Pipeline Dispatcher.
From S2P Require Import System SystemInv DispatcherInv.
Open Scope Z_scope.

(** The finished rows of [d] are rows of [d']. *)
Definition finished_kept (d d' : db.Database) : Prop :=
  ∀ k r, db.row k d = Some r → db.unfinished (db.Status r) = false → db.row k d' = Some r.

#[global] Instance finished_kept_preorder : PreOrder finished_kept.
Proof. split; [by intros d k r|]. intros d1 d2 d3 H12 H23 k r Hr Hu. eauto. Qed.

Lemma within_finished ks d d' :
  db_within ks d d' → db_wf d →
  (∀ k r, k ∈ ks → db.row k d = Some r → db.unfinished (db.Status r) = true) →
  finished_kept d d'.
Proof.
  intros Hw Hwf Hks k r Hr Hu. rewrite (within_row_ne ks k d d'); [done|done|done|].
  intros Hk. pose proof (Hks k r Hk Hr). congruence.
Qed.

(** The row of a live transfer that is not finished. *)
Lemma live_row_open d t r :
  attached d t → ProcessingError t = None → db.unfinished (State t) = true →
  db.row (update_key t) d = Some r → db.unfinished (db.Status r) = true.
Proof.
  intros (r' & Hr' & _ & Hs) He Hu Hr. rewrite He in Hs. simplify_eq.
  by rewrite <- (sync_State _ _ Hs).
Qed.

Section finality.
Context {X : Type} {E : Env X}.
Implicit Types (d : db.Database) (pls : gmap pipelineKey (Pipeline X)) (w : World X).

(** One transfer in front of a stage: if it carries an error the stage does
    nothing, and otherwise it writes to a row that is not finished. *)
Lemma pass_finished {A} (ret : A) w w' pls pk pl n b st l t ins1 ins2 o :
  world_inv (w_db w) (w_heap w) pls → pls !! pk = Some pl → pl_stages pl !! n = Some st →
  pl_inside pl = ins1 ++ (mkPosition n b, l) :: ins2 → w_heap w !! l = Some t →
  attached (w_db w) t →
  (IBCV2Transfer_Error t ≠ "" → w' = w) → pass_post ret l t (w_heap w) (w_db w) o w' →
  finished_kept (w_db w) (w_db w').
Proof.
  intros Hinv Hpl Hn Hins Ht Ha Hskip (Hloc & _).
  destruct (decide (IBCV2Transfer_Error t = "")) as [He|He]; [|by rewrite Hskip].
  apply (attached_live (w_db w)) in He; [|done].
  eapply within_finished; [done|apply Hinv|]. intros k r ->%list_elem_of_singleton.
  apply live_row_open; [done|done|]. by eapply inside_open.
Qed.

Lemma process_finished w w' pls pk pl n p l o ins1 ins2 :
  world_inv (w_db w) (w_heap w) pls → pls !! pk = Some pl →
  pl_stages pl !! n = Some (ProcessConcurrently p) →
  pl_inside pl = ins1 ++ (mkPosition n false, l) :: ins2 →
  IBCV2ProcessorMW_Process p (Some l) w = (o, w') → finished_kept (w_db w) (w_db w').
Proof.
  intros Hinv Hpl Hn Hins Hrun.
  destruct (member_heap _ _ _ _ _ _ Hinv Hpl (inside_elem _ _ _ _ _ Hins)) as (t & Ht & Ha).
  destruct (stage_at _ _ _ _ _ _ _ Hinv Hpl Hn) as [Hlaws].
  eapply (pass_finished (Some l)); try done.
  - intros He. rewrite (IBCV2ProcessorMW_Process_errored p l t w Ht He) in Hrun. congruence.
  - destruct w as [x d h mt lg]. exact (wp_run _ _ _ _ _ Hrun
      (IBCV2ProcessorMW_Process_post p l t x d h mt lg Ht (wi_wf _ _ _ Hinv) Ha)).
Qed.

Lemma cancel_rows p w w' pls pk pl n l e ins1 ins2 o :
  world_inv (w_db w) (w_heap w) pls → pls !! pk = Some pl →
  pl_stages pl !! n = Some (ProcessConcurrently p) →
  pl_inside pl = ins1 ++ (mkPosition n false, l) :: ins2 →
  IBCV2ProcessorMW_Process p (Some l) w = (o, w') →
  ∀ w'', IBCV2ProcessorMW_Cancel p (Some l) e w' = (Ret tt, w'') → w_db w'' = w_db w'.
Proof.
  intros Hinv Hpl Hn Hins Hrun w'' Hcan.
  destruct (member_heap _ _ _ _ _ _ Hinv Hpl (inside_elem _ _ _ _ _ Hins)) as (t & Ht & Ha).
  destruct (stage_at _ _ _ _ _ _ _ Hinv Hpl Hn) as [Hlaws]. destruct w as [x d h mt lg].
  destruct (wp_run _ _ _ _ _ Hrun
    (IBCV2ProcessorMW_Process_post p l t x d h mt lg Ht (wi_wf _ _ _ Hinv) Ha))
    as (_ & _ & t' & Hh & _).
  destruct w' as [x1 d1 h1 mt1 lg1]; simpl in *.
  by destruct (wp_run _ _ _ _ _ Hcan
    (law_cancel l t' e x1 d1 h1 mt1 lg1 ltac:(rewrite Hh; apply lookup_insert_eq))) as (-> & _).
Qed.

Lemma finish_finished w w' pls pk pl n f l o ins1 ins2 :
  world_inv (w_db w) (w_heap w) pls → pls !! pk = Some pl →
  pl_stages pl !! n = Some (FinishConcurrently f) →
  pl_inside pl = ins1 ++ (mkPosition n false, l) :: ins2 →
  StateFinisher_Process f l w = (o, w') → finished_kept (w_db w) (w_db w').
Proof.
  intros Hinv Hpl Hn Hins Hrun.
  destruct (member_heap _ _ _ _ _ _ Hinv Hpl (inside_elem _ _ _ _ _ Hins)) as (t & Ht & Ha).
  eapply (pass_finished l); try done.
  - intros He. rewrite (StateFinisher_Process_errored f l t w Ht He) in Hrun. congruence.
  - destruct w as [x d h mt lg]. exact (wp_run _ _ _ _ _ Hrun
      (StateFinisher_Process_post f l t x d h mt lg Ht (wi_wf _ _ _ Hinv) Ha)).
Qed.

(** A batch writes to the rows of its live transfers. *)
Lemma batch_finished w w' pls pk pl n c s tm p ls o rest :
  world_inv (w_db w) (w_heap w) pls → pls !! pk = Some pl →
  pl_stages pl !! n = Some (ConditionallyBatchProcess c s tm p) →
  pl_inside pl ≡ₚ map (λ l, (mkPosition n true, l)) ls ++ rest →
  IBCV2BatchProcessorMW_Process p ls w = (o, w') →
  finished_kept (w_db w) (w_db w') ∧ ∀ l, l ∈ ls → is_Some (w_heap w' !! l).
Proof.
  intros Hinv Hpl Hn Hins Hrun.
  assert (ls ⊆ locs pl) as Hls by (rewrite (batch_locs _ _ _ _ Hins); set_solver).
  destruct (stage_at _ _ _ _ _ _ _ Hinv Hpl Hn) as [Hlaws].
  destruct w as [x d h mt lg]; simpl in *.
  pose proof (world_batch_inv _ _ _ _ _ _ Hinv Hpl Hls) as Hb.
  destruct (wp_run _ _ _ _ _ Hrun (IBCV2BatchProcessorMW_Process_post p ls x d h mt lg Hb))
    as (Hd & Hh & _).
  split.
  - eapply within_finished; [done|apply Hinv|].
    intros k r (l & t & Hl & Ht & He & <-)%live_keys_elem.
    destruct (inv_attached _ _ _ Hb l Hl) as (t2 & Ht2 & Ha). simplify_eq.
    apply live_row_open; [done|done|]. by apply (batch_open d h h pls pk pl n true
      (ConditionallyBatchProcess c s tm p) ls rest l).
  - intros l Hl. destruct (inv_dom _ _ _ l Hb Hl) as [t Ht].
    destruct (pass_in _ _ _ Hh l t Ht) as (t' & ? & _). eauto.
Qed.

Lemma submit_finished w w' pls pls' r rows :
  sys_inv (mkSystem w pls (r :: rows)) → not_stale (mkSystem w pls (r :: rows)) →
  submit_row r pls w = (Ret pls', w') → finished_kept (w_db w) (w_db w').
Proof.
  intros [Hinv [Hu _]%Forall_cons] [Hr|Hin] Hrun; simpl in *.
  - destruct (submit_row_outcome r pls w w' (Ret pls') Hinv Hr Hu Hrun) as [_ Hloc].
    eapply within_finished; [done|apply Hinv|]. intros k r' ->%list_elem_of_singleton. congruence.
  - destruct w as [x d h mt lg]; simpl in *.
    apply (wp_run _ (λ o w, is_Ret o = true → finished_kept d (w_db w)) _ _ _ Hrun); [|done].
    by apply wp_submit_row_known.
Qed.

(** No step writes to a finished row. *)
Lemma step_finished (s s' : System X) :
  step s s' → not_stale s → sys_inv s →
  finished_kept (w_db (sys_world s)) (w_db (sys_world s')).
Proof.
  intros Hstep Hfresh Hinv.
  destruct Hstep as [w w' pls rows Hq|w w' pls pls' r rows Hsub|x x' d h mt mt' lg lg' pls rows|
    x d h mt lg pls rows|x d h mt lg pls rows c tx now|x d h mt lg pls rows arg now|
    w w' pls rows pk pl n p l out ins1 ins2 Hpl Hn Hins Hrun|
    w w' w'' pls rows pk pl n p l e ins1 ins2 Hpl Hn Hins Hrun Hcan|
    w w' pls rows pk pl n c s t p l b ins1 ins2 Hpl Hn Hins Hrun|
    w w' pls rows pk pl n c s t p ls out rest Hpl Hn Hins Hrun|
    w w' w'' pls rows pk pl n c s t p ls e rest Hpl Hn Hins Hrun Hcan|
    w w' pls rows pk pl n f l out ins1 ins2 Hpl Hn Hins Hrun|]; simpl in *; try done.
  - by destruct (read_rows w w' rows Hq) as (-> & _).
  - by eapply submit_finished.
  - intros k r Hr _. by rewrite submission_row.
  - intros k r Hr _. by apply db.InsertIBCV2Transfer_row_other.
  - destruct Hinv as [Hinv _]. by eapply process_finished.
  - destruct Hinv as [Hinv _].
    rewrite (cancel_rows p w w' pls pk pl n l e ins1 ins2 _ Hinv Hpl Hn Hins Hrun w'' Hcan).
    by eapply process_finished.
  - destruct Hinv as [Hinv _].
    destruct (member_heap _ _ _ _ _ _ Hinv Hpl (inside_elem _ _ _ _ _ Hins)) as (u & Hu & _).
    destruct (stage_at _ _ _ _ _ _ _ Hinv Hpl Hn) as [Hlaws]. destruct w as [x d h mt lg].
    by destruct (wp_run _ _ _ _ _ Hrun (goes_to_batch_unchanged p l u x d h mt lg Hu)) as (-> & _).
  - destruct Hinv as [Hinv _]. by eapply batch_finished.
  - destruct Hinv as [Hinv _].
    destruct (batch_finished _ _ _ _ _ _ _ _ _ _ _ _ _ Hinv Hpl Hn Hins Hrun) as [Hk Hdom].
    destruct (stage_at _ _ _ _ _ _ _ Hinv Hpl Hn) as [Hlaws].
    destruct w' as [x1 d1 h1 mt1 lg1]; simpl in *.
    by destruct (wp_run _ _ _ _ _ Hcan (law_bcancel ls e x1 d1 h1 mt1 lg1 Hdom)) as (-> & _).
  - destruct Hinv as [Hinv _]. by eapply finish_finished.
Qed.

Lemma reaches_finished (s s' : System X) :
  sys_inv s → reaches s s' → finished_kept (w_db (sys_world s)) (w_db (sys_world s')).
Proof.
  intros Hinv Hr. induction Hr as [|a b c (Hstep & Hfresh & Hnr) _ IH]; [done|].
  etrans; [by apply step_finished|]. apply IH. eapply step_inv; eauto.
Qed.
End finality.
