(* ===== verification/Run.v ===== *)
(** * Running the system

    An executable scheduler for the step relation of [System.v]: an action
    names which step is taken, [run_action] takes it, and every action it takes
    is a step. Concrete runs are evaluated with it. *)
From stdpp Require Import prelude strings list gmap relations.
From Stdlib Require Import ZArith.
From S2P Require Import Prelude Go Config Db Transfer World Wp TransferMetrics Processors Laws.
From S2P Require Import ProcessorMW MWLaws Batch BatchLaws PipelineOpts Pipeline Dispatcher.
From S2P Require Import System SystemInv DispatcherInv.
Open Scope Z_scope.

(** The dispatcher reads the rows or submits the next one; the [i]th transfer
    inside a pipeline is taken by the stage it waits for, or leaves; everything
    collected for the batch of stage [n] is processed. *)
Inductive action :=
  | Read
  | Submit
  | Advance (pk : pipelineKey) (i : nat)
  | Deliver (pk : pipelineKey) (n : nat).

Section run.
Context {X : Type} {E : Env X}.

(** The transfer at [i] has moved to [pos]. *)
Definition moved (pl : Pipeline X) (i : nat) (pos : position) (l : loc) : Pipeline X :=
  with_inside pl (take i (pl_inside pl) ++ (pos, l) :: drop (S i) (pl_inside pl)).

Definition advance (w : World X) (pl : Pipeline X) (i n : nat) (l : loc)
    : option (World X * Pipeline X) :=
  match pl_stages pl !! n with
  | Some (ProcessConcurrently p) =>
      match IBCV2ProcessorMW_Process p (Some l) w with
      | (Ret (Some out), w') => Some (w', moved pl i (mkPosition (S n) false) out)
      | _ => None
      end
  | Some (ConditionallyBatchProcess _ _ _ p) =>
      match goes_to_batch p l w with
      | (Ret b, w') =>
          Some (w', moved pl i (if b then mkPosition n true else mkPosition (S n) false) l)
      | _ => None
      end
  | Some (FinishConcurrently f) =>
      match StateFinisher_Process f l w with
      | (Ret out, w') => Some (w', moved pl i (mkPosition (S n) false) out)
      | _ => None
      end
  | None =>
      t ← w_heap w !! l;
      if decide (n = length (pl_stages pl)) then
        Some (w, PipelineDeduper_output t
                   (with_inside pl (take i (pl_inside pl) ++ drop (S i) (pl_inside pl))))
      else None
  end.

(** The transfers collected for the batch of stage [n], and the others. *)
Definition collected (pl : Pipeline X) (n : nat) : list loc :=
  map snd (filter (λ e, e.1 = mkPosition n true) (pl_inside pl)).

Definition others (pl : Pipeline X) (n : nat) : list (position * loc) :=
  filter (λ e, ¬ (e.1 = mkPosition n true)) (pl_inside pl).

Definition deliver (w : World X) (pl : Pipeline X) (n : nat) : option (World X * Pipeline X) :=
  match pl_stages pl !! n with
  | Some (ConditionallyBatchProcess _ _ _ p) =>
      match Batch_Process (NewIBCV2BatchProcessorMW p) (collected pl n) w with
      | (Ret out, w') =>
          Some (w', with_inside pl
                      (others pl n ++ map (λ l, (mkPosition (S n) false, l)) out))
      | _ => None
      end
  | _ => None
  end.

Definition run_action (a : action) (s : System X) : option (System X) :=
  let 'mkSystem w pls rows := s in
  match a with
  | Read =>
      match rows, query db.GetUnfinishedIBCV2Transfers w with
      | [], (Ret rows', w') => Some (mkSystem w' pls rows')
      | _, _ => None
      end
  | Submit =>
      match rows with
      | r :: rows' =>
          match submit_row r pls w with
          | (Ret pls', w') => Some (mkSystem w' pls' rows')
          | _ => None
          end
      | [] => None
      end
  | Advance pk i =>
      pl ← pls !! pk;
      e ← pl_inside pl !! i;
      if pos_batch e.1 then None
      else
        res ← advance w pl i (pos_stage e.1) e.2;
        Some (mkSystem res.1 (<[pk := res.2]> pls) rows)
  | Deliver pk n =>
      pl ← pls !! pk;
      res ← deliver w pl n;
      Some (mkSystem res.1 (<[pk := res.2]> pls) rows)
  end.

Fixpoint run (actions : list action) (s : System X) : option (System X) :=
  match actions with
  | [] => Some s
  | a :: actions' => s' ← run_action a s; run actions' s'
  end.

(** ** Every run is a run of the system *)

Lemma batch_split (inside : list (position * loc)) pos :
  inside ≡ₚ map (λ l, (pos, l)) (map snd (filter (λ e, e.1 = pos) inside)) ++
            filter (λ e, ¬ (e.1 = pos)) inside.
Proof.
  induction inside as [|[pos' l] inside IH]; [done|]. rewrite !filter_cons. simpl.
  destruct (decide (pos' = pos)) as [->|Hne].
  - rewrite decide_False by auto. simpl. by rewrite <- IH.
  - rewrite decide_True by done. rewrite <- Permutation_middle. by rewrite <- IH.
Qed.

Lemma advance_step w pls rows pk pl i n l w' pl' :
  pls !! pk = Some pl → pl_inside pl !! i = Some (mkPosition n false, l) →
  advance w pl i n l = Some (w', pl') →
  step (mkSystem w pls rows) (mkSystem w' (<[pk := pl']> pls) rows).
Proof.
  intros Hpl Hi. pose proof (take_drop_middle _ _ _ Hi) as Hins. symmetry in Hins.
  unfold advance, moved. destruct (pl_stages pl !! n) as [[p|c s tm p|f]|] eqn:Hn.
  - destruct (IBCV2ProcessorMW_Process p (Some l) w) as [[[out|]|?|] w1] eqn:Hrun; try done.
    intros [= <- <-]. by eapply step_process.
  - destruct (goes_to_batch p l w) as [[b|?|] w1] eqn:Hrun; try done.
    intros [= <- <-]. by eapply step_route.
  - destruct (StateFinisher_Process f l w) as [[out|?|] w1] eqn:Hrun; try done.
    intros [= <- <-]. by eapply step_finish.
  - destruct (w_heap w !! l) as [t|] eqn:Ht; simpl; [|done]. case_decide; [|done]. subst n.
    intros [= <- <-]. by eapply step_output.
Qed.

Lemma run_action_step a (s s' : System X) : run_action a s = Some s' → step s s'.
Proof.
  destruct s as [w pls rows]. destruct a as [| |pk i|pk n]; simpl.
  - destruct rows; [|done]. destruct (query _ w) as [[rows'|?|] w'] eqn:Hq; try done.
    intros [= <-]. by apply step_read.
  - destruct rows as [|r rows]; [done|].
    destruct (submit_row r pls w) as [[pls'|?|] w'] eqn:Hs; try done.
    intros [= <-]. by apply step_submit.
  - destruct (pls !! pk) as [pl|] eqn:Hpl; simpl; [|done].
    destruct (pl_inside pl !! i) as [[[n []] l]|] eqn:Hi; simpl; [done| |done].
    destruct (advance w pl i n l) as [[w' pl']|] eqn:Ha; simpl; [|done].
    intros [= <-]. by eapply advance_step.
  - destruct (pls !! pk) as [pl|] eqn:Hpl; simpl; [|done]. unfold deliver.
    destruct (pl_stages pl !! n) as [[p|c s tm p|f]|] eqn:Hn; simpl; try done.
    destruct (IBCV2BatchProcessorMW_Process p (collected pl n) w) as [[out|?|] w'] eqn:Hrun; simpl; try done.
    intros [= <-]. eapply step_batch; [done|done|apply batch_split|exact Hrun].
Qed.

Lemma run_steps actions (s s' : System X) : run actions s = Some s' → rtc step s s'.
Proof.
  revert s. induction actions as [|a actions IH]; simpl; intros s; [intros [= ->]; apply rtc_refl|].
  destruct (run_action a s) as [s1|] eqn:Ha; simpl; [|done].
  intros Hrun. eapply rtc_l; [by eapply run_action_step|by apply IH].
Qed.

(** Between ticks no row waits, so that none is stale. *)
Definition no_tick (a : action) : bool := match a with Read | Submit => false | _ => true end.

Lemma run_action_waiting a (s s' : System X) :
  run_action a s = Some s' → no_tick a = true → sys_waiting s' = sys_waiting s.
Proof.
  destruct s as [w pls rows]. destruct a as [| |pk i|pk n]; simpl; try done;
    (destruct (pls !! pk) as [pl|]; simpl; [|done]).
  - destruct (pl_inside pl !! i) as [[[n []] l]|]; simpl; try done.
    destruct (advance w pl i n l); simpl; [|done]. by intros [= <-].
  - destruct (deliver w pl n); simpl; [|done]. by intros [= <-].
Qed.

Lemma run_reaches actions (s s' : System X) :
  run actions s = Some s' → forallb no_tick actions = true → sys_waiting s = [] →
  healthy → sys_inv s → reaches s s'.
Proof.
  intros Hrun Hno Hw Hh Hinv. apply healthy_reaches; [done|done|].
  revert s Hrun Hw Hinv. induction actions as [|a actions IH]; simpl in *; intros s Hrun Hw Hinv.
  { injection Hrun as <-. apply rtc_refl. }
  apply andb_true_iff in Hno as [Ha Hno].
  destruct (run_action a s) as [s1|] eqn:Hs1; simpl in Hrun; [|done].
  assert (not_stale s) as Hns by (unfold not_stale; by rewrite Hw).
  pose proof (run_action_step _ _ _ Hs1) as Hstep.
  eapply rtc_l; [by split|]. apply IH; [done|done| |].
  - by rewrite (run_action_waiting a s s1).
  - eapply step_inv; eauto.
Qed.
End run.
