(* ===== verification/ServiceLaws.v ===== *)
(** * What the relayer API guarantees

    [Relay] only ever adds rows, one per packet with a known destination, each
    in the state [PENDING] the dispatcher picks up; [Status] reports the rows
    of a transaction. A call of [Relay] is a sequence of steps of the system of
    [System.v]. *)
From stdpp Require Import prelude strings list gmap relations.
From Stdlib Require Import ZArith.
From S2P Require Import Prelude Go Config Db Transfer World Wp TransferMetrics Laws MWLaws.
From S2P Require Import Pipeline System SystemInv DispatcherInv Service.
Open Scope Z_scope.

Section service_laws.
Context {X : Type} {E : Env X}.
Implicit Types (d : db.Database) (request : TxRequest) (packet : PacketInfo).

(** [UNIQUE] violations are reported by statements, not by the connection. *)
Definition storage_not_duplicate : Prop :=
  ∀ (x : X) e, (env_storage x).1 = Some e → is_duplicate_key e = false.

Lemma healthy_not_duplicate : healthy → storage_not_duplicate.
Proof. intros Hh x e. by rewrite Hh. Qed.

(** ** What a call adds *)

(** The key of the row for a packet of the requested transaction. *)
Definition packet_row_key (request : TxRequest) (packet : PacketInfo) : db.packet_key :=
  db.mkPacketKey (GetChainId request) (SourceClient packet) (int32 (Sequence packet)).

Definition destination (request : TxRequest) (packet : PacketInfo) : outcome string :=
  config.GetClientCounterpartyChainID env_config (GetChainId request) (SourceClient packet).

(** [r] is the row for a packet that has just been taken in. *)
Definition fresh_row (request : TxRequest) (r : db.Ibcv2Transfer) : Prop :=
  ∃ packet dest id now, destination request packet = Ret dest ∧
    r = db.new_row id now (packet_insert request dest packet).

(** From [d] to [d'] rows for packets of the request were added, and nothing
    else changed in the table. *)
Record grows (request : TxRequest) (d d' : db.Database) : Prop := {
  grows_keeps : ∀ k r, db.row k d = Some r → db.row k d' = Some r;
  grows_adds : ∀ k r, db.row k d' = Some r → db.row k d = Some r ∨ fresh_row request r;
}.

#[global] Instance grows_preorder request : PreOrder (grows request).
Proof.
  split; [by split; auto|]. intros d1 d2 d3 [H1 H2] [H3 H4]. split; [auto|].
  intros k r [Hr| ]%H4; [by apply H2|by right].
Qed.

Lemma insert_grows request packet dest now d :
  destination request packet = Ret dest →
  grows request d (db.InsertIBCV2Transfer (packet_insert request dest packet) now d).2.
Proof.
  intros Hd. split; [intros; by apply db.InsertIBCV2Transfer_row_other|].
  intros k r. rewrite db.InsertIBCV2Transfer_row.
  destruct (db.row k d); [by left|]. case_decide; [|done]. intros [= <-]. right. by eexists _, _, _, _.
Qed.

Lemma submission_grows request c hash now d :
  grows request d (db.InsertRelaySubmission c hash now d).2.
Proof. split; intros k r; rewrite submission_row; auto. Qed.

(** The statements of a call of [Relay]. *)
Inductive api_step (request : TxRequest) : relation db.Database :=
  | api_submission now d :
      api_step request d
        (db.InsertRelaySubmission (GetChainId request) (GetTxHash request) now d).2
  | api_insert packet dest now d :
      destination request packet = Ret dest →
      api_step request d (db.InsertIBCV2Transfer (packet_insert request dest packet) now d).2.

Lemma api_steps_grow request d d' : rtc (api_step request) d d' → grows request d d'.
Proof.
  induction 1 as [|d1 d2 d3 Hs _ IH]; [done|]. etrans; [|done].
  destruct Hs; [apply submission_grows|by apply insert_grows].
Qed.

(** What a call of the service may do to the world, from heap [h] and tables
    [d]. *)
Definition adds (request : TxRequest) (d : db.Database) (h : gmap loc IBCV2Transfer)
    (w : World X) : Prop :=
  w_heap w = h ∧ rtc (api_step request) d (w_db w).

Lemma adds_refl request x d h mt lg : adds request d h (mkWorld x d h mt lg).
Proof. by split. Qed.

Hint Resolve adds_refl : core.

Lemma relay_packet_adds request packet x d h mt lg :
  wp (relay_packet request packet) (λ _ w, adds request d h w) (mkWorld x d h mt lg).
Proof.
  unfold relay_packet. destruct (config.GetClientCounterpartyChainID _ _ _) as [dest| |] eqn:Hd;
    [|wp_run; auto..].
  wp_step. apply wp_attempt, wp_query; [intros; wp_run; auto|]. intros now x'.
  pose proof (api_insert request packet dest now d Hd) as Hg.
  destruct (db.InsertIBCV2Transfer _ now d) as [o d']; simpl in *.
  destruct o; simpl; wp_run; (split; [done|by apply rtc_once]).
Qed.

Lemma relay_packets_adds request packets x d h mt lg :
  wp (forM packets (relay_packet request)) (λ _ w, adds request d h w) (mkWorld x d h mt lg).
Proof.
  apply wp_forM_keep; [|auto]. intros packet [x1 d1 h1 mt1 lg1] _ [Hh Hg].
  eapply wp_mono; [|apply relay_packet_adds]. simpl in *. intros _ w' [Hh' Hg'].
  split; [congruence|]. by etrans.
Qed.

Lemma relay_submitted_adds request x d h mt lg :
  wp (relay_submitted request) (λ _ w, adds request d h w) (mkWorld x d h mt lg).
Proof.
  unfold relay_submitted, check_sender, count_request. wp_auto; try auto.
  all: eapply wp_mono; [|apply relay_packets_adds];
    intros [] [] [??]; simpl in *; wp_auto; by split.
Qed.

Lemma Relay_adds request x d h mt lg :
  wp (RelayerAPIService_Relay request) (λ _ w, adds request d h w) (mkWorld x d h mt lg).
Proof.
  unfold RelayerAPIService_Relay, count_request.
  wp_step; [wp_auto; auto|]. do 2 wp_step. wp_step. wp_step.
  apply wp_attempt, wp_query; [intros; wp_auto; auto|]. intros now x'.
  pose proof (api_submission request now d) as Hg.
  destruct (db.InsertRelaySubmission _ _ now d) as [o d'] eqn:Hi; simpl in *.
  destruct o; simpl; [|wp_auto; (split; [done|by apply rtc_once])..].
  eapply wp_mono; [|apply relay_submitted_adds]. intros _ w' [Hh Hg']. simpl in *.
  split; [done|]. by eapply rtc_l.
Qed.

(** ** A call as steps of the system *)

Lemma api_step_fresh request d d' x h mt lg (pls : gmap pipelineKey (Pipeline X)) rows :
  api_step request d d' → not_stale (mkSystem (mkWorld x d h mt lg) pls rows) →
  not_stale (mkSystem (mkWorld x d' h mt lg) pls rows).
Proof.
  unfold not_stale. destruct rows as [|r rows]; simpl; [done|].
  intros Hs [Hr|Hin]; [left|by right].
  destruct Hs; [by rewrite submission_row|by apply db.InsertIBCV2Transfer_row_other].
Qed.

Lemma api_steps_reach request d d' x h mt lg (pls : gmap pipelineKey (Pipeline X)) rows :
  GetChainId request ≠ "" → no_repeats (mkSystem (mkWorld x d h mt lg) pls rows) →
  not_stale (mkSystem (mkWorld x d h mt lg) pls rows) → rtc (api_step request) d d' →
  reaches (mkSystem (mkWorld x d h mt lg) pls rows) (mkSystem (mkWorld x d' h mt lg) pls rows).
Proof.
  intros Hc Hnr Hfr Hs. induction Hs as [|d1 d2 d3 Hs _ IH]; [constructor|].
  eapply rtc_l; [|by apply IH; [|eapply api_step_fresh]]. split; [|done].
  destruct Hs; [apply step_submission|].
  apply step_insert; simpl; [apply int32_range|]. by intros [= ? _ _].
Qed.

Lemma incomplete_chain request : incomplete request = false → GetChainId request ≠ "".
Proof. unfold incomplete. rewrite orb_false_iff, !bool_decide_eq_false. by intros [_ ?]. Qed.

Lemma adds_reach request x d h mt lg w pls rows :
  incomplete request = false → no_repeats (mkSystem (mkWorld x d h mt lg) pls rows) →
  not_stale (mkSystem (mkWorld x d h mt lg) pls rows) → adds request d h w →
  reaches (mkSystem (mkWorld x d h mt lg) pls rows) (mkSystem w pls rows).
Proof.
  intros Hi Hnr Hfr [Hh Hs]. destruct w as [x' d' h' mt' lg']; simpl in *. subst h'.
  apply (rtc_l _ _ (mkSystem (mkWorld x' d h mt' lg') pls rows));
    [split; [apply step_outside|done]|].
  eapply api_steps_reach; [by apply incomplete_chain|done|done|done].
Qed.

(** ** The packets of a relayed transaction are tracked *)

Lemma counterparty_no_panic r c id : config.GetClientCounterpartyChainID r c id ≠ Panic.
Proof.
  unfold config.GetClientCounterpartyChainID, config.GetChainConfig. by repeat split_match.
Qed.

Definition tracked request packet d : Prop :=
  ∀ dest, destination request packet = Ret dest →
    is_Some (db.row (packet_row_key request packet) d).

Lemma tracked_grows request packet d d' :
  grows request d d' → tracked request packet d → tracked request packet d'.
Proof.
  intros Hg Ht dest Hd. destruct (Ht dest Hd) as [r Hr]. exists r.
  by eapply grows_keeps.
Qed.

Lemma insert_tracked request packet dest now d :
  is_Some (db.row (packet_row_key request packet)
    (db.InsertIBCV2Transfer (packet_insert request dest packet) now d).2).
Proof.
  rewrite db.InsertIBCV2Transfer_row. destruct (db.row _ d); [done|].
  rewrite decide_True; done.
Qed.

Lemma insert_outcome arg now d :
  (db.InsertIBCV2Transfer arg now d).1 = Ret tt ∨
  (db.InsertIBCV2Transfer arg now d).1 = Fail db.unique_violation.
Proof. unfold db.InsertIBCV2Transfer. destruct (db.row _ _); auto. Qed.

Lemma relay_packet_tracked request packet x d h mt lg :
  storage_not_duplicate →
  wp (relay_packet request packet)
    (λ o w, (o = Ret tt → tracked request packet (w_db w)) ∧ (healthy → o = Ret tt))
    (mkWorld x d h mt lg).
Proof.
  intros Hdup. unfold relay_packet. pose proof (counterparty_no_panic env_config
    (GetChainId request) (SourceClient packet)) as Hnp.
  destruct (config.GetClientCounterpartyChainID _ _ _) as [dest|e|] eqn:Hd; [| |done].
  2:{ wp_auto. split; [|done]. intros _ dest. unfold destination. by rewrite Hd. }
  apply wp_bind, wp_attempt. unfold wp at 1. simpl.
  specialize (Hdup x). destruct (env_storage x) as [[e|] x'] eqn:Hx; simpl in *.
  - rewrite (Hdup e eq_refl). unfold count_request. wp_auto. split; [done|].
    intros Hh. specialize (Hh x). by rewrite Hx in Hh.
  - pose proof (insert_tracked request packet dest (env_NOW x') d) as Ht.
    pose proof (insert_outcome (packet_insert request dest packet) (env_NOW x') d) as Ho.
    destruct (db.InsertIBCV2Transfer _ _ d) as [o d']; simpl in *.
    destruct Ho as [-> | ->]; simpl;
      change (is_duplicate_key db.unique_violation) with true; wp_auto; simpl;
      (split; [by intros _ ? _|done]).
Qed.

Lemma relay_packets_tracked request packets : ∀ x d h mt lg,
  storage_not_duplicate →
  wp (forM packets (relay_packet request))
    (λ o w, (o = Ret tt → ∀ packet, packet ∈ packets → tracked request packet (w_db w)) ∧
            (healthy → o = Ret tt))
    (mkWorld x d h mt lg).
Proof.
  induction packets as [|packet packets IH]; intros x d h mt lg Hdup; simpl.
  { apply wp_ret. split; [|done]. by intros _ ? ?%elem_of_nil. }
  apply wp_bind. eapply wp_mono; [|by apply relay_packet_tracked].
  intros [[]|e|] [x1 d1 h1 mt1 lg1] [Ht Hh]; simpl in *; [|split; [done|by intros ?%Hh]..].
  eapply wp_mono; [|apply wp_and; [by apply IH|apply relay_packets_adds]].
  intros o w [[Hall Hok] [_ Hg]]. split; [|done].
  intros -> p [->|Hp]%elem_of_cons; [|by apply Hall].
  eapply tracked_grows; [by apply api_steps_grow|by apply Ht].
Qed.

(** ** The rows of the packets *)

(** [r] is the row of a packet that has been taken in and not been worked on. *)
Record packet_row (request : TxRequest) (dest : string) (packet : PacketInfo)
    (r : db.Ibcv2Transfer) : Prop := {
  pr_source : db.SourceChainID r = GetChainId request;
  pr_destination : db.DestinationChainID r = dest;
  pr_tx : db.SourceTxHash r = GetTxHash request;
  pr_time : db.SourceTxTime r = Some (PacketInfo_Timestamp packet);
  pr_sequence : db.PacketSequenceNumber r = int32 (Sequence packet);
  pr_source_client : db.PacketSourceClientID r = SourceClient packet;
  pr_destination_client : db.PacketDestinationClientID r = DestinationClient packet;
  pr_timeout : db.PacketTimeoutTimestamp r = Some (TimeoutTimestamp packet);
  pr_status : db.Status r = db.Ibcv2RelayStatusPENDING;
  pr_unworked : db.RecvTxHash r = None ∧ db.AckTxHash r = None ∧ db.TimeoutTxHash r = None ∧
    db.WriteAckTxHash r = None ∧ db.WriteAckStatus r = None;
}.

(** The first packet of the list whose row would have the key of [packet]. *)
Definition first_with request (packets : list PacketInfo) packet first : Prop :=
  ∃ before after, packets = before ++ first :: after ∧
    packet_row_key request first = packet_row_key request packet ∧
    ∀ p, p ∈ before → packet_row_key request p ≠ packet_row_key request packet.

(** The rows for [packets] after they were taken in: one that was there before
    is as it was; one that was not has the fields of its packet, or of the
    first of the packets with its key. *)
Definition taken_in request (packets : list PacketInfo) d d' : Prop :=
  ∀ packet dest, packet ∈ packets → destination request packet = Ret dest →
  ∃ r, db.row (packet_row_key request packet) d' = Some r ∧
    match db.row (packet_row_key request packet) d with
    | Some r0 => r = r0
    | None => ∃ first, first_with request packets packet first ∧ packet_row request dest first r
    end.

(** One packet. *)
Definition takes request packet d d' : Prop :=
  (∀ k, k ≠ packet_row_key request packet → db.row k d' = db.row k d) ∧
  ∀ dest, destination request packet = Ret dest →
  ∃ r, db.row (packet_row_key request packet) d' = Some r ∧
    match db.row (packet_row_key request packet) d with
    | Some r0 => r = r0
    | None => packet_row request dest packet r
    end.

Lemma insert_takes request packet dest now d :
  destination request packet = Ret dest →
  takes request packet d (db.InsertIBCV2Transfer (packet_insert request dest packet) now d).2.
Proof.
  intros Hd. split.
  - intros k Hk. rewrite db.InsertIBCV2Transfer_row. destruct (db.row k d); [done|].
    by rewrite decide_False by (by intros <-).
  - intros dest'. rewrite Hd, db.InsertIBCV2Transfer_row. intros [= <-].
    destruct (db.row _ d) as [r0|]; [by eexists|]. rewrite decide_True by done.
    eexists. split; [done|]. by split.
Qed.

Lemma relay_packet_takes request packet x d h mt lg :
  storage_not_duplicate →
  wp (relay_packet request packet) (λ o w, o = Ret tt → takes request packet d (w_db w))
    (mkWorld x d h mt lg).
Proof.
  intros Hdup. unfold relay_packet.
  destruct (config.GetClientCounterpartyChainID _ _ _) as [dest|e|] eqn:Hd; [| |by wp_auto].
  2:{ wp_auto. intros _. split; [done|]. intros dest. unfold destination. by rewrite Hd. }
  apply wp_bind, wp_attempt. unfold wp at 1. simpl.
  specialize (Hdup x). destruct (env_storage x) as [[e|] x'] eqn:Hx; simpl in *.
  - rewrite (Hdup e eq_refl). unfold count_request. by wp_auto.
  - pose proof (insert_takes request packet dest (env_NOW x') d Hd) as Ht.
    pose proof (insert_outcome (packet_insert request dest packet) (env_NOW x') d) as Ho.
    destruct (db.InsertIBCV2Transfer _ _ d) as [o d']; simpl in *.
    destruct Ho as [-> | ->]; simpl;
      change (is_duplicate_key db.unique_violation) with true; by wp_auto.
Qed.

Lemma destination_key request p q :
  packet_row_key request p = packet_row_key request q → destination request p = destination request q.
Proof. intros [= Hc _]. unfold destination. by rewrite Hc. Qed.

Lemma taken_in_cons request packet packets d d1 d2 :
  takes request packet d d1 → grows request d1 d2 → taken_in request packets d1 d2 →
  taken_in request (packet :: packets) d d2.
Proof.
  intros [Hother Hone] Hg Hrest p dest Hp Hd.
  destruct (decide (packet_row_key request p = packet_row_key request packet)) as [Heq|Hne].
  - rewrite (destination_key _ _ _ Heq) in Hd. destruct (Hone dest Hd) as (r & Hr & Hf).
    rewrite Heq. exists r. split; [by eapply grows_keeps|]. revert Hf.
    destruct (db.row (packet_row_key request packet) d); intros Hf; [done|]. exists packet.
    split; [|done]. exists [], packets. split_and!; [done|done|by intros ? ?%elem_of_nil].
  - apply elem_of_cons in Hp as [-> |Hp]; [done|].
    destruct (Hrest p dest Hp Hd) as (r & Hr & Hf). exists r. split; [done|].
    rewrite (Hother _ Hne) in Hf. revert Hf.
    destruct (db.row (packet_row_key request p) d); intros Hf; [done|].
    destruct Hf as (first & (before & after & -> & Hk & Hb) & Hf). exists first. split; [|done].
    exists (packet :: before), after. split_and!; [done|done|].
    intros q [-> |Hq]%elem_of_cons; [congruence|by apply Hb].
Qed.

Lemma relay_packets_taken request packets : ∀ x d h mt lg,
  storage_not_duplicate →
  wp (forM packets (relay_packet request))
    (λ o w, o = Ret tt → taken_in request packets d (w_db w)) (mkWorld x d h mt lg).
Proof.
  induction packets as [|packet packets IH]; intros x d h mt lg Hdup; simpl.
  { apply wp_ret. by intros _ ? ? ?%elem_of_nil. }
  apply wp_bind. eapply wp_mono; [|by apply relay_packet_takes].
  intros [[]|e|] [x1 d1 h1 mt1 lg1] Ht; simpl in *; [|by intros ?..].
  eapply wp_mono; [|apply wp_and; [by apply IH|apply relay_packets_adds]].
  intros o w [Hall [_ Hg]] ->. eapply taken_in_cons; [by apply Ht|by apply api_steps_grow|by apply Hall].
Qed.

(** [client] reports the packets [packets] for the transaction, and accepts
    its sender. *)
Record serves (client : BridgeClient X) (request : TxRequest) (packets : list PacketInfo)
    : Prop := {
  serves_client : env_clients !! GetChainId request = Some client;
  serves_sender : client_ChainType client = config.ChainType_EVM →
    ∀ x, ∃ sender x', GetTransactionSender client (GetTxHash request) x = (Ret sender, x') ∧
      ToLower sender ∉ utils.OFACAddressMap;
  serves_packets : ∀ x, ∃ x',
    SendPacketsFromTx client (GetChainId request) (GetTxHash request) x = (Ret packets, x');
}.

Lemma wp_check_sender client request packets Q x d h mt lg :
  serves client request packets → (∀ x', Q (Ret tt) (mkWorld x' d h mt lg)) →
  wp (check_sender client request) Q (mkWorld x d h mt lg).
Proof.
  intros Hs HQ. unfold check_sender. case_bool_decide as Ht; [|apply wp_ret, HQ].
  destruct (serves_sender _ _ _ Hs Ht x) as (sender & x' & Hx & Hn).
  apply wp_bind, wp_wrap, wp_ext. intros o x1. rewrite Hx. intros [= <- <-]. simpl.
  rewrite bool_decide_eq_false_2 by done. apply wp_ret, HQ.
Qed.

(** The tail of [Relay], for a client that serves the request. *)
Lemma wp_relay_submitted client request packets Q x d h mt lg :
  serves client request packets →
  (∀ x lg, wp (forM packets (relay_packet request)) (then_wp (λ _, count_request OK) Q)
     (mkWorld x d h mt lg)) →
  wp (relay_submitted request) Q (mkWorld x d h mt lg).
Proof.
  intros Hs HQ. unfold relay_submitted, GetClient. rewrite (serves_client _ _ _ Hs).
  apply wp_bind, wp_attempt, wp_ret. simpl. apply wp_bind. eapply wp_check_sender; [done|].
  intros x'. simpl. destruct (serves_packets _ _ _ Hs x') as [x2 Hx].
  apply wp_bind, wp_attempt, wp_ext. intros o x3. rewrite Hx. intros [= <- <-]. simpl.
  do 2 wp_step. simpl. apply wp_bind, HQ.
Qed.

(** ** The submission is recorded *)

Definition submitted request d : Prop :=
  is_Some (db.submission (GetChainId request) (GetTxHash request) d).

Lemma insert_submissions arg now d :
  db.ibcv2_relay_submissions (db.InsertIBCV2Transfer arg now d).2 =
  db.ibcv2_relay_submissions d.
Proof. unfold db.InsertIBCV2Transfer. by destruct (db.row _ _). Qed.

Lemma submission_submitted request now d :
  submitted request (db.InsertRelaySubmission (GetChainId request) (GetTxHash request) now d).2.
Proof.
  unfold submitted, db.InsertRelaySubmission.
  destruct (db.submission _ _ d) eqn:Hl; simpl.
  - unfold db.submission in *; simpl. by rewrite Hl.
  - unfold db.submission in *; simpl. rewrite lookup_by_snoc, Hl, decide_True; done.
Qed.

(** The table of submissions afterwards. *)
Lemma submission_recorded c hash now d :
  let d' := (db.InsertRelaySubmission c hash now d).2 in
  ∃ s, db.submission c hash d' = Some s ∧
    db.ibcv2_relay_submissions d' =
      match db.submission c hash d with
      | Some _ => db.ibcv2_relay_submissions d
      | None => db.ibcv2_relay_submissions d ++ [s]
      end.
Proof.
  unfold db.InsertRelaySubmission. destruct (db.submission c hash d) as [s|] eqn:Hl; simpl;
    unfold db.submission in *; simpl; [by exists s|].
  eexists. split; [by rewrite lookup_by_snoc, Hl, decide_True|done].
Qed.

Lemma api_steps_submitted request d d' :
  rtc (api_step request) d d' → submitted request d → submitted request d'.
Proof.
  induction 1 as [|d1 d2 d3 Hs _ IH]; [done|]. intros Hd. apply IH.
  destruct Hs; [apply submission_submitted|]. unfold submitted, db.submission. by rewrite insert_submissions.
Qed.

(** ** The whole of [Relay] *)

Lemma submission_outcome c hash now d : (db.InsertRelaySubmission c hash now d).1 = Ret tt.
Proof. unfold db.InsertRelaySubmission. by destruct (db.submission _ _ _). Qed.

(** [Relay] records the submission and goes on, or reports the failure to do
    so. *)
Lemma wp_Relay request Q x d h mt lg :
  incomplete request = false → storage_not_duplicate →
  (∀ x mt lg, ¬ healthy → Q (Fail (StatusError Internal "failed to insert relay submission"))
     (mkWorld x d h mt lg)) →
  (∀ x lg now, wp (relay_submitted request) Q (mkWorld x
     (db.InsertRelaySubmission (GetChainId request) (GetTxHash request) now d).2 h mt lg)) →
  wp (RelayerAPIService_Relay request) Q (mkWorld x d h mt lg).
Proof.
  intros Hi Hdup Hbad Hok. unfold RelayerAPIService_Relay. rewrite Hi.
  do 4 wp_step. apply wp_attempt. unfold wp at 1; simpl.
  specialize (Hdup x). destruct (env_storage x) as [[e|] x'] eqn:Hx; simpl in *.
  - rewrite (Hdup e eq_refl). unfold count_request. wp_auto. apply Hbad.
    intros Hh. specialize (Hh x). by rewrite Hx in Hh.
  - pose proof (submission_outcome (GetChainId request) (GetTxHash request) (env_NOW x') d) as Ho.
    pose proof (λ lg1, Hok x' lg1 (env_NOW x')) as Hrest.
    destruct (db.InsertRelaySubmission _ _ _ d) as [o d']; simpl in *. subst o. apply Hrest.
Qed.

Definition relay_post request (packets : list PacketInfo) d (o : outcome unit) (w : World X) : Prop :=
  (o = Ret tt → submitted request (w_db w) ∧ taken_in request packets d (w_db w)) ∧
  (healthy → o = Ret tt).

Lemma taken_in_tracked request packets d d' packet :
  taken_in request packets d d' → packet ∈ packets → tracked request packet d'.
Proof. intros Ht Hp dest Hd. destruct (Ht packet dest Hp Hd) as (r & Hr & _). by eexists. Qed.

Lemma Relay_post client request packets x d h mt lg :
  incomplete request = false → storage_not_duplicate → serves client request packets →
  wp (RelayerAPIService_Relay request) (relay_post request packets d) (mkWorld x d h mt lg).
Proof.
  intros Hi Hdup Hs. apply wp_Relay; [done|done| |].
  { intros ? ? ? Hn. by split. }
  intros x1 lg1 now. eapply wp_relay_submitted; [done|]. intros x2 lg2.
  eapply wp_mono; [|apply wp_and; [by apply relay_packets_taken|apply wp_and;
    [by apply relay_packets_tracked|apply relay_packets_adds]]].
  intros [[]| |] [x3 d3 h3 mt3 lg3] [Ht [[_ Hh] [_ Hsteps]]]; simpl in *;
    [|split; [done|by intros ?%Hh]..].
  unfold count_request. wp_auto. split; [|done]. intros _. split.
  - eapply api_steps_submitted; [done|]. apply submission_submitted.
  - intros packet dest Hp Hd. destruct (Ht eq_refl packet dest Hp Hd) as (r & Hr & Hf).
    rewrite submission_row in Hf. by exists r.
Qed.

(** ** Relaying again *)

Definition same_tables d d' : Prop :=
  db.ibcv2_transfers d' = db.ibcv2_transfers d ∧
  db.ibcv2_relay_submissions d' = db.ibcv2_relay_submissions d.

Lemma insert_again request packet dest now d :
  destination request packet = Ret dest → tracked request packet d →
  same_tables d (db.InsertIBCV2Transfer (packet_insert request dest packet) now d).2.
Proof.
  intros Hd Ht. destruct (Ht dest Hd) as [r Hr]. unfold db.InsertIBCV2Transfer.
  change (db.insert_key _) with (packet_row_key request packet). by rewrite Hr.
Qed.

Lemma same_tables_tracked request packet d d' :
  same_tables d d' → tracked request packet d → tracked request packet d'.
Proof. intros [Heq _]. unfold tracked, db.row. by rewrite Heq. Qed.

Lemma relay_packets_again request packets x d h mt lg :
  (∀ packet, packet ∈ packets → tracked request packet d) →
  wp (forM packets (relay_packet request)) (λ _ w, same_tables d (w_db w))
    (mkWorld x d h mt lg).
Proof.
  intros Ht. apply (wp_forM_keep (λ w, same_tables d (w_db w))); [|done].
  intros packet [x1 d1 h1 mt1 lg1] Hp Hsame; simpl in *. unfold relay_packet.
  destruct (config.GetClientCounterpartyChainID _ _ _) as [dest| |] eqn:Hd; [|by wp_auto..].
  apply wp_bind, wp_attempt, wp_query; [intros; unfold count_request; by wp_auto|].
  intros now x2. destruct (insert_again request packet dest now d1 Hd) as [H1 H2].
  { eapply same_tables_tracked; [done|]. by apply Ht. }
  assert (same_tables d (db.InsertIBCV2Transfer (packet_insert request dest packet) now d1).2)
    as Hs by (destruct Hsame; split; congruence).
  destruct (db.InsertIBCV2Transfer _ now d1) as [o d2]; simpl in *.
  destruct o; simpl; unfold count_request; by wp_auto.
Qed.

Lemma submission_again request now d :
  submitted request d →
  same_tables d (db.InsertRelaySubmission (GetChainId request) (GetTxHash request) now d).2.
Proof.
  intros [s Hs]. unfold db.InsertRelaySubmission. by destruct (db.submission _ _ d).
Qed.

Lemma Relay_again client request packets x d h mt lg :
  incomplete request = false → storage_not_duplicate → serves client request packets →
  submitted request d → (∀ packet, packet ∈ packets → tracked request packet d) →
  wp (RelayerAPIService_Relay request) (λ _ w, same_tables d (w_db w)) (mkWorld x d h mt lg).
Proof.
  intros Hi Hdup Hs Hsub Ht. apply wp_Relay; [done|done|done|].
  intros x1 lg1 now. eapply wp_relay_submitted; [done|]. intros x2 lg2.
  pose proof (submission_again request now d Hsub) as Hsame.
  eapply wp_mono; [|apply relay_packets_again].
  - intros o [x3 d3 h3 mt3 lg3] [H1 H2]; simpl in *. destruct Hsame.
    destruct o; simpl; unfold count_request; wp_auto; split; simpl; congruence.
  - intros packet Hp. eapply same_tables_tracked; [done|by apply Ht].
Qed.
End service_laws.
