(* ===== verification/Demo.v ===== *)
(** * A concrete environment

    Two chains, [chain-a] (Cosmos) and [chain-b] (EVM), that track each other
    with one client each, bridge clients that answer from a few parameters, and
    a packet sent from [chain-a] to [chain-b]. The external state is a clock.
    The definitions of the library run in it; the theorems about them are
    applied to it. *)
From stdpp Require Import prelude strings list gmap.
From Stdlib Require Import ZArith.
From S2P Require Import Prelude Go Config Db Transfer World Laws MWLaws.
Open Scope Z_scope.

Module demo.

Definition ibcv2 (counterparty : gmap string string) : config.IBCV2Config :=
  config.mkIBCV2Config counterparty (Some 5) 0 0 0 20 0 0 0 0 0 false true.

Definition chain (id : string) (type : config.ChainType) (counterparty : gmap string string)
    : config.ChainConfig :=
  config.mkChainConfig id id type config.ChainEnvironment_TESTNET None None None
    "TKN" None 6 ∅ (Some (ibcv2 counterparty)) ["ibcv2"].

Definition chain_a := chain "chain-a" config.ChainType_COSMOS {["client-a" := "chain-b"]}.
Definition chain_b := chain "chain-b" config.ChainType_EVM {["client-b" := "chain-a"]}.

(** A chain without an [ibcv2] section. *)
Definition chain_c : config.ChainConfig :=
  config.mkChainConfig "chain-c" "chain-c" config.ChainType_COSMOS
    config.ChainEnvironment_TESTNET None None None "TKN" None 6 ∅ None [].

Definition conf : config.Config :=
  config.mkConfig (config.mkPostgresConfig "localhost" "5432" "relayer" false)
    [("a", chain_a); ("b", chain_b); ("c", chain_c)]
    (config.mkMetricsConfig "localhost:8001") (config.mkRelayerAPIConfig "localhost:9000")
    (config.mkCoingeckoConfig "" 0 "" 0) (config.mkIBCV2ProofAPIConfig "" false)
    (config.mkSigningConfig "" "" "" "" "").

(** What the chains answer. *)
Record setup := mkSetup {
  received : bool;
  committed : bool;
  finalized : bool;
  retry : bool;
  write_ack : outcome db.Ibcv2WriteAckStatus;
  sender : string;
  packets : list PacketInfo;
  storage_error : option error;
}.

Definition tx (hash : string) (t : Time) : BridgeTx := mkBridgeTx hash t "relayer".

Definition always {A} (o : outcome A) : Ext Z A := λ x, (o, x + 1).

Definition client (type : config.ChainType) (a : setup) : BridgeClient Z :=
  mkBridgeClient Z
    (λ _ _, always (Ret (received a)))
    (λ _ _, always (Ret (committed a)))
    (λ _ _ _ _, always (Ret (Some (tx "0xbeef" 7))))
    (λ _ _ _, always (Ret (Some (tx "0xacac" 8))))
    (λ _ _ _, always (Fail (Sentinel ErrTxNotFound)))
    (λ _ _, always (Ret (Some (tx "0xcafe" 9))))
    (λ _ _ _ _, always (write_ack a))
    (λ _ _, always (Ret (packets a)))
    (λ _ _ _, always (Ret (retry a)))
    (always (Ret tt))
    (λ _ _, always (Ret (finalized a)))
    (λ _ _, always (Ret (finalized a)))
    type
    (always (Ret 0))
    (λ _, always (Ret 0))
    (always (Ret (Some 0)))
    (λ _, always (Ret (Some 0)))
    (λ _ _ _ _ _, always (Ret ""))
    (λ _, always (Ret (mkClientState None None)))
    (λ _, always (Ret tt))
    (λ _, always (Ret (sender a))).

Definition env (a : setup) : Env Z :=
  mkEnv Z
    {["chain-a" := client config.ChainType_COSMOS a;
      "chain-b" := client config.ChainType_EVM a]}
    (λ _, always (Ret (mkRelayByTxResponse [1; 2; 3] "0xrouter")))
    None
    (config.NewConfigReader conf)
    (λ x, (x, x + 1))
    (λ x, (storage_error a, x))
    (λ x, x)
    (λ x, (true, x)).

(** A healthy day. *)
Definition good : setup :=
  mkSetup false true true false (Ret db.Ibcv2WriteAckStatusSUCCESS) "0xAB" [] None.

Definition with_storage_error (e : error) (a : setup) : setup :=
  mkSetup (received a) (committed a) (finalized a) (retry a) (write_ack a) (sender a)
    (packets a) (Some e).

(** ** A packet *)

Definition packet_params : db.InsertIBCV2TransferParams :=
  db.mkInsertIBCV2TransferParams "chain-a" "chain-b" "0xaa" (Some 1) 4 "client-a" "client-b"
    (Some 1000).

Definition row_pending : db.Ibcv2Transfer := db.new_row 1 2 packet_params.

Definition database (r : db.Ibcv2Transfer) : db.Database := db.mkDatabase [r] 2 [] 1.

Definition transfer : IBCV2Transfer := NewIBCV2Transfer row_pending.

(** The row as it is when the recv transaction has been delivered. *)
Definition row_recv : db.Ibcv2Transfer :=
  db.set_RecvTxTime (Some 3) (db.set_RecvTxHash (Some "0xbeef") row_pending).

(** And when the write acknowledgement is known. *)
Definition row_acked : db.Ibcv2Transfer :=
  db.set_WriteAckStatus (Some db.Ibcv2WriteAckStatusSUCCESS)
    (db.set_WriteAckTxTime (Some 3) (db.set_WriteAckTxHash (Some "0xbeef") row_recv)).

(** A world whose only transfer is the one read from the row. *)
Definition world (r : db.Ibcv2Transfer) (x : Z) : World Z :=
  mkWorld x (database r) {[1%positive := NewIBCV2Transfer r]} [] [].

Definition empty_world : World Z := mkWorld 0 (db.mkDatabase [] 1 [] 1) ∅ [] [].

Lemma database_wf r :
  db.row_key r = db.row_key row_pending → row_ok r → db_wf (database r).
Proof.
  intros Hk Hok. split; simpl.
  - split; simpl; [apply NoDup_singleton|constructor].
  - rewrite list_elem_of_singleton, Hk. discriminate.
  - apply Forall_singleton. rewrite Hk. by vm_compute.
  - intros k r'. unfold db.row; simpl. case_decide; [|done]. by intros [= <-].
Qed.

Lemma demo_row_wf : db_wf (database row_pending).
Proof. apply database_wf; [done|]. by apply row_ok_unfinished. Qed.

Lemma row_recv_wf : db_wf (database row_recv).
Proof. apply database_wf; [done|]. by apply row_ok_unfinished. Qed.

Lemma row_acked_wf : db_wf (database row_acked).
Proof.
  apply database_wf; [done|]. apply row_ok_unfinished; [done|].
  intros h. vm_compute. intros [= <-]. by eauto.
Qed.

Lemma empty_wf : db_wf (w_db empty_world).
Proof.
  split; simpl.
  - split; constructor.
  - apply not_elem_of_nil.
  - constructor.
  - done.
Qed.

Lemma demo_row_attached r : db.row_key r = db.row_key row_pending → attached (database r) (NewIBCV2Transfer r).
Proof.
  intros Hk. exists r.
  assert (is_int32 (db.PacketSequenceNumber r)) as Hs.
  { by injection Hk as _ _ ->. }
  split_and!; [|done|by apply NewIBCV2Transfer_synced].
  rewrite update_key_NewIBCV2Transfer by done. unfold db.row; simpl. by rewrite decide_True.
Qed.

End demo.

(** ** The theorems about the configuration applied *)

Definition demo_conf_swapped : config.Config :=
  config.mkConfig (config.Postgres demo.conf)
    [("c", demo.chain_c); ("a", demo.chain_a); ("b", demo.chain_b)]
    (config.Metrics demo.conf) (config.RelayerAPI demo.conf) (config.Coingecko demo.conf)
    (config.IBCV2ProofAPI demo.conf) (config.Signing demo.conf).

Lemma demo_unique_chain_ids : config.unique_chain_ids demo.conf.
Proof. unfold config.unique_chain_ids. apply (bool_decide_unpack _). by vm_compute. Qed.

Lemma createIndexes_order_witness :
  config.createIndexes demo.conf = config.createIndexes demo_conf_swapped.
Proof.
  apply (config.createIndexes_order demo.conf demo_conf_swapped demo_unique_chain_ids).
  symmetry. apply (Permutation_cons_append [("a", demo.chain_a); ("b", demo.chain_b)]).
Defined.

Lemma counterparties_agree_witness : ∃ m,
  config.GetAllIBCV2ClientsToCounterparties (config.NewConfigReader demo.conf) = Ret m ∧
  ∃ clients, m !! "chain-a" = Some clients ∧ clients !! "client-a" = Some "chain-b".
Proof.
  destruct (config.counterparties_agree demo.conf demo_unique_chain_ids) as (m & Hm & H).
  exists m. split; [exact Hm|]. by apply H.
Defined.
