(* ===== verification/ServiceSpecs.v ===== *)
(** * Theorems about the relayer API *)
From stdpp Require Import prelude strings list gmap relations.
From Stdlib Require Import ZArith.
From S2P Require Import Prelude Go Config Db Transfer World Wp TransferMetrics Laws MWLaws.
From S2P Require Import Pipeline System SystemInv DispatcherInv Service ServiceLaws Demo.
Open Scope Z_scope.

(** The packets of the witnesses below. *)
Definition demo_packet : PacketInfo := mkPacketInfo 4 "client-a" "client-b" 1000 1.
Definition demo_packets : demo.setup :=
  demo.mkSetup false true true false (Ret db.Ibcv2WriteAckStatusSUCCESS)
    "0x04DBA1194ee10112fe6c3207c0687def0e78bacf" [demo_packet] None.
Definition demo_request : TxRequest := mkTxRequest "0xaa" "chain-a".
Definition demo_request_b : TxRequest := mkTxRequest "0xbb" "chain-b".

Definition demo_packet2 : PacketInfo :=
  mkPacketInfo (4 + 2 ^ 32) "client-a" "client-b" 1000 1.
Definition demo_collision : demo.setup :=
  demo.mkSetup false true true false (Ret db.Ibcv2WriteAckStatusSUCCESS) "0xAB"
    [demo_packet; demo_packet2] None.

Section relay.
Context {X : Type} {E : Env X}.

(** C22: a call of [Relay] is a sequence of steps of the running system (so
    everything proved of reachable states holds while the API is in use),
    whatever its outcome; it leaves the transfers in the pipelines alone. *)
Theorem Relay_refines_steps request (w w' : World X) o pls rows :
  no_repeats (mkSystem w pls rows) → not_stale (mkSystem w pls rows) →
  incomplete request = false → RelayerAPIService_Relay request w = (o, w') →
  reaches (mkSystem w pls rows) (mkSystem w' pls rows).
Proof.
  intros Hnr Hfr Hi Hrun. destruct w as [x d h mt lg].
  eapply adds_reach; [done|done|done|]. exact (wp_run _ _ _ _ _ Hrun (Relay_adds request x d h mt lg)).
Qed.

(** [Relay] never changes or deletes a row. A row it adds is in the state
    [PENDING], belongs to the requested transaction, and is bound for the
    chain the configuration names for the packet's client. This holds for
    every outcome of the call, failures of the database included. *)
Theorem Relay_only_adds request (w w' : World X) o k r :
  RelayerAPIService_Relay request w = (o, w') →
  (db.row k (w_db w) = Some r → db.row k (w_db w') = Some r) ∧
  (db.row k (w_db w) = None → db.row k (w_db w') = Some r →
     db.Status r = db.Ibcv2RelayStatusPENDING ∧
     db.SourceChainID r = GetChainId request ∧ db.SourceTxHash r = GetTxHash request ∧
     db.RecvTxHash r = None ∧ db.AckTxHash r = None ∧ db.TimeoutTxHash r = None ∧
     config.GetClientCounterpartyChainID env_config (GetChainId request)
       (db.PacketSourceClientID r) = Ret (db.DestinationChainID r)).
Proof.
  intros Hrun. destruct w as [x d h mt lg]; simpl.
  destruct (wp_run _ _ _ _ _ Hrun (Relay_adds request x d h mt lg)) as [_ Hs%api_steps_grow].
  split; [by apply (grows_keeps _ _ _ Hs)|]. intros Hn Hr.
  destruct (grows_adds _ _ _ Hs k r Hr) as [?|(packet & dest & id & now & Hd & ->)];
    [congruence|done].
Qed.

(** C23: what [Relay] makes of a transaction. For a chain whose client answers
    and a sender that is not sanctioned ([serves]), a [Relay] that reports
    success has recorded the submission, and every packet of the transaction
    whose destination is known has a row at its key, which is made of the
    chain, the client and the sequence number truncated to 32 bits: the row that
    was there before, unchanged, or else a [PENDING] row with the chains, the
    transaction, the clients, the sequence and the times of the packet, or,
    should several packets of the transaction share the key, of the first of
    them. With a database that works [Relay] does report success. *)
Theorem Relay_tracks client request packets (w w' : World X) o :
  incomplete request = false → storage_not_duplicate → serves client request packets →
  RelayerAPIService_Relay request w = (o, w') →
  (healthy → o = Ret tt) ∧
  (o = Ret tt →
   is_Some (db.submission (GetChainId request) (GetTxHash request) (w_db w')) ∧
   ∀ packet dest, packet ∈ packets →
     config.GetClientCounterpartyChainID env_config (GetChainId request)
       (SourceClient packet) = Ret dest →
     let k := db.mkPacketKey (GetChainId request) (SourceClient packet)
                (int32 (Sequence packet)) in
     ∃ r, db.row k (w_db w') = Some r ∧
       match db.row k (w_db w) with
       | Some r0 => r = r0
       | None => ∃ first, first_with request packets packet first ∧
           packet_row request dest first r
       end).
Proof.
  intros Hi Hdup Hs Hrun. destruct w as [x d h mt lg].
  destruct (wp_run _ _ _ _ _ Hrun (Relay_post client request packets x d h mt lg Hi Hdup Hs))
    as [Ht Hh]. split; [done|]. intros ->. destruct (Ht eq_refl) as [Hsub Hall].
  split; [done|]. exact Hall.
Qed.

(** C24: [Relay] is idempotent. A second call for the same transaction, for
    which the chain reports the same packets, changes neither table. *)
Theorem Relay_idempotent client request packets (w w1 w2 : World X) o1 o2 :
  healthy → incomplete request = false → serves client request packets →
  RelayerAPIService_Relay request w = (o1, w1) →
  RelayerAPIService_Relay request w1 = (o2, w2) →
  o1 = Ret tt ∧ o2 = Ret tt ∧
  db.ibcv2_transfers (w_db w2) = db.ibcv2_transfers (w_db w1) ∧
  db.ibcv2_relay_submissions (w_db w2) = db.ibcv2_relay_submissions (w_db w1).
Proof.
  intros Hh Hi Hs Hrun1 Hrun2. pose proof (healthy_not_duplicate Hh) as Hdup.
  destruct w as [x d h mt lg], w1 as [x1 d1 h1 mt1 lg1].
  destruct (wp_run _ _ _ _ _ Hrun1 (Relay_post client request packets x d h mt lg Hi Hdup Hs))
    as [Ht Ho1].
  destruct (wp_run _ _ _ _ _ Hrun2 (Relay_post client request packets _ _ _ _ _ Hi Hdup Hs))
    as [_ Ho2].
  rewrite (Ho1 Hh), (Ho2 Hh) in *. destruct (Ht eq_refl) as [Hsub Hin].
  assert (∀ packet, packet ∈ packets → tracked request packet d1) as Hall
    by (intros; by eapply taken_in_tracked).
  destruct (wp_run _ _ _ _ _ Hrun2 (Relay_again client request packets x1 d1 h1 mt1 lg1
    Hi Hdup Hs Hsub Hall)). done.
Qed.

(** C25: a transaction on an EVM chain whose sender, in any letter case, is on
    the list of sanctioned addresses is refused, and none of its packets
    enters the table of transfers. The submission was recorded before the sender
    was looked at: with a working database its row is in the table of
    submissions afterwards, and nothing else has changed there. *)
Theorem Relay_refuses_sanctioned client request sender (w w' : World X) o :
  storage_not_duplicate → incomplete request = false →
  env_clients !! GetChainId request = Some client →
  client_ChainType client = config.ChainType_EVM →
  (∀ x, ∃ x', GetTransactionSender client (GetTxHash request) x = (Ret sender, x')) →
  ToLower sender ∈ utils.OFACAddressMap →
  RelayerAPIService_Relay request w = (o, w') →
  (∃ c m, o = Fail (StatusError c m)) ∧
  db.ibcv2_transfers (w_db w') = db.ibcv2_transfers (w_db w) ∧
  (healthy → o = Fail (StatusError InvalidArgument
     "Transaction sender is blacklisted - cannot relay") ∧
   ∃ s, db.submission (GetChainId request) (GetTxHash request) (w_db w') = Some s ∧
     db.ibcv2_relay_submissions (w_db w') =
       match db.submission (GetChainId request) (GetTxHash request) (w_db w) with
       | Some _ => db.ibcv2_relay_submissions (w_db w)
       | None => db.ibcv2_relay_submissions (w_db w) ++ [s]
       end).
Proof.
  intros Hdup Hi Hc Ht Hsender Hin Hrun. destruct w as [x d h mt lg].
  apply (wp_run _ (λ o w', (∃ c m, o = Fail (StatusError c m)) ∧
    db.ibcv2_transfers (w_db w') = db.ibcv2_transfers d ∧
    (healthy → o = Fail (StatusError InvalidArgument
       "Transaction sender is blacklisted - cannot relay") ∧
     ∃ s, db.submission (GetChainId request) (GetTxHash request) (w_db w') = Some s ∧
       db.ibcv2_relay_submissions (w_db w') =
         match db.submission (GetChainId request) (GetTxHash request) d with
         | Some _ => db.ibcv2_relay_submissions d
         | None => db.ibcv2_relay_submissions d ++ [s]
         end)) _ _ _ Hrun).
  clear Hrun. apply wp_Relay; [done|done|intros ? ? ? Hn; split_and!; by eauto|].
  intros x1 lg1 now. unfold relay_submitted, GetClient. rewrite Hc.
  apply wp_bind, wp_attempt, wp_ret. simpl. apply wp_bind. unfold check_sender.
  rewrite bool_decide_eq_true_2 by done. apply wp_bind, wp_wrap, wp_ext. intros o1 x2 Hx.
  destruct (Hsender x1) as [x3 Hx3]. rewrite Hx3 in Hx. injection Hx as <- <-. simpl.
  rewrite bool_decide_eq_true_2 by done. apply wp_fail. simpl.
  split_and!; [by eauto|apply submission_transfers|]. intros _. split; [done|].
  apply submission_recorded.
Qed.

(** A packet whose insert succeeds or is a duplicate. *)
Lemma wp_relay_packet request packet dest Q (x : X) d h mt lg :
  healthy → destination request packet = Ret dest →
  (∀ x' now lg', Q (Ret tt) (mkWorld x'
     (db.InsertIBCV2Transfer (packet_insert request dest packet) now d).2 h mt lg')) →
  wp (relay_packet request packet) Q (mkWorld x d h mt lg).
Proof.
  intros Hh Hd HQ. unfold relay_packet. unfold destination in Hd. rewrite Hd.
  apply wp_bind, wp_attempt, wp_query_healthy; [done|]. intros now x'.
  specialize (HQ x' now). pose proof (insert_outcome (packet_insert request dest packet) now d).
  destruct (db.InsertIBCV2Transfer _ now d) as [o d']; simpl in *.
  destruct H as [-> | ->]; simpl;
    change (is_duplicate_key db.unique_violation) with true; by wp_auto.
Qed.

(** Sequence numbers are truncated to 32 bits. Of two packets of one
    transaction that use the same client and whose 64-bit sequences differ by
    2^32 only one gets a row, and [Relay] reports success all the same. *)
Theorem Relay_sequence_collision client request p1 p2 dest (w w' : World X) o :
  healthy → incomplete request = false → serves client request [p1; p2] →
  destination request p1 = Ret dest →
  SourceClient p2 = SourceClient p1 → Sequence p2 = Sequence p1 + 2 ^ 32 →
  db.row (packet_row_key request p1) (w_db w) = None →
  RelayerAPIService_Relay request w = (o, w') →
  o = Ret tt ∧
  ∃ r, db.ibcv2_transfers (w_db w') = db.ibcv2_transfers (w_db w) ++ [r].
Proof.
  intros Hh Hi Hs Hd Hc Hseq Hn Hrun. destruct w as [x d h mt lg]; simpl in *.
  assert (packet_row_key request p2 = packet_row_key request p1) as Hk.
  { unfold packet_row_key. rewrite Hc, Hseq. f_equal. unfold int32.
    rewrite (Z.add_comm (Sequence p1)), <- Z.add_assoc, Z.add_comm.
    by rewrite <- (Z.mul_1_l (2 ^ 32)) at 1; rewrite Z_mod_plus_full. }
  apply (wp_run _ (λ o w', o = Ret tt ∧
    ∃ r, db.ibcv2_transfers (w_db w') = db.ibcv2_transfers d ++ [r]) _ _ _ Hrun). clear Hrun.
  apply wp_Relay; [done|by apply healthy_not_duplicate|done|]. intros x1 lg1 now1.
  eapply wp_relay_submitted; [done|]. intros x2 lg2. simpl.
  apply wp_bind. apply (wp_relay_packet _ _ dest); [done|done|]. intros x3 now3 lg3. simpl.
  apply wp_bind. apply (wp_relay_packet _ _ dest); [done|unfold destination; by rewrite Hc|].
  intros x4 now4 lg4. simpl. unfold count_request. wp_auto. simpl. split; [done|].
  unfold db.InsertIBCV2Transfer at 1.
  change (db.insert_key (packet_insert request dest p2)) with (packet_row_key request p2).
  destruct (insert_tracked request p1 dest now3 (db.InsertRelaySubmission (GetChainId request)
    (GetTxHash request) now1 d).2) as [r Hr].
  rewrite Hk, Hr. simpl. unfold db.InsertIBCV2Transfer.
  change (db.insert_key (packet_insert request dest p1)) with (packet_row_key request p1).
  rewrite submission_row, Hn. simpl. rewrite submission_transfers. eauto.
Qed.

(** The answer of [Status]. An incomplete request is refused; a
    transaction that was never submitted is reported as not found; otherwise
    the answer has one entry per row of the transaction, in table order. The
    call changes neither the tables nor the pipelines. *)
Theorem Status_spec request (w w' : World X) o :
  healthy → RelayerAPIService_Status request w = (o, w') →
  w_db w' = w_db w ∧ w_heap w' = w_heap w ∧
  o = if incomplete request then
        Fail (StatusError InvalidArgument "tx_hash and chain_id are required")
      else if has (db.submission (GetChainId request) (GetTxHash request) (w_db w)) then
        Ret (mkStatusResponse (map packet_status
          (filter (λ r, db.SourceChainID r = GetChainId request ∧
                        db.SourceTxHash r = GetTxHash request)
             (db.ibcv2_transfers (w_db w)))))
      else Fail (StatusError NotFound "transaction not submitted to relayer").
Proof.
  intros Hh Hrun. destruct w as [x d h mt lg]; simpl.
  match goal with |- ?A ∧ ?B ∧ o = ?v =>
    apply (wp_run _ (λ o w', w_db w' = d ∧ w_heap w' = h ∧ o = v) _ _ _ Hrun) end.
  clear Hrun. unfold RelayerAPIService_Status. destruct (incomplete request); [by wp_auto|].
  apply wp_bind, wp_attempt, wp_query_healthy; [done|]. intros now x1.
  unfold db.GetRelaySubmission. destruct (db.submission _ _ _); simpl; [|by wp_auto].
  apply wp_bind, wp_attempt, wp_query_healthy; [done|]. intros now2 x2. simpl. by wp_auto.
Qed.
End relay.

Lemma demo_healthy : @healthy Z (demo.env demo_packets).
Proof. done. Defined.

Lemma demo_serves : @serves Z (demo.env demo_packets)
  (demo.client config.ChainType_COSMOS demo_packets) demo_request [demo_packet].
Proof. split; [done|done|]. intros x. by eexists. Defined.

Lemma Relay_refines_steps_witness :
  reaches (E := demo.env demo_packets) (mkSystem demo.empty_world ∅ [])
    (mkSystem (RelayerAPIService_Relay (E := demo.env demo_packets) demo_request
                 demo.empty_world).2 ∅ []).
Proof.
  apply (Relay_refines_steps (E := demo.env demo_packets) demo_request demo.empty_world _
    (RelayerAPIService_Relay (E := demo.env demo_packets) demo_request demo.empty_world).1);
    [by intros pk pl Hpl|done|done|by destruct (RelayerAPIService_Relay _ _)].
Defined.

Lemma Relay_only_adds_witness :
  let r := db.new_row 1 1 (packet_insert demo_request "chain-b" demo_packet) in
  db.row (db.mkPacketKey "chain-a" "client-a" 4)
    (w_db (RelayerAPIService_Relay (E := demo.env demo_packets) demo_request
       demo.empty_world).2) = Some r ∧
  config.GetClientCounterpartyChainID (config.NewConfigReader demo.conf) "chain-a"
    (db.PacketSourceClientID r) = Ret (db.DestinationChainID r).
Proof.
  intros r. assert (db.row (db.mkPacketKey "chain-a" "client-a" 4)
    (w_db (RelayerAPIService_Relay (E := demo.env demo_packets) demo_request
       demo.empty_world).2) = Some r) as Hr by (by vm_compute).
  split; [exact Hr|].
  destruct (Relay_only_adds (E := demo.env demo_packets) demo_request demo.empty_world _ _
    (db.mkPacketKey "chain-a" "client-a" 4) r eq_refl) as [_ H].
  by destruct (H eq_refl Hr) as (_ & _ & _ & _ & _ & _ & H2).
Defined.

Lemma Relay_tracks_witness :
  let res := RelayerAPIService_Relay (E := demo.env demo_packets) demo_request demo.empty_world in
  res.1 = Ret tt ∧
  ∃ r, db.row (db.mkPacketKey "chain-a" "client-a" 4) (w_db res.2) = Some r ∧
    db.DestinationChainID r = "chain-b" ∧ db.SourceTxHash r = "0xaa".
Proof.
  intros res. destruct (Relay_tracks (E := demo.env demo_packets)
    (demo.client config.ChainType_COSMOS demo_packets) demo_request [demo_packet]
    demo.empty_world _ _ eq_refl (healthy_not_duplicate demo_healthy) demo_serves eq_refl)
    as [H Hall].
  split; [exact (H demo_healthy)|]. destruct (Hall (H demo_healthy)) as [_ Hrow].
  destruct (Hrow demo_packet "chain-b") as (r & Hr & first & _ & Hf);
    [by left|by vm_compute|]. exists r. split; [exact Hr|]. by destruct Hf.
Defined.

Lemma Relay_idempotent_witness :
  db.ibcv2_transfers (w_db (RelayerAPIService_Relay (E := demo.env demo_packets) demo_request
    (RelayerAPIService_Relay (E := demo.env demo_packets) demo_request
       demo.empty_world).2).2) =
  db.ibcv2_transfers (w_db (RelayerAPIService_Relay (E := demo.env demo_packets) demo_request
    demo.empty_world).2).
Proof.
  exact (proj1 (proj2 (proj2 (Relay_idempotent (E := demo.env demo_packets)
    (demo.client config.ChainType_COSMOS demo_packets) demo_request [demo_packet]
    demo.empty_world _ _ _ _ demo_healthy eq_refl demo_serves eq_refl eq_refl)))).
Defined.

Lemma Relay_refuses_sanctioned_witness :
  (RelayerAPIService_Relay (E := demo.env demo_packets) demo_request_b demo.empty_world).1
    = Fail (StatusError InvalidArgument "Transaction sender is blacklisted - cannot relay").
Proof.
  assert (ToLower "0x04DBA1194ee10112fe6c3207c0687def0e78bacf" ∈ utils.OFACAddressMap) as Hin
    by (apply (bool_decide_unpack _); by vm_compute).
  destruct (Relay_refuses_sanctioned (E := demo.env demo_packets)
    (demo.client config.ChainType_EVM demo_packets) demo_request_b
    "0x04DBA1194ee10112fe6c3207c0687def0e78bacf" demo.empty_world _ _
    (healthy_not_duplicate demo_healthy) eq_refl eq_refl eq_refl
    (λ x, ex_intro _ (x + 1) eq_refl) Hin eq_refl) as (_ & _ & H).
  exact (proj1 (H demo_healthy)).
Defined.

(** The API reports a transfer as pending exactly when the dispatcher's
    query for unfinished transfers returns its row, and as failed or complete
    exactly when it does not. *)
Theorem Status_pending_unfinished (now : Time) (d : db.Database) (r : db.Ibcv2Transfer) :
  r ∈ db.ibcv2_transfers d →
  (PacketStatus_State (packet_status r) = TRANSFER_STATE_PENDING ↔
   ∃ rows, db.GetUnfinishedIBCV2Transfers now d = (Ret rows, d) ∧ r ∈ rows) ∧
  (PacketStatus_State (packet_status r) = TRANSFER_STATE_FAILED ↔
   db.Status r = db.Ibcv2RelayStatusFAILED).
Proof.
  intros Hr. split.
  - transitivity (db.unfinished (db.Status r) = true).
    + simpl. by destruct (db.Status r).
    + unfold db.GetUnfinishedIBCV2Transfers. split.
      * intros Hu. eexists. split; [done|]. by apply list_elem_of_filter.
      * by intros (rows & [= <-] & [? _]%list_elem_of_filter).
  - simpl. by destruct (db.Status r).
Qed.

Lemma Status_pending_unfinished_witness :
  PacketStatus_State (packet_status demo.row_pending) = TRANSFER_STATE_PENDING.
Proof.
  apply (Status_pending_unfinished 0 (demo.database demo.row_pending) demo.row_pending).
  - by apply list_elem_of_singleton.
  - eexists. split; [reflexivity|]. by apply list_elem_of_filter; split; [|left].
Defined.

Lemma Relay_sequence_collision_witness :
  let res := RelayerAPIService_Relay (E := demo.env demo_collision) demo_request
               demo.empty_world in
  res.1 = Ret tt ∧ ∃ r, db.ibcv2_transfers (w_db res.2) = [r].
Proof.
  apply (Relay_sequence_collision (E := demo.env demo_collision)
    (demo.client config.ChainType_COSMOS demo_collision) demo_request demo_packet demo_packet2
    "chain-b" demo.empty_world); try reflexivity.
  - done.
  - split; [done|done|]. intros x. by eexists.
Defined.

Lemma Status_spec_witness :
  let res := RelayerAPIService_Status (E := demo.env demo.good) demo_request
               demo.empty_world in
  res.1 = Fail (StatusError NotFound "transaction not submitted to relayer").
Proof.
  exact (proj2 (proj2 (Status_spec (E := demo.env demo.good) demo_request demo.empty_world _ _
    (λ _, eq_refl) (surjective_pairing _)))).
Defined.

Lemma ToLower_length s : String.length (ToLower s) = String.length s.
Proof. induction s as [|a s IH]; simpl; [done|]. by rewrite IH. Qed.

(** Two entries of the list of sanctioned addresses can never match: an EVM
    address is 42 characters long in any spelling, and these entries are 41 and
    43 characters long. *)
Theorem OFAC_entries_that_never_match (sender : string) :
  String.length sender = 42%nat →
  ∀ entry, entry ∈ ["0x08b2efdcd8822efe5ad0eae55517cf5dc544251";
                    "0xdcbefbfeccce100cce9e4b153c4e15cb885643193"] →
    entry ∈ utils.OFACAddressMap ∧ ToLower sender ≠ entry.
Proof.
  intros Hlen entry Hin. pose proof (ToLower_length sender) as Hlow. rewrite Hlen in Hlow.
  apply elem_of_cons in Hin as [->|Hin%list_elem_of_singleton];
    [|subst entry]; (split; [apply (bool_decide_unpack _); by vm_compute|]);
    intros Heq; by rewrite Heq in Hlow.
Qed.

Lemma OFAC_entries_that_never_match_witness :
  ToLower "0x04dba1194ee10112fe6c3207c0687def0e78bacf" ≠
  "0x08b2efdcd8822efe5ad0eae55517cf5dc544251".
Proof.
  apply (OFAC_entries_that_never_match "0x04dba1194ee10112fe6c3207c0687def0e78bacf" eq_refl).
  by left.
Defined.
