(* ===== verification/ProcessorSpecs.v ===== *)
(** * What each processor does

    The behaviour of the processors on each of their branches, for chains that
    give known answers and a database that works. *)
From stdpp Require Import prelude strings list gmap.
From Stdlib Require Import ZArith.
From S2P Require Import Prelude Go Config Db Transfer World Wp TransferMetrics Processors Laws.
From S2P Require Import MWLaws Batch SystemInv Demo.
Open Scope Z_scope.

Section specs.
Context {X : Type} {E : Env X}.
Implicit Types (t : IBCV2Transfer) (c : BridgeClient X) (w : World X).

(** The row of a transfer after an update of it. *)
Lemma row_after k q f d r :
  db.is_row_update k q f → db.row k d = Some r → db.row k (q d) = Some (f r).
Proof. intros Hq Hr. by rewrite (db.row_update_row_eq Hq), Hr. Qed.

(** The send transaction gates the relaying. While the source chain does
    not report it final, the transfer errs with [ErrSendNotFinalized] and
    nothing is written; once it is final the transfer goes on, with the time
    recorded both in the row and in memory the first time. *)
Theorem CheckSendFinality_gate p l t c r b w w' o :
  healthy → w_heap w !! l = Some t → env_clients !! SourceChainID t = Some c →
  answers (IsTxFinalized c (SourceTxHash t) (csf_sourceFinalityOffset p)) (Ret b) →
  db.row (update_key t) (w_db w) = Some r →
  CheckSendFinalityProcessor_Process p l w = (o, w') →
  if b then
    o = Ret l ∧
    match SourceTxFinalizedTime t with
    | Some _ => w_db w' = w_db w ∧ w_heap w' = w_heap w
    | None => ∃ time r', w_heap w' = <[l := with_SourceTxFinalizedTime (Some time) t]> (w_heap w) ∧
        db.row (update_key t) (w_db w') = Some r' ∧ db.SourceTxFinalizedTime r' = Some time
    end
  else o = Fail (Sentinel ErrSendNotFinalized) ∧ w_db w' = w_db w ∧ w_heap w' = w_heap w.
Proof.
  intros Hh Hl Hc Ha Hr Hrun. destruct w as [x d h mt lg]; simpl in *.
  by_running Hrun. unfold CheckSendFinalityProcessor_Process. wp_known; simpl in *.
  all: unfold GetSourceTxFinalizedTime in *; destruct b; try discriminate.
  - done.
  - destruct (SourceTxFinalizedTime t); [discriminate|]. split; [done|].
    rewrite (alter_known _ _ t) by done. eexists _, _. split; [done|].
    split; [by eapply row_after; eauto with dbquery|done].
  - by destruct (SourceTxFinalizedTime t).
Qed.

(** What [CheckWriteAckFinality] writes never reaches the row of the
    transfer: the update is issued without the key columns, so no row
    matches. In every run from a well-formed database the tables are
    unchanged, although the processor, when it succeeds, has set the finalized
    time in memory. *)
Theorem CheckWriteAckFinality_row_untouched p l t w w' o :
  db_wf (w_db w) → w_heap w !! l = Some t →
  CheckWriteAckFinalityProcessor_Process p l w = (o, w') →
  w_db w' = w_db w ∧
  (o = Ret l → ∃ t', w_heap w' = <[l := t']> (w_heap w) ∧ is_Some (WriteAckTxFinalizedTime t')).
Proof.
  intros Hwf Hl Hrun. destruct w as [x d h mt lg]; simpl in *.
  assert (∀ time now, db.UpdateTransferWriteAckTxFinalizedTime time db.zero_key now d = d) as Hz.
  { intros. apply (db.row_update_absent (db.UpdateTransferWriteAckTxFinalizedTime_row_update _ _ _)).
    by apply wf_zero_row. }
  by_running Hrun. unfold CheckWriteAckFinalityProcessor_Process. wp_known; simpl in *;
    (split; [rewrite ?Hz; done|]); try done; intros _.
  - rewrite (alter_known _ _ t) by done. by eexists.
  - exists t. rewrite insert_id by done. split; [done|].
    unfold GetWriteAckTxFinalizedTime in *. by destruct (WriteAckTxFinalizedTime t).
Qed.

(** The row once a write acknowledgement with the status [s] is recorded. *)
Definition write_acked (t t' : IBCV2Transfer) (r' : db.Ibcv2Transfer) (hash : string)
    (s : db.Ibcv2WriteAckStatus) : Prop :=
  WriteAckTxHash t' = Some hash ∧ WriteAckStatus t' = Some s ∧ RecvTxHash t' = Some hash ∧
  db.WriteAckTxHash r' = Some hash ∧ db.WriteAckStatus r' = Some s ∧
  db.Status r' = State t.

Lemma record_write_ack_spec l t r hash s (x : X) d h mt lg :
  healthy → h !! l = Some t → RecvTxHash t = Some hash →
  db.row (update_key t) d = Some r → synced t r →
  wp (record_write_ack l t hash s)
    (λ o w, o = Ret l ∧ ∃ t' r', w_heap w = <[l := t']> h ∧
       db.row (update_key t) (w_db w) = Some r' ∧ write_acked t t' r' hash s)
    (mkWorld x d h mt lg).
Proof.
  intros Hh Hl Hhash Hr Hs. unfold record_write_ack. wp_known; simpl; (split; [done|]);
    rewrite (alter_known _ _ t) by done; eexists _, _; (split; [done|]);
    (split; [by eapply row_after; eauto with dbquery|]);
    split_and!; try done; by rewrite (sync_State _ _ Hs).
Qed.

(** The write acknowledgement of a delivered packet. A status the chain
    reports is recorded, with the recv transaction as its transaction; an
    acknowledgement that cannot be decoded is recorded as [UNKNOWN]; when the
    recv transaction holds no acknowledgement for the packet, the recv
    transaction is forgotten, so that the packet is delivered again; any other
    error leaves the row as it is. *)
Theorem WaitForWriteAck_branches l t c r hash answer w w' o :
  healthy → w_heap w !! l = Some t → env_clients !! DestinationChainID t = Some c →
  RecvTxHash t = Some hash → db.row (update_key t) (w_db w) = Some r → synced t r →
  answers (PacketWriteAckStatus c hash (uint64 (PacketSequenceNumber t))
    (PacketSourceClientID t) (PacketDestinationClientID t)) answer →
  WaitForWriteAckPacket_Process l w = (o, w') →
  match answer with
  | Ret s => o = Ret l ∧ ∃ t' r', w_heap w' = <[l := t']> (w_heap w) ∧
      db.row (update_key t) (w_db w') = Some r' ∧ write_acked t t' r' hash s
  | Fail e =>
      if errors_Is e ErrWriteAckNotFoundForPacket then
        (∃ e', o = Fail e') ∧ w_heap w' = w_heap w ∧
        ∃ r', db.row (update_key t) (w_db w') = Some r' ∧
          db.RecvTxHash r' = None ∧ db.RecvTxTime r' = None
      else if errors_Is e ErrWriteAckDecoding then
        o = Ret l ∧ ∃ t' r', w_heap w' = <[l := t']> (w_heap w) ∧
          db.row (update_key t) (w_db w') = Some r' ∧
          write_acked t t' r' hash db.Ibcv2WriteAckStatusUNKNOWN
      else (∃ e', o = Fail e') ∧ w_db w' = w_db w ∧ w_heap w' = w_heap w
  | Panic => o = Panic ∧ w_db w' = w_db w
  end.
Proof.
  intros Hh Hl Hc Hhash Hr Hs Ha Hrun. destruct w as [x d h mt lg]; simpl in *.
  by_running Hrun. unfold WaitForWriteAckPacket_Process, GetRecvTxHash.
  wp_step. eapply wp_load; [done|]. simpl. rewrite Hhash. wp_known.
  destruct answer as [s|e|]; simpl; [eapply record_write_ack_spec; eassumption| |done].
  destruct (errors_Is e ErrWriteAckNotFoundForPacket); [|destruct (errors_Is e ErrWriteAckDecoding)];
    simpl.
  - wp_known; simpl. split; [by eauto|]. split; [done|]. eexists.
    split; [by eapply row_after; eauto with dbquery|done].
  - wp_step. apply wp_logger. intros lg'. simpl. eapply record_write_ack_spec; eassumption.
  - wp_known. by eauto.
Qed.

(** A recv transaction the destination chain asks to retry is forgotten:
    the processor errs, the row keeps neither its hash nor its time, and the
    transfer that the dispatcher reads from the row next is one the batch recv
    stage takes, unless the packet has timed out meanwhile. *)
Theorem RetryRecv_eligible_again p l t c r hash time b w w' o :
  healthy → w_heap w !! l = Some t →
  env_clients !! retry_recv_destinationChainID p = Some c →
  RecvTxHash t = Some hash → RecvTxTime t = Some time →
  db.row (update_key t) (w_db w) = Some r → synced t r →
  answers (ShouldRetryTx c hash RetryRecvExpiry time) (Ret b) →
  RetryRecvPacketProcessor_Process p l w = (o, w') →
  w_heap w' = w_heap w ∧
  if b then
    o = Fail (Sentinel ErrRetryingRecvPacket) ∧
    ∃ r', db.row (update_key t) (w_db w') = Some r' ∧ db.Status r' = State t ∧
      ∀ l2 w2, w_heap w2 !! l2 = Some (NewIBCV2Transfer r') →
        (BatchRecvPacketProcessor_ShouldProcess l2 w2).1 =
        Ret (negb (IsTimedOut (env_Now (w_ext w2)).1 (NewIBCV2Transfer r')))
  else o = Ret l ∧ w_db w' = w_db w.
Proof.
  intros Hh Hl Hc Hhash Htime Hr Hs Ha Hrun. destruct w as [x d h mt lg]; simpl in *.
  by_running Hrun. unfold RetryRecvPacketProcessor_Process, GetRecvTxHash, GetRecvTxTime.
  wp_step. eapply wp_load; [done|]. simpl. rewrite Hhash, Htime. wp_known;
    destruct b; try discriminate; simpl; (split; [done|]); (split; [done|]); [done|].
  eexists. split; [by eapply row_after; eauto with dbquery|].
  split; [by rewrite (sync_State _ _ Hs)|]. intros l2 [x2 d2 h2 mt2 lg2] Hl2. simpl in *.
  unfold BatchRecvPacketProcessor_ShouldProcess, mbind, M_bind, load. simpl.
  rewrite Hl2. simpl. by destruct (env_Now x2).
Qed.

(** A packet that is already on the destination chain is not delivered a
    second time: the existing transaction is adopted as the transfer's recv
    transaction, in the row and in memory, and the batch recv stage then
    passes the transfer by. *)
Theorem CheckRecvPacketDelivery_adopts l t c r tx w w' o :
  healthy → w_heap w !! l = Some t → env_clients !! DestinationChainID t = Some c →
  db.row (update_key t) (w_db w) = Some r →
  answers (IsPacketReceived c (PacketDestinationClientID t) (uint64 (PacketSequenceNumber t)))
    (Ret true) →
  answers (FindRecvTx c (PacketSourceClientID t) (PacketDestinationClientID t)
    (uint64 (PacketSequenceNumber t)) (PacketTimeoutTimestamp t)) (Ret (Some tx)) →
  CheckRecvPacketDeliveryProcessor_Process l w = (o, w') →
  o = Ret l ∧
  (∃ t' r', w_heap w' = <[l := t']> (w_heap w) ∧ RecvTxHash t' = Some (Hash tx) ∧
     db.row (update_key t) (w_db w') = Some r' ∧ db.RecvTxHash r' = Some (Hash tx) ∧
     db.RecvTxTime r' = Some (Timestamp tx)) ∧
  (BatchRecvPacketProcessor_ShouldProcess l w').1 = Ret false.
Proof.
  intros Hh Hl Hc Hr Hrec Hfind Hrun. destruct w as [x d h mt lg]; simpl in *.
  by_running Hrun. unfold CheckRecvPacketDeliveryProcessor_Process. wp_known; simplify_eq/=.
  rewrite (alter_known _ _ t) by done. split; [done|]. split.
  - eexists _, _. split; [done|]. split; [done|].
    by split; [eapply row_after; eauto with dbquery|].
  - unfold BatchRecvPacketProcessor_ShouldProcess, mbind, M_bind, load. simpl.
    by rewrite lookup_insert_eq.
Qed.

(** A packet whose commitment is gone from the source chain has been
    acknowledged or timed out there. The processor records whichever
    transaction it finds, in the row and in memory, and errs when it finds
    both or neither. The order in which the two searches run does not
    matter. *)
Theorem CheckPacketCommitment_outcomes l t c r committed ack timeout w w' o :
  healthy → w_heap w !! l = Some t → env_clients !! SourceChainID t = Some c →
  db.row (update_key t) (w_db w) = Some r →
  answers (IsPacketCommitted c (PacketSourceClientID t) (uint64 (PacketSequenceNumber t)))
    (Ret committed) →
  answers (FindAckTx c (PacketSourceClientID t) (PacketDestinationClientID t)
    (uint64 (PacketSequenceNumber t)))
    (from_option (λ tx, Ret (Some tx)) (Fail (Sentinel ErrTxNotFound)) ack) →
  answers (FindTimeoutTx c (PacketSourceClientID t) (PacketDestinationClientID t)
    (uint64 (PacketSequenceNumber t)))
    (from_option (λ tx, Ret (Some tx)) (Fail (Sentinel ErrTxNotFound)) timeout) →
  CheckPacketCommitmentProcessor_Process l w = (o, w') →
  if committed then o = Ret l ∧ w_db w' = w_db w ∧ w_heap w' = w_heap w
  else
    match ack, timeout with
    | Some tx, None => o = Ret l ∧ ∃ t' r', w_heap w' = <[l := t']> (w_heap w) ∧
        AckTxHash t' = Some (Hash tx) ∧ TimeoutTxHash t' = TimeoutTxHash t ∧
        db.row (update_key t) (w_db w') = Some r' ∧ db.AckTxHash r' = Some (Hash tx)
    | None, Some tx => o = Ret l ∧ ∃ t' r', w_heap w' = <[l := t']> (w_heap w) ∧
        TimeoutTxHash t' = Some (Hash tx) ∧ AckTxHash t' = AckTxHash t ∧
        db.row (update_key t) (w_db w') = Some r' ∧ db.TimeoutTxHash r' = Some (Hash tx)
    | _, _ => (∃ e, o = Fail e) ∧ w_db w' = w_db w ∧ w_heap w' = w_heap w
    end.
Proof.
  intros Hh Hl Hc Hr Hcom Hack Htimeout Hrun. destruct w as [x d h mt lg]; simpl in *.
  by_running Hrun. unfold CheckPacketCommitmentProcessor_Process, find_ack_and_timeout_txs,
    find_ack_tx, find_timeout_tx, find_tx.
  destruct committed; [wp_known; done|].
  destruct ack as [ack|], timeout as [timeout|]; simpl in *; wp_known; simplify_eq/=;
     try (by eauto);
    rewrite (alter_known _ _ t) by done; (split; [done|]); eexists _, _; (split; [done|]);
    (split; [done|]); (split; [done|]); by split; [eapply row_after; eauto with dbquery|].
Qed.

(** A row in a terminal state is not returned by the dispatcher's query. *)
Lemma terminal_not_unfinished k r d now rows d' :
  db.index_ok d → db.row k d = Some r → db.unfinished (db.Status r) = false →
  db.GetUnfinishedIBCV2Transfers now d = (Ret rows, d') → k ∉ map db.row_key rows.
Proof.
  intros Hi Hr Hu [= <- <-] (r2 & -> & [Hu2 Hin]%list_elem_of_filter)%list_elem_of_fmap.
  apply (db.row_unique _ _ Hi) in Hin. congruence.
Qed.

Lemma complete_final_state success error t r :
  IsComplete success error t = true → synced t r → row_ok r → is_Some (final_state t).
Proof.
  intros Hc Hs Hok. apply IsComplete_iff in Hc as [_ Hc]. unfold final_state.
  destruct (TimeoutTxHash t); [by eauto|]. simpl.
  destruct Hc as [[? ?]|(_ & [h Hw] & _)]; [done|].
  rewrite (sync_WriteAckTxHash _ _ Hs) in Hw.
  destruct (ok_write_ack _ Hok h Hw) as [_ [st Hst]].
  rewrite (sync_WriteAckStatus _ _ Hs), Hst. repeat split_match; by eauto.
Qed.

(** The row and the transfer are in the state [s], for good. *)
Definition finished (t : IBCV2Transfer) (s : db.Ibcv2RelayStatus) (d : db.Database) : Prop :=
  ∃ r, db.row (update_key t) d = Some r ∧ db.Status r = s ∧
    ∀ now rows d', db.GetUnfinishedIBCV2Transfers now d = (Ret rows, d') →
      update_key t ∉ map db.row_key rows.

Lemma finish_state_finished l t r s (x : X) d h mt lg :
  healthy → db_wf d → db.row (update_key t) d = Some r → db.unfinished s = false →
  wp (finish_state l) (λ o w, o = Ret l ∧ w_heap w = <[l := with_State s t]> h ∧
    finished t s (w_db w)) (mkWorld x d (<[l := with_State s t]> h) mt lg).
Proof.
  intros Hh Hwf Hr Hu. unfold finish_state. wp_step.
  eapply wp_load; [simpl; by rewrite lookup_insert_eq|]. wp_known; simpl.
  split; [done|]. split; [done|].
  pose proof (db.UpdateTransferState_row_update s (update_key t) now) as Hq.
  eexists. split; [exact (row_after _ _ _ _ _ Hq Hr)|]. split; [done|]. intros now2 rows d2.
  eapply terminal_not_unfinished; [apply (db.row_update_index_ok Hq), Hwf|
    exact (row_after _ _ _ _ _ Hq Hr)|done].
Qed.

(** The finisher on a live transfer. *)
Lemma StateFinisher_spec f l t r (x : X) d h mt lg :
  healthy → db_wf d → h !! l = Some t → ProcessingError t = None →
  db.row (update_key t) d = Some r → synced t r →
  wp (StateFinisher_Process f l) (λ o w, o = Ret l ∧
    if IsComplete (sf_shouldRelaySuccessAcks f) (sf_shouldRelayErrorAcks f) t then
      ∃ s, final_state t = Some s ∧ w_heap w = <[l := with_State s t]> h ∧
        finished t s (w_db w)
    else w_db w = d ∧ w_heap w = h) (mkWorld x d h mt lg).
Proof.
  intros Hh Hwf Hl He Hr Hs. unfold StateFinisher_Process. wp_step. eapply wp_load; [done|]. simpl.
  rewrite (Error_empty t He). simpl. wp_step. apply IsComplete_logged_wp. intros lg1. simpl.
  destruct (IsComplete _ _ t) eqn:Hc; simpl; [|wp_known; done].
  destruct (complete_final_state _ _ t r Hc Hs (wf_rows _ Hwf _ _ Hr)) as [s Hf].
  assert (∀ x mt lg, wp (finish_state l) (λ o w, o = Ret l ∧
    ∃ s, final_state t = Some s ∧ w_heap w = <[l := with_State s t]> h ∧
      finished t s (w_db w)) (mkWorld x d (<[l := with_State s t]> h) mt lg)) as Hend.
  { intros. eapply wp_mono; [|eapply finish_state_finished; eauto using final_state_terminal].
    intros o w (? & ? & ?). by eauto. }
  unfold final_state in Hf. unfold GetTimeoutTxHash, GetWriteAckStatus, GetAckTxHash.
  destruct (has (TimeoutTxHash t)); simplify_eq/=.
  { wp_known. rewrite (alter_known _ _ t) by done. apply Hend. }
  destruct (WriteAckStatus t) as [st|]; [|done].
  destruct (has (AckTxHash t)); simplify_eq/=.
  { wp_known. rewrite (alter_known _ _ t) by done. apply Hend. }
  destruct st; simplify_eq/=; wp_known; rewrite (alter_known _ _ t) by done; apply Hend.
Qed.

(** C14: the state finisher ends exactly the transfers that are complete. A
    complete transfer's row is given the terminal state that belongs to how
    the packet ended (timed out, acknowledged, or done without an
    acknowledgement to relay), and the dispatcher does not pick the row up
    again; a transfer that is not complete is passed on unchanged. *)
Theorem StateFinisher_finishes f l t r w w' o :
  healthy → db_wf (w_db w) → w_heap w !! l = Some t → ProcessingError t = None →
  db.row (update_key t) (w_db w) = Some r → synced t r →
  StateFinisher_Process f l w = (o, w') →
  o = Ret l ∧
  if IsComplete (sf_shouldRelaySuccessAcks f) (sf_shouldRelayErrorAcks f) t then
    ∃ s, final_state t = Some s ∧ w_heap w' = <[l := with_State s t]> (w_heap w) ∧
      finished t s (w_db w')
  else w_db w' = w_db w ∧ w_heap w' = w_heap w.
Proof.
  intros Hh Hwf Hl He Hr Hs Hrun. destruct w as [x d h mt lg]; simpl in *.
  by_running Hrun. by apply (StateFinisher_spec f l t r).
Qed.

(** The stages agree on which acknowledgements are relayed. For a
    delivered packet with a known write acknowledgement that has not timed
    out, the batch ack stage takes the transfer exactly when the finisher
    would not call it complete, and the finality check before it runs exactly
    when the configuration asks for this kind of acknowledgement. *)
Theorem ack_stages_agree p q l t st w :
  w_heap w !! l = Some t → ProcessingError t = None → is_Some (RecvTxHash t) →
  is_Some (WriteAckTxHash t) → WriteAckStatus t = Some st → TimeoutTxHash t = None →
  cwf_shouldRelaySuccessAcks q = ack_shouldRelaySuccessAcks p →
  cwf_shouldRelayErrorAcks q = ack_shouldRelayErrorAcks p →
  (BatchAckPacketProcessor_ShouldProcess p l w).1 =
    Ret (negb (IsComplete (ack_shouldRelaySuccessAcks p) (ack_shouldRelayErrorAcks p) t)) ∧
  (CheckWriteAckFinalityProcessor_ShouldProcess q l w).1 =
    Ret (ack_required (ack_shouldRelaySuccessAcks p) (ack_shouldRelayErrorAcks p) st).
Proof.
  intros Hl He [rh Hrh] [wh Hwh] Hst Hto Hq1 Hq2.
  unfold BatchAckPacketProcessor_ShouldProcess, CheckWriteAckFinalityProcessor_ShouldProcess,
    IsComplete, ack_required, GetWriteAckTxHash, GetWriteAckStatus, GetAckTxHash,
    GetTimeoutTxHash, GetRecvTxHash, mbind, M_bind, load.
  rewrite Hl, He, Hrh, Hwh, Hst, Hto, Hq1, Hq2. simpl.
  by destruct st, (ack_shouldRelaySuccessAcks p), (ack_shouldRelayErrorAcks p), (AckTxHash t).
Qed.

(** At one instant a transfer is not both due to be delivered and due to
    be timed out, and one for which nothing has been submitted yet is due for
    exactly one of the two. *)
Theorem recv_or_timeout l t w :
  w_heap w !! l = Some t →
  ∃ br bt, (BatchRecvPacketProcessor_ShouldProcess l w).1 = Ret br ∧
    (BatchTimeoutPacketProcessor_ShouldProcess l w).1 = Ret bt ∧
    (br = true → bt = false) ∧
    (RecvTxHash t = None → AckTxHash t = None → TimeoutTxHash t = None → bt = negb br).
Proof.
  intros Hl. destruct w as [x d h mt lg]; simpl in *.
  unfold BatchRecvPacketProcessor_ShouldProcess, BatchTimeoutPacketProcessor_ShouldProcess,
    GetRecvTxHash, GetAckTxHash, GetTimeoutTxHash, mbind, M_bind, load, Now. simpl.
  rewrite Hl. destruct (RecvTxHash t) as [rh|]; simpl; destruct (env_Now x) as [now x1]; simpl;
    eexists _, _; (split; [done|]); (split; [done|]).
  - split; [done|by intros [=]].
  - destruct (IsTimedOut now t), (AckTxHash t), (TimeoutTxHash t); by split.
Qed.
End specs.

(** ** The theorems applied *)

Definition demo_loc : loc := 1%positive.

Definition demo_answers (received committed finalized retry : bool)
    (write_ack : outcome db.Ibcv2WriteAckStatus) : demo.setup :=
  demo.mkSetup received committed finalized retry write_ack "0xAB" [] None.

Lemma demo_answers_healthy received committed finalized retry write_ack :
  @healthy Z (demo.env (demo_answers received committed finalized retry write_ack)).
Proof. done. Defined.

Lemma demo_always {A} (o : outcome A) : answers (demo.always o) o.
Proof. intros x. by eexists. Defined.

Lemma demo_synced r :
  db.row_key r = db.row_key demo.row_pending → synced (NewIBCV2Transfer r) r.
Proof. intros Hk. apply NewIBCV2Transfer_synced. by injection Hk as _ _ ->. Defined.

Lemma CheckSendFinality_gate_witness :
  (CheckSendFinalityProcessor_Process (E := demo.env (demo_answers false true false false Panic))
     (mkCheckSendFinalityProcessor "chain-a" (Some 5)) demo_loc (demo.world demo.row_pending 0)).1
  = Fail (Sentinel ErrSendNotFinalized).
Proof.
  exact (proj1 (CheckSendFinality_gate (E := demo.env (demo_answers false true false false Panic))
    (mkCheckSendFinalityProcessor "chain-a" (Some 5)) demo_loc demo.transfer _ demo.row_pending false
    (demo.world demo.row_pending 0) _ _ (demo_answers_healthy _ _ _ _ _) eq_refl eq_refl (demo_always _) eq_refl
    (surjective_pairing _))).
Defined.

Lemma CheckWriteAckFinality_row_untouched_witness :
  w_db (CheckWriteAckFinalityProcessor_Process
    (E := demo.env (demo_answers false true true false Panic))
    (mkCheckWriteAckFinalityProcessor "chain-b" true true (Some 5)) demo_loc
    (demo.world demo.row_acked 0)).2 = demo.database demo.row_acked.
Proof.
  exact (proj1 (CheckWriteAckFinality_row_untouched
    (E := demo.env (demo_answers false true true false Panic))
    (mkCheckWriteAckFinalityProcessor "chain-b" true true (Some 5)) demo_loc
    (NewIBCV2Transfer demo.row_acked) (demo.world demo.row_acked 0) _ _ demo.row_acked_wf eq_refl
    (surjective_pairing _))).
Defined.

Lemma WaitForWriteAck_branches_witness :
  (WaitForWriteAckPacket_Process (E := demo.env (demo_answers true true true false
     (Fail (Sentinel ErrWriteAckDecoding)))) demo_loc (demo.world demo.row_recv 0)).1 =
  Ret demo_loc.
Proof.
  exact (proj1 (WaitForWriteAck_branches (E := demo.env (demo_answers true true true false
    (Fail (Sentinel ErrWriteAckDecoding)))) demo_loc (NewIBCV2Transfer demo.row_recv) _
    demo.row_recv "0xbeef" (Fail (Sentinel ErrWriteAckDecoding)) (demo.world demo.row_recv 0) _ _
    (demo_answers_healthy _ _ _ _ _) eq_refl eq_refl eq_refl eq_refl (demo_synced demo.row_recv eq_refl)
    (demo_always _) (surjective_pairing _))).
Defined.

Lemma RetryRecv_eligible_again_witness :
  (RetryRecvPacketProcessor_Process (E := demo.env (demo_answers true true true true Panic))
     (mkRetryRecvPacketProcessor "chain-b") demo_loc (demo.world demo.row_recv 0)).1 =
  Fail (Sentinel ErrRetryingRecvPacket).
Proof.
  exact (proj1 (proj2 (RetryRecv_eligible_again
    (E := demo.env (demo_answers true true true true Panic))
    (mkRetryRecvPacketProcessor "chain-b") demo_loc (NewIBCV2Transfer demo.row_recv) _
    demo.row_recv "0xbeef" 3 true (demo.world demo.row_recv 0) _ _ (demo_answers_healthy _ _ _ _ _)
    eq_refl eq_refl eq_refl eq_refl eq_refl (demo_synced demo.row_recv eq_refl) (demo_always _)
    (surjective_pairing _)))).
Defined.

Lemma CheckRecvPacketDelivery_adopts_witness :
  (CheckRecvPacketDeliveryProcessor_Process
     (E := demo.env (demo_answers true true true false Panic)) demo_loc
     (demo.world demo.row_pending 0)).1 = Ret demo_loc.
Proof.
  exact (proj1 (CheckRecvPacketDelivery_adopts
    (E := demo.env (demo_answers true true true false Panic)) demo_loc demo.transfer _ demo.row_pending
    (demo.tx "0xbeef" 7) (demo.world demo.row_pending 0) _ _ (demo_answers_healthy _ _ _ _ _) eq_refl eq_refl
    eq_refl (demo_always _) (demo_always _) (surjective_pairing _))).
Defined.

Lemma CheckPacketCommitment_outcomes_witness :
  (CheckPacketCommitmentProcessor_Process
     (E := demo.env (demo_answers true false true false Panic)) demo_loc
     (demo.world demo.row_pending 0)).1 = Ret demo_loc.
Proof.
  exact (proj1 (CheckPacketCommitment_outcomes
    (E := demo.env (demo_answers true false true false Panic)) demo_loc demo.transfer _ demo.row_pending
    false (Some (demo.tx "0xacac" 8)) None (demo.world demo.row_pending 0) _ _ (demo_answers_healthy _ _ _ _ _)
    eq_refl eq_refl eq_refl (demo_always _) (demo_always _) (demo_always _)
    (surjective_pairing _))).
Defined.

Lemma StateFinisher_finishes_witness : ∃ r,
  db.row (update_key (NewIBCV2Transfer demo.row_acked))
    (w_db (StateFinisher_Process (E := demo.env (demo_answers true true true false Panic))
       (mkStateFinisher false true) demo_loc (demo.world demo.row_acked 0)).2) = Some r ∧
  db.Status r = db.Ibcv2RelayStatusCOMPLETEWITHWRITEACKSUCCESS.
Proof.
  destruct (StateFinisher_finishes (E := demo.env (demo_answers true true true false Panic))
    (mkStateFinisher false true) demo_loc (NewIBCV2Transfer demo.row_acked) demo.row_acked
    (demo.world demo.row_acked 0) _ _ (demo_answers_healthy _ _ _ _ _) demo.row_acked_wf eq_refl eq_refl
    eq_refl (demo_synced demo.row_acked eq_refl) (surjective_pairing _))
    as (_ & s & [= <-] & _ & r & Hr & Hs & _).
  exists r. split; [exact Hr|exact Hs].
Defined.

Lemma ack_stages_agree_witness :
  (BatchAckPacketProcessor_ShouldProcess (X := Z)
     (mkBatchAckPacketProcessor (mkBatchPacketProcessor "chain-a" "client-a" "chain-b" "client-b")
        true true) demo_loc (demo.world demo.row_acked 0)).1 = Ret true.
Proof.
  exact (proj1 (ack_stages_agree
    (mkBatchAckPacketProcessor (mkBatchPacketProcessor "chain-a" "client-a" "chain-b" "client-b")
       true true) (mkCheckWriteAckFinalityProcessor "chain-b" true true None) demo_loc
    (NewIBCV2Transfer demo.row_acked) db.Ibcv2WriteAckStatusSUCCESS (demo.world demo.row_acked 0)
    eq_refl eq_refl (mk_is_Some _ _ eq_refl) (mk_is_Some _ _ eq_refl) eq_refl eq_refl eq_refl
    eq_refl)).
Defined.

Lemma recv_or_timeout_witness :
  (BatchRecvPacketProcessor_ShouldProcess (E := demo.env demo.good) demo_loc
     (demo.world demo.row_pending 0)).1 = Ret true ∧
  (BatchTimeoutPacketProcessor_ShouldProcess (E := demo.env demo.good) demo_loc
     (demo.world demo.row_pending 0)).1 = Ret false.
Proof.
  destruct (recv_or_timeout (E := demo.env demo.good) demo_loc demo.transfer
    (demo.world demo.row_pending 0) eq_refl) as (br & bt & Hr & Ht & H & _).
  assert (br = true) as -> by (vm_compute in Hr; congruence).
  rewrite Hr, Ht, (H eq_refl). done.
Defined.
