(* ===== verification/StageSpecs.v ===== *)
(** * The middleware, the batches and the transaction *)
From stdpp Require Import prelude strings list gmap.
From Stdlib Require Import ZArith.
From S2P Require Import Prelude Go Config Db Transfer World Wp TransferMetrics Processors Laws.
From S2P Require Import ProcessorMW MWLaws Batch BatchLaws PipelineOpts Pipeline System Demo.
Open Scope Z_scope.

Section middleware_specs.
Context {X : Type} {E : Env X}.
Implicit Types w : World X.

(** C11: every stage of every pipeline keeps its contract: each of the twelve
    processors [ProcessorLaws], each of the three batch processors
    [BatchProcessorLaws]; and only the last stage finishes transfers. *)
Theorem pipeline_stages_lawful sourceChainID sourceClientID destinationChainID
    destinationClientID (opts : PipelineOptions) :
  lawful_stages (NewPipeline (X := X) sourceChainID sourceClientID destinationChainID
    destinationClientID opts).
Proof. apply NewPipeline_laws. Qed.

(** C9: the middleware around any processor that keeps the contract. From a
    well-formed database and a transfer that is attached to its row it changes
    no other row and no other transfer, keeps the database well formed, and
    returns the transfer it was given, again attached to its row: synced with
    it, or carrying an error. An error that was there stays. The only error
    the middleware returns itself is a cancelled context. *)
Theorem middleware_contract (p : IBCV2Processor X) (Hp : ProcessorLaws p) l t w w' o :
  db_wf (w_db w) → w_heap w !! l = Some t → attached (w_db w) t →
  IBCV2ProcessorMW_Process p (Some l) w = (o, w') →
  db_wf (w_db w') ∧
  (∀ k, k ≠ update_key t → db.row k (w_db w') = db.row k (w_db w)) ∧
  ∃ t', w_heap w' = <[l := t']> (w_heap w) ∧ same_packet t t' ∧
    (is_Some (ProcessingError t) → is_Some (ProcessingError t')) ∧
    match o with
    | Ret out => out = Some l ∧ attached (w_db w') t'
    | Fail e => errors_Is e ContextCanceled = true
    | Panic => True
    end.
Proof.
  intros Hwf Hl Ha Hrun. destruct w as [x d h mt lg]; simpl in *.
  destruct (wp_run _ _ _ _ _ Hrun (IBCV2ProcessorMW_Process_post p l t x d h mt lg Hl Hwf Ha))
    as (Hloc & Hwf' & Hrest).
  split; [done|]. split; [|done]. intros k Hk. by apply (local_row_ne (update_key t)).
Qed.

(** The test for a nil transfer comes after the transfer has been read:
    for a nil input the middleware panics instead of returning it. *)
Theorem middleware_nil_panics (p : IBCV2Processor X) w :
  IBCV2ProcessorMW_Process p None w = (Panic, w).
Proof. done. Qed.

(** A database transaction is all or nothing: when [ExecTx] returns an
    error, either both tables are what they were, or the statements run inside
    it all succeeded, their effects are in place and only the answer to the
    [COMMIT] was lost. *)
Theorem ExecTx_atomic (fn : M X unit) w w' e :
  ExecTx fn w = (Fail e, w') →
  db.ibcv2_transfers (w_db w') = db.ibcv2_transfers (w_db w) ∧
    db.ibcv2_relay_submissions (w_db w') = db.ibcv2_relay_submissions (w_db w) ∨
  ∃ x, let '(o, w1) := fn (mkWorld x (w_db w) (w_heap w) (w_metrics w) (w_log w)) in
    is_Ret o = true ∧ w_db w' = w_db w1.
Proof.
  intros Hrun. destruct w as [x d h mt lg]; simpl.
  apply (wp_run _ (λ o w', match o with Fail _ =>
    db.ibcv2_transfers (w_db w') = db.ibcv2_transfers d ∧
      db.ibcv2_relay_submissions (w_db w') = db.ibcv2_relay_submissions d ∨
    ∃ x, let '(o, w1) := fn (mkWorld x d h mt lg) in is_Ret o = true ∧ w_db w' = w_db w1
    | _ => True end) _ _ _ Hrun). clear Hrun.
  apply wp_ExecTx; [by left|]. intros x'. unfold wp.
  destruct (fn _) as [[[]|e'|] [x1 d1 h1 mt1 lg1]] eqn:Hfn; simpl; [|by left|done].
  split_and!; [done| |by left]. intros _ x2. right. exists x'. by rewrite Hfn.
Qed.
End middleware_specs.

(** ** The three batch processors *)

(** Which of the three, with the flags of the ack processor. *)
Inductive batch_kind :=
  | RecvBatch
  | AckBatch (shouldRelaySuccessAcks shouldRelayErrorAcks : bool)
  | TimeoutBatch.

Section batch_specs.
Context {X : Type} {E : Env X}.
Context (kind : batch_kind) (sc si dc di : string).
Implicit Types w : World X.

Definition kind_processor : IBCV2BatchProcessor X :=
  match kind with
  | RecvBatch => NewBatchRecvPacketProcessor sc si dc di
  | AckBatch s e => NewBatchAckPacketProcessor sc si dc di s e
  | TimeoutBatch => NewBatchTimeoutPacketProcessor sc si dc di
  end.

(** The chain the batch is delivered to: a recv goes to the destination, an
    acknowledgement and a timeout go back to the source. *)
Definition kind_chain : string := match kind with RecvBatch => dc | _ => sc end.

(** What the proof relayer is asked for. *)
Definition kind_request (txIDs : list (list Z)) (seqs : list Z) : RelayByTxRequest :=
  match kind with
  | RecvBatch => mkRelayByTxRequest sc dc txIDs [] si di seqs []
  | AckBatch _ _ => mkRelayByTxRequest dc sc txIDs [] di si [] seqs
  | TimeoutBatch => mkRelayByTxRequest dc sc [] txIDs di si [] seqs
  end.

(** What is recorded of a delivered transaction in a row. *)
Definition kind_row (tx : BridgeTx) (now : Time) (r : db.Ibcv2Transfer) : db.Ibcv2Transfer :=
  let hash := Some (Hash tx) in
  let time := Some (Timestamp tx) in
  let relayer := Some (RelayerAddress tx) in
  let r := db.set_UpdatedAt (Some now) r in
  match kind with
  | RecvBatch => db.set_RecvTxRelayerAddress relayer (db.set_RecvTxTime time (db.set_RecvTxHash hash r))
  | AckBatch _ _ => db.set_AckTxRelayerAddress relayer (db.set_AckTxTime time (db.set_AckTxHash hash r))
  | TimeoutBatch =>
      db.set_TimeoutTxRelayerAddress relayer (db.set_TimeoutTxTime time (db.set_TimeoutTxHash hash r))
  end.

(** And in memory. *)
Definition kind_transfer (tx : BridgeTx) (t : IBCV2Transfer) : IBCV2Transfer :=
  match kind with
  | RecvBatch => with_RecvTxRelayerAddress (Some (RelayerAddress tx))
      (with_RecvTxTime (Some (Timestamp tx)) (with_RecvTxHash (Some (Hash tx)) t))
  | AckBatch _ _ => with_AckTxTime (Some (Timestamp tx)) (with_AckTxHash (Some (Hash tx)) t)
  | TimeoutBatch =>
      with_TimeoutTxTime (Some (Timestamp tx)) (with_TimeoutTxHash (Some (Hash tx)) t)
  end.

Lemma kind_processor_run ls (x : X) d h mt lg :
  (∀ l, l ∈ ls → is_Some (h !! l)) →
  wp (Batch_Process kind_processor ls)
    (batch_run ls kind_request kind_row kind_transfer kind_chain h d) (mkWorld x d h mt lg).
Proof.
  intros Hdom. unfold kind_processor, kind_request, kind_row, kind_transfer, kind_chain.
  destruct kind; simpl; eapply batch_body_run; try done; intros;
    by (apply wp_collect_send_txs || apply wp_collect_ack_txs).
Qed.

#[global] Instance kind_processor_laws : BatchProcessorLaws kind_processor.
Proof. unfold kind_processor. destruct kind; apply _. Defined.

(** The rest of a program decides, whatever its first half does. *)
Lemma wp_last {A B} (m : M X A) (k : A → M X B) (Q : outcome B → World X → Prop) w :
  (∀ e w', Q (Fail e) w') → (∀ w', Q Panic w') → (∀ a w', wp (k a) Q w') → wp (m ≫= k) Q w.
Proof.
  intros Hf Hp Hk. apply wp_bind. unfold wp. destruct (m w) as [[a|e|] w']; simpl; auto.
Qed.

Lemma kind_returns_batch : returns_batch kind_processor.
Proof.
  intros ls w w' out Hrun.
  assert (wp (Batch_Process kind_processor ls)
    (λ o _, match o with Ret out => out = ls | _ => True end) w) as Hwp;
    [|exact (wp_run _ _ _ _ _ Hrun Hwp)].
  unfold kind_processor. destruct kind; simpl; (apply wp_last; [done..|]);
    intros [txIDs seqs] w1; repeat (apply wp_last; [done..|intros ? ?]); by apply wp_ret.
Qed.

Lemma log_each_no_error msg ls (w : World X) : no_error (log_each msg ls w).1.
Proof.
  change (wp (log_each msg ls) (λ o _, no_error o) w). unfold log_each. revert w.
  induction ls as [|l ls IH]; intros w; simpl; [done|].
  do 2 apply wp_bind. unfold wp at 1, load. destruct (w_heap w !! l); simpl; [|done].
  destruct w as [x d h mt lg]. wp_step. apply IH.
Qed.

Lemma kind_tests_only_panic : tests_only_panic kind_processor.
Proof.
  unfold kind_processor. split; [|intros; destruct kind; apply log_each_no_error].
  intros l w. change (wp (Batch_ShouldProcess kind_processor l) (λ o _, no_error o) w).
  unfold kind_processor.
  destruct kind; simpl; apply wp_bind; unfold wp at 1, load;
    destruct (w_heap w !! l); simpl; try done; destruct w as [x d h mt lg]; by wp_go.
Qed.

Lemma set_live_key tx h h1 ls :
  (∀ l, l ∈ ls → h !! l = set_live (kind_transfer tx) <$> h1 !! l) →
  live_keys h ls = live_keys h1 ls.
Proof.
  intros Hset. unfold live_keys. apply list_omap_ext, Forall_Forall2_diag, Forall_forall.
  intros l Hl.
  unfold live_key. rewrite Hset by done. destruct (h1 !! l) as [t|]; [|done]. simpl.
  unfold set_live, has. destruct (ProcessingError t) eqn:He; simpl; [by rewrite He|].
  unfold kind_transfer. destruct kind; simpl; by rewrite He.
Qed.

(** C12: each of the three batch processors delivers all or nothing. When it
    succeeds it returns its batch, one transaction was delivered to the right
    chain, with the bytes the proof relayer returned, and the rows of exactly
    the transfers of the batch that carry no error have that transaction's
    hash, time and sender. When it fails, either both tables are what they
    were, or again exactly those rows have all been updated with one delivered
    transaction (the answer to the [COMMIT] was lost): never only some of
    them. When it panics the tables are what they were. *)
Theorem batch_all_or_nothing ls w w' o :
  (∀ l, l ∈ ls → is_Some (w_heap w !! l)) →
  Batch_Process kind_processor ls w = (o, w') →
  let unchanged := db.ibcv2_transfers (w_db w') = db.ibcv2_transfers (w_db w) ∧
    db.ibcv2_relay_submissions (w_db w') = db.ibcv2_relay_submissions (w_db w) in
  let recorded := ∃ tx txIDs seqs, delivered kind_chain (kind_request txIDs seqs) tx ∧
    rows_updated (kind_row tx) (live_keys (w_heap w') ls) (w_db w) (w_db w') in
  (∀ l, l ∉ ls → w_heap w' !! l = w_heap w !! l) ∧
  match o with
  | Ret out => out = ls ∧ recorded
  | Fail e => unchanged ∨ recorded
  | Panic => unchanged
  end.
Proof.
  intros Hdom Hrun. destruct w as [x d h mt lg]; simpl in *.
  destruct (wp_run _ _ _ _ _ Hrun (kind_processor_run ls x d h mt lg Hdom)) as (h1 & Hm & Ho).
  assert (∀ l, l ∉ ls → h1 !! l = h !! l) as Hout by (by intros l Hl; destruct (Hm l) as [?|[? _]]).
  assert (rollback d (w_db w') = w_db w' → db.ibcv2_transfers (w_db w') = db.ibcv2_transfers d ∧
    db.ibcv2_relay_submissions (w_db w') = db.ibcv2_relay_submissions d) as Hsame by (by intros <-).
  destruct o as [out|e|].
  - destruct Ho as (-> & tx & ((txIDs & seqs & Htx) & Hu) & Hother & Hset).
    split; [intros l Hl; rewrite Hother; auto|]. split; [done|]. exists tx, txIDs, seqs.
    by rewrite (set_live_key tx _ h1).
  - destruct Ho as (-> & _ & [?|(tx & (txIDs & seqs & Htx) & Hu)]);
      (split; [done|]); [left; auto|right; by exists tx, txIDs, seqs].
  - destruct Ho as [-> ?]. auto.
Qed.
End batch_specs.

Section middleware_specs_2.
Context {X : Type} {E : Env X}.
Implicit Types w : World X.

(** C13: a delivered recv batch shares one transaction, the one [DeliverTx] of
    the destination chain's client returned for the bytes of the proof
    relayer: every transfer of the batch that has not errored has the hash of
    that transaction as its recv hash, in memory and in its row, and its row
    has the transaction's time. *)
Theorem BatchRecv_records sc si dc di ls w w' out :
  db_wf (w_db w) →
  batch_in (λ t, RecvTxHash t = None) db.Ibcv2RelayStatusDELIVERRECVPACKET (w_db w)
    (w_heap w) ls →
  BatchRecvPacketProcessor_Process (mkBatchPacketProcessor sc si dc di) ls w = (Ret out, w') →
  out = ls ∧
  ∃ tx txIDs seqs, delivered dc (mkRelayByTxRequest sc dc txIDs [] si di seqs []) tx ∧
  ∀ l t', l ∈ ls → w_heap w' !! l = Some t' → ProcessingError t' = None →
    RecvTxHash t' = Some (Hash tx) ∧
    ∃ r, db.row (update_key t') (w_db w') = Some r ∧ db.RecvTxHash r = Some (Hash tx) ∧
      db.RecvTxTime r = Some (Timestamp tx).
Proof.
  intros Hwf Hin Hrun. destruct w as [x d h mt lg]; simpl in *.
  assert (∀ l, l ∈ ls → is_Some (h !! l)) as Hdom.
  { intros l Hl. destruct (Hin l Hl) as (t & Ht & _). eauto. }
  destruct (wp_run _ _ _ _ _ Hrun (law_bprocess (BatchProcessorLaws :=
    BatchRecvPacket_laws sc si dc di) ls x d h mt lg Hwf Hin)) as (_ & _ & _ & -> & Ha).
  split; [done|].
  destruct (wp_run _ _ _ _ _ Hrun (kind_processor_run RecvBatch sc si dc di ls x d h mt lg Hdom))
    as (h1 & Hm & _ & tx & ((txIDs & seqs & Htx) & _) & _ & Hset).
  exists tx, txIDs, seqs. split; [done|]. intros l t' Hl Ht' He.
  pose proof Ht' as Ht1. rewrite Hset in Ht1 by done.
  destruct (h1 !! l) as [t1|]; simplify_eq/=. unfold set_live, has in *.
  destruct (ProcessingError t1) eqn:Hp; simpl in *; [congruence|]. split; [done|].
  destruct (Ha l _ Hl Ht') as (r & Hr & _ & Hs). simpl in *. rewrite Hp in Hs. exists r.
  split; [done|]. by destruct Hs.
Qed.

(** C10: the batch middleware around any batch processor that keeps the
    contract. It drops no transfer of the batch and invents none: its output
    is the batch, in some order, with possibly some transfers repeated. A
    repeated transfer carries an error, and with a working database none is
    repeated. Afterwards every transfer of the batch
    is attached to its row, and no row of another packet has changed. *)
Theorem batch_middleware_output (p : IBCV2BatchProcessor X) (Hp : BatchProcessorLaws p)
    batch w w' o :
  batch_inv batch (w_db w) (w_heap w) →
  IBCV2BatchProcessorMW_Process p batch w = (o, w') →
  (∀ k, k ∉ live_keys (w_heap w) batch → db.row k (w_db w') = db.row k (w_db w)) ∧
  match o with
  | Ret out => batch_inv batch (w_db w') (w_heap w') ∧
      ∃ extra, out ≡ₚ batch ++ extra ∧ (healthy → extra = []) ∧
        ∀ l, l ∈ extra → l ∈ batch ∧ errored (w_heap w') l
  | Fail e => errors_Is e ContextCanceled = true
  | Panic => True
  end.
Proof.
  intros Hinv Hrun. destruct w as [x d h mt lg]; simpl in *.
  destruct (wp_run _ _ _ _ _ Hrun (IBCV2BatchProcessorMW_Process_post p batch x d h mt lg Hinv))
    as (Hw & _ & Ho).
  split; [|by destruct o as [|?|]; destruct_and?].
  intros k Hk. eapply within_row_ne; [done|apply Hinv|done].
Qed.

(** A transfer whose state update fails is put into both lists of the
    batch middleware. It is processed although its state was not written, and
    comes out twice. *)
Theorem batch_middleware_repeats (p : IBCV2BatchProcessor X) l t e w :
  (∀ x, (env_storage x).1 = Some e) → w_heap w !! l = Some t →
  ProcessingError t = None → State t ≠ db.Ibcv2RelayStatusFAILED →
  (∀ w, Batch_ShouldProcess p l w = (Ret true, w)) →
  (∀ err w, Batch_Cancel p [l] err w = (Ret tt, w)) →
  (∀ w, Batch_Process p [l] w = (Ret [l], w)) →
  ∃ w', IBCV2BatchProcessorMW_Process p [l] w = (Ret [l; l], w').
Proof.
  intros Hs Hl He Hst Hshould Hcancel Hproc. destruct w as [x d h mt lg]; simpl in *.
  assert (wp (IBCV2BatchProcessorMW_Process p [l]) (λ o _, o = Ret [l; l])
    (mkWorld x d h mt lg)) as Hwp.
  2:{ unfold wp in Hwp. eexists. rewrite <- Hwp. apply surjective_pairing. }
  assert (∀ A (m : M X A) a Q w, (∀ w, m w = (Ret a, w)) → Q (Ret a) w → wp m Q w) as Hret.
  { intros A m a Q w Hm HQ. unfold wp. by rewrite Hm. }
  unfold IBCV2BatchProcessorMW_Process, IBCV2BatchProcessorMW_Cancel. wp_step. wp_step. simpl.
  wp_step. wp_step. eapply wp_load; [done|]. simpl. rewrite (Error_empty t He). simpl.
  unfold GetState. rewrite (bool_decide_eq_false_2 _ Hst).
  wp_step. apply (Hret _ _ true); [done|]. simpl. wp_step. wp_step.
  unfold wp at 1. simpl. specialize (Hs x). destruct (env_storage x) as [o x1]; simplify_eq/=.
  do 2 wp_step. apply (Hret _ _ tt); [done|]. simpl. wp_go.
  apply (Hret _ _ [l]); [done|]. simpl. by wp_go.
Qed.
End middleware_specs_2.

(** ** The transaction IDs of a batch *)

Section collect_specs.
Context {X : Type} {E : Env X}.

(** The transfers at [ls] are [ts]. *)
Definition at_locs (h : gmap loc IBCV2Transfer) (ls : list loc) (ts : list IBCV2Transfer)
    : Prop := Forall2 (λ l t, h !! l = Some t) ls ts.

Definition sequence_of (t : IBCV2Transfer) : Z := uint64 (GetPacketSequenceNumber t).

Lemma collect_ack_txs_loop (hash : IBCV2Transfer → string) (dec : string → list Z) ls :
  ∀ ts us seqs (w : World X),
  at_locs (w_heap w) ls ts →
  Forall (λ t, WriteAckTxHash t = Some (hash t) ∧ decode_hash (hash t) = Some (dec (hash t))) ts →
  NoDup us →
  ∃ us', collect_ack_txs ls (list_to_set us) (map dec us) seqs w =
      (Ret (map dec us', seqs ++ map sequence_of ts), w) ∧
    NoDup us' ∧ ∀ u, u ∈ us' ↔ u ∈ us ∨ u ∈ map hash ts.
Proof.
  induction ls as [|l ls IH]; intros ts us seqs w Hat Hts Hnd.
  { inversion Hat; subst. exists us. simpl. rewrite app_nil_r. split_and!; [done|done|].
    intros u. rewrite elem_of_nil. tauto. }
  inversion Hat as [|? t ? ts' Ht Hat']; subst.
  apply Forall_cons in Hts as [[Hw Hd] Hts]. simpl.
  unfold mbind, M_bind, load. rewrite Ht. unfold GetWriteAckTxHash. rewrite Hw.
  case_bool_decide as Hin.
  - destruct (IH ts' us (seqs ++ [sequence_of t]) w Hat' Hts Hnd) as (us' & Heq & Hnd' & Hu).
    exists us'. rewrite <- app_assoc in Heq. split_and!; [done|done|].
    intros u. rewrite Hu, elem_of_cons. apply elem_of_list_to_set in Hin. naive_solver.
  - rewrite Hd. rewrite elem_of_list_to_set in Hin.
    destruct (IH ts' (us ++ [hash t]) (seqs ++ [sequence_of t]) w Hat' Hts) as (us' & Heq & Hnd' & Hu).
    { apply NoDup_app. split; [done|]. split; [|apply NoDup_singleton].
      by intros u Hu ->%list_elem_of_singleton. }
    exists us'. rewrite <- app_assoc in Heq. split_and!; [|done|].
    + etrans; [|exact Heq]. f_equal; [|by rewrite map_app].
      apply leibniz_equiv. rewrite list_to_set_app. set_solver.
    + intros u. rewrite Hu. simpl. rewrite elem_of_app, !elem_of_cons, elem_of_nil. tauto.
Qed.

(** The ack stage asks the proof relayer for each write acknowledgement
    transaction once, and for the sequences of all transfers. *)
Theorem collect_ack_txs_distinct (hash : IBCV2Transfer → string) (dec : string → list Z)
    ls ts (w : World X) :
  at_locs (w_heap w) ls ts →
  Forall (λ t, WriteAckTxHash t = Some (hash t) ∧ decode_hash (hash t) = Some (dec (hash t))) ts →
  ∃ us, collect_ack_txs ls ∅ [] [] w = (Ret (map dec us, map sequence_of ts), w) ∧
    NoDup us ∧ ∀ u, u ∈ us ↔ u ∈ map hash ts.
Proof.
  intros Hat Hts.
  destruct (collect_ack_txs_loop hash dec ls ts [] [] w Hat Hts) as (us & Heq & Hnd & Hu);
    [constructor|].
  exists us. split_and!; [done|done|]. intros u. rewrite Hu, elem_of_nil. tauto.
Qed.

Lemma collect_send_txs_loop (dec : string → list Z) ls : ∀ ts txSet txIDs seqs (w : World X),
  at_locs (w_heap w) ls ts →
  Forall (λ t, decode_hash (SourceTxHash t) = Some (dec (SourceTxHash t))) ts →
  (∀ t, t ∈ ts → SourceTxHash t ∉ txSet) →
  (∀ t t', t ∈ ts → t' ∈ ts → SourceTxHash t ≠ SourceChainID t') →
  collect_send_txs ls txSet txIDs seqs w =
    (Ret (txIDs ++ map (λ t, dec (SourceTxHash t)) ts, seqs ++ map sequence_of ts), w).
Proof.
  induction ls as [|l ls IH]; intros ts txSet txIDs seqs w Hat Hts Hset Hne.
  { inversion Hat; subst. simpl. by rewrite !app_nil_r. }
  inversion Hat as [|? t ? ts' Ht Hat']; subst.
  apply Forall_cons in Hts as [Hd Hts]. simpl. unfold mbind, M_bind, load. rewrite Ht.
  unfold GetSourceTxHash. rewrite bool_decide_eq_false_2 by (apply Hset; by left).
  rewrite Hd, (IH ts'); [by rewrite <- !app_assoc|done|done| |].
  - intros t' Ht'. rewrite elem_of_union, elem_of_singleton. intros [Heq|Hin].
    + apply (Hne t' t); [by right|by left|done].
    + by apply (Hset t'); [right|].
  - intros t1 t2 H1 H2. by apply Hne; right.
Qed.

(** The recv and timeout stages do not ask for each transaction once: the
    set of hashes seen is filled with chain IDs. For transfers none of whose
    hashes is a chain ID, the request repeats a transaction once for every
    packet of it in the batch. *)
Theorem collect_send_txs_repeats (dec : string → list Z) ls ts (w : World X) :
  at_locs (w_heap w) ls ts →
  Forall (λ t, decode_hash (SourceTxHash t) = Some (dec (SourceTxHash t))) ts →
  (∀ t t', t ∈ ts → t' ∈ ts → SourceTxHash t ≠ SourceChainID t') →
  collect_send_txs ls ∅ [] [] w =
    (Ret (map (λ t, dec (SourceTxHash t)) ts, map sequence_of ts), w).
Proof. intros Hat Hts Hne. by apply (collect_send_txs_loop dec ls ts ∅ [] []). Qed.
End collect_specs.

(** ** The theorems applied *)

Definition stage_row : db.Ibcv2Transfer :=
  db.set_Status db.Ibcv2RelayStatusDELIVERRECVPACKET demo.row_pending.

Definition stage_transfer : IBCV2Transfer := NewIBCV2Transfer stage_row.

(** A batch processor that hands its batch back. *)
Definition idle_batch : IBCV2BatchProcessor Z :=
  mkIBCV2BatchProcessor (λ _, mret true) db.Ibcv2RelayStatusDELIVERRECVPACKET (λ ls, mret ls)
    (λ _ _, mret tt).

Lemma stage_row_wf : db_wf (demo.database stage_row).
Proof. apply demo.database_wf; [done|]. by apply row_ok_unfinished. Qed.

Lemma stage_batch_in :
  batch_in (λ t, RecvTxHash t = None) db.Ibcv2RelayStatusDELIVERRECVPACKET
    (demo.database stage_row) (w_heap (demo.world stage_row 0)) [1%positive].
Proof.
  intros l ->%list_elem_of_singleton. exists stage_transfer.
  split_and!; [done|by apply demo.demo_row_attached|done].
Qed.

Lemma stage_batch_inv :
  batch_inv [1%positive] (demo.database stage_row) (w_heap (demo.world stage_row 0)).
Proof.
  split; [apply stage_row_wf| |].
  - intros l ->%list_elem_of_singleton. exists stage_transfer.
    split; [done|by apply demo.demo_row_attached].
  - intros l1 l2 t1 t2 ->%list_elem_of_singleton ->%list_elem_of_singleton. done.
Qed.

Lemma middleware_contract_witness :
  db_wf (w_db (IBCV2ProcessorMW_Process (E := demo.env demo.good)
    (NewCheckRecvPacketDeliveryProcessor (E := demo.env demo.good)) (Some 1%positive)
    (demo.world stage_row 0)).2).
Proof.
  exact (proj1 (middleware_contract (E := demo.env demo.good)
    (NewCheckRecvPacketDeliveryProcessor (E := demo.env demo.good)) _ 1%positive stage_transfer
    (demo.world stage_row 0) _ _ stage_row_wf eq_refl (demo.demo_row_attached stage_row eq_refl)
    (surjective_pairing _))).
Defined.

Definition failing_body : M Z unit :=
  exec (E := demo.env demo.good) (db.ClearRecvTx (db.row_key stage_row)) ≫= λ _,
  fail (ErrorNew "boom").

Lemma ExecTx_atomic_witness :
  let w := demo.world stage_row 0 in
  let w' := (ExecTx (E := demo.env demo.good) failing_body w).2 in
  db.ibcv2_transfers (w_db w') = [stage_row] ∨
  ∃ x, is_Ret (failing_body (mkWorld x (w_db w) (w_heap w) [] [])).1 = true.
Proof.
  intros w w'. destruct (ExecTx_atomic (E := demo.env demo.good) failing_body w w'
    (ErrorNew "boom") eq_refl) as [[H _]|[x H]]; [by left|right].
  exists x. destruct (failing_body _) as [o w1] eqn:Hf. simpl in Hf. simplify_eq. by destruct H.
Defined.

Lemma stage_batch_dom l :
  l ∈ [1%positive] → is_Some (w_heap (demo.world stage_row 0) !! l).
Proof. intros ->%list_elem_of_singleton. by eexists. Qed.

Lemma batch_all_or_nothing_witness :
  let res := Batch_Process (kind_processor (E := demo.env demo.good) RecvBatch "chain-a"
    "client-a" "chain-b" "client-b") [1%positive] (demo.world stage_row 0) in
  ∃ tx now, db.row (db.row_key stage_row) (w_db res.2) = Some (kind_row RecvBatch tx now stage_row).
Proof.
  intros res.
  destruct (batch_all_or_nothing (E := demo.env demo.good) RecvBatch "chain-a" "client-a"
    "chain-b" "client-b" [1%positive] (demo.world stage_row 0) res.2 res.1 stage_batch_dom
    (surjective_pairing _)) as [_ Ho].
  destruct res.1 as [out|e|] eqn:Hres; [|discriminate..].
  destruct Ho as (_ & tx & _ & _ & _ & Hu). exists tx.
  destruct (updated_in _ _ _ _ Hu (db.row_key stage_row)) as [now Hrow]; [|by exists now].
  apply live_keys_elem. exists 1%positive, (default stage_transfer (w_heap res.2 !! 1%positive)).
  split; [by left|]. by vm_compute.
Defined.

Lemma BatchRecv_records_witness :
  let res := BatchRecvPacketProcessor_Process (E := demo.env demo.good)
    (mkBatchPacketProcessor "chain-a" "client-a" "chain-b" "client-b") [1%positive]
    (demo.world stage_row 0) in
  ∃ tx, RecvTxHash <$> w_heap res.2 !! 1%positive = Some (Some (Hash tx)).
Proof.
  intros res.
  destruct (BatchRecv_records (E := demo.env demo.good) "chain-a" "client-a" "chain-b" "client-b"
    [1%positive] (demo.world stage_row 0) res.2 [1%positive] stage_row_wf stage_batch_in eq_refl)
    as (_ & tx & _ & _ & _ & H).
  exists tx. destruct (w_heap res.2 !! 1%positive) as [t'|] eqn:Ht; [|discriminate].
  simpl. f_equal. apply (H 1%positive t'); [by left|done|].
  vm_compute in Ht. by injection Ht as <-.
Defined.

Lemma batch_middleware_output_witness :
  let res := IBCV2BatchProcessorMW_Process (E := demo.env demo.good)
    (NewBatchRecvPacketProcessor (E := demo.env demo.good) "chain-a" "client-a" "chain-b"
       "client-b") [1%positive] (demo.world stage_row 0) in
  ∃ out, res.1 = Ret out ∧ 1%positive ∈ out.
Proof.
  intros res.
  destruct (batch_middleware_output (E := demo.env demo.good) _
    (BatchRecvPacket_laws "chain-a" "client-a" "chain-b" "client-b") [1%positive]
    (demo.world stage_row 0) res.2 res.1 stage_batch_inv (surjective_pairing _)) as [_ Ho].
  destruct res.1 as [out|e|] eqn:Hres; [|discriminate..].
  exists out. split; [done|]. destruct Ho as (_ & extra & Hp & _). rewrite Hp. by left.
Defined.

Lemma batch_middleware_repeats_witness :
  let E := demo.env (demo.with_storage_error (ErrorNew "no connection") demo.good) in
  ∃ w', IBCV2BatchProcessorMW_Process idle_batch [1%positive] (demo.world demo.row_pending 0) =
    (Ret [1%positive; 1%positive], w').
Proof.
  intros E. by apply (batch_middleware_repeats (E := E) idle_batch 1%positive demo.transfer
    (ErrorNew "no connection")).
Defined.

Lemma collect_ack_txs_distinct_witness :
  let w := demo.world demo.row_acked 0 in
  ∃ us, collect_ack_txs [1%positive; 1%positive] ∅ [] [] w =
      (Ret (map (λ u, default [] (decode_hash u)) us, [4; 4]), w) ∧
    NoDup us ∧ ∀ u, u ∈ us ↔ u ∈ ["0xbeef"; "0xbeef"].
Proof.
  intros w. apply (collect_ack_txs_distinct (λ t, default "" (WriteAckTxHash t))
    (λ u, default [] (decode_hash u)) [1%positive; 1%positive]
    [NewIBCV2Transfer demo.row_acked; NewIBCV2Transfer demo.row_acked] w).
  - by repeat constructor.
  - by repeat constructor.
Defined.

Lemma collect_send_txs_repeats_witness :
  let w := demo.world demo.row_pending 0 in
  collect_send_txs [1%positive; 1%positive] ∅ [] [] w = (Ret ([[170]; [170]], [4; 4]), w).
Proof.
  intros w. apply (collect_send_txs_repeats (λ u, default [] (decode_hash u))
    [1%positive; 1%positive] [demo.transfer; demo.transfer] w).
  - by repeat constructor.
  - by repeat constructor.
  - intros t t' [->|Ht%list_elem_of_singleton]%elem_of_cons
      [->|Ht'%list_elem_of_singleton]%elem_of_cons; subst; discriminate.
Defined.
