(* ===== verification/Guarantees.v ===== *)
(** * Guarantees of the running relayer

    What holds in every state the relayer can reach without submitting a stale
    row or repeating a transfer ([reaches]), and what a tick of the
    dispatcher, the pipeline manager and the deduper do. *)
From stdpp Require Import prelude strings list gmap relations.
From Stdlib Require Import ZArith.
From S2P Require Import Prelude Go Config Db Transfer World Wp TransferMetrics Processors Laws.
From S2P Require Import ProcessorMW MWLaws Batch BatchLaws PipelineOpts Pipeline Dispatcher.
From S2P Require Import System SystemInv DispatcherInv Finality Run Demo.
Open Scope Z_scope.

(** ** Every reachable state *)

Section reachable.
Context {X : Type} {E : Env X}.
Implicit Types (w : World X) (pls : gmap pipelineKey (Pipeline X)).

(** C1: memory and database agree. In every state the relayer can reach from
    a well-formed database, along runs in which no stale row is submitted and
    no transfer repeated (see [reaches]), every transfer in a pipeline has its
    row, the row names the same destination, and unless the transfer carries an
    error it has the row's state and the row's recv, write ack, ack and timeout
    transactions. *)
Theorem reachable_transfers_synced w0 w pls rows pk pl l :
  db_wf (w_db w0) → reaches (mkSystem w0 ∅ []) (mkSystem w pls rows) →
  pls !! pk = Some pl → l ∈ locs pl →
  ∃ t r, w_heap w !! l = Some t ∧ db.row (update_key t) (w_db w) = Some r ∧
    newPipelineKey t = pk ∧ route t = db.row_route r ∧
    (ProcessingError t = None → synced t r).
Proof.
  intros Hwf Hr Hpl Hl. apply reaches_inv in Hr as [Hr _]; [|by apply start_inv].
  destruct (pi_member _ _ _ _ (wi_pipelines _ _ _ Hr pk pl Hpl) l Hl)
    as (t & Ht & (r & Hrow & Hro & Hs) & Hpk & _).
  exists t, r. split_and!; [done..|]. intros He. by rewrite He in Hs.
Qed.

(** C2: a packet is worked on at most once at a time. In every state reached
    without a stale row being submitted or a transfer repeated, no pipeline
    holds a transfer twice, and two different transfers in the pipelines, or
    transfers in two pipelines, are about different packets. *)
Theorem reachable_one_per_packet w0 w pls rows pk1 pk2 pl1 pl2 l1 l2 t1 t2 :
  db_wf (w_db w0) → reaches (mkSystem w0 ∅ []) (mkSystem w pls rows) →
  pls !! pk1 = Some pl1 → pls !! pk2 = Some pl2 → l1 ∈ locs pl1 → l2 ∈ locs pl2 →
  w_heap w !! l1 = Some t1 → w_heap w !! l2 = Some t2 →
  NoDup (locs pl1) ∧ (pk1 ≠ pk2 ∨ l1 ≠ l2 → update_key t1 ≠ update_key t2).
Proof.
  intros Hwf Hr. apply reaches_inv in Hr as [Hr _]; [|by apply start_inv].
  intros Hp1 Hp2 Hl1 Hl2 Ht1 Ht2.
  split; [exact (pipeline_NoDup _ _ _ _ (wi_pipelines _ _ _ Hr pk1 pl1 Hp1))|].
  intros Hne Hk.
  destruct (world_inv_unique _ _ _ pk1 pk2 pl1 pl2 l1 l2 t1 t2 Hr Hp1 Hp2 Hl1 Hl2 Ht1 Ht2 Hk).
  by destruct Hne.
Qed.

(** C3: the rows stay sound. In every state reached without a stale row
    being submitted or a transfer repeated the unique indexes hold, a write
    acknowledgement is recorded only for the recorded recv transaction, and a row in a final state holds what the state says: an
    acknowledged transfer has its ack and write ack transactions, a timed out
    one its timeout transaction, and one finished without relaying an
    acknowledgement a write acknowledgement of the right kind. *)
Theorem reachable_rows_sound w0 w pls rows :
  db_wf (w_db w0) → reaches (mkSystem w0 ∅ []) (mkSystem w pls rows) →
  db.index_ok (w_db w) ∧
  ∀ k r, db.row k (w_db w) = Some r → row_ok r.
Proof.
  intros Hwf Hr. apply reaches_inv in Hr as [Hr _]; [|by apply start_inv].
  destruct (wi_wf _ _ _ Hr) as [Hi _ _ Hrows]. by split.
Qed.

(** C4: a finished row is final. Once a row of a state the relayer has reached
    is in a final state ([COMPLETE_*] or [FAILED]), it is never written again:
    along any further run in which no stale row is submitted and no transfer
    repeated it stays the same in every column. *)
Theorem finished_rows_stay w0 s s' k r :
  db_wf (w_db w0) → reaches (mkSystem w0 ∅ []) s → reaches s s' →
  db.row k (w_db (sys_world s)) = Some r → db.unfinished (db.Status r) = false →
  db.row k (w_db (sys_world s')) = Some r.
Proof.
  intros Hwf Hr Hr'. apply reaches_finished; [|done].
  by apply (reaches_inv (mkSystem w0 ∅ [])); [apply start_inv|].
Qed.

(** In every state reached without a stale row being submitted or a
    transfer repeated, a transfer in a pipeline is known to the pipeline's deduper, so
    that the dispatcher cannot push its packet a second time. *)
Theorem reachable_dedup w0 w pls rows pk pl l t l' :
  db_wf (w_db w0) → reaches (mkSystem w0 ∅ []) (mkSystem w pls rows) →
  pls !! pk = Some pl → l ∈ locs pl → w_heap w !! l = Some t →
  PipelineDeduper_Push l' t pl = (false, pl).
Proof.
  intros Hwf Hr Hpl Hl Ht. apply reaches_inv in Hr as [Hr _]; [|by apply start_inv].
  unfold PipelineDeduper_Push. rewrite bool_decide_eq_true_2; [done|].
  by eapply (pi_keys _ _ _ _ (wi_pipelines _ _ _ Hr pk pl Hpl)).
Qed.

(** C6: when the database works, no run of the relayer repeats a transfer:
    every state it gets to without submitting a stale row is one that
    [reaches] covers, and the guarantees above hold in it. *)
Theorem working_database_runs w0 s :
  healthy → db_wf (w_db w0) → rtc (λ a b, step a b ∧ not_stale a) (mkSystem w0 ∅ []) s →
  reaches (mkSystem w0 ∅ []) s.
Proof. intros Hh Hwf. by apply healthy_reaches, start_inv. Qed.
End reachable.

(** ** A tick of the dispatcher *)

Section dispatch.
Context {X : Type} {E : Env X}.
Implicit Types (d : db.Database) (pls : gmap pipelineKey (Pipeline X)).

(** Every configured chain has an [ibcv2] section. *)
Definition ibcv2_everywhere : Prop :=
  ∀ id c, config.GetChainConfig env_config id = Ret c → is_Some (config.IBCV2 c).

(** What has become of a row after a tick that began with the pipelines [pls]:
    its packet was in its pipeline already, it has been pushed and waits in
    front of the first stage, with the fields of the row, or the row is marked
    as failed. *)
Definition picked_up pls (w' : World X) pls' (r : db.Ibcv2Transfer) : Prop :=
  in_pipeline (NewIBCV2Transfer r) pls ∨
  (∃ pl l, pls' !! newPipelineKey (NewIBCV2Transfer r) = Some pl ∧
     (mkPosition 0 false, l) ∈ pl_inside pl ∧ w_heap w' !! l = Some (NewIBCV2Transfer r)) ∨
  (∃ r', db.row (db.row_key r) (w_db w') = Some r' ∧ db.Status r' = db.Ibcv2RelayStatusFAILED).

(** No pipeline is lost or loses a transfer, and no deduper forgets a key. *)
Definition more pls pls' : Prop :=
  ∀ pk pl, pls !! pk = Some pl →
    ∃ pl', pls' !! pk = Some pl' ∧ pl_inPipeline pl ⊆ pl_inPipeline pl' ∧
      pl_inside pl ⊆ pl_inside pl'.

#[local] Instance more_preorder : PreOrder more.
Proof.
  split; [by intros pls pk pl Hpl; eauto|]. intros p1 p2 p3 H12 H23 pk pl Hpl.
  destruct (H12 pk pl Hpl) as (pl2 & Hpl2 & ? & ?).
  destruct (H23 pk pl2 Hpl2) as (pl3 & ? & ? & ?). exists pl3. split_and!; [done|by etrans..].
Qed.

(** The deduper of the transfer's pipeline, made if there is none, has accepted
    it. *)
Definition pushes (l : loc) (t : IBCV2Transfer) pls pls' : Prop :=
  ∃ pl, (pls !! newPipelineKey t = Some pl ∨
     pls !! newPipelineKey t = None ∧ pl_inside pl = [] ∧ pl_inPipeline pl = ∅) ∧
    pls' = <[newPipelineKey t := Pipeline_Push l (mkPipeline (pl_stages pl) (pl_inside pl)
      ({[newTransferKey t]} ∪ pl_inPipeline pl))]> pls.

Lemma pushes_more l t pls pls' : pushes l t pls pls' → more pls pls'.
Proof.
  intros (pl & Hpl & ->) pk2 pl2 Hpl2. destruct (decide (newPipelineKey t = pk2)) as [<-|Hne].
  - destruct Hpl as [Hpl|[Hn _]]; [|congruence]. simplify_eq. eexists.
    rewrite lookup_insert_eq. split; [done|]. simpl. split; set_solver.
  - exists pl2. by rewrite lookup_insert_ne.
Qed.

Lemma pushes_inside l t pls pls' :
  pushes l t pls pls' → ∃ pl, pls' !! newPipelineKey t = Some pl ∧
    (mkPosition 0 false, l) ∈ pl_inside pl.
Proof.
  intros (pl & _ & ->). eexists. rewrite lookup_insert_eq. split; [done|]. simpl. set_solver.
Qed.

(** It knows no other new key. *)
Lemma pushes_known l t t2 pls pls' :
  pushes l t pls pls' → in_pipeline t2 pls' →
  in_pipeline t2 pls ∨ newTransferKey t2 = newTransferKey t.
Proof.
  intros (pl & Hpl & ->) (pl2 & Hpl2 & Hk). apply lookup_insert_Some in Hpl2 as [[Hpk <-]|[Hne Hpl2]].
  - simpl in Hk. apply elem_of_union in Hk as [->%elem_of_singleton|Hk]; [by right|left].
    destruct Hpl as [Hpl|(_ & _ & He)]; [|set_solver]. exists pl. by rewrite <- Hpk.
  - left. by exists pl2.
Qed.

Lemma GetChainConfig_outcome r id :
  config.GetChainConfig r id = Fail config.err_chain_not_found ∨
  ∃ c, config.GetChainConfig r id = Ret c.
Proof. unfold config.GetChainConfig. destruct (_ !! _); eauto. Qed.

Lemma wp_NewPipelineOpts_total t Q (x : X) d h mt lg :
  (∀ opts lg', Q (Ret opts) (mkWorld x d h mt lg')) →
  (∀ e lg', errors_Is e ErrTransferAlreadyInPipeline = false →
     Q (Fail e) (mkWorld x d h mt lg')) →
  wp (NewPipelineOpts t) Q (mkWorld x d h mt lg).
Proof.
  intros H1 H2. unfold NewPipelineOpts.
  destruct (GetChainConfig_outcome env_config (GetSourceChainID t)) as [-> | [c1 ->]];
    [wp_go; by apply H2|].
  destruct (GetChainConfig_outcome env_config (GetDestinationChainID t)) as [-> | [c2 ->]];
    wp_go; simplify_eq/=; auto.
Qed.

Lemma wp_SubmitTransfer_total l t pls Q (x : X) d h mt lg :
  h !! l = Some t →
  (∀ pls' lg', pushes l t pls pls' → Q (Ret (None, pls')) (mkWorld x d h mt lg')) →
  (∀ lg', in_pipeline t pls →
     Q (Ret (Some (Sentinel ErrTransferAlreadyInPipeline), pls)) (mkWorld x d h mt lg')) →
  (∀ e lg', errors_Is e ErrTransferAlreadyInPipeline = false →
     Q (Ret (Some e, pls)) (mkWorld x d h mt lg')) →
  wp (SubmitTransfer l pls) Q (mkWorld x d h mt lg).
Proof.
  intros Hl H1 H2 H3. unfold SubmitTransfer, IBCV2PipelineManager_Pipeline, newPipelineForTransfer.
  wp_step. eapply wp_load; [done|]. simpl. wp_step. apply wp_attempt.
  destruct (pls !! newPipelineKey t) as [pl|] eqn:Hpl.
  - apply wp_ret. simpl. rewrite Hpl. wp_step. apply wp_ret. simpl. unfold PipelineDeduper_Push.
    case_bool_decide as Hin; apply wp_ret; [apply H2; by exists pl|apply H1]. exists pl. by split; [left|].
  - wp_step. apply wp_wrap. wp_step. apply wp_wrap, wp_NewPipelineOpts_total; simpl.
    + intros opts lg'. apply wp_ret. simpl. apply wp_ret. simpl. rewrite lookup_insert_eq.
      wp_step. apply wp_ret. simpl. unfold PipelineDeduper_Push.
      rewrite bool_decide_eq_false_2 by (simpl; set_solver). apply wp_ret, H1. rewrite insert_insert_eq.
      eexists. split; [|done]. by right.
    + intros e lg' He. apply wp_ret, H3. done.
Qed.

(** ** The rows of a tick *)

Lemma submit_row_picks r pls (x : X) d h mt lg :
  healthy → ibcv2_everywhere → db.row (db.row_key r) d = Some r →
  is_int32 (db.PacketSequenceNumber r) →
  wp (submit_row r pls) (λ o w, ∃ pls', o = Ret pls' ∧ more pls pls' ∧
    (∀ t2, in_pipeline t2 pls' → in_pipeline t2 pls ∨
       newTransferKey t2 = newTransferKey (NewIBCV2Transfer r)) ∧
    (∀ l t, h !! l = Some t → w_heap w !! l = Some t) ∧
    db_local (db.row_key r) d (w_db w) ∧ picked_up pls w pls' r) (mkWorld x d h mt lg).
Proof.
  intros Hh Hc Hr Hi. pose proof (update_key_NewIBCV2Transfer r Hi) as Hk.
  unfold submit_row. wp_step. apply wp_alloc. intros l Hl. simpl.
  assert (∀ l' t', h !! l' = Some t' → <[l := NewIBCV2Transfer r]> h !! l' = Some t') as Hheap
    by (intros l' t' Hl'; rewrite lookup_insert_ne; [done|congruence]).
  wp_step. apply wp_silent; [by apply AlertOnExcessiveRelayLatency_silent, Hc|].
  intros [] x1 mt1 lg1. simpl.
  wp_step. apply (wp_SubmitTransfer_total l (NewIBCV2Transfer r)); [apply lookup_insert_eq|..].
  - intros pls' lg' Hp. simpl. wp_go. exists pls'. split_and!; [done|by eapply pushes_more| |done|done|].
    + intros t2. by apply pushes_known with l.
    + right. left. destruct (pushes_inside _ _ _ _ Hp) as (pl & Hpl & Hin). exists pl, l.
      split_and!; [done|done|apply lookup_insert_eq].
  - intros lg' Hin. simpl. wp_go. exists pls. split_and!; [done|done|by auto|done|done|by left].
  - intros e lg' He. simpl. rewrite He. wp_known. simpl. exists pls. split_and!; [done|done|auto|done| |].
    + rewrite Hk. eapply row_update_local, db.UpdateTransferState_row_update.
    + right. right. cbn [w_db]. rewrite Hk. eexists.
      by rewrite (db.row_update_row_eq (db.UpdateTransferState_row_update _ _ _)), Hr.
Qed.

(** Two rows with different keys are different packets to a deduper. *)
Lemma row_transfer_key r r' :
  is_int32 (db.PacketSequenceNumber r) → is_int32 (db.PacketSequenceNumber r') →
  newTransferKey (NewIBCV2Transfer r') = newTransferKey (NewIBCV2Transfer r) →
  db.row_key r' = db.row_key r.
Proof.
  intros Hi Hi' Hk. apply transferKey_update_key in Hk; [|apply uint32_range..].
  by rewrite !update_key_NewIBCV2Transfer in Hk.
Qed.

Lemma submit_rows_picks rows : ∀ pls (x : X) d h mt lg,
  healthy → ibcv2_everywhere → NoDup (map db.row_key rows) → db_wf d →
  world_inv d h pls → current d rows →
  (∀ r, r ∈ rows → db.unfinished (db.Status r) = true) →
  wp (submit_rows rows pls) (λ o w, ∃ pls', o = Ret pls' ∧ more pls pls' ∧
    (∀ l t, h !! l = Some t → w_heap w !! l = Some t) ∧
    (∀ k, k ∉ map db.row_key rows → db.row k (w_db w) = db.row k d) ∧
    ∀ r, r ∈ rows → picked_up pls w pls' r) (mkWorld x d h mt lg).
Proof.
  induction rows as [|r rows IH]; intros pls x d h mt lg Hh Hc Hnd Hwf Hinv Hcur Hun; simpl.
  { apply wp_ret. exists pls. split_and!; [done|done|done|done|]. by intros ? ?%elem_of_nil. }
  apply NoDup_cons in Hnd as [Hn Hnd]. wp_step.
  assert (db.row (db.row_key r) d = Some r) as Hr by (apply Hcur; by left).
  eapply wp_mono; [|apply wp_and; [apply (submit_row_picks r pls); auto; by eapply row_int32|
    apply (wp_submit_row r pls (λ o w, ∀ pls', o = Ret pls' → world_inv (w_db w) (w_heap w) pls'));
    [done|done|apply Hun; by left|intros; by simplify_eq/=|done]]].
  intros o [x1 d1 h1 mt1 lg1] [(pls1 & -> & Hm1 & Hk1 & Hh1 & Hd1 & Hp1) Hinv1]; simpl in *.
  specialize (Hinv1 pls1 eq_refl).
  assert (∀ k, k ≠ db.row_key r → db.row k d1 = db.row k d) as Hne
    by (intros; by apply (local_row_ne (db.row_key r))).
  eapply wp_mono; [|apply (IH pls1 x1 d1); try done; [apply Hinv1| |intros; apply Hun; by right]].
  2:{ intros r' Hr'. rewrite Hne; [apply Hcur; by right|].
      intros Heq. apply Hn. rewrite <- Heq. by apply list_elem_of_fmap_2. }
  intros o w (pls2 & -> & Hm2 & Hh2 & Hk2 & Hp2). exists pls2.
  split_and!; [done|by etrans|by auto| |].
  - intros k [Hk Hk']%not_elem_of_cons. by rewrite Hk2, Hne.
  - intros r' [->|Hr']%elem_of_cons.
    + destruct Hp1 as [Hp1|[(pl & l & Hpl & Hin & Hl)|(r1 & Hr1 & Hst)]].
      * by left.
      * destruct (Hm2 _ _ Hpl) as (pl2 & Hpl2 & _ & Hsub). right. left. exists pl2, l. auto.
      * right. right. exists r1. by rewrite Hk2.
    + destruct (Hp2 r' Hr') as [Hp|Hp]; [|by right]. left.
      destruct (Hk1 _ Hp) as [?|Hk]; [done|]. destruct Hn.
      rewrite <- (row_transfer_key r r'); [by apply list_elem_of_fmap_2|..|done];
        eapply row_int32; [exact Hwf|done|exact Hwf|apply Hcur; by right].
Qed.

(** C8: a tick of the dispatcher leaves no unfinished transfer behind. With a
    working database and every configured chain set up for IBC v2, a tick that
    nothing interrupts is a run of the system (the rows are read, then
    submitted one by one); no pipeline loses a transfer by it; and of each row
    that was unfinished the packet was known to the deduper of its pipeline
    before the tick, or a transfer with the fields of the row now waits in
    front of the first stage of its pipeline, or the row has been marked as
    [FAILED] because no pipeline could be built for it. *)
Theorem tick_submits_all (w w' : World X) pls o :
  healthy → ibcv2_everywhere → sys_inv (mkSystem w pls []) →
  Run_tick pls w = (o, w') →
  ∃ pls', o = Ret pls' ∧ more pls pls' ∧
    reaches (mkSystem w pls []) (mkSystem w' pls' []) ∧
    ∀ r, r ∈ db.ibcv2_transfers (w_db w) → db.unfinished (db.Status r) = true →
      picked_up pls w' pls' r.
Proof.
  intros Hh Hc Hinv Hrun.
  assert (∃ pls', o = Ret pls' ∧ more pls pls' ∧ ∀ r, r ∈ db.ibcv2_transfers (w_db w) →
    db.unfinished (db.Status r) = true → picked_up pls w' pls' r) as (pls' & -> & Hm & Hp).
  2:{ exists pls'. split_and!; [done|done|by apply tick_reaches|done]. }
  destruct w as [x d h mt lg]; destruct Hinv as [Hinv _]; simpl in *.
  by_running Hrun. unfold Run_tick, SubmitWaitingUnfinishedTransfers.
  wp_step. apply wp_attempt, wp_bind, wp_wrap, wp_query_healthy; [done|]. intros now x1. simpl.
  destruct (unfinished_current now d (wi_wf _ _ _ Hinv)) as (rows & Heq & Hnd & Hcur & Hun).
  unfold db.GetUnfinishedIBCV2Transfers in Heq. injection Heq as Heq. rewrite Heq.
  eapply wp_mono; [|apply submit_rows_picks; try done; apply Hinv].
  intros o w (pls' & -> & Hm & _ & _ & Hp). simpl. apply wp_ret. exists pls'.
  split_and!; [done|done|]. intros r Hr Hu. apply Hp. rewrite <- Heq.
  by apply list_elem_of_filter.
Qed.

(** The alert reads the [ibcv2] section of the source chain without a
    test. A row whose source chain is configured without one makes the
    dispatcher panic, before the check that would have marked the row as
    failed is reached. *)
Theorem submit_row_panics r pls (w : World X) src dst :
  config.GetChainConfig env_config (db.SourceChainID r) = Ret src →
  config.GetChainConfig env_config (db.DestinationChainID r) = Ret dst →
  config.IBCV2 src = None →
  (submit_row r pls w).1 = Panic.
Proof.
  intros Hs Hd Hi. destruct w as [x d h mt lg].
  change (wp (submit_row r pls) (λ o _, o = Panic) (mkWorld x d h mt lg)).
  unfold submit_row. wp_step. apply wp_alloc. intros l Hl. simpl. wp_step.
  unfold AlertOnExcessiveRelayLatency, GetSourceChainID, GetDestinationChainID. simpl.
  rewrite Hs, Hd, Hi. simpl. by wp_go.
Qed.

(** The manager keeps one pipeline per pair of clients. Asking for the
    pipeline of a transfer leaves every pipeline there is as it is, provides
    the one asked for, and asking again for a transfer between the same
    clients changes nothing. *)
Theorem manager_one_pipeline t t' pls pls' (w w' : World X) :
  IBCV2PipelineManager_Pipeline t pls w = (Ret pls', w') →
  newPipelineKey t' = newPipelineKey t →
  pls ⊆ pls' ∧ is_Some (pls' !! newPipelineKey t) ∧
  ∀ w2, IBCV2PipelineManager_Pipeline t' pls' w2 = (Ret pls', w2).
Proof.
  intros Hrun Hk.
  assert (pls ⊆ pls' ∧ is_Some (pls' !! newPipelineKey t)) as [H1 [pl Hpl]].
  { destruct w as [x d h mt lg]. apply (wp_run _ (λ o _, ∀ p, o = Ret p →
      pls ⊆ p ∧ is_Some (p !! newPipelineKey t)) _ _ _ Hrun); [|done]. clear Hrun.
    apply wp_Pipeline; intros; simplify_eq/=; [by eauto|].
    split; [by apply insert_subseteq|by rewrite lookup_insert_eq]. }
  split_and!; [done|by eauto|]. intros w2. unfold IBCV2PipelineManager_Pipeline.
  by rewrite Hk, Hpl.
Qed.
End dispatch.

(** ** The deduper *)

(** The deduper takes a transfer at most once between two times the packet
    leaves the pipeline: once pushed, a packet is refused and the pipeline is
    left alone; after it has come out it is accepted again. *)
Theorem deduper_at_most_once {X} l l' t t' (pl pl' : Pipeline X) :
  PipelineDeduper_Push l t pl = (true, pl') → newTransferKey t' = newTransferKey t →
  PipelineDeduper_Push l' t' pl' = (false, pl') ∧
  (PipelineDeduper_Push l' t' (PipelineDeduper_output t pl')).1 = true ∧
  locs pl' = locs pl ++ [l].
Proof.
  unfold PipelineDeduper_Push. case_bool_decide; [done|]. intros [= <-] Hk. simpl. rewrite Hk.
  rewrite bool_decide_eq_true_2 by set_solver. rewrite bool_decide_eq_false_2 by set_solver.
  split_and!; [done|done|]. unfold locs. simpl. by rewrite map_app.
Qed.

(** ** Options *)

Section options.
Context {X : Type} {E : Env X}.

(** The sizes, timeouts and concurrencies of the three batch stages. *)
Definition batch_settings (opts : PipelineOptions) : list Z :=
  [opts_AckBatchSize opts; opts_AckBatchTimeout opts; opts_AckBatchConcurrency opts;
   opts_RecvBatchSize opts; opts_RecvBatchTimeout opts; opts_RecvBatchConcurrency opts;
   opts_TimeoutBatchSize opts; opts_TimeoutBatchTimeout opts;
   opts_TimeoutBatchConcurrency opts].

(** Pipeline options exist exactly for two chains that are configured and
    have an [ibcv2] section, and their batch sizes, timeouts and
    concurrencies are never zero: a setting of zero is replaced by its
    default. *)
Theorem NewPipelineOpts_nonzero t (w w' : World X) o :
  NewPipelineOpts t w = (o, w') →
  ((∃ opts, o = Ret opts) ↔
   ∃ src dst si di, config.GetChainConfig env_config (SourceChainID t) = Ret src ∧
     config.GetChainConfig env_config (DestinationChainID t) = Ret dst ∧
     config.IBCV2 src = Some si ∧ config.IBCV2 dst = Some di) ∧
  ∀ opts, o = Ret opts →
    Forall (λ z, z ≠ 0) (batch_settings opts).
Proof.
  assert (∀ cfg def, def ≠ 0 → or_default cfg def ≠ 0) as Hor.
  { intros cfg def Hd. unfold or_default. by case_bool_decide. }
  intros Hrun. destruct w as [x d h mt lg]. by_running Hrun.
  unfold NewPipelineOpts, GetSourceChainID, GetDestinationChainID.
  assert (∀ w e (P : Prop), ¬ P → (λ (o : outcome PipelineOptions) (_ : World X),
    ((∃ opts, o = Ret opts) ↔ P) ∧ ∀ opts, o = Ret opts →
      Forall (λ z, z ≠ 0) (batch_settings opts)) (Fail e) w) as Hfail.
  { intros w e P HP. split; [split; [by intros [? ?]|done]|done]. }
  destruct (GetChainConfig_outcome env_config (SourceChainID t)) as [-> | [src ->]];
    [wp_go; simplify_eq/=; apply (Hfail (mkWorld x d h mt lg)); naive_solver|].
  destruct (GetChainConfig_outcome env_config (DestinationChainID t)) as [-> | [dst ->]];
    [wp_go; simplify_eq/=; apply (Hfail (mkWorld x d h mt lg)); naive_solver|].
  destruct (config.IBCV2 src) as [si|] eqn:Hsi, (config.IBCV2 dst) as [di|] eqn:Hdi;
    [|wp_go; simplify_eq/=; apply (Hfail (mkWorld x d h mt lg)); naive_solver..].
  wp_go; simplify_eq/=; (split; [split; [by eauto 10|by eauto]|]); intros opts [= <-];
    simpl; repeat (apply Forall_cons; split; [by apply Hor|]); apply Forall_nil; exact I.
Qed.
End options.

(** A transfer read from the database writes back to the row it came from:
    the three key columns survive the conversion of the [int32] sequence number
    to [uint32] and back, also for negative numbers, and the columns the
    pipeline depends on are those of the row. *)
Theorem NewIBCV2Transfer_roundtrip (r : db.Ibcv2Transfer) :
  is_int32 (db.PacketSequenceNumber r) →
  update_key (NewIBCV2Transfer r) = db.row_key r ∧
  route (NewIBCV2Transfer r) = db.row_route r ∧
  synced (NewIBCV2Transfer r) r ∧ ProcessingError (NewIBCV2Transfer r) = None.
Proof.
  intros Hi. split_and!; [by apply update_key_NewIBCV2Transfer|done|
    by apply NewIBCV2Transfer_synced|done].
Qed.

(** ** The theorems applied

    The relayer starts with one row in the database and ticks once. *)

Definition start : World Z := demo.world demo.row_pending 0.

Definition tick : outcome (gmap pipelineKey (Pipeline Z)) * World Z :=
  Run_tick (E := demo.env demo.good) ∅ start.

Definition tick_pipelines : gmap pipelineKey (Pipeline Z) :=
  match tick.1 with Ret pls => pls | _ => ∅ end.

Definition tick_pipeline : Pipeline Z :=
  default (NewPipelineDeduper []) (tick_pipelines !! newPipelineKey demo.transfer).

Lemma tick_eq : Run_tick (E := demo.env demo.good) ∅ start = (Ret tick_pipelines, tick.2).
Proof.
  assert (is_Ret tick.1 = true) as Hret by (by vm_compute).
  unfold tick_pipelines, tick in *. by destruct (Run_tick _ _) as [[]].
Qed.

Lemma start_reaches :
  reaches (E := demo.env demo.good) (mkSystem start ∅ []) (mkSystem tick.2 tick_pipelines []).
Proof. apply tick_reaches; [apply start_inv, demo.demo_row_wf|exact tick_eq]. Qed.

Lemma tick_lookup : tick_pipelines !! newPipelineKey demo.transfer = Some tick_pipeline.
Proof.
  assert (has (tick_pipelines !! newPipelineKey demo.transfer) = true) as Hhas by (by vm_compute).
  unfold tick_pipeline. by destruct (tick_pipelines !! _).
Qed.

Lemma tick_inside : 2%positive ∈ locs tick_pipeline.
Proof. apply (bool_decide_unpack _). by vm_compute. Qed.

(** ** A packet is relayed

    From the tick on the packet passes the first stages, is delivered in a
    batch, and its write acknowledgement is awaited; success acknowledgements
    are not relayed back between these chains, so that it is finished without
    one and leaves the pipeline. *)

Definition relay_actions : list action :=
  let pk := newPipelineKey demo.transfer in
  repeat (Advance pk 0) 7 ++ [Deliver pk 6] ++ repeat (Advance pk 0) 8.

Definition relayed : System Z :=
  default (mkSystem start ∅ [])
    (run (E := demo.env demo.good) relay_actions (mkSystem tick.2 tick_pipelines [])).

Definition packet_key : db.packet_key := db.row_key demo.row_pending.

Definition relayed_row : db.Ibcv2Transfer :=
  default demo.row_pending (db.row packet_key (w_db (sys_world relayed))).

Lemma run_default actions s0 (s : System Z) :
  has (run (E := demo.env demo.good) actions s) = true →
  run (E := demo.env demo.good) actions s =
    Some (default s0 (run (E := demo.env demo.good) actions s)).
Proof. by destruct (run _ _). Qed.

Lemma row_default k d r0 : has (db.row k d) = true → db.row k d = Some (default r0 (db.row k d)).
Proof. by destruct (db.row k d). Qed.

Lemma relayed_lookup : db.row packet_key (w_db (sys_world relayed)) = Some relayed_row.
Proof. apply row_default. by vm_compute. Qed.

Lemma relayed_complete :
  db.Status relayed_row = db.Ibcv2RelayStatusCOMPLETEWITHWRITEACKSUCCESS ∧
  db.RecvTxHash relayed_row = Some "0xcafe".
Proof. by vm_compute. Qed.

Lemma start_sys_inv : sys_inv (mkSystem start ∅ []).
Proof. apply start_inv, demo.demo_row_wf. Qed.

Lemma relayed_reaches : reaches (E := demo.env demo.good) (mkSystem start ∅ []) relayed.
Proof.
  etrans; [apply start_reaches|].
  apply (run_reaches (E := demo.env demo.good) relay_actions); [|done|done|done|].
  - apply run_default. by vm_compute.
  - exact (reaches_inv _ _ start_sys_inv start_reaches).
Qed.

(** The tick after that. *)
Definition next_tick : outcome (gmap pipelineKey (Pipeline Z)) * World Z :=
  Run_tick (E := demo.env demo.good) (sys_pipelines relayed) (sys_world relayed).

Lemma relayed_eta : relayed = mkSystem (sys_world relayed) (sys_pipelines relayed) [].
Proof.
  assert (sys_waiting relayed = []) as Hw by (by vm_compute).
  destruct relayed as [w pls rows]. simpl in *. by rewrite Hw.
Qed.

Lemma next_tick_reaches : ∃ pls,
  reaches (E := demo.env demo.good) relayed (mkSystem next_tick.2 pls []).
Proof.
  assert (is_Ret next_tick.1 = true) as Hret by (by vm_compute).
  destruct next_tick as [[pls|e|] w] eqn:Hn; [|done..]. exists pls. rewrite relayed_eta.
  apply tick_reaches; [|exact Hn]. rewrite <- relayed_eta.
  exact (reaches_inv _ _ start_sys_inv relayed_reaches).
Qed.

Lemma finished_rows_stay_witness : db.row packet_key (w_db next_tick.2) = Some relayed_row.
Proof.
  destruct next_tick_reaches as [pls Hr].
  apply (finished_rows_stay (E := demo.env demo.good) start relayed (mkSystem next_tick.2 pls [])
    packet_key relayed_row demo.demo_row_wf relayed_reaches Hr relayed_lookup).
  by vm_compute.
Defined.

(** ** A stale row

    The same run, with the rows read a second time while the packet is still
    in the pipeline; they are to be submitted when it has left. *)

Definition stale : System Z :=
  default (mkSystem start ∅ [])
    (run (E := demo.env demo.good) ([Read; Submit; Read] ++ relay_actions)
       (mkSystem start ∅ [])).

Lemma reachable_transfers_synced_witness : ∃ t r,
  w_heap tick.2 !! 2%positive = Some t ∧ db.row (update_key t) (w_db tick.2) = Some r.
Proof.
  destruct (reachable_transfers_synced (E := demo.env demo.good) start tick.2 tick_pipelines []
    (newPipelineKey demo.transfer) tick_pipeline 2%positive demo.demo_row_wf start_reaches tick_lookup
    tick_inside) as (t & r & Ht & Hr & _).
  by exists t, r.
Defined.

(** Two packets of the same clients, picked up by one tick. *)
Definition second_params : db.InsertIBCV2TransferParams :=
  db.mkInsertIBCV2TransferParams "chain-a" "chain-b" "0xab" (Some 1) 5 "client-a" "client-b"
    (Some 1000).

Definition two_rows : World Z :=
  mkWorld 0 (db.InsertIBCV2Transfer second_params 1 (demo.database demo.row_pending)).2 ∅ [] [].

Lemma two_rows_wf : db_wf (w_db two_rows).
Proof. apply insert_wf; [by vm_compute|done|exact demo.demo_row_wf]. Qed.

Definition two_tick : outcome (gmap pipelineKey (Pipeline Z)) * World Z :=
  Run_tick (E := demo.env demo.good) ∅ two_rows.

Definition two_pipelines : gmap pipelineKey (Pipeline Z) :=
  match two_tick.1 with Ret pls => pls | _ => ∅ end.

Definition two_pipeline : Pipeline Z :=
  default (NewPipelineDeduper []) (two_pipelines !! newPipelineKey demo.transfer).

Lemma two_reaches :
  reaches (E := demo.env demo.good) (mkSystem two_rows ∅ []) (mkSystem two_tick.2 two_pipelines []).
Proof.
  apply tick_reaches; [apply start_inv, two_rows_wf|].
  assert (is_Ret two_tick.1 = true) as Hret by (by vm_compute).
  unfold two_pipelines, two_tick in *. by destruct (Run_tick _ _) as [[]].
Qed.

Lemma two_lookup : two_pipelines !! newPipelineKey demo.transfer = Some two_pipeline.
Proof.
  assert (has (two_pipelines !! newPipelineKey demo.transfer) = true) as Hhas by (by vm_compute).
  unfold two_pipeline. by destruct (two_pipelines !! _).
Qed.

Definition second_transfer : IBCV2Transfer :=
  default demo.transfer (w_heap two_tick.2 !! 2%positive).

Lemma reachable_one_per_packet_witness :
  NoDup (locs two_pipeline) ∧ update_key demo.transfer ≠ update_key second_transfer.
Proof.
  destruct (reachable_one_per_packet (E := demo.env demo.good) two_rows two_tick.2 two_pipelines []
    _ _ _ _ 1%positive 2%positive demo.transfer second_transfer two_rows_wf two_reaches two_lookup
    two_lookup) as [Hnd Hne].
  - apply (bool_decide_unpack _). by vm_compute.
  - apply (bool_decide_unpack _). by vm_compute.
  - by vm_compute.
  - by vm_compute.
  - split; [exact Hnd|]. apply Hne. right. discriminate.
Defined.

Lemma reachable_rows_sound_witness : db.index_ok (w_db tick.2).
Proof.
  exact (proj1 (reachable_rows_sound (E := demo.env demo.good) start tick.2 tick_pipelines []
    demo.demo_row_wf start_reaches)).
Defined.

Lemma reachable_dedup_witness :
  PipelineDeduper_Push 7%positive demo.transfer tick_pipeline = (false, tick_pipeline).
Proof.
  exact (reachable_dedup (E := demo.env demo.good) start tick.2 tick_pipelines [] _ _ 2%positive
    demo.transfer 7%positive demo.demo_row_wf start_reaches tick_lookup tick_inside eq_refl).
Defined.

(** A configuration of the two chains that have an [ibcv2] section. *)
Definition conf_ab : config.Config :=
  config.mkConfig (config.Postgres demo.conf) [("a", demo.chain_a); ("b", demo.chain_b)]
    (config.Metrics demo.conf) (config.RelayerAPI demo.conf) (config.Coingecko demo.conf)
    (config.IBCV2ProofAPI demo.conf) (config.Signing demo.conf).

Definition env_ab : Env Z :=
  mkEnv Z (env_clients (Env := demo.env demo.good)) (env_RelayByTx (Env := demo.env demo.good))
    None (config.NewConfigReader conf_ab) (λ x, (x, x + 1)) (λ x, (None, x)) (λ x, x)
    (λ x, (true, x)).

Lemma env_ab_ibcv2 : ibcv2_everywhere (E := env_ab).
Proof.
  intros id c. unfold config.GetChainConfig. simpl.
  destruct (_ !! id) as [c'|] eqn:Hc; [|done]. intros [= <-]. unfold config.createIndexes in Hc.
  simpl in Hc. apply lookup_insert_Some in Hc as [[_ <-]|[_ Hc]]; [by eexists|].
  apply lookup_insert_Some in Hc as [[_ <-]|[_ Hc]]; [by eexists|]. by rewrite lookup_empty in Hc.
Defined.

Lemma tick_submits_all_witness :
  let res := Run_tick (E := env_ab) ∅ start in
  ∃ pls, res.1 = Ret pls ∧ picked_up ∅ res.2 pls demo.row_pending.
Proof.
  intros res.
  destruct (tick_submits_all (E := env_ab) start res.2 ∅ res.1 (λ _, eq_refl) env_ab_ibcv2
    (start_inv start demo.demo_row_wf) (surjective_pairing _)) as (pls & Ho & _ & _ & H).
  exists pls. split; [exact Ho|]. apply H; [by left|done].
Defined.

Lemma submit_row_panics_witness :
  let r := db.new_row 1 2 (db.mkInsertIBCV2TransferParams "chain-c" "chain-b" "0xaa" (Some 1) 4
             "client-c" "client-b" (Some 1000)) in
  (submit_row (E := demo.env demo.good) r ∅ start).1 = Panic.
Proof.
  intros r. by apply (submit_row_panics (E := demo.env demo.good) r ∅ start demo.chain_c
    demo.chain_b).
Defined.

Lemma working_database_runs_witness :
  reaches (E := demo.env demo.good) (mkSystem start ∅ []) (mkSystem tick.2 tick_pipelines []).
Proof.
  apply (working_database_runs (E := demo.env demo.good)); [exact (λ _, eq_refl)|
    exact demo.demo_row_wf|].
  eapply rtc_subrel; [|exact start_reaches]. by intros a b (? & ? & _).
Defined.

Lemma NewPipelineOpts_nonzero_witness :
  let res := NewPipelineOpts (E := demo.env demo.good) demo.transfer start in
  ∃ opts, res.1 = Ret opts ∧ Forall (λ z, z ≠ 0) (batch_settings opts).
Proof.
  intros res.
  destruct (NewPipelineOpts_nonzero (E := demo.env demo.good) demo.transfer start res.2 res.1
    (surjective_pairing _)) as [_ H].
  assert (is_Ret res.1 = true) as Hret by (by vm_compute).
  destruct res.1 as [opts|e|] eqn:Hres; [|discriminate Hret..]. exists opts. by split; [|apply H].
Defined.

Lemma NewIBCV2Transfer_roundtrip_witness :
  update_key (NewIBCV2Transfer demo.row_pending) = db.mkPacketKey "chain-a" "client-a" 4.
Proof. by apply (NewIBCV2Transfer_roundtrip demo.row_pending). Defined.
