(* ===== verification/Cooperative.v ===== *)
(** * Chains that cooperate

    What each stage of a pipeline does with a transfer when the chains, the
    proof relayer and the database answer. [cooperative] says what the outside
    answers, [stage_leads] what a stage makes of a transfer that satisfies a
    condition, and [NewPipeline_leads] chains the stages: a transfer that
    enters the pipeline as [underway] leaves it in a final state, or is passed
    over because its timeout passes while it is on its way ([passed_by]).
    [Progress.v] draws the conclusion for the running relayer. *)
From stdpp Require Import prelude strings list gmap.
From Stdlib Require Import ZArith.
From S2P Require Import Prelude Go Config Db Transfer World Wp TransferMetrics Processors Laws.
From S2P Require Import ProcessorMW MWLaws Batch BatchLaws PipelineOpts Pipeline ProcessorSpecs.
Open Scope Z_scope.

(** ** Answers *)

Section answers.
Context {X : Type} {E : Env X}.

(** A call that succeeds in every state of the outside, with a result in
    [P]. *)
Definition responds {A} (call : Ext X A) (P : A → Prop) : Prop :=
  ∀ x, ∃ a x', call x = (Ret a, x') ∧ P a.

Lemma wp_ext_responds {A} (call : Ext X A) P Q (x : X) d h mt lg :
  responds call P → (∀ a x', P a → Q (Ret a) (mkWorld x' d h mt lg)) →
  wp (ext call) Q (mkWorld x d h mt lg).
Proof.
  intros Hr HQ. apply wp_ext. intros o x'. destruct (Hr x) as (a & x1 & -> & Ha).
  intros [= <- <-]. auto.
Qed.

Definition decodes (hash : string) : Prop := is_Some (decode_hash hash).

(** A transaction with a hash in hexadecimal digits. *)
Definition proper_tx (found : option BridgeTx) : Prop :=
  ∃ tx, found = Some tx ∧ decodes (Hash tx).

(** The write acknowledgement is there, or cannot be decoded. *)
Definition write_ack_known (o : outcome db.Ibcv2WriteAckStatus) : Prop :=
  match o with
  | Ret _ => True
  | Fail e => errors_Is e ErrWriteAckNotFoundForPacket = false ∧
              errors_Is e ErrWriteAckDecoding = true
  | Panic => False
  end.

(** The packet's commitment on its source chain. It may be deleted at any time,
    by whoever relays an acknowledgement or a timeout first: when it is gone the
    packet is [settled] one way or the other, and the transaction that did it is
    found while the other is not. *)
Record settles (t : IBCV2Transfer) (src : BridgeClient X) (settled : bool → X → Prop) : Prop := {
  se_committed : ∀ x, ∃ b x', IsPacketCommitted src (PacketSourceClientID t)
      (uint64 (PacketSequenceNumber t)) x = (Ret b, x') ∧
    (b = false → ∃ acked, settled acked x');
  se_race : ∀ acked x, settled acked x → settled acked (env_race x).2;
  se_ack : ∀ acked x, settled acked x → ∃ o x', FindAckTx src (PacketSourceClientID t)
      (PacketDestinationClientID t) (uint64 (PacketSequenceNumber t)) x = (o, x') ∧
    settled acked x' ∧ if acked then ∃ tx, o = Ret (Some tx) else ∃ e, o = Fail e;
  se_timeout : ∀ acked x, settled acked x → ∃ o x', FindTimeoutTx src (PacketSourceClientID t)
      (PacketDestinationClientID t) (uint64 (PacketSequenceNumber t)) x = (o, x') ∧
    settled acked x' ∧ if acked then ∃ e, o = Fail e else ∃ tx, o = Ret (Some tx);
}.

(** What the outside answers about the packet of [t]. Its source chain is
    reached through [src] and its destination through [dst]. Nothing is asked of
    the clock: the packet may be in time, late, or become late on its way. *)
Record cooperative (t : IBCV2Transfer) (src dst : BridgeClient X) : Prop := {
  co_storage : healthy;
  co_src : env_clients !! SourceChainID t = Some src;
  co_dst : env_clients !! DestinationChainID t = Some dst;
  co_hash : decodes (SourceTxHash t);
  co_received : responds (IsPacketReceived dst (PacketDestinationClientID t)
    (uint64 (PacketSequenceNumber t))) (λ _, True);
  co_found : responds (FindRecvTx dst (PacketSourceClientID t) (PacketDestinationClientID t)
    (uint64 (PacketSequenceNumber t)) (PacketTimeoutTimestamp t)) proper_tx;
  co_settles : ∃ settled, settles t src settled;
  co_timestamp : ∀ offset,
    answers (IsTimestampFinalized dst (PacketTimeoutTimestamp t) offset) (Ret true);
  co_write_ack : ∀ hash x, ∃ o x', write_ack_known o ∧
    PacketWriteAckStatus dst hash (uint64 (PacketSequenceNumber t)) (PacketSourceClientID t)
      (PacketDestinationClientID t) x = (o, x');
  co_relay : ∀ req, responds (env_RelayByTx req) (λ _, True);
  co_finalized : ∀ c hash offset, c = src ∨ c = dst →
    answers (IsTxFinalized c hash offset) (Ret true);
  co_retry : ∀ c hash expiry time, c = src ∨ c = dst →
    answers (ShouldRetryTx c hash expiry time) (Ret false);
  co_wait : ∀ c, c = src ∨ c = dst → responds (WaitForChain c) (λ _, True);
  co_deliver : ∀ c tx address, c = src ∨ c = dst → responds (DeliverTx c tx address) proper_tx;
  co_fee : ∀ c hash, c = src ∨ c = dst → responds (TxFee c hash) (λ _, True);
  co_price : ∀ price id decimals fee, env_GetCoinUsdValue = Some price →
    responds (price id decimals fee) (λ _, True);
}.

(** The clock shows a time after the timeout of [t], or one before it, in some
    state of the outside. *)
Definition can_be (late : bool) (t : IBCV2Transfer) : Prop :=
  ∃ x, IsTimedOut (env_Now x).1 t = late.
End answers.

(** ** Transfers on their way *)

(** A transfer about the packet of [t0] that has not errored, with a record
    that is in order so far: a recv hash can be decoded, and a write
    acknowledgement is that of the recv transaction and its status is known. *)
Record underway (t0 t : IBCV2Transfer) : Prop := {
  un_packet : same_packet t0 t;
  un_error : ProcessingError t = None;
  un_state : db.unfinished (State t) = true;
  un_recv : ∀ hash, RecvTxHash t = Some hash → decodes hash;
  un_write_ack : ∀ hash, WriteAckTxHash t = Some hash →
    RecvTxHash t = Some hash ∧ is_Some (WriteAckStatus t);
}.

Section conditions.
Context {X : Type} {E : Env X}.

(** Neither received nor timed out when it comes to the stage that delivers it,
    late by then, and not late or already acknowledged when the timeout was
    looked at. *)
Definition passed_by (t0 t : IBCV2Transfer) : Prop :=
  RecvTxHash t = None ∧ TimeoutTxHash t = None ∧ can_be true t0 ∧
  (is_Some (AckTxHash t) ∨ can_be false t0).

(** The conditions between the stages: a late packet has been timed out, unless
    it was acknowledged; the packet has been received or timed out; its
    acknowledgement is known or it has been timed out; all that is to be relayed
    has been relayed; and the transfer is finished; or it was passed by. *)
Definition timeout_done (t0 t : IBCV2Transfer) : Prop :=
  underway t0 t ∧ (is_Some (TimeoutTxHash t) ∨ is_Some (RecvTxHash t) ∨ is_Some (AckTxHash t) ∨
    can_be false t0).

Definition recv_done (t0 t : IBCV2Transfer) : Prop :=
  underway t0 t ∧ (is_Some (TimeoutTxHash t) ∨ is_Some (RecvTxHash t) ∨ passed_by t0 t).

Definition write_ack_done (t0 t : IBCV2Transfer) : Prop :=
  underway t0 t ∧ (is_Some (TimeoutTxHash t) ∨ is_Some (WriteAckTxHash t) ∨ passed_by t0 t).

Definition ack_done (success error : bool) (t0 t : IBCV2Transfer) : Prop :=
  underway t0 t ∧ (IsComplete success error t = true ∨ passed_by t0 t).

(** One of the four [COMPLETE_*] states. *)
Definition complete_state (s : db.Ibcv2RelayStatus) : Prop :=
  db.unfinished s = false ∧ s ≠ db.Ibcv2RelayStatusFAILED.

Definition finished_transfer (t0 t : IBCV2Transfer) : Prop :=
  same_packet t0 t ∧ ProcessingError t = None ∧ complete_state (State t).

(** How a transfer leaves the last stage. *)
Definition left_transfer (t0 t : IBCV2Transfer) : Prop :=
  finished_transfer t0 t ∨ underway t0 t ∧ passed_by t0 t.
End conditions.

Lemma final_state_complete t s : final_state t = Some s → complete_state s.
Proof. unfold final_state. intros. repeat split_match; by simplify_eq. Qed.

Lemma underway_State t0 t s :
  db.unfinished s = true → underway t0 t → underway t0 (with_State s t).
Proof. intros Hs [Hp]. split; try done. transitivity t; [done|by split]. Qed.

Lemma unfinished_not_failed s : db.unfinished s = true → s ≠ db.Ibcv2RelayStatusFAILED.
Proof. by intros H ->. Qed.

(** ** What a stage makes of a transfer *)

Section leads.
Context {X : Type} {E : Env X}.

(** The transfer at [l] has been replaced by one in [Q], and the call returned
    [ret]. *)
Definition moves {A} (ret : A) (l : loc) (h : gmap loc IBCV2Transfer)
    (Q : IBCV2Transfer → Prop) (o : outcome A) (w : World X) : Prop :=
  o = Ret ret ∧ ∃ t', w_heap w = <[l := t']> h ∧ Q t'.

(** A stage takes every transfer in [P] to one in [Q]. A batch takes the
    transfer along whatever else is in the batch. *)
Definition stage_leads (P Q : IBCV2Transfer → Prop) (s : stage X) : Prop :=
  match s with
  | ProcessConcurrently p => ∀ l t x d h mt lg, h !! l = Some t → P t →
      wp (IBCV2ProcessorMW_Process p (Some l)) (moves (Some l) l h Q) (mkWorld x d h mt lg)
  | ConditionallyBatchProcess _ _ _ p =>
      (∀ l t x d h mt lg, h !! l = Some t → P t →
         wp (goes_to_batch p l) (λ o _, ∃ b, o = Ret b ∧ (b = false → Q t))
           (mkWorld x d h mt lg)) ∧
      (∀ ls l t x d h mt lg, NoDup ls → (∀ l, l ∈ ls → is_Some (h !! l)) → l ∈ ls →
         h !! l = Some t → P t →
         wp (IBCV2BatchProcessorMW_Process p ls) (λ o w, is_Ret o = true ∧
           ∃ t', w_heap w !! l = Some t' ∧ Q t') (mkWorld x d h mt lg))
  | FinishConcurrently f => ∀ l t x d h mt lg, h !! l = Some t → P t → db_wf d → attached d t →
      wp (StateFinisher_Process f l) (moves l l h Q) (mkWorld x d h mt lg)
  end.

(** The stages of a pipeline one after the other. *)
Inductive leads (R : IBCV2Transfer → Prop) : (IBCV2Transfer → Prop) → list (stage X) → Prop :=
  | leads_nil : leads R R []
  | leads_cons P Q s ss : stage_leads P Q s → leads R Q ss → leads R P (s :: ss).

(** The middleware around a processor. *)
Lemma mw_leads (p : IBCV2Processor X) (P P' Q : IBCV2Transfer → Prop) :
  healthy →
  (∀ t, P t → ProcessingError t = None ∧ db.unfinished (State t) = true) →
  (∀ l t x d h mt lg, h !! l = Some t → P t →
     wp (ShouldProcess p l) (λ o w, w_db w = d ∧ w_heap w = h ∧
       ∃ b, o = Ret b ∧ if b : bool then P' (with_State (Processor_State p) t) else Q t)
       (mkWorld x d h mt lg)) →
  (∀ l t x d h mt lg, h !! l = Some t → P' t →
     wp (Process p l) (moves l l h Q) (mkWorld x d h mt lg)) →
  stage_leads P Q (ProcessConcurrently p).
Proof.
  intros Hh Hlive Hshould Hproc l t x d h mt lg Hl HP. destruct (Hlive t HP) as [He Hu].
  unfold IBCV2ProcessorMW_Process. wp_step. apply wp_ret. simpl. wp_step. eapply wp_load; [done|]. simpl.
  rewrite (Error_empty t He). simpl. unfold GetState.
  rewrite bool_decide_eq_false_2 by (by apply unfinished_not_failed).
  wp_step. eapply wp_mono; [|by apply (Hshould l t)].
  intros o [x1 d1 h1 mt1 lg1] (Hd1 & Hh1 & b & -> & Hb); simpl in *. subst d1 h1. destruct b; simpl.
  - wp_step. apply wp_attempt, wp_exec_healthy; [done|]. intros now x2. simpl.
    wp_go. rewrite (alter_known _ _ t) by done.
    eapply wp_mono; [|by apply (Hproc l (with_State (Processor_State p) t)); [rewrite lookup_insert_eq|]].
    intros o [x3 d3 h3 mt3 lg3] (-> & t' & Hh3 & HQ); simpl in *. wp_go.
    split; [done|]. exists t'. simpl. by rewrite Hh3, insert_insert_eq.
  - wp_step. split; [done|]. exists t. simpl. by rewrite insert_id.
Qed.
End leads.

(** ** The processors *)

Lemma cooperative_same {X} {E : Env X} t0 t src dst :
  same_packet t0 t → cooperative t0 src dst → cooperative t src dst.
Proof.
  intros [H1 H2 H3 H4 H5 H6 H7 H8] [? ? ? ? ? ? [settled []]].
  split; [..|exists settled; split| | | | | | | | |];
    rewrite ?H1, ?H2, ?H3, ?H4, ?H5, ?H6, ?H7, ?H8; assumption.
Qed.

(** One call of the outside, with what [Hco] says of its answer. *)
Ltac wp_coop_ext Hco :=
  lazymatch goal with
  | |- wp (ext (IsPacketReceived _ _ _)) _ _ =>
      eapply wp_ext_responds; [exact (co_received _ _ _ Hco)|intros [] ? _]
  | |- wp (ext (FindRecvTx _ _ _ _ _)) _ _ =>
      eapply wp_ext_responds; [exact (co_found _ _ _ Hco)|intros ? ? (? & -> & ?)]
  | |- wp (ext (IsTimestampFinalized _ _ _)) _ _ =>
      eapply wp_ext_answers; [exact (co_timestamp _ _ _ Hco _)|intros ?]
  | |- wp (ext (env_RelayByTx _)) _ _ =>
      eapply wp_ext_responds; [exact (co_relay _ _ _ Hco _)|intros ? ? _]
  | |- wp (ext (IsTxFinalized _ _ _)) _ _ =>
      eapply wp_ext_answers; [apply (co_finalized _ _ _ Hco); by auto|intros ?]
  | |- wp (ext (ShouldRetryTx _ _ _ _)) _ _ =>
      eapply wp_ext_answers; [apply (co_retry _ _ _ Hco); by auto|intros ?]
  | |- wp (ext (WaitForChain _)) _ _ =>
      eapply wp_ext_responds; [apply (co_wait _ _ _ Hco); by auto|intros ? ? _]
  | |- wp (ext (DeliverTx _ _ _)) _ _ =>
      eapply wp_ext_responds; [apply (co_deliver _ _ _ Hco); by auto|intros ? ? (? & -> & ?)]
  | |- wp (ext (TxFee _ _)) _ _ =>
      eapply wp_ext_responds; [apply (co_fee _ _ _ Hco); by auto|intros ? ? _]
  | |- wp (ext (?price _ _ _)) _ _ =>
      eapply wp_ext_responds; [apply (co_price _ _ _ Hco); by auto|intros ? ? _]
  end.

(** Runs a program of which [Hco] is known. *)
Ltac wp_coop Hco :=
  repeat (first
    [ wp_coop_ext Hco
    | lazymatch goal with
      | |- wp (GetClient _) _ _ => eapply wp_GetClient_known;
          [first [exact (co_src _ _ _ Hco)|exact (co_dst _ _ _ Hco)|eassumption]|]
      | |- wp (exec _) _ _ => apply wp_exec_healthy; [exact (co_storage _ _ _ Hco)|intros ? ?]
      end
    | wp_go_step ]; cbn beta iota).

(** The transfer is read first; what [ShouldProcess] returns. *)
Ltac read_transfer := wp_step; eapply wp_load; [eassumption|]; simpl.
Ltac should_be :=
  wp_go; simpl; (split_and!; [done|done|]; eexists; split; [reflexivity|]).

(** Side conditions about which hashes there are. *)
Ltac hashes :=
  unfold GetRecvTxHash, GetRecvTxTime, GetWriteAckTxHash, GetWriteAckStatus, GetAckTxHash,
    GetAckTxTime, GetTimeoutTxHash, GetTimeoutTxTime in *;
  rewrite ?negb_true_iff, ?negb_false_iff, ?andb_true_iff in *;
  solve [done | intros; destruct_and?; split_and?; by apply has_true
        | exfalso; destruct_and?; repeat match goal with H : is_Some _ |- _ => destruct H end;
          congruence].

Section processors.
Context {X : Type} {E : Env X} (t0 : IBCV2Transfer) (src dst : BridgeClient X)
  (Hco : cooperative t0 src dst).

(** A transfer that is kept as it is. *)
Lemma moves_kept {A} (ret : A) l t h (Q : IBCV2Transfer → Prop) (x : X) d mt lg :
  h !! l = Some t → Q t → moves ret l h Q (Ret ret) (mkWorld x d h mt lg).
Proof. intros Hl HQ. split; [done|]. exists t. by rewrite insert_id. Qed.

(** One that is assigned to. *)
Lemma moves_set {A} (ret : A) l t f h (Q : IBCV2Transfer → Prop) (x : X) d mt lg :
  h !! l = Some t → Q (f t) → moves ret l h Q (Ret ret) (mkWorld x d (alter f l h) mt lg).
Proof. intros Hl HQ. split; [done|]. exists (f t). by rewrite (alter_known _ _ t). Qed.

Lemma CheckRecvPacketDelivery_leads :
  stage_leads (underway t0) (underway t0) (ProcessConcurrently NewCheckRecvPacketDeliveryProcessor).
Proof.
  apply (mw_leads _ _ (λ t, underway t0 t ∧ RecvTxHash t = None)); [apply Hco|by intros t []| |].
  - intros l t x d h mt lg Hl Hu. simpl.
    unfold CheckRecvPacketDeliveryProcessor_ShouldProcess. read_transfer. should_be.
    destruct (RecvTxHash t) eqn:Hr; unfold GetRecvTxHash; rewrite Hr; simpl; [done|].
    destruct (_ && _); [|done]. split; [by apply underway_State|done].
  - intros l t x d h mt lg Hl [Hu Hr]. simpl.
    pose proof (cooperative_same t0 t src dst (un_packet _ _ Hu) Hco) as Hct.
    unfold CheckRecvPacketDeliveryProcessor_Process. read_transfer.
    wp_coop Hct; simplify_eq.
    + eapply moves_set; [done|].
      destruct Hu as [Hp ? ? ? Hw]; split; simpl; try done; [by destruct Hp; split|by intros ? [= <-]|].
      intros hash Hh. destruct (Hw hash Hh). congruence.
    + by eapply moves_kept.
Qed.

(** Conditions that say nothing of the state and of the finality times. *)
Record stable (P : IBCV2Transfer → Prop) : Prop := {
  st_underway : ∀ t, P t → underway t0 t;
  st_State : ∀ s t, db.unfinished s = true → P t → P (with_State s t);
  st_source : ∀ time t, P t → P (with_SourceTxFinalizedTime time t);
  st_write_ack : ∀ time t, P t → P (with_WriteAckTxFinalizedTime time t);
}.

Lemma underway_stable : stable (underway t0).
Proof.
  split; [done|by intros; apply underway_State|..]; intros time t [Hp]; split; try done;
    (transitivity t; [done|by split]).
Qed.

(** Closed under what [underway] and [C] are closed under. *)
Lemma stable_and (C : IBCV2Transfer → Prop) :
  (∀ s t, C t → C (with_State s t)) → (∀ u t, C t → C (with_SourceTxFinalizedTime u t)) →
  (∀ u t, C t → C (with_WriteAckTxFinalizedTime u t)) → stable (λ t, underway t0 t ∧ C t).
Proof.
  intros H1 H2 H3. destruct underway_stable as [_ S1 S2 S3].
  split; [by intros t []|..]; intros; destruct_and?; auto.
Qed.

Lemma timeout_done_stable : stable (timeout_done t0).
Proof. by apply stable_and. Qed.

Lemma recv_done_stable : stable (recv_done t0).
Proof. by apply stable_and. Qed.

Lemma write_ack_done_stable : stable (write_ack_done t0).
Proof. by apply stable_and. Qed.

Lemma ack_done_stable success error : stable (ack_done success error t0).
Proof. by apply stable_and. Qed.

(** A processor that assigns at most a finality time. [S] is what
    [ShouldProcess] makes sure of. *)
Lemma stable_leads (P S : IBCV2Transfer → Prop) (p : IBCV2Processor X) :
  stable P → db.unfinished (Processor_State p) = true →
  (∀ s t, S t → S (with_State s t)) →
  (∀ l t x d h mt lg, h !! l = Some t → P t →
     wp (ShouldProcess p l) (λ o w, w_db w = d ∧ w_heap w = h ∧
       ∃ b, o = Ret b ∧ (b = true → S t)) (mkWorld x d h mt lg)) →
  (∀ l t x d h mt lg, h !! l = Some t → underway t0 t → S t → P t →
     wp (Process p l) (moves l l h P) (mkWorld x d h mt lg)) →
  stage_leads P P (ProcessConcurrently p).
Proof.
  intros HP Hst HS Hshould Hproc. apply (mw_leads _ _ (λ t, P t ∧ S t)); [apply Hco| | |].
  - intros t Ht. by destruct (st_underway _ HP t Ht).
  - intros l t x d h mt lg Hl Ht. eapply wp_mono; [|by eapply Hshould].
    intros o w (Hd & Hh & b & -> & Hb). split_and!; [done|done|]. eexists. split; [done|].
    destruct b; [|done]. split; [by apply (st_State _ HP)|auto].
  - intros l t x d h mt lg Hl [Ht HSt]. apply (Hproc l t); try done. by apply (st_underway _ HP).
Qed.

(** Runs [ShouldProcess] and [Process] of such a processor. *)
Ltac stable_stage HP S :=
  apply (stable_leads _ S); [exact HP|done|by auto| |];
  intros l t x d h mt lg Hl;
  [ intros _; simpl; wp_open; read_transfer; wp_go; simpl;
    (split_and!; [done|done|]; eexists; split; [reflexivity|]); try hashes
  | intros Hu HS Ht; simpl;
    pose proof (cooperative_same t0 t src dst (un_packet _ _ Hu) Hco) as Hct;
    pose proof (co_src _ _ _ Hco) as Hsrc; pose proof (co_dst _ _ _ Hco) as Hdst;
    wp_open; read_transfer; wp_coop Hct; simplify_eq/=;
    try solve [by eapply moves_kept | eapply moves_set; [done|by apply HP] | hashes] ].

Context (P : IBCV2Transfer → Prop) (HP : stable P).

(** Searching for the transactions that may have settled the packet. *)
Lemma wp_find_tx warning found (call : Ext X (option BridgeTx)) Q (x : X) d h mt lg :
  (∀ o x', call x = (o, x') → match o with
     | Ret (Some tx) => ∀ lg', Q (Ret (Some tx)) (mkWorld x' d h mt lg')
     | Fail _ => ∀ lg', Q (Ret None) (mkWorld x' d h mt lg')
     | _ => False
     end) →
  wp (find_tx warning found call) Q (mkWorld x d h mt lg).
Proof.
  intros HQ. unfold find_tx. wp_step. apply wp_attempt, wp_ext. intros o x' Hc.
  specialize (HQ o x' Hc). destruct o as [[tx|]|e|]; simpl; [|done| |done].
  - wp_step. apply wp_ret. simpl. wp_step. wp_step. simpl. by apply wp_ret.
  - destruct (_ && _); [by apply wp_ret|]. wp_step. wp_step. simpl. by apply wp_ret.
Qed.

Lemma wp_find_both t settled acked Q (x : X) d h mt lg :
  settles t src settled → settled acked x →
  (∀ tx x' lg', Q (Ret (if acked then (Some tx, None) else (None, Some tx)))
     (mkWorld x' d h mt lg')) →
  wp (find_ack_and_timeout_txs src t) Q (mkWorld x d h mt lg).
Proof.
  intros Hse Hx HQ.
  assert (∀ R y lg1, settled acked y →
    (∀ found y' lg', settled acked y' →
       (if acked then ∃ tx, found = Some tx else found = None) →
       R (Ret found) (mkWorld y' d h mt lg')) →
    wp (find_ack_tx src t) R (mkWorld y d h mt lg1)) as Hack.
  { intros R y lg1 Hy HR. apply wp_find_tx. intros o y' Ho.
    destruct (se_ack _ _ _ Hse acked y Hy) as (o' & y2 & Ho' & Hy2 & Hf).
    pose proof (eq_trans (eq_sym Ho) Ho') as [= -> ->].
    destruct acked; destruct Hf as [? ->]; intros; apply HR; eauto. }
  assert (∀ R y lg1, settled acked y →
    (∀ found y' lg', settled acked y' →
       (if acked then found = None else ∃ tx, found = Some tx) →
       R (Ret found) (mkWorld y' d h mt lg')) →
    wp (find_timeout_tx src t) R (mkWorld y d h mt lg1)) as Htimeout.
  { intros R y lg1 Hy HR. apply wp_find_tx. intros o y' Ho.
    destruct (se_timeout _ _ _ Hse acked y Hy) as (o' & y2 & Ho' & Hy2 & Hf).
    pose proof (eq_trans (eq_sym Ho) Ho') as [= -> ->].
    destruct acked; destruct Hf as [? ->]; intros; apply HR; eauto. }
  unfold find_ack_and_timeout_txs. wp_step.
  pose proof (se_race _ _ _ Hse acked x Hx) as Hx1.
  unfold wp at 1. simpl. destruct (env_race x) as [b x1]; simpl in *.
  destruct b; wp_step.
  - apply Hack; [done|]. intros f1 y1 lg1 Hy1 Hf1. simpl. wp_step.
    apply Htimeout; [done|]. intros f2 y2 lg2 Hy2 Hf2. simpl. apply wp_ret.
    destruct acked; [destruct Hf1 as [tx ->]; subst|destruct Hf2 as [tx ->]; subst]; apply HQ.
  - apply Htimeout; [done|]. intros f2 y2 lg2 Hy2 Hf2. simpl. wp_step.
    apply Hack; [done|]. intros f1 y1 lg1 Hy1 Hf1. simpl. apply wp_ret.
    destruct acked; [destruct Hf1 as [tx ->]; subst|destruct Hf2 as [tx ->]; subst]; apply HQ.
Qed.

(** The check that finds out what has settled the packet. *)
Lemma CheckPacketCommitment_leads :
  (∀ address time hash t, P t → P (with_AckTxRelayerAddress address
     (with_AckTxTime time (with_AckTxHash (Some hash) t)))) →
  (∀ address time hash t, P t → P (with_TimeoutTxRelayerAddress address
     (with_TimeoutTxTime time (with_TimeoutTxHash (Some hash) t)))) →
  stage_leads P P (ProcessConcurrently NewCheckPacketCommitmentProcessor).
Proof.
  intros Hack Htimeout.
  apply (stable_leads _ (λ _ : IBCV2Transfer, True)); [exact HP|done|by auto| |];
    intros l t x d h mt lg Hl.
  - intros _. simpl. wp_open. read_transfer. wp_go. simpl. split_and!; [done|done|by eexists].
  - intros Hu _ Ht. simpl.
    pose proof (cooperative_same t0 t src dst (un_packet _ _ Hu) Hco) as Hct.
    destruct (co_settles _ _ _ Hct) as [settled Hse].
    unfold CheckPacketCommitmentProcessor_Process. read_transfer.
    wp_step. apply wp_wrap. eapply wp_GetClient_known; [exact (co_src _ _ _ Hct)|]. simpl.
    wp_step. apply wp_wrap, wp_ext. intros o x' Ho.
    destruct (se_committed _ _ _ Hse x) as (b & x1 & Ho' & Hb).
    pose proof (eq_trans (eq_sym Ho) Ho') as [= -> ->]. simpl.
    destruct b; [apply wp_ret; by eapply moves_kept|].
    destruct (Hb eq_refl) as [acked Hx1]. wp_step. wp_step. simpl. wp_step.
    eapply (wp_find_both t settled acked); [done|done|]. intros tx x2 lg2. simpl.
    destruct acked; (wp_step; apply wp_wrap, wp_exec_healthy; [apply Hco|]; intros now x3; simpl;
      wp_step; wp_step; simpl; apply wp_ret; eapply moves_set; [done|]; auto).
Qed.

Lemma CheckSendFinality_leads chain offset :
  stage_leads P P (ProcessConcurrently (NewCheckSendFinalityProcessor chain offset)).
Proof. by stable_stage HP (λ _ : IBCV2Transfer, True). Qed.

Lemma CheckTimeoutFinality_leads offset :
  stage_leads P P (ProcessConcurrently (NewCheckTimeoutFinalityProcessor offset)).
Proof. by stable_stage HP (λ _ : IBCV2Transfer, True). Qed.

Lemma CheckWriteAckFinality_leads chain success error offset :
  stage_leads P P
    (ProcessConcurrently (NewCheckWriteAckFinalityProcessor chain success error offset)).
Proof. stable_stage HP (λ t, is_Some (WriteAckTxHash t)). Qed.

Lemma RetryRecv_leads :
  stage_leads P P (ProcessConcurrently (NewRetryRecvPacketProcessor (DestinationChainID t0))).
Proof. stable_stage HP (λ t, is_Some (RecvTxHash t) ∧ is_Some (RecvTxTime t)). Qed.

Lemma RetryAck_leads :
  stage_leads P P (ProcessConcurrently (NewRetryAckPacketProcessor (SourceChainID t0))).
Proof. stable_stage HP (λ t, is_Some (AckTxHash t) ∧ is_Some (AckTxTime t)). Qed.

Lemma RetryTimeout_leads :
  stage_leads P P (ProcessConcurrently (NewRetryTimeoutPacketProcessor (SourceChainID t0))).
Proof. stable_stage HP (λ t, is_Some (TimeoutTxHash t) ∧ is_Some (TimeoutTxTime t)). Qed.

Lemma RecvTxGas_leads price id decimals :
  env_GetCoinUsdValue = Some price →
  stage_leads P P (ProcessConcurrently (NewRecvTxGasCalculatorProcessor price id decimals)).
Proof. intros Hprice. stable_stage HP (λ t, is_Some (RecvTxHash t)). Qed.

Lemma AckTxGas_leads price id decimals :
  env_GetCoinUsdValue = Some price →
  stage_leads P P (ProcessConcurrently (NewAckTxGasCalculatorProcessor price id decimals)).
Proof. intros Hprice. stable_stage HP (λ t, is_Some (AckTxHash t)). Qed.

Lemma TimeoutTxGas_leads price id decimals :
  env_GetCoinUsdValue = Some price →
  stage_leads P P (ProcessConcurrently (NewTimeoutTxGasCalculatorProcessor price id decimals)).
Proof. intros Hprice. stable_stage HP (λ t, is_Some (TimeoutTxHash t)). Qed.

(** The gas cost stage, where there is one. *)
Lemma gas_stage_leads R id decimals new ss :
  (∀ price i n, env_GetCoinUsdValue = Some price →
     stage_leads P P (ProcessConcurrently (new price i n))) →
  leads R P ss → leads R P (gas_stage id decimals new ++ ss).
Proof.
  intros Hn Hss. unfold gas_stage. destruct env_GetCoinUsdValue as [price|] eqn:Hp; [|done].
  destruct (_ && _); [|done]. simpl. eapply leads_cons; [|done]. by apply Hn.
Qed.
End processors.

Section ends.
Context {X : Type} {E : Env X} (t0 : IBCV2Transfer) (src dst : BridgeClient X)
  (Hco : cooperative t0 src dst).

(** The write acknowledgement is recorded. *)
Lemma record_write_ack_leads l t hash status (x : X) d h mt lg :
  h !! l = Some t → underway t0 t → RecvTxHash t = Some hash →
  wp (record_write_ack l t hash status) (moves l l h (write_ack_done t0)) (mkWorld x d h mt lg).
Proof.
  intros Hl Hu Hr. unfold record_write_ack. wp_coop Hco; simplify_eq;
    (eapply moves_set; [done|]; split; [|by right; left; eexists];
     destruct Hu as [Hp]; split; simpl; try done;
     [by destruct Hp; split|intros ? [= <-]; by split]).
Qed.

Lemma WaitForWriteAck_leads :
  stage_leads (recv_done t0) (write_ack_done t0)
    (ProcessConcurrently NewWaitFoWriteAckPacketProcessor).
Proof.
  apply (mw_leads _ _ (λ t, underway t0 t ∧ is_Some (RecvTxHash t))); [apply Hco|by intros t [[]]| |].
  - intros l t x d h mt lg Hl [Hu Hr]. simpl. wp_open. read_transfer. should_be.
    unfold GetRecvTxHash, GetWriteAckTxHash, GetTimeoutTxHash.
    destruct (TimeoutTxHash t) eqn:Ht; [rewrite andb_false_r; split; [done|]; left; rewrite Ht; eauto|].
    destruct Hr as [[? ?]|[Hr|Hover]]; [done| |].
    2:{ pose proof Hover as [-> _]. simpl. split; [done|]. by right; right. }
    pose proof Hr as [hash ->]. simpl.
    destruct (WriteAckTxHash t) eqn:Hw; simpl; [split; [done|]; right; left; rewrite Hw; eauto|].
    split; [by apply underway_State|done].
  - intros l t x d h mt lg Hl [Hu [hash Hr]]. simpl.
    pose proof (cooperative_same t0 t src dst (un_packet _ _ Hu) Hco) as Hct.
    unfold WaitForWriteAckPacket_Process. read_transfer. unfold GetRecvTxHash. rewrite Hr.
    wp_step. apply wp_wrap. eapply wp_GetClient_known; [exact (co_dst _ _ _ Hct)|]. simpl.
    wp_step. apply wp_attempt, wp_ext. intros o x' Ho.
    destruct (co_write_ack _ _ _ Hct hash x) as (o' & x1 & Hk & Ho').
    pose proof (eq_trans (eq_sym Ho) Ho') as [= -> ->].
    destruct o' as [status|e|]; simpl in Hk; [| |done].
    + by apply record_write_ack_leads.
    + destruct Hk as [Hn Hd]. simpl. rewrite Hn, Hd. simpl. wp_step. wp_step. simpl.
      by apply record_write_ack_leads.
Qed.

(** The finisher ends what is complete. *)
Lemma StateFinisher_leads success error :
  stage_leads (ack_done success error t0) (left_transfer t0)
    (FinishConcurrently (mkStateFinisher success error)).
Proof.
  intros l t x d h mt lg Hl [Hu Hc] Hwf (r & Hr & _ & Hs).
  pose proof Hu as [Hp He _ _ _]. rewrite He in Hs.
  eapply wp_mono; [|by apply (StateFinisher_spec _ l t r); [apply Hco|..]].
  intros o [x1 d1 h1 mt1 lg1] [-> Hf]. simpl in Hf. split; [done|].
  destruct (IsComplete success error t) eqn:Hi.
  - destruct Hf as (s & Hf & -> & _). exists (with_State s t).
    split; [done|]. left. split_and!; [transitivity t; [done|by split]|done|].
    by apply (final_state_complete t).
  - destruct Hc as [?|Hc]; [done|]. exists t. simpl. destruct Hf as [_ ->]. rewrite insert_id by done.
    split; [done|]. by right.
Qed.
End ends.

(** ** The batches *)

Section batch_mw.
Context {X : Type} {E : Env X} (p : IBCV2BatchProcessor X) {Hlaws : BatchProcessorLaws p}.
Context (P P' Q : IBCV2Transfer → Prop) (Hh : healthy).
Context (Hlive : ∀ t, P t → ProcessingError t = None ∧ db.unfinished (State t) = true).
Context (Hshould : ∀ l t x d h mt lg, h !! l = Some t → P t →
  wp (Batch_ShouldProcess p l) (λ o _, ∀ b, o = Ret b →
    if b : bool then P' (with_State (Batch_State p) t) else Q t) (mkWorld x d h mt lg)).

(** Where a transfer of the batch is after the split. *)
Definition split_at (l : loc) (t : IBCV2Transfer) (tp : list loc)
    (h : gmap loc IBCV2Transfer) : Prop :=
  (l ∈ tp ∧ ∃ t', h !! l = Some t' ∧ P' t') ∨ (l ∉ tp ∧ h !! l = Some t ∧ Q t).

Definition split_leads (batch np tp : list loc) (h : gmap loc IBCV2Transfer)
    (o : outcome (list loc * list loc)) (w : World X) : Prop :=
  ∃ np' tp', o = Ret (np ++ np', tp ++ tp') ∧ tp' ⊆ batch ∧
    (∀ l, l ∉ batch → w_heap w !! l = h !! l) ∧
    (∀ l, is_Some (h !! l) → is_Some (w_heap w !! l)) ∧
    ∀ l t, l ∈ batch → h !! l = Some t → P t → split_at l t tp' (w_heap w).

(** The first transfer is not processed. *)
Lemma split_leads_skip l batch np tp h o w :
  l ∉ batch → (∀ t, h !! l = Some t → P t → Q t) →
  split_leads batch (np ++ [l]) tp h o w → split_leads (l :: batch) np tp h o w.
Proof.
  intros Hl HQ (np' & tp' & -> & Hsub & Ho & Hd & Ht). exists (l :: np'), tp'. rewrite <- app_assoc.
  split_and!; [done|set_solver|set_solver|done|]. intros l' t [->|Hl']%elem_of_cons Hlt HP; [|auto].
  right. rewrite Ho by done. split_and!; [set_solver|done|eauto].
Qed.

(** It is. *)
Lemma split_leads_take l t batch np tp h o w :
  l ∉ batch → h !! l = Some t → (P t → P' (with_State (Batch_State p) t)) →
  split_leads batch np (tp ++ [l]) (alter (with_State (Batch_State p)) l h) o w →
  split_leads (l :: batch) np tp h o w.
Proof.
  intros Hl Hlt HP (np' & tp' & -> & Hsub & Ho & Hd & Ht). exists np', (l :: tp').
  rewrite <- app_assoc. split_and!; [done|set_solver| | |].
  - intros l' [Hne Hn]%not_elem_of_cons. by rewrite Ho, lookup_alter_ne.
  - intros l' Hl'. apply Hd. by rewrite lookup_alter_is_Some.
  - intros l' t' Hl' Hlt' HPt. destruct (decide (l = l')) as [<-|Hne].
    + left. split; [by left|]. rewrite Ho, lookup_alter_eq, Hlt by done. simplify_eq. simpl. eauto.
    + assert (l' ∈ batch) as Hin by set_solver.
      destruct (Ht l' t' Hin) as [[? ?]|(? & ? & ?)]; [by rewrite lookup_alter_ne|done|left|right].
      * split; [by right|done].
      * split_and!; [set_solver|done|done].
Qed.

Lemma split_batch_leads batch : ∀ np tp (x : X) d h mt lg,
  NoDup batch → (∀ l, l ∈ batch → is_Some (h !! l)) →
  wp (split_batch p batch np tp) (split_leads batch np tp h) (mkWorld x d h mt lg).
Proof.
  induction batch as [|l batch IH]; intros np tp x d h mt lg Hnd Hdom; simpl.
  { apply wp_ret. exists [], []. rewrite !app_nil_r. split_and!; try done.
    by intros ? ? ?%elem_of_nil. }
  apply NoDup_cons in Hnd as [Hl Hnd]. destruct (Hdom l) as [t Ht]; [by left|].
  assert (∀ y mt1 lg1, (P t → Q t) → wp (split_batch p batch (np ++ [l]) tp)
    (split_leads (l :: batch) np tp h) (mkWorld y d h mt1 lg1)) as Hskip.
  { intros y mt1 lg1 HQ. eapply wp_mono; [intros ? ?; apply split_leads_skip; [done|]|].
    - intros t'. rewrite Ht. by intros [= <-].
    - apply IH; [done|]. intros. apply Hdom. by right. }
  wp_step. eapply wp_load; [done|]. simpl.
  case_bool_decide as He; simpl.
  2:{ apply Hskip. intros HP. destruct (Hlive t HP) as [Hn _]. by rewrite (Error_empty t Hn) in He. }
  case_bool_decide as Hf.
  { apply Hskip. intros HP. destruct (Hlive t HP) as [_ Hu]. by apply unfinished_not_failed in Hu. }
  wp_step. eapply wp_mono; [|apply wp_and; [by apply (law_bshould l t)|]].
  2:{ instantiate (1 := λ o _, P t → ∀ b, o = Ret b →
        if b : bool then P' (with_State (Batch_State p) t) else Q t).
      unfold wp. intros HP. by apply (Hshould l t). }
  intros o [x1 d1 h1 mt1 lg1] [(Hd1 & Hh1 & b & -> & _) Hb]. simpl in *. subst d1 h1.
  destruct b; simpl; [|apply Hskip; intros HP; exact (Hb HP false eq_refl)].
  wp_step. apply wp_attempt, wp_exec_healthy; [done|]. intros now x2. wp_go.
  eapply wp_mono; [intros ? ?; apply (split_leads_take l t); [done|done|]|].
  - intros HP. exact (Hb HP true eq_refl).
  - apply IH; [done|]. intros l' Hl'. rewrite lookup_alter_is_Some. apply Hdom. by right.
Qed.

(** The whole batch middleware. *)
Lemma bmw_leads c s tm :
  (∀ ls l t x d h mt lg, (∀ l, l ∈ ls → is_Some (h !! l)) → h !! l = Some t →
     (l ∈ ls → P' t) → wp (Batch_Process p ls) (λ o w, is_Ret o = true ∧
       ∃ t', w_heap w !! l = Some t' ∧ if decide (l ∈ ls) then Q t' else t' = t)
       (mkWorld x d h mt lg)) →
  stage_leads P Q (ConditionallyBatchProcess c s tm p).
Proof.
  intros Hproc. split.
  - intros l t x d h mt lg Hl HP. destruct (Hlive t HP) as [He _].
    unfold goes_to_batch, IBCV2BatchProcessorMW_ShouldProcess. wp_step. eapply wp_load; [done|].
    simpl. rewrite (Error_empty t He). simpl. wp_step.
    eapply wp_mono; [|apply wp_and; [by apply (law_bshould l t)|by apply (Hshould l t)]].
    intros o w1 [(_ & _ & b & -> & _) Hb]. specialize (Hb b eq_refl). simpl.
    destruct w1. destruct b; simpl; wp_go; (eexists; split; [done|done]).
  - intros ls l t x d h mt lg Hnd Hdom Hin Hl HP. unfold IBCV2BatchProcessorMW_Process.
    wp_step. apply wp_logger. intros lg0. simpl. wp_step.
    eapply wp_mono; [|by apply split_batch_leads].
    intros o [x1 d1 h1 mt1 lg1] (np & tp & -> & Hsub & _ & Hd & Hat). simpl in *.
    assert (∃ t1, h1 !! l = Some t1 ∧ (l ∈ tp → P' t1) ∧ (l ∉ tp → Q t1)) as (t1 & Ht1 & H1 & H2).
    { destruct (Hat l t Hin Hl HP) as [(? & t1 & ? & ?)|(? & ? & ?)]; eexists; by split_and!. }
    wp_step. apply wp_attempt. eapply wp_mono; [|by apply (Hproc tp l t1); auto].
    intros [out|e|] w2 [Hret (t2 & Ht2 & Hc)]; try done. simpl. apply wp_ret.
    split; [done|]. exists t2. split; [done|]. case_decide; [done|]. subst. auto.
Qed.
End batch_mw.

(** A database transaction that goes through. *)
Lemma wp_ExecTx_healthy {X} {E : Env X} fn Q (x : X) d h mt lg :
  healthy →
  (∀ x', wp fn (λ o '(mkWorld x1 d1 h1 mt1 lg1), o = Ret tt ∧
     ∀ x2, Q (Ret tt) (mkWorld x2 d1 h1 mt1 lg1)) (mkWorld x' d h mt lg)) →
  wp (ExecTx fn) Q (mkWorld x d h mt lg).
Proof.
  intros Hh Hfn.
  assert (∀ (Q : outcome unit → World X → Prop) y d1 h1 mt1 lg1,
    (∀ x', Q (Ret tt) (mkWorld x' d1 h1 mt1 lg1)) →
    wp storage Q (mkWorld y d1 h1 mt1 lg1)) as Hst.
  { intros R y d1 h1 mt1 lg1 HR. unfold wp; simpl. pose proof (Hh y) as Hy.
    destruct (env_storage y) as [e y']; simpl in *. by subst. }
  unfold ExecTx. wp_step. apply Hst. intros x1. simpl. do 4 wp_step. simpl. apply wp_attempt.
  eapply wp_mono; [|apply Hfn]. intros o [x2 d2 h2 mt2 lg2] [-> HQ]. simpl.
  wp_step. apply wp_attempt, Hst. intros x3. simpl. by apply wp_ret.
Qed.

Lemma update_batch_healthy {X} {E : Env X} msg update ls Q : ∀ (x : X) d h mt lg,
  healthy → (∀ l, l ∈ ls → is_Some (h !! l)) →
  (∀ x' d', Q (Ret tt) (mkWorld x' d' h mt lg)) →
  wp (update_batch msg update ls) Q (mkWorld x d h mt lg).
Proof.
  unfold update_batch. induction ls as [|l ls IH]; intros x d h mt lg Hh Hd HQ; simpl.
  { by apply wp_ret. }
  destruct (Hd l) as [t Ht]; [by left|]. do 2 wp_step. eapply wp_load; [done|]. simpl.
  destruct (has (ProcessingError t)).
  - apply wp_ret. simpl. apply IH; [done| |done]. intros. apply Hd. by right.
  - apply wp_wrap, wp_exec_healthy; [done|]. intros now x'. simpl.
    apply IH; [done| |done]. intros. apply Hd. by right.
Qed.

(** The transfer [l] is not marked by the loop that collects the
    transactions. *)
Definition kept {X A} (l : loc) (t : IBCV2Transfer) (h : gmap loc IBCV2Transfer)
    (o : outcome A) (w : World X) : Prop :=
  (∃ res, o = Ret res) ∧ w_heap w !! l = Some t ∧
  ∀ l', is_Some (h !! l') → is_Some (w_heap w !! l').

Definition kept_by_collect {X A} (m : M X A) (ls : list loc) (Good : IBCV2Transfer → Prop)
    : Prop :=
  ∀ l t (x : X) d h mt lg, (∀ l, l ∈ ls → is_Some (h !! l)) → h !! l = Some t →
    (l ∈ ls → Good t) → wp m (kept l t h) (mkWorld x d h mt lg).

Section body.
Context {X : Type} {E : Env X} (t0 : IBCV2Transfer) (src dst : BridgeClient X)
  (Hco : cooperative t0 src dst).
Context (ls : list loc) (collect : M X (list (list Z) * list Z))
  (req : list (list Z) → list Z → RelayByTxRequest)
  (update : BridgeTx → db.packet_key → Time → db.Database → db.Database)
  (f : BridgeTx → IBCV2Transfer → IBCV2Transfer) (Good Q : IBCV2Transfer → Prop).
Context (Hcollect : kept_by_collect collect ls Good)
  (Hf : ∀ tx t, f tx (f tx t) = f tx t)
  (Hf_err : ∀ tx t, ProcessingError (f tx t) = ProcessingError t)
  (Hgood : ∀ t, Good t → ProcessingError t = None)
  (HQ : ∀ tx t, decodes (Hash tx) → Good t → Q (f tx t)).

(** The shared body of the three batch processors. *)
Lemma batch_body_leads c msg kind chain de id m2 m3 l t (x : X) d h mt lg :
  env_clients !! id = Some c → c = src ∨ c = dst →
  (∀ l, l ∈ ls → is_Some (h !! l)) → h !! l = Some t → (l ∈ ls → Good t) →
  wp (collected ← collect;
      let '(txIDs, sequences) := collected in
      logger Info msg ≫= λ _,
      tx ← relay_and_deliver kind chain de id (req txIDs sequences);
      wrap m2 (ExecTx (update_batch m3 (update tx) ls)) ≫= λ _,
      set_batch (f tx) ls ≫= λ _,
      mret ls)
    (λ o w, is_Ret o = true ∧ ∃ t', w_heap w !! l = Some t' ∧
       if decide (l ∈ ls) then Q t' else t' = t) (mkWorld x d h mt lg).
Proof.
  intros Hid Hc Hdom Hl HG. wp_step.
  eapply wp_mono; [|by apply (Hcollect l t)].
  intros o [x1 d1 h1 mt1 lg1] ([[txIDs seqs] ->] & Hl1 & Hd1). simpl in *.
  assert (∀ l, l ∈ ls → is_Some (h1 !! l)) as Hdom1 by auto.
  wp_step. wp_step. simpl. wp_step.
  assert (∀ (R : outcome BridgeTx → World X → Prop) rq lg1,
    (∀ tx x2 mt2 lg2, decodes (Hash tx) → R (Ret tx) (mkWorld x2 d1 h1 mt2 lg2)) →
    wp (relay_and_deliver kind chain de id rq) R (mkWorld x1 d1 h1 mt1 lg1)) as Hdel.
  { intros R rq lg2 HR. unfold relay_and_deliver. wp_coop Hco; simplify_eq; by apply HR. }
  apply Hdel. intros tx x2 mt2 lg2 Htx. simpl.
  wp_step. apply wp_wrap, wp_ExecTx_healthy; [apply Hco|]. intros x3.
  apply update_batch_healthy; [apply Hco|done|]. intros x4 d4. split; [done|]. intros x5. simpl.
  wp_step. apply (wp_set_batch (f tx)); [done|done|done|]. intros h' Ho Hi. simpl. apply wp_ret.
  split; [done|]. simpl. case_decide as Hin.
  - rewrite Hi, Hl1 by done. simpl. eexists. split; [done|]. unfold set_live.
    rewrite (Hgood t) by auto. simpl. auto.
  - exists t. by rewrite Ho.
Qed.
End body.

Section collect.
Context {X : Type} {E : Env X}.

(** Going on after the first transfer of the loop, which was marked or not. *)
Lemma kept_go (m : M X (list (list Z) * list Z)) l0 ls Good l t (x : X) d h mt lg :
  kept_by_collect m ls Good → (∀ l, l ∈ l0 :: ls → is_Some (h !! l)) → h !! l = Some t →
  (l ∈ l0 :: ls → Good t) → wp m (kept l t h) (mkWorld x d h mt lg).
Proof.
  intros Hm Hd Hl HG. apply Hm; [|done|]; intros; [apply Hd|apply HG]; by right.
Qed.

Lemma kept_marked (m : M X (list (list Z) * list Z)) l0 f ls Good l t (x : X) d h mt lg :
  kept_by_collect m ls Good → (∀ l, l ∈ l0 :: ls → is_Some (h !! l)) → h !! l = Some t →
  (l ∈ l0 :: ls → Good t) → l ≠ l0 →
  wp m (kept l t h) (mkWorld x d (alter f l0 h) mt lg).
Proof.
  intros Hm Hd Hl HG Hne. eapply wp_mono; [|apply (kept_go m l0 ls Good l t); [done| | |done]].
  - intros o w (Ho & Hl' & Hd'). split_and!; [done|done|]. intros l' Hl2. apply Hd'.
    by rewrite lookup_alter_is_Some.
  - intros l' Hl'. rewrite lookup_alter_is_Some. auto.
  - by rewrite lookup_alter_ne.
Qed.

Lemma collect_send_keeps ls : ∀ txSet txIDs seqs,
  kept_by_collect (X := X) (collect_send_txs ls txSet txIDs seqs) ls
    (λ t, decodes (SourceTxHash t)).
Proof.
  induction ls as [|l0 ls IH]; intros txSet txIDs seqs l t x d h mt lg Hdom Hl HG; simpl.
  { apply wp_ret. split_and!; [by eexists|done|done]. }
  destruct (Hdom l0) as [u Hu]; [by left|]. wp_step. eapply wp_load; [done|]. simpl.
  wp_go; try (by eapply kept_go).
  eapply kept_marked; [by apply IH|done|done|done|]. intros ->. simplify_eq.
  destruct HG as [? Hd]; [by left|]. unfold GetSourceTxHash in *. congruence.
Qed.

Lemma collect_ack_keeps ls : ∀ txSet txIDs seqs,
  kept_by_collect (X := X) (collect_ack_txs ls txSet txIDs seqs) ls
    (λ t, ∃ hash, WriteAckTxHash t = Some hash ∧ decodes hash).
Proof.
  induction ls as [|l0 ls IH]; intros txSet txIDs seqs l t x d h mt lg Hdom Hl HG; simpl.
  { apply wp_ret. split_and!; [by eexists|done|done]. }
  destruct (Hdom l0) as [u Hu]; [by left|]. wp_step. eapply wp_load; [done|]. simpl.
  wp_go; try (by eapply kept_go);
    (eapply kept_marked; [by apply IH|done|done|done|]; intros ->; simplify_eq;
     destruct HG as (? & Hw & ? & ?); [by left|]; unfold GetWriteAckTxHash in *; congruence).
Qed.
End collect.

Section batch_stages.
Context {X : Type} {E : Env X} (t0 : IBCV2Transfer) (src dst : BridgeClient X)
  (Hco : cooperative t0 src dst) (si di : string) (c s : Z) (tm : Duration).

Lemma kept_mono {A} (m : M X A) ls (G G' : IBCV2Transfer → Prop) :
  (∀ t, G' t → G t) → kept_by_collect m ls G → kept_by_collect m ls G'.
Proof. intros HG Hm l t x d h mt lg Hd Hl H. apply Hm; auto. Qed.

(** What the clock shows. *)
Lemma wp_Now_coop t Q (x : X) d h mt lg :
  same_packet t0 t →
  (∀ now x', can_be (IsTimedOut now t) t0 → Q (Ret now) (mkWorld x' d h mt lg)) →
  wp Now Q (mkWorld x d h mt lg).
Proof.
  intros Hp HQ. unfold wp; simpl. specialize (HQ (env_Now x).1 (env_Now x).2).
  destruct (env_Now x) as [now x'] eqn:Hx; simpl in *. apply HQ. exists x. rewrite Hx. simpl.
  unfold IsTimedOut, GetPacketTimeoutTimestamp.
  by rewrite (same_PacketTimeoutTimestamp _ _ Hp).
Qed.

Lemma underway_decodes t : underway t0 t → decodes (SourceTxHash t).
Proof. intros Hu. apply (cooperative_same t0 t src dst (un_packet _ _ Hu) Hco). Qed.

(** A hash is set in a transfer on its way. *)
Lemma set_timeout_underway time hash t :
  underway t0 t → underway t0 (with_TimeoutTxTime time (with_TimeoutTxHash hash t)).
Proof. intros [Hp]; split; try done. by destruct Hp; split. Qed.

Lemma set_ack_underway time hash t :
  underway t0 t → underway t0 (with_AckTxTime time (with_AckTxHash hash t)).
Proof. intros [Hp]; split; try done. by destruct Hp; split. Qed.

Lemma set_recv_underway address time hash t :
  decodes hash → RecvTxHash t = None → underway t0 t →
  underway t0 (with_RecvTxRelayerAddress address (with_RecvTxTime time
    (with_RecvTxHash (Some hash) t))).
Proof.
  intros Hd Hr [Hp ? ? ? Hw]; split; simpl; try done; [by destruct Hp; split|by intros ? [= <-]|].
  intros h Hh. destruct (Hw h Hh). congruence.
Qed.

Lemma BatchTimeout_leads :
  stage_leads (underway t0) (timeout_done t0) (ConditionallyBatchProcess c s tm
    (NewBatchTimeoutPacketProcessor (SourceChainID t0) si (DestinationChainID t0) di)).
Proof.
  apply (bmw_leads _ _ (underway t0)); [apply Hco|by intros t []| |].
  - intros l t x d h mt lg Hl Hu. simpl. unfold BatchTimeoutPacketProcessor_ShouldProcess.
    read_transfer. wp_step. eapply (wp_Now_coop t); [by apply Hu|]. intros now x' Hnow. simpl.
    apply wp_ret. intros b [= <-]. unfold GetRecvTxHash, GetAckTxHash, GetTimeoutTxHash.
    destruct (IsTimedOut now t); simpl; [|split; [done|by right; right; right]].
    destruct (RecvTxHash t) eqn:Hr; simpl; [split; [done|right; left; by rewrite Hr]|].
    destruct (AckTxHash t) eqn:Ha; simpl; [split; [done|right; right; left; by rewrite Ha]|].
    destruct (TimeoutTxHash t) eqn:Ht; simpl; [split; [done|left; by rewrite Ht]|].
    by apply underway_State.
  - intros ls l t x d h mt lg Hdom Hl HP. simpl. unfold BatchTimeoutPacketProcessor_Process. simpl.
    apply (batch_body_leads t0 src dst Hco ls (collect_send_txs ls ∅ [] [])
      (λ txIDs seqs, mkRelayByTxRequest _ _ _ _ _ _ _ _) _
      (λ tx t, with_TimeoutTxTime _ (with_TimeoutTxHash _ t)) (underway t0) _) with (c := src);
      try done; [| | |by apply Hco|by left].
    + eapply kept_mono; [|apply collect_send_keeps]. exact underway_decodes.
    + by intros u [].
    + intros tx u _ Hu. split; [by apply set_timeout_underway|]. left. by eexists.
Qed.

Lemma BatchRecv_leads :
  stage_leads (timeout_done t0) (recv_done t0) (ConditionallyBatchProcess c s tm
    (NewBatchRecvPacketProcessor (SourceChainID t0) si (DestinationChainID t0) di)).
Proof.
  apply (bmw_leads _ _ (λ t, underway t0 t ∧ RecvTxHash t = None)); [apply Hco|by intros t [[]]| |].
  - intros l t x d h mt lg Hl [Hu Ht]. simpl. unfold BatchRecvPacketProcessor_ShouldProcess.
    read_transfer. unfold GetRecvTxHash. destruct (RecvTxHash t) eqn:Hr; simpl.
    { apply wp_ret. intros b [= <-]. split; [done|]. right. left. by rewrite Hr. }
    wp_step. eapply (wp_Now_coop t); [by apply Hu|]. intros now x' Hnow. simpl.
    apply wp_ret. intros b [= <-]. destruct (IsTimedOut now t); simpl.
    + split; [done|]. destruct (TimeoutTxHash t) eqn:Hto; [left; by eexists|]. right. right.
      split_and!; [done|done|done|]. destruct Ht as [[? ?]|[[? ?]|Ht]]; [congruence..|done].
    + split; [by apply underway_State|done].
  - intros ls l t x d h mt lg Hdom Hl HP. simpl. unfold BatchRecvPacketProcessor_Process. simpl.
    apply (batch_body_leads t0 src dst Hco ls (collect_send_txs ls ∅ [] [])
      (λ txIDs seqs, mkRelayByTxRequest _ _ _ _ _ _ _ _) _
      (λ tx t, with_RecvTxRelayerAddress _ (with_RecvTxTime _ (with_RecvTxHash _ t)))
      (λ t, underway t0 t ∧ RecvTxHash t = None) _) with (c := dst);
      try done; [| | |by apply Hco|by right].
    + eapply kept_mono; [|apply collect_send_keeps]. intros u [Hu _]. by apply underway_decodes.
    + by intros u [[]].
    + intros tx u Htx [Hu Hr]. split; [by apply set_recv_underway|]. right. left. by eexists.
Qed.

Lemma BatchAck_leads success error :
  stage_leads (write_ack_done t0) (ack_done success error t0) (ConditionallyBatchProcess c s tm
    (NewBatchAckPacketProcessor (SourceChainID t0) si (DestinationChainID t0) di success error)).
Proof.
  apply (bmw_leads _ _ (λ t, underway t0 t ∧ is_Some (WriteAckTxHash t)));
    [apply Hco|by intros t [[]]| |].
  - intros l t x d h mt lg Hl [Hu Ht]. simpl. unfold BatchAckPacketProcessor_ShouldProcess.
    read_transfer. unfold GetWriteAckTxHash, GetWriteAckStatus, GetAckTxHash, GetTimeoutTxHash.
    assert (∀ st, WriteAckStatus t = Some st → is_Some (WriteAckTxHash t) →
      is_Some (TimeoutTxHash t) ∨ is_Some (AckTxHash t) ∨ ack_required success error st = false →
      ack_done success error t0 t) as Hdone.
    { intros st Hst [wh Hwh] H. split; [done|]. left. apply IsComplete_iff. split; [apply Hu|].
      destruct H as [H|H]; [by left|right]. destruct (un_write_ack _ _ Hu wh Hwh) as [Hr _].
      split_and!; [by eexists|by eexists|]. destruct H; [by left|right; eauto]. }
    destruct (WriteAckTxHash t) as [wh|] eqn:Hwh; simpl.
    2:{ apply wp_ret. intros b [= <-]. split; [done|].
        destruct Ht as [Ht|[[? ?]|Ht]]; [left|done|by right]. apply IsComplete_iff.
        split; [apply Hu|by left]. }
    destruct (un_write_ack _ _ Hu wh Hwh) as [Hr [st Hst]]. rewrite Hst.
    destruct (_ || _) eqn:Hreq; (apply wp_ret; intros b [= <-]).
    + apply (Hdone st); [done|by eexists|]. right. right. unfold ack_required.
      destruct st, error, success; done.
    + destruct (AckTxHash t) eqn:Ha; simpl; [apply (Hdone st); eauto|].
      destruct (TimeoutTxHash t) eqn:Hto; simpl; [apply (Hdone st); eauto|].
      split; [by apply underway_State|by eexists].
  - intros ls l t x d h mt lg Hdom Hl HP. simpl. unfold BatchAckPacketProcessor_Process. simpl.
    apply (batch_body_leads t0 src dst Hco ls (collect_ack_txs ls ∅ [] [])
      (λ txIDs seqs, mkRelayByTxRequest _ _ _ _ _ _ _ _) _
      (λ tx t, with_AckTxTime _ (with_AckTxHash _ t))
      (λ t, underway t0 t ∧ is_Some (WriteAckTxHash t)) _) with (c := src);
      try done; [| | |by apply Hco|by left].
    + eapply kept_mono; [|apply collect_ack_keeps]. intros u [Hu [wh Hwh]]. exists wh.
      split; [done|]. by apply (un_recv _ _ Hu), (un_write_ack _ _ Hu).
    + by intros u [[]].
    + intros tx u _ [Hu [wh Hwh]]. destruct (un_write_ack _ _ Hu wh Hwh) as [Hr _].
      split; [by apply set_ack_underway|]. left. apply IsComplete_iff.
      split; [apply Hu|]. right. simpl. split_and!; [by eexists|by eexists|left; by eexists].
Qed.
End batch_stages.

(** ** The pipeline *)

(** Setting the transaction that settled the packet. *)
Lemma underway_ack {X} {E : Env X} (t0 t : IBCV2Transfer) address time hash :
  underway t0 t → underway t0 (with_AckTxRelayerAddress address
    (with_AckTxTime time (with_AckTxHash (Some hash) t))).
Proof. intros [Hp]; split; try done. by destruct Hp; split. Qed.

Lemma underway_timeout {X} {E : Env X} (t0 t : IBCV2Transfer) address time hash :
  underway t0 t → underway t0 (with_TimeoutTxRelayerAddress address
    (with_TimeoutTxTime time (with_TimeoutTxHash (Some hash) t))).
Proof. intros [Hp]; split; try done. by destruct Hp; split. Qed.

(** Every transfer on its way that enters the pipeline of its clients is
    finished when it leaves it, or was passed by. *)
Lemma NewPipeline_leads {X} {E : Env X} (t0 : IBCV2Transfer) src dst si di opts :
  cooperative t0 src dst →
  leads (left_transfer t0) (underway t0)
    (NewPipeline (X := X) (SourceChainID t0) si (DestinationChainID t0) di opts).
Proof.
  intros Hco. unfold NewPipeline. cbn [app].
  pose proof (underway_stable t0) as S0. pose proof (timeout_done_stable t0) as S1.
  pose proof (recv_done_stable t0) as S2. pose proof (write_ack_done_stable t0) as S3.
  pose proof (ack_done_stable t0 (opts_ShouldRelaySuccessAcks opts)
    (opts_ShouldRelayErrorAcks opts)) as S4.
  eapply leads_cons; [by eapply CheckRecvPacketDelivery_leads|].
  eapply leads_cons; [eapply CheckPacketCommitment_leads; [done|done|intros; by apply underway_ack|
    intros; by apply underway_timeout]|].
  eapply leads_cons; [by eapply CheckSendFinality_leads|].
  eapply leads_cons; [by eapply CheckTimeoutFinality_leads|].
  eapply leads_cons; [by eapply BatchTimeout_leads|].
  eapply leads_cons; [by eapply RetryTimeout_leads|].
  apply gas_stage_leads; [by intros; eapply TimeoutTxGas_leads|].
  eapply leads_cons; [by eapply BatchRecv_leads|].
  eapply leads_cons; [by eapply RetryRecv_leads|].
  apply gas_stage_leads; [by intros; eapply RecvTxGas_leads|].
  eapply leads_cons; [by eapply WaitForWriteAck_leads|].
  eapply leads_cons; [by eapply CheckWriteAckFinality_leads|].
  eapply leads_cons; [eapply CheckPacketCommitment_leads; [done|done| |]|].
  { intros address time hash t [Hu Ht]. split; [by apply underway_ack|].
    destruct Ht as [?|[?|(? & ? & ? & _)]]; [by left|by right; left|right; right].
    split_and!; [done|done|done|]. left. by eexists. }
  { intros address time hash t [Hu Ht]. split; [by apply underway_timeout|]. left. by eexists. }
  eapply leads_cons; [by eapply BatchAck_leads|].
  eapply leads_cons; [by eapply RetryAck_leads|].
  apply gas_stage_leads; [by intros; eapply AckTxGas_leads|].
  eapply leads_cons; [by eapply StateFinisher_leads|]. apply leads_nil.
Qed.
