(* ===== verification/Progress.v ===== *)
(** * Packets make progress

    Liveness of the running relayer. While the chains cooperate a transfer in a
    pipeline is [on_track]: no step of the system, whoever takes it, holds it up
    ([step_on_track]), there is always a step that takes it further
    ([on_track_moves]), and each such step lowers its [rank]. So from every
    state along the way a bounded number of steps finishes the packet's row, or
    takes the transfer to the end of the pipeline unfinished because its timeout
    passed on the way ([passed_over]); the next tick may then pick it up again.

    [stale_row_reopens] is what the dispatcher does with a row that was finished
    after it was read; [transfers_not_lost], that a pipeline gives up a transfer
    only at its end or when a context is cancelled. *)
From stdpp Require Import prelude strings list gmap relations.
From Stdlib Require Import ZArith.
From S2P Require Import Prelude Go Config Db Transfer World Wp TransferMetrics Processors Laws.
From S2P Require Import ProcessorMW MWLaws Batch BatchLaws PipelineOpts Pipeline Dispatcher.
From S2P Require Import System SystemInv DispatcherInv Finality Run Cooperative Guarantees Demo.
Open Scope Z_scope.

(** ** What submitting a row leaves alone *)

Section submit.
Context {X : Type} {E : Env X}.
Implicit Types (pls : gmap pipelineKey (Pipeline X)).

(** Every pipeline has the stages of [NewPipeline] for its clients. *)
Definition built pls : Prop :=
  ∀ pk pl, pls !! pk = Some pl → ∃ opts,
    pl_stages pl = NewPipeline (pk_SourceChainID pk) (pk_SourceClientID pk)
      (pk_DestinationChainID pk) (pk_DestinationClientID pk) opts.

(** No pipeline loses a transfer or changes its stages. *)
Definition grows pls pls' : Prop :=
  ∀ pk pl, pls !! pk = Some pl → ∃ pl', pls' !! pk = Some pl' ∧
    pl_stages pl' = pl_stages pl ∧ pl_inside pl ⊆ pl_inside pl'.

#[global] Instance grows_preorder : PreOrder grows.
Proof.
  split; [by intros pls pk pl Hpl; eauto|]. intros p1 p2 p3 H12 H23 pk pl Hpl.
  destruct (H12 pk pl Hpl) as (pl2 & Hpl2 & Hs2 & ?).
  destruct (H23 pk pl2 Hpl2) as (pl3 & ? & ? & ?). exists pl3. split_and!; [done|congruence|].
  by etrans.
Qed.

Lemma built_insert pls pk pl :
  built pls → (∃ pl0, pls !! pk = Some pl0 ∧ pl_stages pl = pl_stages pl0) →
  built (<[pk := pl]> pls).
Proof.
  intros Hb (pl0 & Hpl0 & Hs) pk' pl'. rewrite lookup_insert_Some. intros [[<- <-]|[_ Hpl']]; [|auto].
  rewrite Hs. by apply Hb.
Qed.

Lemma wp_SubmitTransfer_grows l t pls Q (x : X) d h mt lg :
  h !! l = Some t → built pls →
  (∀ err pls' lg', built pls' → grows pls pls' → Q (Ret (err, pls')) (mkWorld x d h mt lg')) →
  (∀ w, Q Panic w) →
  wp (SubmitTransfer l pls) Q (mkWorld x d h mt lg).
Proof.
  intros Hl Hb H1 H2. unfold SubmitTransfer.
  assert (∀ pls' pl lg', built pls' → grows pls pls' → pls' !! newPipelineKey t = Some pl →
    wp (let '(pushed, pl') := PipelineDeduper_Push l t pl in
        if (pushed : bool) then mret (None, <[newPipelineKey t := pl']> pls')
        else mret (Some (Sentinel ErrTransferAlreadyInPipeline), pls'))
      Q (mkWorld x d h mt lg')) as Hpush.
  { intros pls' pl lg' Hb' Hg Hpl. unfold PipelineDeduper_Push.
    case_bool_decide; apply wp_ret; [by apply H1|]. apply H1.
    - apply built_insert; [done|]. by exists pl.
    - etrans; [done|]. intros pk' pl' Hpl'. destruct (decide (newPipelineKey t = pk')) as [<-|Hne].
      + eexists. rewrite lookup_insert_eq. split; [done|]. simplify_eq. simpl. split; [done|]. set_solver.
      + exists pl'. by rewrite lookup_insert_ne. }
  read_transfer. wp_step. apply wp_attempt. unfold IBCV2PipelineManager_Pipeline, newPipelineForTransfer.
  destruct (pls !! newPipelineKey t) as [pl|] eqn:Hpl.
  - apply wp_ret. simpl. rewrite Hpl. wp_step. apply wp_ret. simpl. by apply Hpush.
  - wp_step. apply wp_wrap. wp_step. apply wp_wrap, wp_NewPipelineOpts; simpl.
    + intros opts lg'. apply wp_ret. simpl. apply wp_ret. simpl. rewrite lookup_insert_eq.
      wp_step. apply wp_ret. simpl. apply Hpush; [| |apply lookup_insert_eq].
      * intros pk' pl'. rewrite lookup_insert_Some. intros [[<- <-]|[_ Hpl']]; [by eexists|auto].
      * intros pk' pl' Hpl'. exists pl'. rewrite lookup_insert_ne by congruence. done.
    + intros e lg'. by apply wp_ret, H1.
    + intros lg'. apply H2.
Qed.

Lemma submit_row_grows r pls (x : X) d h mt lg :
  built pls →
  wp (submit_row r pls) (λ o w, ∀ pls', o = Ret pls' → built pls' ∧ grows pls pls' ∧
    ∀ l t, h !! l = Some t → w_heap w !! l = Some t) (mkWorld x d h mt lg).
Proof.
  intros Hb. unfold submit_row. wp_step. apply wp_alloc. intros l Hl. simpl. wp_step.
  apply wp_Alert; [|done]. intros x1 mt1 lg1. simpl. wp_step.
  apply (wp_SubmitTransfer_grows l (NewIBCV2Transfer r)); [apply lookup_insert_eq|done| |done].
  intros err pls1 lg2 Hb1 Hg. simpl.
  assert (∀ l' t', h !! l' = Some t' → <[l := NewIBCV2Transfer r]> h !! l' = Some t') as Hh.
  { intros l' t' Hl'. rewrite lookup_insert_ne; [done|]. congruence. }
  wp_go; intros pls' [= <-]; simpl; by split_and!.
Qed.
End submit.

Lemma step_built {X} {E : Env X} (s s' : System X) :
  step s s' → built (sys_pipelines s) → built (sys_pipelines s').
Proof.
  intros Hstep Hb.
  destruct Hstep as [|w w' pls pls' r rows Hsub| | | | | | | | | | |]; simpl in *; try done;
    try (apply built_insert; [done|]; by eexists).
  destruct w as [x d h mt lg].
  by destruct (wp_run _ _ _ _ _ Hsub (submit_row_grows r pls x d h mt lg Hb) pls' eq_refl).
Qed.

Lemma reaches_built {X} {E : Env X} (s s' : System X) :
  reaches s s' → built (sys_pipelines s) → built (sys_pipelines s').
Proof. induction 1 as [|a b c (? & _) _ IH]; [done|]. eauto using step_built. Qed.

(** ** Being on track *)

Section track.
Context {X : Type} {E : Env X} (t0 : IBCV2Transfer) (src dst : BridgeClient X)
  (Hco : cooperative t0 src dst).
Implicit Types (s : System X) (pls : gmap pipelineKey (Pipeline X)) (w : World X).

(** The steps a transfer still has to take: one into the batch and one out of
    it at most for each stage ahead. *)
Definition rank (pl : Pipeline X) (pos : position) : nat :=
  2 * (length (pl_stages pl) - pos_stage pos) - (if pos_batch pos then 1 else 0).

(** The transfer at [l] waits at [pos] in the pipeline of its clients, in a
    condition from which the stages ahead lead to its end. *)
Definition on_track w pls (l : loc) (m : nat) : Prop :=
  ∃ pl pos t P, pls !! newPipelineKey t0 = Some pl ∧ (pos, l) ∈ pl_inside pl ∧
    w_heap w !! l = Some t ∧ P t ∧
    leads (left_transfer t0) P (drop (pos_stage pos) (pl_stages pl)) ∧
    (pos_stage pos < length (pl_stages pl))%nat ∧ rank pl pos = m ∧
    (pos_batch pos = true → ∃ c sz tm p,
       pl_stages pl !! pos_stage pos = Some (ConditionallyBatchProcess c sz tm p)).

(** The packet's row is in one of the [COMPLETE_*] states. *)
Definition packet_complete (k : db.packet_key) (d : db.Database) : Prop :=
  ∃ r, db.row k d = Some r ∧ complete_state (db.Status r).

(** The transfer is past the last stage and the packet's row is as unfinished as
    before: neither received nor timed out, because the packet became late
    after the timeout stage had let it pass, or was late and had already been
    acknowledged. *)
Definition passed_over w pls (l : loc) : Prop :=
  ∃ pl r, pls !! newPipelineKey t0 = Some pl ∧
    (mkPosition (length (pl_stages pl)) false, l) ∈ pl_inside pl ∧
    db.row (update_key t0) (w_db w) = Some r ∧ db.unfinished (db.Status r) = true ∧
    db.RecvTxHash r = None ∧ db.TimeoutTxHash r = None ∧ can_be true t0 ∧
    (is_Some (db.AckTxHash r) ∨ can_be false t0).

Definition ended w pls (l : loc) : Prop :=
  packet_complete (update_key t0) (w_db w) ∨ passed_over w pls l.

(** What a step makes of a transfer that is on track. *)
Definition still_on_track w pls (l : loc) (m : nat) : Prop :=
  (∃ m', (m' ≤ m)%nat ∧ on_track w pls l m') ∨ ended w pls l.

Lemma on_track_still w pls l m m' : on_track w pls l m' → (m' ≤ m)%nat → still_on_track w pls l m.
Proof. intros. left. eauto. Qed.

(** Someone else's step. *)
Lemma on_track_kept w w' pls pls' l m :
  (∀ pl, pls !! newPipelineKey t0 = Some pl → ∃ pl', pls' !! newPipelineKey t0 = Some pl' ∧
     pl_stages pl' = pl_stages pl ∧ ∀ pos, (pos, l) ∈ pl_inside pl → (pos, l) ∈ pl_inside pl') →
  (∀ t, w_heap w !! l = Some t → w_heap w' !! l = Some t) →
  on_track w pls l m → on_track w' pls' l m.
Proof.
  intros Hpls Hh (pl & pos & t & P & Hpl & Hin & Ht & HP & Hl & Hn & Hm & Hb).
  destruct (Hpls pl Hpl) as (pl' & Hpl' & Hs & Hin'). exists pl', pos, t, P. unfold rank.
  rewrite Hs. split_and!; auto.
Qed.

(** A transfer that has passed a stage. *)
Lemma passed w pls pl l n t Q m :
  world_inv (w_db w) (w_heap w) pls → pls !! newPipelineKey t0 = Some pl →
  (mkPosition (S n) false, l) ∈ pl_inside pl → w_heap w !! l = Some t → Q t →
  leads (left_transfer t0) Q (drop (S n) (pl_stages pl)) →
  (S n ≤ length (pl_stages pl))%nat → (2 * (length (pl_stages pl) - S n) < m)%nat →
  (∃ m', (m' < m)%nat ∧ on_track w pls l m') ∨ ended w pls l.
Proof.
  intros Hinv Hpl Hin Ht HQ Hl Hn Hm.
  destruct (decide (S n < length (pl_stages pl))%nat) as [Hlt|Hge].
  - left. exists (rank pl (mkPosition (S n) false)). unfold rank; simpl. split; [lia|].
    exists pl, (mkPosition (S n) false), t, Q. simpl. by split_and!.
  - right. rewrite drop_ge in Hl by lia. inversion Hl; subst.
    assert (l ∈ locs pl) as Hlocs by (by apply (list_elem_of_fmap_2' snd _ (mkPosition (S n) false, l))).
    destruct (member_heap _ _ _ _ _ _ Hinv Hpl Hlocs) as (t' & Ht' & r & Hr & _ & Hs). simplify_eq.
    destruct HQ as [(Hp & He & Hf)|([Hp He Hu _ _] & H1 & H2 & H3 & H4)]; rewrite He in Hs;
      [left; exists r|right; exists pl, r];
      rewrite <- (same_packet_update_key t0 t), <- (sync_State _ _ Hs) by done; [done|].
    rewrite <- (sync_RecvTxHash _ _ Hs), <- (sync_TimeoutTxHash _ _ Hs), <- (sync_AckTxHash _ _ Hs).
    replace (length (pl_stages pl)) with (S n) by lia. by split_and!.
Qed.

(** The stage ahead of a transfer. *)
Lemma leads_drop R P (ss : list (stage X)) n st :
  leads R P (drop n ss) → ss !! n = Some st →
  ∃ Q, stage_leads P Q st ∧ leads R Q (drop (S n) ss).
Proof.
  intros Hl Hn. rewrite (drop_S _ _ _ Hn) in Hl. inversion Hl; subst. eauto.
Qed.

(** Where a transfer is in its pipeline. *)
Lemma inside_once (pl : Pipeline X) d h pk pos1 pos2 l :
  pipeline_inv pk pl d h → (pos1, l) ∈ pl_inside pl → (pos2, l) ∈ pl_inside pl → pos1 = pos2.
Proof.
  intros Hpi H1 H2. pose proof (pipeline_NoDup _ _ _ _ Hpi) as Hnd.
  assert ((pos1, l) = (pos2, l)) as [= ->]; [|done].
  by apply (NoDup_map_inj snd (pl_inside pl)).
Qed.

(** A transfer on track in a pipeline is in no other. *)
Lemma on_track_key d h pls pk pl pl0 pos l :
  world_inv d h pls → pls !! newPipelineKey t0 = Some pl0 → (pos, l) ∈ pl_inside pl0 →
  pls !! pk = Some pl → l ∈ locs pl → pk = newPipelineKey t0 ∧ pl = pl0.
Proof.
  intros Hinv Hpl0 Hin Hpl Hl.
  destruct (pi_member _ _ _ _ (wi_pipelines _ _ _ Hinv _ _ Hpl) l Hl) as (t & Ht & _ & Hk & _).
  destruct (pi_member _ _ _ _ (wi_pipelines _ _ _ Hinv _ _ Hpl0) l) as (t' & Ht' & _ & Hk' & _).
  { by apply (list_elem_of_fmap_2' snd _ (pos, l)). }
  assert (pk = newPipelineKey t0) as -> by congruence. split; [done|congruence].
Qed.

(** What is known when it is the turn of the transfer itself. *)
Lemma on_track_at w pls pk pl pos l m :
  world_inv (w_db w) (w_heap w) pls → on_track w pls l m → pls !! pk = Some pl →
  (pos, l) ∈ pl_inside pl →
  pk = newPipelineKey t0 ∧ ∃ t P, w_heap w !! l = Some t ∧ P t ∧
    leads (left_transfer t0) P (drop (pos_stage pos) (pl_stages pl)) ∧
    (pos_stage pos < length (pl_stages pl))%nat ∧ rank pl pos = m.
Proof.
  intros Hinv (pl0 & pos0 & t & P & Hpl0 & Hin0 & Ht & HP & Hl & Hn & Hm & _) Hpl Hin.
  destruct (on_track_key _ _ _ pk pl pl0 pos0 l Hinv Hpl0 Hin0 Hpl) as [-> ->].
  { by apply (list_elem_of_fmap_2' snd _ (pos, l)). }
  rewrite (inside_once pl0 _ _ _ pos pos0 l (wi_pipelines _ _ _ Hinv _ _ Hpl0) Hin Hin0).
  split; [done|]. by exists t, P.
Qed.

(** The transfer [l] stays where it is when [l'] moves or leaves. *)
Lemma on_track_other w w' pls pk pl pl' l m :
  pls !! pk = Some pl → pl_stages pl' = pl_stages pl →
  (∀ pos, (pos, l) ∈ pl_inside pl → (pos, l) ∈ pl_inside pl') →
  w_heap w' !! l = w_heap w !! l →
  on_track w pls l m → on_track w' (<[pk := pl']> pls) l m.
Proof.
  intros Hpl Hs Hin Hh. apply on_track_kept; [|by rewrite Hh]. intros pl0 Hpl0.
  destruct (decide (pk = newPipelineKey t0)) as [->|Hne].
  - exists pl'. rewrite lookup_insert_eq. simplify_eq. by split_and!.
  - exists pl0. by rewrite lookup_insert_ne.
Qed.

Lemma pass_heap_ne {A} (ret : A) l l' t h d o w' :
  pass_post (X := X) ret l' t h d o w' → l ≠ l' → w_heap w' !! l = h !! l.
Proof. intros (_ & _ & t' & -> & _) Hne. by rewrite lookup_insert_ne. Qed.

Lemma in_middle {A} (a : A) l1 l2 : a ∈ l1 ++ a :: l2.
Proof. set_solver. Qed.

Lemma other_middle (l l' : loc) pos pos' pos2 (ins1 ins2 : list (position * loc)) :
  l ≠ l' → (pos2, l) ∈ ins1 ++ (pos, l') :: ins2 → (pos2, l) ∈ ins1 ++ (pos', l') :: ins2.
Proof. rewrite !elem_of_app, !elem_of_cons. naive_solver. Qed.

Lemma other_dropped (l l' : loc) pos pos2 (ins1 ins2 : list (position * loc)) :
  l ≠ l' → (pos2, l) ∈ ins1 ++ (pos, l') :: ins2 → (pos2, l) ∈ ins1 ++ ins2.
Proof. rewrite !elem_of_app, !elem_of_cons. naive_solver. Qed.

(** A stage has worked on a transfer. *)
Lemma process_on_track w w' pls pk pl n p l l' out ins1 ins2 m :
  world_inv (w_db w) (w_heap w) pls → pls !! pk = Some pl →
  pl_stages pl !! n = Some (ProcessConcurrently p) →
  pl_inside pl = ins1 ++ (mkPosition n false, l') :: ins2 →
  IBCV2ProcessorMW_Process p (Some l') w = (Ret (Some out), w') → on_track w pls l m →
  let pls' := <[pk := with_inside pl (ins1 ++ (mkPosition (S n) false, out) :: ins2)]> pls in
  if decide (l = l')
  then (∃ m', (m' < m)%nat ∧ on_track w' pls' l m') ∨ ended w' pls' l
  else on_track w' pls' l m.
Proof.
  intros Hinv Hpl Hn Hins Hrun Hon pls'.
  pose proof (process_inv _ _ _ _ _ _ _ _ _ _ _ Hinv Hpl Hn Hins Hrun) as Hinv'.
  destruct (member_heap _ _ _ _ _ _ Hinv Hpl (inside_elem _ _ _ _ _ Hins)) as (t' & Ht' & Ha).
  destruct (stage_at _ _ _ _ _ _ _ Hinv Hpl Hn) as [Hlaws].
  pose proof Hrun as Hrun'. destruct w as [x d h mt lg]; simpl in *.
  pose proof (wp_run _ _ _ _ _ Hrun
    (IBCV2ProcessorMW_Process_post p l' t' x d h mt lg Ht' (wi_wf _ _ _ Hinv) Ha)) as Hpost.
  assert (out = l') as -> by (destruct Hpost as (_ & _ & ? & _ & _ & _ & [= ->] & _); done).
  case_decide as Heq; [subst l'|].
  - destruct (on_track_at (mkWorld x d h mt lg) pls pk pl (mkPosition n false) l m Hinv Hon Hpl)
      as (-> & t & P & Ht & HP & Hl & Hlt & Hm); [rewrite Hins; apply in_middle|].
    destruct (leads_drop _ _ _ _ _ Hl Hn) as (Q & Hst & Hl').
    destruct (wp_run _ _ _ _ _ Hrun (Hst l t x d h mt lg Ht HP)) as (_ & t2 & Hh & HQ).
    eapply (passed w' pls' _ l n t2 Q); [exact Hinv'|apply lookup_insert_eq|simpl; apply in_middle|
      by rewrite Hh, lookup_insert_eq|done|done|simpl in *; lia|].
    unfold rank in Hm; simpl in *. lia.
  - eapply (on_track_other (mkWorld x d h mt lg)); [done|done| |by eapply pass_heap_ne|exact Hon].
    intros pos2. simpl. rewrite Hins. by apply other_middle.
Qed.

Lemma finish_on_track w w' pls pk pl n f l l' out ins1 ins2 m :
  world_inv (w_db w) (w_heap w) pls → pls !! pk = Some pl →
  pl_stages pl !! n = Some (FinishConcurrently f) →
  pl_inside pl = ins1 ++ (mkPosition n false, l') :: ins2 →
  StateFinisher_Process f l' w = (Ret out, w') → on_track w pls l m →
  let pls' := <[pk := with_inside pl (ins1 ++ (mkPosition (S n) false, out) :: ins2)]> pls in
  if decide (l = l')
  then (∃ m', (m' < m)%nat ∧ on_track w' pls' l m') ∨ ended w' pls' l
  else on_track w' pls' l m.
Proof.
  intros Hinv Hpl Hn Hins Hrun Hon pls'.
  pose proof (finish_inv _ _ _ _ _ _ _ _ _ _ _ Hinv Hpl Hn Hins Hrun) as Hinv'.
  destruct (member_heap _ _ _ _ _ _ Hinv Hpl (inside_elem _ _ _ _ _ Hins)) as (t' & Ht' & Ha).
  destruct w as [x d h mt lg]; simpl in *.
  pose proof (wp_run _ _ _ _ _ Hrun
    (StateFinisher_Process_post f l' t' x d h mt lg Ht' (wi_wf _ _ _ Hinv) Ha)) as Hpost.
  assert (out = l') as -> by (destruct Hpost as (_ & _ & ? & _ & _ & _ & -> & _); done).
  case_decide as Heq; [subst l'|].
  - destruct (on_track_at (mkWorld x d h mt lg) pls pk pl (mkPosition n false) l m Hinv Hon Hpl)
      as (-> & t & P & Ht & HP & Hl & Hlt & Hm); [rewrite Hins; apply in_middle|].
    simpl in Ht. assert (t' = t) as -> by congruence.
    destruct (leads_drop _ _ _ _ _ Hl Hn) as (Q & Hst & Hl').
    destruct (wp_run _ _ _ _ _ Hrun (Hst l t x d h mt lg Ht HP (wi_wf _ _ _ Hinv) Ha))
      as (_ & t2 & Hh & HQ).
    eapply (passed w' pls' _ l n t2 Q); [exact Hinv'|apply lookup_insert_eq|simpl; apply in_middle|
      by rewrite Hh, lookup_insert_eq|done|done|simpl in *; lia|].
    unfold rank in Hm; simpl in *. lia.
  - eapply (on_track_other (mkWorld x d h mt lg)); [done|done| |by eapply pass_heap_ne|exact Hon].
    intros pos2. simpl. rewrite Hins. by apply other_middle.
Qed.

(** A transfer is routed in front of a batch stage. *)
Lemma route_on_track w w' pls pk pl n c sz tm p l l' b ins1 ins2 m :
  world_inv (w_db w) (w_heap w) pls → pls !! pk = Some pl →
  pl_stages pl !! n = Some (ConditionallyBatchProcess c sz tm p) →
  pl_inside pl = ins1 ++ (mkPosition n false, l') :: ins2 →
  goes_to_batch p l' w = (Ret b, w') → on_track w pls l m →
  let pls' := <[pk := with_inside pl (ins1 ++
    (if b then mkPosition n true else mkPosition (S n) false, l') :: ins2)]> pls in
  if decide (l = l')
  then (∃ m', (m' < m)%nat ∧ on_track w' pls' l m') ∨ ended w' pls' l
  else on_track w' pls' l m.
Proof.
  intros Hinv Hpl Hn Hins Hrun Hon pls'.
  pose proof (route_inv _ _ _ _ _ _ _ _ _ _ _ _ _ _ Hinv Hpl Hn Hins Hrun) as Hinv'.
  destruct (member_heap _ _ _ _ _ _ Hinv Hpl (inside_elem _ _ _ _ _ Hins)) as (t' & Ht' & Ha).
  destruct (stage_at _ _ _ _ _ _ _ Hinv Hpl Hn) as [Hlaws].
  destruct w as [x d h mt lg]; simpl in *.
  destruct (wp_run _ _ _ _ _ Hrun (goes_to_batch_unchanged p l' t' x d h mt lg Ht'))
    as (_ & Hh & _).
  case_decide as Heq; [subst l'|].
  - destruct (on_track_at (mkWorld x d h mt lg) pls pk pl (mkPosition n false) l m Hinv Hon Hpl)
      as (-> & t & P & Ht & HP & Hl & Hlt & Hm); [rewrite Hins; apply in_middle|].
    destruct (leads_drop _ _ _ _ _ Hl Hn) as (Q & Hst & Hl').
    destruct (wp_run _ _ _ _ _ Hrun (proj1 Hst l t x d h mt lg Ht HP)) as (b' & [= <-] & HQ).
    unfold rank in Hm; simpl in *. destruct b.
    + left. exists (m - 1)%nat. split; [lia|].
      exists (with_inside pl (ins1 ++ (mkPosition n true, l) :: ins2)), (mkPosition n true), t, P.
      unfold pls', rank. rewrite lookup_insert_eq, Hh. simpl.
      split_and!; [done|apply in_middle|done|done|done|done|lia|by eauto].
    + eapply (passed w' pls' _ l n t Q); [exact Hinv'|apply lookup_insert_eq|simpl; apply in_middle|
        by rewrite Hh|by apply HQ|done|simpl; lia|simpl; lia].
  - eapply (on_track_other (mkWorld x d h mt lg)); [done|done| |by rewrite Hh|exact Hon].
    intros pos2. simpl. rewrite Hins. by apply other_middle.
Qed.

(** A batch has been processed. *)
Lemma batch_on_track w w' pls pk pl n c sz tm p l ls out rest m :
  healthy → world_inv (w_db w) (w_heap w) pls → pls !! pk = Some pl →
  pl_stages pl !! n = Some (ConditionallyBatchProcess c sz tm p) →
  pl_inside pl ≡ₚ map (λ l, (mkPosition n true, l)) ls ++ rest →
  IBCV2BatchProcessorMW_Process p ls w = (Ret out, w') → on_track w pls l m →
  let pls' := <[pk := with_inside pl (rest ++ map (λ l, (mkPosition (S n) false, l)) out)]> pls in
  if decide (l ∈ ls)
  then (∃ m', (m' < m)%nat ∧ on_track w' pls' l m') ∨ ended w' pls' l
  else on_track w' pls' l m.
Proof.
  intros Hh Hinv Hpl Hn Hins Hrun Hon pls'. pose proof (batch_locs _ _ _ _ Hins) as Hlocs.
  pose proof (batch_step_inv _ _ _ _ _ _ _ _ _ _ _ _ _ Hinv Hpl Hn Hins Hrun (or_introl Hh)) as Hinv'.
  assert (ls ⊆ locs pl) as Hls by (rewrite Hlocs; set_solver).
  pose proof (pipeline_NoDup _ _ _ _ (wi_pipelines _ _ _ Hinv pk pl Hpl)) as Hnd.
  rewrite Hlocs in Hnd. apply NoDup_app in Hnd as (Hnd & _ & _).
  destruct (stage_at _ _ _ _ _ _ _ Hinv Hpl Hn) as [Hlaws].
  destruct w as [x d h mt lg]; simpl in *.
  pose proof (world_batch_inv _ _ _ _ _ _ Hinv Hpl Hls) as Hbinv.
  destruct (wp_run _ _ _ _ _ Hrun (IBCV2BatchProcessorMW_Process_post p ls x d h mt lg Hbinv))
    as (_ & Hpass & _ & extra & Hout & Hno & _). rewrite (Hno Hh), app_nil_r in Hout.
  case_decide as Hin.
  - destruct (on_track_at (mkWorld x d h mt lg) pls pk pl (mkPosition n true) l m Hinv Hon Hpl)
      as (-> & t & P & Ht & HP & Hl & Hlt & Hm).
    { rewrite Hins. apply elem_of_app. left. by apply (list_elem_of_fmap_2' _ _ l). }
    destruct (leads_drop _ _ _ _ _ Hl Hn) as (Q & Hst & Hl').
    destruct (wp_run _ _ _ _ _ Hrun (proj2 Hst ls l t x d h mt lg Hnd
      (λ l' Hl', inv_dom _ _ _ l' Hbinv Hl') Hin Ht HP)) as (_ & t2 & Ht2 & HQ).
    eapply (passed w' pls' _ l n t2 Q); [exact Hinv'|apply lookup_insert_eq| |done|done|done|
      simpl in *; lia|unfold rank in Hm; simpl in *; lia].
    simpl. apply elem_of_app. right. apply list_elem_of_fmap. exists l. by rewrite Hout.
  - eapply (on_track_other (mkWorld x d h mt lg));
      [done|done| |by apply (pass_out _ _ _ Hpass)|exact Hon].
    intros pos2. simpl. rewrite Hins, !elem_of_app. intros [Hm|Hr]; [|by left].
    apply list_elem_of_fmap in Hm as (? & [= _ ->] & ?). done.
Qed.

(** No stage drops a transfer that is on track. *)
Lemma process_error_on_track w w' w'' pls pk pl n p l l' e ins1 ins2 m :
  world_inv (w_db w) (w_heap w) pls → pls !! pk = Some pl →
  pl_stages pl !! n = Some (ProcessConcurrently p) →
  pl_inside pl = ins1 ++ (mkPosition n false, l') :: ins2 →
  IBCV2ProcessorMW_Process p (Some l') w = (Fail e, w') →
  IBCV2ProcessorMW_Cancel p (Some l') e w' = (Ret tt, w'') → on_track w pls l m →
  on_track w'' (<[pk := with_inside pl (ins1 ++ ins2)]> pls) l m.
Proof.
  intros Hinv Hpl Hn Hins Hrun Hcan Hon.
  destruct (member_heap _ _ _ _ _ _ Hinv Hpl (inside_elem _ _ _ _ _ Hins)) as (t' & Ht' & Ha).
  destruct (stage_at _ _ _ _ _ _ _ Hinv Hpl Hn) as [Hlaws].
  destruct w as [x d h mt lg]; simpl in *.
  pose proof (wp_run _ _ _ _ _ Hrun
    (IBCV2ProcessorMW_Process_post p l' t' x d h mt lg Ht' (wi_wf _ _ _ Hinv) Ha)) as Hpost.
  destruct (decide (l = l')) as [<-|Hne].
  { destruct (on_track_at (mkWorld x d h mt lg) pls pk pl (mkPosition n false) l m Hinv Hon Hpl)
      as (-> & t & P & Ht & HP & Hl & _); [rewrite Hins; apply in_middle|].
    destruct (leads_drop _ _ _ _ _ Hl Hn) as (Q & Hst & _).
    by destruct (wp_run _ _ _ _ _ Hrun (Hst l t x d h mt lg Ht HP)). }
  pose proof (pass_heap_ne _ l _ _ _ _ _ _ Hpost Hne) as Hl.
  destruct Hpost as (_ & _ & t2 & Hh & _). destruct w' as [x1 d1 h1 mt1 lg1]; simpl in *.
  destruct (wp_run _ _ _ _ _ Hcan
    (law_cancel l' t2 e x1 d1 h1 mt1 lg1 ltac:(rewrite Hh; apply lookup_insert_eq))) as (_ & Hh2 & _).
  eapply (on_track_other (mkWorld x d h mt lg)); [done|done| |by rewrite Hh2|exact Hon].
  intros pos2. simpl. rewrite Hins. by apply other_dropped.
Qed.

Lemma batch_error_on_track w w' w'' pls pk pl n c sz tm p l ls e rest m :
  world_inv (w_db w) (w_heap w) pls → pls !! pk = Some pl →
  pl_stages pl !! n = Some (ConditionallyBatchProcess c sz tm p) →
  pl_inside pl ≡ₚ map (λ l, (mkPosition n true, l)) ls ++ rest →
  IBCV2BatchProcessorMW_Process p ls w = (Fail e, w') →
  IBCV2BatchProcessorMW_Cancel p ls e w' = (Ret tt, w'') → on_track w pls l m →
  on_track w'' (<[pk := with_inside pl rest]> pls) l m.
Proof.
  intros Hinv Hpl Hn Hins Hrun Hcan Hon. pose proof (batch_locs _ _ _ _ Hins) as Hlocs.
  assert (ls ⊆ locs pl) as Hls by (rewrite Hlocs; set_solver).
  pose proof (pipeline_NoDup _ _ _ _ (wi_pipelines _ _ _ Hinv pk pl Hpl)) as Hnd.
  rewrite Hlocs in Hnd. apply NoDup_app in Hnd as (Hnd & _ & _).
  destruct (stage_at _ _ _ _ _ _ _ Hinv Hpl Hn) as [Hlaws].
  destruct w as [x d h mt lg]; simpl in *.
  pose proof (world_batch_inv _ _ _ _ _ _ Hinv Hpl Hls) as Hb.
  destruct (wp_run _ _ _ _ _ Hrun (IBCV2BatchProcessorMW_Process_post p ls x d h mt lg Hb))
    as (_ & Hh & _).
  destruct (decide (l ∈ ls)) as [Hin|Hin].
  { destruct (on_track_at (mkWorld x d h mt lg) pls pk pl (mkPosition n true) l m Hinv Hon Hpl)
      as (-> & t & P & Ht & HP & Hl & _).
    { rewrite Hins. apply elem_of_app. left. by apply (list_elem_of_fmap_2' _ _ l). }
    destruct (leads_drop _ _ _ _ _ Hl Hn) as (Q & Hst & _).
    by destruct (wp_run _ _ _ _ _ Hrun (proj2 Hst ls l t x d h mt lg Hnd
      (λ l' Hl', inv_dom _ _ _ l' Hb Hl') Hin Ht HP)). }
  destruct w' as [x1 d1 h1 mt1 lg1]; simpl in *.
  destruct (wp_run _ _ _ _ _ Hcan (law_bcancel ls e x1 d1 h1 mt1 lg1
    ltac:(intros l' Hl'; destruct (inv_dom _ _ _ l' Hb Hl') as [u Hu];
          destruct (pass_in _ _ _ Hh l' u Hu) as (? & ? & _); eauto))) as (_ & Hh2 & _).
  eapply (on_track_other (mkWorld x d h mt lg));
    [done|done| |by rewrite Hh2; apply (pass_out _ _ _ Hh)|exact Hon].
  intros pos2. simpl. rewrite Hins, elem_of_app. intros [Hm|Hr]; [|done].
  apply list_elem_of_fmap in Hm as (? & [= _ ->] & ?). done.
Qed.

Lemma moved_still (own : Prop) `{!Decision own} w pls l m :
  (if decide own then (∃ m', (m' < m)%nat ∧ on_track w pls l m') ∨ ended w pls l
   else on_track w pls l m) →
  still_on_track w pls l m.
Proof.
  case_decide; [|intros; by eapply on_track_still]. intros [(m' & ? & ?)|?]; [|by right].
  eapply on_track_still; [done|lia].
Qed.

(** Preservation: whatever step is taken, a transfer on track stays on track
    or is finished, unless the process stops. *)
Lemma step_on_track s s' l m :
  step s s' → sys_inv s → built (sys_pipelines s) → sys_pipelines s' ≠ ∅ →
  on_track (sys_world s) (sys_pipelines s) l m →
  still_on_track (sys_world s') (sys_pipelines s') l m.
Proof.
  intros Hstep [Hinv _] Hb Hup Hon.
  destruct Hstep as [w w' pls rows Hq|w w' pls pls' r rows Hsub|x x' d h mt mt' lg lg' pls rows|
    x d h mt lg pls rows|x d h mt lg pls rows c tx now|x d h mt lg pls rows arg now|
    w w' pls rows pk pl n p l' out ins1 ins2 Hpl Hn Hins Hrun|
    w w' w'' pls rows pk pl n p l' e ins1 ins2 Hpl Hn Hins Hrun Hcan|
    w w' pls rows pk pl n c s t p l' b ins1 ins2 Hpl Hn Hins Hrun|
    w w' pls rows pk pl n c s t p ls out rest Hpl Hn Hins Hrun|
    w w' w'' pls rows pk pl n c s t p ls e rest Hpl Hn Hins Hrun Hcan|
    w w' pls rows pk pl n f l' out ins1 ins2 Hpl Hn Hins Hrun|
    w pls rows pk pl l' t ins1 ins2 Hpl Hins Ht]; simpl in *; try done;
    try (by eapply on_track_still).
  - destruct (read_rows w w' rows Hq) as (_ & Hh & _). eapply on_track_still; [|done].
    eapply (on_track_kept w); [by eauto|by rewrite Hh|done].
  - destruct w as [x d h mt lg].
    destruct (wp_run _ _ _ _ _ Hsub (submit_row_grows r pls x d h mt lg Hb) pls' eq_refl)
      as (_ & Hg & Hh).
    eapply on_track_still; [|done]. eapply (on_track_kept (mkWorld x d h mt lg)); [|by apply Hh|done].
    intros pl Hpl. destruct (Hg _ _ Hpl) as (pl' & ? & ? & ?). exists pl'. split_and!; auto.
  - eapply moved_still. by eapply process_on_track.
  - eapply on_track_still; [|done]. by eapply process_error_on_track.
  - eapply moved_still. by eapply route_on_track.
  - eapply moved_still. eapply batch_on_track; [apply Hco|done..].
  - eapply on_track_still; [|done]. by eapply batch_error_on_track.
  - eapply moved_still. by eapply finish_on_track.
  - eapply on_track_still; [|done]. destruct (decide (l = l')) as [<-|Hne].
    { destruct (on_track_at w pls pk pl _ l m Hinv Hon Hpl
        ltac:(rewrite Hins; apply in_middle)) as (_ & ? & ? & _ & _ & _ & Hlt & _). simpl in Hlt. lia. }
    eapply (on_track_other w); [done|done| |done|done].
    intros pos2. simpl. rewrite Hins. by apply other_dropped.
Qed.

(** Progress: there is always a step that takes the transfer further, whatever
    rows wait for the dispatcher. *)
Lemma on_track_moves w pls l m :
  world_inv (w_db w) (w_heap w) pls → on_track w pls l m →
  ∃ w' pls', (∀ rows, step (mkSystem w pls rows) (mkSystem w' pls' rows)) ∧
    ((∃ m', (m' < m)%nat ∧ on_track w' pls' l m') ∨ ended w' pls' l).
Proof.
  intros Hinv Hon. pose proof Hon as (pl & [n b] & t & P & Hpl & Hin & Ht & HP & Hl & Hn & _ & Hb).
  simpl in *. destruct (lookup_lt_is_Some_2 _ _ Hn) as [st Hst].
  destruct (leads_drop _ _ _ _ _ Hl Hst) as (Q & Hlead & _).
  destruct w as [x d h mt lg]; simpl in *. destruct b.
  - destruct Hb as (c & sz & tm & p & Hp); [done|]. simplify_eq.
    apply elem_of_Permutation in Hin as [rest Hrest].
    pose proof (proj2 Hlead [l] l t x d h mt lg (NoDup_singleton _)
      ltac:(intros ? ->%list_elem_of_singleton; eauto) ltac:(by left) Ht HP) as Hwp. unfold wp in Hwp.
    destruct (IBCV2BatchProcessorMW_Process p [l] (mkWorld x d h mt lg)) as [[out|e|] w'] eqn:Hrun;
      [|by destruct Hwp..].
    eexists w', _. split; [intros rows; exact (step_batch _ _ _ _ _ pl n c sz tm p [l] out rest Hpl Hst Hrest Hrun)|].
    pose proof (batch_on_track (mkWorld x d h mt lg) w' pls _ pl n c sz tm p l [l] out rest m
      (co_storage _ _ _ Hco) Hinv Hpl Hst Hrest Hrun Hon) as Hres.
    simpl in Hres. rewrite decide_True in Hres by (by left). exact Hres.
  - destruct (list_elem_of_split _ _ Hin) as (ins1 & ins2 & Hins). destruct st as [p|c sz tm p|f].
    + pose proof (Hlead l t x d h mt lg Ht HP) as Hwp. unfold wp in Hwp.
      destruct (IBCV2ProcessorMW_Process p (Some l) (mkWorld x d h mt lg)) as [o w'] eqn:Hrun.
      destruct Hwp as [Ho _]; simpl in Ho; subst o.
      eexists w', _. split; [intros rows; by eapply step_process|].
      pose proof (process_on_track (mkWorld x d h mt lg) w' pls _ pl n p l l l ins1 ins2 m Hinv Hpl
        Hst Hins Hrun Hon) as Hres. simpl in Hres. by rewrite decide_True in Hres.
    + pose proof (proj1 Hlead l t x d h mt lg Ht HP) as Hwp. unfold wp in Hwp.
      destruct (goes_to_batch p l (mkWorld x d h mt lg)) as [o w'] eqn:Hrun.
      destruct Hwp as (b & Ho & _); simpl in Ho; subst o.
      eexists w', _. split; [intros rows; by eapply step_route|].
      pose proof (route_on_track (mkWorld x d h mt lg) w' pls _ pl n c sz tm p l l b ins1 ins2 m Hinv
        Hpl Hst Hins Hrun Hon) as Hres. simpl in Hres. by rewrite decide_True in Hres.
    + destruct (member_heap _ _ _ _ _ _ Hinv Hpl (inside_elem _ _ _ _ _ Hins)) as (t' & Ht' & Ha).
      assert (t' = t) as -> by congruence.
      pose proof (Hlead l t x d h mt lg Ht HP (wi_wf _ _ _ Hinv) Ha) as Hwp. unfold wp in Hwp.
      destruct (StateFinisher_Process f l (mkWorld x d h mt lg)) as [o w'] eqn:Hrun.
      destruct Hwp as [Ho _]; simpl in Ho; subst o.
      eexists w', _. split; [intros rows; by eapply step_finish|].
      pose proof (finish_on_track (mkWorld x d h mt lg) w' pls _ pl n f l l l ins1 ins2 m Hinv Hpl
        Hst Hins Hrun Hon) as Hres. simpl in Hres. by rewrite decide_True in Hres.
Qed.

(** At most [m] steps take the transfer to its end. *)
Lemma on_track_finishes m : ∀ w pls l,
  world_inv (w_db w) (w_heap w) pls → on_track w pls l m →
  ∃ n w' pls', (n ≤ m)%nat ∧
    (∀ rows, nsteps step n (mkSystem w pls rows) (mkSystem w' pls' rows)) ∧ ended w' pls' l.
Proof.
  induction m as [m IH] using lt_wf_ind. intros w pls l Hinv Hon.
  destruct (on_track_moves w pls l m Hinv Hon) as (w1 & pls1 & Hstep & Hnext).
  assert (world_inv (w_db w1) (w_heap w1) pls1) as Hinv1.
  { apply (step_inv (mkSystem w pls []) (mkSystem w1 pls1 [])); [done|done|left; apply Hco|].
    by split. }
  assert (0 < m)%nat as Hpos.
  { destruct Hon as (pl & pos & ? & ? & _ & _ & _ & _ & _ & ? & <- & _). unfold rank.
    destruct (pos_batch pos); lia. }
  destruct Hnext as [(m' & Hm & Hon')|Hfin].
  - destruct (IH m' Hm w1 pls1 l Hinv1 Hon') as (n & w2 & pls2 & Hn & Hsteps & Hf).
    exists (S n), w2, pls2. split_and!; [lia| |done]. intros rows. by eapply nsteps_l.
  - exists 1%nat, w1, pls1. split_and!; [lia| |done]. intros rows. by apply nsteps_once.
Qed.

(** A run in which the process does not stop and no stale row is submitted. *)
Definition keeps_running : relation (System X) :=
  rtc (λ a b, step a b ∧ not_stale a ∧ sys_pipelines b ≠ ∅).

(** Along such a run a transfer stays on track or is finished for good, unless it
    was passed over at some point. *)
Lemma keeps_running_on_track s s' l m :
  keeps_running s s' → sys_inv s → built (sys_pipelines s) →
  still_on_track (sys_world s) (sys_pipelines s) l m →
  sys_inv s' ∧
  (still_on_track (sys_world s') (sys_pipelines s') l m ∨
   ∃ sm, keeps_running s sm ∧ keeps_running sm s' ∧
     passed_over (sys_world sm) (sys_pipelines sm) l).
Proof.
  intros Hrun.
  induction Hrun as [a|a b c (Hstep & Hfresh & Hup) Hbc IH]; intros Hinv Hb Hst; [by auto|].
  assert (sys_inv b) as Hinvb by (eapply step_inv; eauto; left; apply Hco).
  assert (keeps_running a b) as Hab by (by apply rtc_once).
  assert (sys_inv c) as Hinvc.
  { clear -Hbc Hinvb Hco. induction Hbc as [|b d c (? & ? & _) _ IH]; [done|]. apply IH.
    eapply step_inv; eauto. left. apply Hco. }
  destruct Hst as [(m' & Hm & Hon)|[(r & Hr & Hu & Hf)|Hover]].
  3:{ split; [done|]. right. exists a. split_and!; [apply rtc_refl|by etrans|done]. }
  all: destruct IH as [_ [Hc|(sm & H1 & H2 & H3)]]; try done; try (by eapply step_built).
  - destruct (step_on_track a b l m' Hstep Hinv Hb Hup Hon) as [(m2 & ? & ?)|?]; [|by right].
    left. exists m2. split; [lia|done].
  - by auto.
  - split; [done|]. right. exists sm. split_and!; [by etrans|done|done].
  - right. left. exists r. split; [|done]. by apply (step_finished a b Hstep Hfresh Hinv).
  - by auto.
  - split; [done|]. right. exists sm. split_and!; [by etrans|done|done].
Qed.

(** A transfer that has just entered its pipeline. *)
Lemma entered_on_track w pls pl l :
  built pls → pls !! newPipelineKey t0 = Some pl → (mkPosition 0 false, l) ∈ pl_inside pl →
  w_heap w !! l = Some t0 → underway t0 t0 →
  on_track w pls l (2 * length (pl_stages pl)).
Proof.
  intros Hb Hpl Hin Hl Hu. destruct (Hb _ _ Hpl) as [opts Hs].
  exists pl, (mkPosition 0 false), t0, (underway t0). unfold rank. simpl. rewrite drop_0.
  split_and!; try done; [|rewrite Hs; unfold NewPipeline; simpl; lia|lia].
  rewrite Hs. by eapply NewPipeline_leads.
Qed.
End track.

(** ** The guarantees *)

Section liveness.
Context {X : Type} {E : Env X}.
Implicit Types (s : System X) (w : World X) (pls : gmap pipelineKey (Pipeline X)).


(** A pipeline has at most seventeen stages: three of them compute gas costs
    and are there only when prices are configured. *)
Lemma NewPipeline_length sc si dc di opts :
  (length (NewPipeline (X := X) sc si dc di opts) ≤ 17)%nat.
Proof.
  assert (∀ id decimals new, (length (gas_stage (X := X) id decimals new) ≤ 1)%nat) as Hg.
  { intros. unfold gas_stage. destruct env_GetCoinUsdValue; [|simpl; lia].
    destruct (_ && _); simpl; lia. }
  unfold NewPipeline. rewrite !length_app. simpl.
  repeat match goal with |- context [length (gas_stage ?a ?b ?c)] =>
    let H := fresh in pose proof (Hg a b c) as H; revert H;
    generalize (length (gas_stage (X := X) a b c)) end. lia.
Qed.

(** Both chains of a row are configured for IBC v2. *)
Definition route_configured (r : db.Ibcv2Transfer) : Prop :=
  ∃ sc dc, config.GetChainConfig env_config (db.SourceChainID r) = Ret sc ∧
    config.GetChainConfig env_config (db.DestinationChainID r) = Ret dc ∧
    is_Some (config.IBCV2 sc) ∧ is_Some (config.IBCV2 dc).

Lemma wp_NewPipelineOpts_configured r Q (x : X) d h mt lg :
  route_configured r → (∀ opts lg', Q (Ret opts) (mkWorld x d h mt lg')) →
  wp (NewPipelineOpts (NewIBCV2Transfer r)) Q (mkWorld x d h mt lg).
Proof.
  intros (sc & dc & Hsc & Hdc & [si Hsi] & [di Hdi]) HQ. unfold NewPipelineOpts.
  unfold GetSourceChainID, GetDestinationChainID. simpl. rewrite Hsc, Hdc.
  wp_go; simplify_eq/=; auto.
Qed.

(** A row that is submitted enters the pipeline, which is made if there is
    none. *)
Lemma submit_row_pushes r pls (x : X) d h mt lg :
  route_configured r → ¬ in_pipeline (NewIBCV2Transfer r) pls →
  wp (submit_row r pls) (λ o w, ∃ pls' pl l, o = Ret pls' ∧
    pls' !! newPipelineKey (NewIBCV2Transfer r) = Some pl ∧
    (mkPosition 0 false, l) ∈ pl_inside pl ∧ w_heap w !! l = Some (NewIBCV2Transfer r) ∧
    w_db w = d) (mkWorld x d h mt lg).
Proof.
  intros Hrc Hno. unfold submit_row. wp_step. apply wp_alloc. intros l Hl. simpl. wp_step.
  apply wp_silent.
  { apply AlertOnExcessiveRelayLatency_silent. destruct Hrc as (sc & dc & Hsc & _ & ? & _).
    unfold GetSourceChainID. simpl. rewrite Hsc. by intros c [= <-]. }
  intros [] x1 mt1 lg1. simpl. wp_step. unfold SubmitTransfer. wp_step.
  eapply wp_load; [apply lookup_insert_eq|]. simpl.
  assert (∀ Q pls' pl lg', pls' !! newPipelineKey (NewIBCV2Transfer r) = Some pl →
    newTransferKey (NewIBCV2Transfer r) ∉ pl_inPipeline pl →
    (∀ pl', (mkPosition 0 false, l) ∈ pl_inside pl' →
       Q (Ret (None, <[newPipelineKey (NewIBCV2Transfer r) := pl']> pls'))
         (mkWorld x1 d (<[l := NewIBCV2Transfer r]> h) mt1 lg')) →
    wp (pl ← deref (pls' !! newPipelineKey (NewIBCV2Transfer r));
        let '(pushed, pl') := PipelineDeduper_Push l (NewIBCV2Transfer r) pl in
        if (pushed : bool) then mret (None, <[newPipelineKey (NewIBCV2Transfer r) := pl']> pls')
        else mret (Some (Sentinel ErrTransferAlreadyInPipeline), pls'))
      Q (mkWorld x1 d (<[l := NewIBCV2Transfer r]> h) mt1 lg')) as Hpush.
  { intros Q pls' pl lg' Hpl Hk HQ. rewrite Hpl. wp_step. apply wp_ret. simpl.
    unfold PipelineDeduper_Push. rewrite bool_decide_eq_false_2 by done. apply wp_ret, HQ.
    simpl. set_solver. }
  wp_step. apply wp_attempt. unfold IBCV2PipelineManager_Pipeline, newPipelineForTransfer.
  assert (∀ pls' pl' lg', (mkPosition 0 false, l) ∈ pl_inside pl' → ∃ pls2 pl2 l2,
    Ret (<[newPipelineKey (NewIBCV2Transfer r) := pl']> pls') = Ret pls2 ∧
    pls2 !! newPipelineKey (NewIBCV2Transfer r) = Some pl2 ∧
    (mkPosition 0 false, l2) ∈ pl_inside pl2 ∧
    w_heap (mkWorld x1 d (<[l := NewIBCV2Transfer r]> h) mt1 lg') !! l2 = Some (NewIBCV2Transfer r) ∧
    w_db (mkWorld x1 d (<[l := NewIBCV2Transfer r]> h) mt1 lg') = d) as Hend.
  { intros pls' pl' lg' Hin. eexists _, pl', l.
    split_and!; [done|apply lookup_insert_eq|done|apply lookup_insert_eq|done]. }
  destruct (pls !! newPipelineKey (NewIBCV2Transfer r)) as [pl|] eqn:Hpl.
  - apply wp_ret. simpl. apply (Hpush _ pls pl); [done| |intros; by apply wp_ret, Hend].
    intros Hk. apply Hno. by exists pl.
  - wp_step. apply wp_wrap. wp_step. apply wp_wrap, wp_NewPipelineOpts_configured; [done|].
    intros opts lg'. simpl. apply wp_ret. simpl. apply wp_ret. simpl.
    eapply Hpush; [apply lookup_insert_eq|simpl; set_solver|]. intros. by apply wp_ret, Hend.
Qed.


(** ** A stale row *)

(** The first stage works on a transfer without transactions: whatever the
    chain answers, its row gets the stage's state. *)
Lemma first_stage_state l t r' (x : X) d h mt lg :
  healthy → h !! l = Some t → ProcessingError t = None →
  State t ≠ db.Ibcv2RelayStatusFAILED →
  RecvTxHash t = None → AckTxHash t = None → TimeoutTxHash t = None →
  db.row (update_key t) d = Some r' →
  wp (IBCV2ProcessorMW_Process NewCheckRecvPacketDeliveryProcessor (Some l))
    (λ _ w, ∃ r2, db.row (update_key t) (w_db w) = Some r2 ∧
       db.Status r2 = db.Ibcv2RelayStatusCHECKRECVPACKETDELIVERY) (mkWorld x d h mt lg).
Proof.
  intros Hh Hl He Hf Hr Ha Ht Hrow.
  set (k := update_key t) in *.
  assert (∀ now, ∃ r2, db.row k (db.UpdateTransferState
    db.Ibcv2RelayStatusCHECKRECVPACKETDELIVERY k now d) = Some r2 ∧
    db.Status r2 = db.Ibcv2RelayStatusCHECKRECVPACKETDELIVERY) as Hset.
  { intros now. eexists.
    by rewrite (db.row_update_row_eq (db.UpdateTransferState_row_update _ _ _)), Hrow. }
  assert (∀ hash time a now d1, (∃ r2, db.row k d1 = Some r2 ∧
    db.Status r2 = db.Ibcv2RelayStatusCHECKRECVPACKETDELIVERY) →
    ∃ r2, db.row k (db.UpdateTransferRecvTx hash time a k now d1) = Some r2 ∧
    db.Status r2 = db.Ibcv2RelayStatusCHECKRECVPACKETDELIVERY) as Hkeep.
  { intros hash time a now d1 (r2 & Hr2 & Hs2). eexists.
    by rewrite (db.row_update_row_eq (db.UpdateTransferRecvTx_row_update _ _ _ _ _)), Hr2. }
  unfold IBCV2ProcessorMW_Process. wp_step. apply wp_ret. simpl. wp_step. eapply wp_load; [done|].
  simpl. rewrite (Error_empty t He). simpl. unfold GetState. rewrite bool_decide_eq_false_2 by done.
  wp_step. unfold CheckRecvPacketDeliveryProcessor_ShouldProcess. read_transfer. apply wp_ret. simpl.
  unfold GetRecvTxHash, GetAckTxHash, GetTimeoutTxHash. rewrite Hr, Ha, Ht. simpl.
  wp_step. apply wp_attempt, wp_exec_healthy; [done|]. intros now x2. simpl.
  wp_step. wp_step. simpl. wp_step. wp_step. simpl. wp_step. apply wp_attempt.
  unfold CheckRecvPacketDeliveryProcessor_Process, CheckRecvPacketDeliveryProcessor_Cancel,
    IBCV2ProcessorMW_Cancel.
  assert (update_key (with_State db.Ibcv2RelayStatusCHECKRECVPACKETDELIVERY t) = k) as Hk by done.
  wp_step. eapply wp_load; [simpl; by rewrite lookup_alter_eq, Hl|]. simpl. rewrite Hk.
  wp_go; simpl; auto.
Qed.

(** C26: a finished row does not stay finished when it was read before. Take
    any state in which the row the dispatcher submits next was unfinished and
    without transactions when it was read, and is finished in the table by now,
    its packet having left the pipeline. With a working database and both
    chains configured, submitting it is a step of the relayer which puts a
    transfer with the old fields in front of the first stage, and whatever the
    chain answers to that stage, its call takes the row back from its final
    state to [CHECK_RECV_PACKET_DELIVERY]. *)
Theorem stale_row_reopens w pls r rows r' :
  healthy → built pls → route_configured r → is_int32 (db.PacketSequenceNumber r) →
  db.unfinished (db.Status r) = true →
  db.RecvTxHash r = None → db.AckTxHash r = None → db.TimeoutTxHash r = None →
  db.row (db.row_key r) (w_db w) = Some r' → db.unfinished (db.Status r') = false →
  ¬ in_pipeline (NewIBCV2Transfer r) pls →
  ∃ w1 pls1 pl l p, step (mkSystem w pls (r :: rows)) (mkSystem w1 pls1 rows) ∧
    pls1 !! newPipelineKey (NewIBCV2Transfer r) = Some pl ∧
    (mkPosition 0 false, l) ∈ pl_inside pl ∧ w_heap w1 !! l = Some (NewIBCV2Transfer r) ∧
    pl_stages pl !! 0%nat = Some (ProcessConcurrently p) ∧
    db.row (db.row_key r) (w_db w1) = Some r' ∧
    ∀ o w2, IBCV2ProcessorMW_Process p (Some l) w1 = (o, w2) →
      ∃ r2, db.row (db.row_key r) (w_db w2) = Some r2 ∧
        db.Status r2 = db.Ibcv2RelayStatusCHECKRECVPACKETDELIVERY.
Proof.
  intros Hh Hb Hrc Hi Hu H1 H2 H3 Hrow _ Hno.
  destruct (submit_row r pls w) as [o w1] eqn:Hsub. destruct w as [x d h mt lg].
  pose proof (submit_row_pushes r pls x d h mt lg Hrc Hno) as Hwp. unfold wp in Hwp.
  pose proof (submit_row_grows r pls x d h mt lg Hb) as Hg. unfold wp in Hg.
  rewrite Hsub in Hwp, Hg. destruct Hwp as (pls1 & pl & l & Ho & Hpl & Hin & Hl & Hd). simpl in *.
  subst o. destruct (Hg pls1 eq_refl) as (Hb1 & _). destruct (Hb1 _ _ Hpl) as [opts Hst].
  exists w1, pls1, pl, l, NewCheckRecvPacketDeliveryProcessor.
  split_and!; [by apply step_submit|done|done|done|by rewrite Hst|by rewrite Hd|].
  intros o w2 Hrun. destruct w1 as [x1 d1 h1 mt1 lg1]; simpl in *. subst d1.
  rewrite <- (update_key_NewIBCV2Transfer r Hi) in *.
  refine (wp_run _ _ _ _ _ Hrun (first_stage_state l (NewIBCV2Transfer r) r' x1 d h1 mt1 lg1
    Hh Hl eq_refl _ H1 H2 H3 Hrow)).
  simpl. by intros Hf; rewrite Hf in Hu.
Qed.
(** ** No transfer is lost *)

(** A call of one of the pipeline's stages, on a transfer in front of it or on a
    batch of it, ends with the cancellation of its context. *)
Definition stage_cancelled (pl : Pipeline X) w : Prop :=
  ∃ e w', errors_Is e ContextCanceled = true ∧
    ((∃ n p l, pl_stages pl !! n = Some (ProcessConcurrently p) ∧
        (mkPosition n false, l) ∈ pl_inside pl ∧
        IBCV2ProcessorMW_Process p (Some l) w = (Fail e, w')) ∨
     (∃ n c k tm p ls, pl_stages pl !! n = Some (ConditionallyBatchProcess c k tm p) ∧
        (∀ l, l ∈ ls → (mkPosition n true, l) ∈ pl_inside pl) ∧
        Batch_Process (NewIBCV2BatchProcessorMW p) ls w = (Fail e, w'))).

(** One transfer has left on the output channel and the deduper has forgotten
    its key. *)
Definition one_left (pl pl' : Pipeline X) w : Prop :=
  ∃ l t, (mkPosition (length (pl_stages pl)) false, l) ∈ pl_inside pl ∧
    w_heap w !! l = Some t ∧ locs pl ≡ₚ l :: locs pl' ∧
    pl_inPipeline pl' = pl_inPipeline pl ∖ {[newTransferKey t]}.

Lemma process_error_cancelled w w' pls pk pl n p l e ins1 ins2 :
  world_inv (w_db w) (w_heap w) pls → pls !! pk = Some pl →
  pl_stages pl !! n = Some (ProcessConcurrently p) →
  pl_inside pl = ins1 ++ (mkPosition n false, l) :: ins2 →
  IBCV2ProcessorMW_Process p (Some l) w = (Fail e, w') → stage_cancelled pl w.
Proof.
  intros Hinv Hpl Hn Hins Hrun.
  destruct (member_heap _ _ _ _ _ _ Hinv Hpl (inside_elem _ _ _ _ _ Hins)) as (t & Ht & Ha).
  destruct (stage_at _ _ _ _ _ _ _ Hinv Hpl Hn) as [Hlaws].
  destruct w as [x d h mt lg]; simpl in *. exists e, w'. split.
  - by destruct (wp_run _ _ _ _ _ Hrun
      (IBCV2ProcessorMW_Process_post p l t x d h mt lg Ht (wi_wf _ _ _ Hinv) Ha))
      as (_ & _ & ? & _ & _ & _ & ?).
  - left. exists n, p, l. rewrite Hins. split_and!; [done|set_solver|done].
Qed.

Lemma batch_error_cancelled w w' pls pk pl n c k tm p ls e rest :
  world_inv (w_db w) (w_heap w) pls → pls !! pk = Some pl →
  pl_stages pl !! n = Some (ConditionallyBatchProcess c k tm p) →
  pl_inside pl ≡ₚ map (λ l, (mkPosition n true, l)) ls ++ rest →
  Batch_Process (NewIBCV2BatchProcessorMW p) ls w = (Fail e, w') → stage_cancelled pl w.
Proof.
  intros Hinv Hpl Hn Hins Hrun.
  destruct (stage_at _ _ _ _ _ _ _ Hinv Hpl Hn) as [Hlaws].
  assert (ls ⊆ locs pl) as Hls by (rewrite (batch_locs _ _ _ _ Hins); set_solver).
  destruct w as [x d h mt lg]; simpl in *. exists e, w'. split.
  - by destruct (wp_run _ _ _ _ _ Hrun (IBCV2BatchProcessorMW_Process_post p ls x d h mt lg
      (world_batch_inv _ _ _ _ _ _ Hinv Hpl Hls))) as (_ & _ & _ & ?).
  - right. exists n, c, k, tm, p, ls. split_and!; [done| |done]. intros l Hl. rewrite Hins.
    apply elem_of_app. left. by apply (list_elem_of_fmap_2' _ _ l).
Qed.

(** A batch that was processed comes out whole. *)
Lemma batch_comes_out w w' pls pk pl n c k tm p ls out rest :
  world_inv (w_db w) (w_heap w) pls → pls !! pk = Some pl →
  pl_stages pl !! n = Some (ConditionallyBatchProcess c k tm p) →
  pl_inside pl ≡ₚ map (λ l, (mkPosition n true, l)) ls ++ rest →
  Batch_Process (NewIBCV2BatchProcessorMW p) ls w = (Ret out, w') →
  locs pl ⊆+ locs (with_inside pl (rest ++ map (λ l, (mkPosition (S n) false, l)) out)).
Proof.
  intros Hinv Hpl Hn Hins Hrun.
  destruct (stage_at _ _ _ _ _ _ _ Hinv Hpl Hn) as [Hlaws].
  assert (ls ⊆ locs pl) as Hls by (rewrite (batch_locs _ _ _ _ Hins); set_solver).
  destruct w as [x d h mt lg]; simpl in *.
  destruct (wp_run _ _ _ _ _ Hrun (IBCV2BatchProcessorMW_Process_post p ls x d h mt lg
    (world_batch_inv _ _ _ _ _ _ Hinv Hpl Hls))) as (_ & _ & _ & extra & Hout & _).
  rewrite (batch_locs _ _ _ _ Hins). unfold locs. simpl. rewrite map_app, map_map. simpl.
  rewrite map_id, Hout, (Permutation_app_comm ls). apply submseteq_app; [done|].
  by apply submseteq_inserts_r.
Qed.

(** What a step makes of a pipeline. *)
Definition kept_or_left (pl pl' : Pipeline X) w : Prop :=
  locs pl ⊆+ locs pl' ∨ one_left pl pl' w ∨ stage_cancelled pl w.

Lemma step_keeps s s' pk pl pl' :
  sys_inv s → built (sys_pipelines s) → step s s' →
  sys_pipelines s !! pk = Some pl → sys_pipelines s' !! pk = Some pl' →
  kept_or_left pl pl' (sys_world s).
Proof.
  intros [Hinv _] Hb Hstep. unfold kept_or_left.
  destruct Hstep as [w w' pls rows Hq|w w' pls pls' r rows Hsub| | | |
    |w w' pls rows pk0 pl0 n p l out ins1 ins2 Hpl Hn Hins Hrun
    |w w' w'' pls rows pk0 pl0 n p l e ins1 ins2 Hpl Hn Hins Hrun Hcan
    |w w' pls rows pk0 pl0 n c st tm p l b ins1 ins2 Hpl Hn Hins Hrun
    |w w' pls rows pk0 pl0 n c st tm p ls out rest Hpl Hn Hins Hrun
    |w w' w'' pls rows pk0 pl0 n c st tm p ls e rest Hpl Hn Hins Hrun Hcan
    |w w' pls rows pk0 pl0 n f l out ins1 ins2 Hpl Hn Hins Hrun
    |w pls rows pk0 pl0 l t ins1 ins2 Hpl Hins Ht]; simpl in *; intros Hp Hp';
    try (by simplify_eq; left);
    try (apply lookup_insert_Some in Hp' as [[<- <-]|[_ Hp']]; [|by simplify_eq; left];
         simplify_eq).
  - left. destruct w as [x d h mt lg].
    destruct (wp_run _ _ _ _ _ Hsub (submit_row_grows r pls x d h mt lg Hb) pls' eq_refl)
      as (_ & Hg & _). destruct (Hg _ _ Hp) as (pl2 & Hp2 & _ & Hsub2). simplify_eq.
    apply NoDup_submseteq; [by eapply pipeline_NoDup, (wi_pipelines _ _ _ Hinv)|].
    intros l (posl & -> & Hl)%list_elem_of_fmap. apply list_elem_of_fmap. eauto.
  - left. destruct w as [x d h mt lg].
    destruct (member_heap _ _ _ _ _ _ Hinv Hpl (inside_elem _ _ _ _ _ Hins)) as (t & Ht & Ha).
    destruct (stage_at _ _ _ _ _ _ _ Hinv Hpl Hn) as [Hlaws].
    destruct (wp_run _ _ _ _ _ Hrun (IBCV2ProcessorMW_Process_post p l t x d h mt lg Ht
      (wi_wf _ _ _ Hinv) Ha)) as (_ & _ & ? & _ & _ & _ & [= ->] & _).
    by erewrite locs_move.
  - right. right. by eapply process_error_cancelled.
  - left. by erewrite locs_move.
  - left. by eapply batch_comes_out.
  - right. right. by eapply batch_error_cancelled.
  - left. destruct w as [x d h mt lg].
    destruct (member_heap _ _ _ _ _ _ Hinv Hpl (inside_elem _ _ _ _ _ Hins)) as (t & Ht & Ha).
    destruct (wp_run _ _ _ _ _ Hrun (StateFinisher_Process_post f l t x d h mt lg Ht
      (wi_wf _ _ _ Hinv) Ha)) as (_ & _ & ? & _ & _ & _ & -> & _).
    by erewrite locs_move.
  - right. left. exists l, t. rewrite Hins. split_and!; [set_solver|done| |done].
    unfold locs. simpl. rewrite Hins, !map_app. simpl. by rewrite Permutation_middle.
Qed.

(** C19: no step of the relayer loses a transfer. In a state reached without stale
    or repeated transfers, whatever step is taken that does not end the process,
    every pipeline still holds all transfers it held, as often as it held them;
    or one of them was behind the last stage and has left on the output channel,
    its key, and no other, being deleted from the deduper; or the call of a stage
    of that pipeline ended with a cancelled context. So an error of a chain or of
    the database never makes a stage drop a transfer. *)
Theorem transfers_not_lost w0 s s' pk pl pl' :
  db_wf (w_db w0) → reaches (mkSystem w0 ∅ []) s → step s s' →
  sys_pipelines s !! pk = Some pl → sys_pipelines s' !! pk = Some pl' →
  kept_or_left pl pl' (sys_world s).
Proof.
  intros Hwf Hr. apply step_keeps; [by apply (reaches_inv _ _ (start_inv w0 Hwf))|].
  apply (reaches_built _ _ Hr). by intros ? ?.
Qed.
End liveness.

(** ** The theorems applied *)

(** The two chains of [conf_ab] with a clock. *)
Definition clock_env (clock : Z → Time) : Env Z :=
  mkEnv Z (env_clients (Env := demo.env demo.good)) (env_RelayByTx (Env := demo.env demo.good))
    None (config.NewConfigReader conf_ab) (λ x, (clock x, x + 1)) (λ x, (None, x)) (λ x, x)
    (λ x, (true, x)).

Lemma clock_cooperative clock :
  cooperative (E := clock_env clock) demo.transfer (demo.client config.ChainType_COSMOS demo.good)
    (demo.client config.ChainType_EVM demo.good).
Proof.
  assert (∀ A (a : A) (P : A → Prop), P a → responds (demo.always (Ret a)) P) as Hr.
  { intros A a P HP x. by eexists _, _. }
  assert (∀ A (o : outcome A), answers (demo.always o) o) as Ha.
  { intros A o x. by eexists. }
  assert (∀ hash time, decodes hash → proper_tx (Some (demo.tx hash time))) as Hp.
  { intros hash time Hd. by exists (demo.tx hash time). }
  split; intros;
    repeat match goal with H : _ ∨ _ |- _ => destruct H as [-> | ->] end;
    first [done|apply Ha|by apply Hr|apply Hr, Hp; by eexists|by eexists|idtac].
  - exists (λ _ _, False). split; try done. intros x. by exists true, (x + 1).
  - by exists (Ret db.Ibcv2WriteAckStatusSUCCESS), (x + 1).
Qed.

(** A day on which time passes, and one on which it stops before the timeout. *)
Definition real_env : Env Z := clock_env (λ x, x).
Definition calm_env : Env Z := clock_env (λ x, Z.min x 500).

Lemma calm_never_late : ¬ can_be (E := calm_env) true demo.transfer.
Proof.
  intros [x Hx]. simpl in Hx. unfold IsTimedOut, After in Hx. apply bool_decide_eq_true in Hx.
  simpl in Hx. lia.
Qed.

Lemma demo_underway : underway demo.transfer demo.transfer.
Proof. by split. Qed.

Definition calm_tick : outcome (gmap pipelineKey (Pipeline Z)) * World Z :=
  Run_tick (E := calm_env) ∅ start.

Definition calm_pipelines : gmap pipelineKey (Pipeline Z) :=
  match calm_tick.1 with Ret pls => pls | _ => ∅ end.

Definition calm_pipeline : Pipeline Z :=
  default (NewPipelineDeduper []) (calm_pipelines !! newPipelineKey demo.transfer).

Lemma calm_reaches :
  reaches (E := calm_env) (mkSystem start ∅ []) (mkSystem calm_tick.2 calm_pipelines []).
Proof.
  apply tick_reaches; [apply start_inv, demo.demo_row_wf|].
  assert (is_Ret calm_tick.1 = true) as Hret by (by vm_compute).
  unfold calm_pipelines, calm_tick in *. by destruct (Run_tick _ _) as [[]].
Qed.

Lemma calm_lookup : calm_pipelines !! newPipelineKey demo.transfer = Some calm_pipeline.
Proof.
  assert (has (calm_pipelines !! newPipelineKey demo.transfer) = true) as Hhas by (by vm_compute).
  unfold calm_pipeline. by destruct (calm_pipelines !! _).
Qed.

Lemma calm_inside : (mkPosition 0 false, 2%positive) ∈ pl_inside calm_pipeline.
Proof. apply (bool_decide_unpack _). by vm_compute. Qed.


Lemma waiting_inv : sys_inv (mkSystem start ∅ [demo.row_pending]).
Proof. split; [apply (start_inv start demo.demo_row_wf)|by repeat constructor]. Qed.

Lemma clock_route clock : route_configured (E := clock_env clock) demo.row_pending.
Proof.
  exists demo.chain_a, demo.chain_b. by split_and!; [vm_compute|vm_compute|eexists|eexists].
Qed.


(** The run of [stale]: the rows are read a second time while the packet is
    still in the pipeline, and are to be submitted when it has left. *)
Lemma stale_reached : rtc (step (E := demo.env demo.good)) (mkSystem start ∅ []) stale.
Proof. eapply run_steps, run_default. by vm_compute. Qed.

Lemma stale_built : built (E := demo.env demo.good) (sys_pipelines stale).
Proof.
  refine (rtc_ind_r (λ s, built (E := demo.env demo.good) (sys_pipelines s)) _ _ _ stale
    stale_reached); [by intros ? ?|]. intros s s' _ Hs Hb. by eapply step_built.
Qed.

Lemma stale_eta : stale = mkSystem (sys_world stale) (sys_pipelines stale) [demo.row_pending].
Proof.
  assert (sys_waiting stale = [demo.row_pending]) as Hw by (by vm_compute).
  destruct stale as [w pls rows]. simpl in *. by rewrite Hw.
Qed.

Lemma demo_route : route_configured (E := demo.env demo.good) demo.row_pending.
Proof.
  exists demo.chain_a, demo.chain_b. by split_and!; [vm_compute|vm_compute|eexists|eexists].
Qed.

Lemma stale_row_reopens_witness :
  rtc (step (E := demo.env demo.good)) (mkSystem start ∅ []) stale ∧
  ∃ s1 l p, step (E := demo.env demo.good) stale s1 ∧
    ∀ o w2, IBCV2ProcessorMW_Process (E := demo.env demo.good) p (Some l) (sys_world s1) = (o, w2) →
      ∃ r2, db.row packet_key (w_db w2) = Some r2 ∧
        db.Status r2 = db.Ibcv2RelayStatusCHECKRECVPACKETDELIVERY.
Proof.
  split; [exact stale_reached|].
  destruct (stale_row_reopens (E := demo.env demo.good) (sys_world stale) (sys_pipelines stale)
    demo.row_pending [] (default demo.row_pending (db.row packet_key (w_db (sys_world stale))))
    (λ _, eq_refl) stale_built demo_route ltac:(by vm_compute) eq_refl eq_refl eq_refl eq_refl)
    as (w1 & pls1 & pl & l & p & Hstep & _ & _ & _ & _ & _ & Hall).
  - apply row_default. by vm_compute.
  - by vm_compute.
  - intros (pl & Hpl & Hin).
    assert (bool_decide (newTransferKey demo.transfer ∈ default ∅
      (pl_inPipeline <$> sys_pipelines stale !! newPipelineKey demo.transfer)) = false) as Hk
      by (by vm_compute).
    apply bool_decide_eq_false in Hk. apply Hk. change (NewIBCV2Transfer demo.row_pending) with demo.transfer in *.
    by rewrite Hpl.
  - exists (mkSystem w1 pls1 []), l, p. rewrite stale_eta at 1. by split.
Defined.

(** The first stage takes the packet of the tick. *)
Definition first_stage_done : System Z :=
  default (mkSystem start ∅ []) (run (E := demo.env demo.good)
    [Advance (newPipelineKey demo.transfer) 0] (mkSystem tick.2 tick_pipelines [])).

Definition moved_pipeline : Pipeline Z :=
  default (NewPipelineDeduper [])
    (sys_pipelines first_stage_done !! newPipelineKey demo.transfer).

Lemma first_stage_step :
  step (E := demo.env demo.good) (mkSystem tick.2 tick_pipelines []) first_stage_done.
Proof.
  apply (run_action_step (Advance (newPipelineKey demo.transfer) 0)).
  assert (has (run_action (E := demo.env demo.good) (Advance (newPipelineKey demo.transfer) 0)
    (mkSystem tick.2 tick_pipelines [])) = true) as Hhas by (by vm_compute).
  unfold first_stage_done, run. by destruct (run_action _ _).
Qed.

Lemma transfers_not_lost_witness :
  2%positive ∈ locs tick_pipeline ∧
  kept_or_left (E := demo.env demo.good) tick_pipeline moved_pipeline tick.2.
Proof.
  split; [exact tick_inside|].
  apply (transfers_not_lost (E := demo.env demo.good) start (mkSystem tick.2 tick_pipelines [])
    first_stage_done (newPipelineKey demo.transfer) _ _ demo.demo_row_wf start_reaches
    first_stage_step tick_lookup).
  assert (has (sys_pipelines first_stage_done !! newPipelineKey demo.transfer) = true) as Hhas
    by (by vm_compute).
  unfold moved_pipeline. by destruct (sys_pipelines first_stage_done !! _).
Defined.
