(* ===== verification/Deduper.v ===== *)
(** * The deduper's goroutines

    Models [PipelineDeduper] of [relayer/ibcv2/pipeline.go] with its lock, its
    channel and its two goroutines: the dispatcher's, which calls [Push] and
    [Close], and the one the first [Push] spawns, which takes transfers from
    the output and deletes their keys. A step is what a goroutine does between
    two points at which it may wait.

    - [deduper_refines_atomic]: the steps refine [PipelineDeduper_Push] and
      [PipelineDeduper_output] of [Pipeline.v], where a push and a deletion are
      one step each; no key stays marked after its transfers are gone; and as
      long as no stage repeats a transfer no two transfers have the same key.
    - [deduper_deadlock_threshold]: [Push] sends on the input channel while it
      holds the lock the other goroutine needs. With as many transfers as the
      channel and the stages can hold, and one more on either side, both wait
      for ever; with fewer some goroutine can always go on.
    - [deduper_Close_returns]: [Close] returns after the pipeline has been
      drained, if [Push] was ever called.

    The stages are those of the pipeline library: what is used of them here is
    that together they hold at most [capacity] transfers and may put any of
    them on the output channel, which is not buffered. A batch stage may repeat
    a transfer ([batch_middleware_repeats]): the stages then hold it twice. *)
From stdpp Require Import prelude strings list gmap relations.
From Stdlib Require Import ZArith FinFun.
From S2P Require Import Prelude Go Config Db Transfer World Wp TransferMetrics Processors.
From S2P Require Import ProcessorMW Batch PipelineOpts Pipeline System.

Local Open Scope nat_scope.

Module deduper.

(** The capacity of the input channel. *)
Definition inputBufferSize : nat := Z.to_nat 10000.

(** Where the dispatcher's goroutine is: not in the deduper, waiting for the
    lock, with the lock, sending with the lock, waiting in [Close] for [done],
    or past [Close]. *)
Inductive caller :=
  | Idle
  | Waiting (l : loc)
  | Locked (l : loc)
  | Sending (l : loc)
  | Closing
  | Closed.

(** Where the deduper's goroutine is: not started, receiving from the output,
    waiting for the lock with a transfer in hand, or past its loop. *)
Inductive watcher :=
  | NotStarted
  | Polling
  | Received (l : loc)
  | Stopped.

(** [cancelled] is [ctx.Done()]; once it is set the stages may drop what they
    hold and the dispatcher calls [Close], after which what is left in the input
    channel is abandoned. *)
Record state := mkState {
  input : list loc;
  inside : list loc;
  inPipeline : gset transferKey;
  push : caller;
  watch : watcher;
  cancelled : bool;
}.

(** The lock is held from [Locked] to the end of [Sending]; the other goroutine
    gives it back in the step that takes it. *)
Definition lock_free (p : caller) : Prop :=
  match p with Locked _ | Sending _ => False | _ => True end.

Section steps.
Context (size capacity : nat) (transfer : loc → IBCV2Transfer).

Definition key (l : loc) : transferKey := newTransferKey (transfer l).

(** [once.Do]. *)
Definition spawn (w : watcher) : watcher := match w with NotStarted => Polling | _ => w end.

Inductive goroutine_step : state → state → Prop :=
  | step_call l q s k w b :
      goroutine_step (mkState q s k Idle w b) (mkState q s k (Waiting l) (spawn w) b)
  | step_lock l q s k w b :
      goroutine_step (mkState q s k (Waiting l) w b) (mkState q s k (Locked l) w b)
  | step_refuse l q s k w b :
      key l ∈ k → goroutine_step (mkState q s k (Locked l) w b) (mkState q s k Idle w b)
  | step_mark l q s k w b :
      key l ∉ k →
      goroutine_step (mkState q s k (Locked l) w b) (mkState q s ({[key l]} ∪ k) (Sending l) w b)
  | step_send l q s k w b :
      length q < size → goroutine_step (mkState q s k (Sending l) w b) (mkState (q ++ [l]) s k Idle w b)
  | step_enter l q s k p w b :
      length s < capacity → goroutine_step (mkState (l :: q) s k p w b) (mkState q (s ++ [l]) k p w b)
  | step_repeat l q s k p w b :
      l ∈ s → length s < capacity →
      goroutine_step (mkState q s k p w b) (mkState q (s ++ [l]) k p w b)
  | step_receive l q s1 s2 k p b :
      goroutine_step (mkState q (s1 ++ l :: s2) k p Polling b) (mkState q (s1 ++ s2) k p (Received l) b)
  | step_delete l q s k p b :
      lock_free p →
      goroutine_step (mkState q s k p (Received l) b) (mkState q s (k ∖ {[key l]}) p Polling b)
  | step_cancel q s k p w b :
      goroutine_step (mkState q s k p w b) (mkState q s k p w true)
  | step_drop_input l q s k w :
      goroutine_step (mkState (l :: q) s k Closing w true) (mkState q s k Closing w true)
  | step_drop_inside l q s1 s2 k p w :
      goroutine_step (mkState q (s1 ++ l :: s2) k p w true) (mkState q (s1 ++ s2) k p w true)
  | step_close q s k w :
      goroutine_step (mkState q s k Idle w true) (mkState q s k Closing w true)
  | step_stop k :
      goroutine_step (mkState [] [] k Closing Polling true) (mkState [] [] k Closing Stopped true)
  | step_done q s k :
      goroutine_step (mkState q s k Closing Stopped true) (mkState q s k Closed Stopped true).

Definition NewPipelineDeduper : state := mkState [] [] ∅ Idle NotStarted false.

(** The transfers the deduper is responsible for: marked and not deleted. *)
Definition held (c : state) : list loc :=
  match push c with Sending l => [l] | _ => [] end ++ input c ++ inside c ++
  match watch c with Received l => [l] | _ => [] end.

(** ** The invariant *)

(** A stage has repeated a transfer. *)
Definition repeats (c c' : state) : Prop :=
  ∃ l, l ∈ inside c ∧ c' = mkState (input c) (inside c ++ [l]) (inPipeline c) (push c) (watch c)
    (cancelled c).

(** A step in which that does not happen. *)
Definition plain_step (c c' : state) : Prop := goroutine_step c c' ∧ ¬ repeats c c'.

(** As long as it does not, a key is marked while its transfer is held, and no
    two transfers with the same key are. *)

Definition marked (c : state) : Prop :=
  NoDup (map key (held c)) ∧ ∀ l, l ∈ held c → key l ∈ inPipeline c.

Lemma marked_perm (c c' : state) :
  held c ≡ₚ held c' → inPipeline c' = inPipeline c → marked c → marked c'.
Proof.
  intros Hp Hk [Hn Hm]. split.
  - by rewrite <- Hp.
  - intros l Hl. rewrite Hk. apply Hm. by rewrite Hp.
Qed.

Lemma marked_less (c c' : state) l :
  held c ≡ₚ l :: held c' → inPipeline c' = inPipeline c → marked c → marked c'.
Proof.
  intros Hp Hk [Hn Hm]. rewrite Hp in Hn. apply NoDup_cons in Hn as [_ Hn].
  split; [done|]. intros l' Hl'. rewrite Hk. apply Hm. rewrite Hp. by right.
Qed.

Lemma step_marked c c' : plain_step c c' → marked c → marked c'.
Proof.
  intros [Hs Hn]. destruct Hs; try (by apply marked_perm; [unfold held; simpl; solve_Permutation|]).
  - apply marked_perm; [|done]. unfold held; simpl. by destruct w.
  - clear Hn. intros [Hn Hm]. unfold held in *; simpl in *. split.
    + simpl. apply NoDup_cons. split; [|done]. intros (l' & Heq & Hl')%list_elem_of_fmap.
      apply H. rewrite Heq. by apply Hm.
    + intros l' [->|Hl']%elem_of_cons; [set_solver|]. apply elem_of_union_r, Hm, Hl'.
  - destruct Hn. by exists l.
  - clear Hn. intros [Hn Hm]. unfold held in *; simpl in *.
    assert (∀ p, match p with Sending l => [l] | _ => [] end ++ q ++ s ++ [l] ≡ₚ
      l :: match p with Sending l => [l] | _ => [] end ++ q ++ s ++ []) as Hp
      by (intros; solve_Permutation).
    rewrite (Hp p) in Hn. simpl in Hn. apply NoDup_cons in Hn as [Hl Hn]. split; [done|].
    intros l' Hl'. apply elem_of_difference. split; [apply Hm; rewrite (Hp p); by right|].
    rewrite elem_of_singleton. intros Heq. apply Hl. rewrite <- Heq. by apply list_elem_of_fmap_2.
  - apply (marked_less _ _ l); [|done]. unfold held; simpl. solve_Permutation.
  - apply (marked_less _ _ l); [|done]. unfold held; simpl. solve_Permutation.
Qed.

Lemma run_marked c : rtc plain_step NewPipelineDeduper c → marked c.
Proof.
  intros Hr. assert (marked NewPipelineDeduper) as H0.
  { split; unfold held; simpl; [constructor|]. by intros ? ?%elem_of_nil. }
  revert H0. induction Hr; eauto using step_marked.
Qed.

(** Repeated transfers or not: until the context is cancelled, a marked key is
    that of a transfer that is held. *)
Definition owned (c : state) : Prop :=
  cancelled c = false → ∀ tk, tk ∈ inPipeline c → ∃ l, l ∈ held c ∧ key l = tk.

Lemma owned_more (c c' : state) :
  (∀ l, l ∈ held c → l ∈ held c') → inPipeline c' = inPipeline c → cancelled c' = cancelled c →
  owned c → owned c'.
Proof. intros Hh Hk Hc Ho. unfold owned. rewrite Hk, Hc. intros Hf tk Htk. destruct (Ho Hf tk Htk). naive_solver. Qed.

Lemma step_owned c c' : goroutine_step c c' → owned c → owned c'.
Proof.
  destruct 1; try (apply owned_more; [unfold held; simpl; set_solver|done|done]).
  - apply owned_more; [|done|done]. unfold held; simpl. destruct w; set_solver.
  - intros Ho Hf tk [->%elem_of_singleton|Htk]%elem_of_union.
    + exists l. split; [unfold held; simpl; by left|done].
    + destruct (Ho Hf tk Htk) as (l' & Hl' & <-). exists l'. split; [|done].
      unfold held in *; simpl in *. by right.
  - intros Ho Hf tk [Htk Hne]%elem_of_difference. destruct (Ho Hf tk Htk) as (l' & Hl' & <-).
    exists l'. split; [|done]. unfold held in *; simpl in *. rewrite app_nil_r.
    rewrite !elem_of_app in *. rewrite list_elem_of_singleton in Hl'.
    destruct Hl' as [?|[?|[?| ->]]]; [by auto..|]. destruct Hne. by apply elem_of_singleton.
  - by intros _ ?.
  - by intros _ ?.
  - by intros _ ?.
Qed.

Lemma run_owned c : rtc goroutine_step NewPipelineDeduper c → owned c.
Proof.
  intros Hr. assert (owned NewPipelineDeduper) as H0 by (by intros _ tk ?%elem_of_empty).
  revert H0. induction Hr; eauto using step_owned.
Qed.

(** ** Refinement of the atomic deduper *)

Section refinement.
Context {X : Type}.

(** The atomic steps: a push that is taken or refused and a transfer that
    leaves on the output channel, as in [Pipeline.v], one that is dropped and
    one that a stage repeats. *)
Inductive atomic : Pipeline X → Pipeline X → Prop :=
  | atomic_push l pushed pl pl' :
      PipelineDeduper_Push l (transfer l) pl = (pushed, pl') → atomic pl pl'
  | atomic_output l pos ins1 ins2 pl :
      pl_inside pl = ins1 ++ (pos, l) :: ins2 →
      atomic pl (PipelineDeduper_output (transfer l) (with_inside pl (ins1 ++ ins2)))
  | atomic_drop l pos ins1 ins2 pl :
      pl_inside pl = ins1 ++ (pos, l) :: ins2 → atomic pl (with_inside pl (ins1 ++ ins2))
  | atomic_repeat l pos pl :
      l ∈ locs pl → atomic pl (with_inside pl (pl_inside pl ++ [(pos, l)])).

(** What the atomic deduper knows: the keys, and the transfers in some
    order. *)
Definition abs (c : state) (pl : Pipeline X) : Prop :=
  pl_inPipeline pl = inPipeline c ∧ locs pl ≡ₚ held c.

Lemma abs_locs c pl l : abs c pl → l ∈ held c →
  ∃ pos ins1 ins2, pl_inside pl = ins1 ++ (pos, l) :: ins2.
Proof.
  intros [_ Hp] Hl. rewrite <- Hp in Hl. unfold locs in Hl.
  apply list_elem_of_fmap in Hl as ([pos l'] & -> & Hin).
  apply list_elem_of_split in Hin as (ins1 & ins2 & ->). by exists pos, ins1, ins2.
Qed.

(** A transfer is taken away. *)
Lemma abs_removed c c' pl pos l ins1 ins2 :
  abs c pl → pl_inside pl = ins1 ++ (pos, l) :: ins2 → held c ≡ₚ l :: held c' →
  map snd (ins1 ++ ins2) ≡ₚ held c'.
Proof.
  intros [_ Hp] Hins Hh. apply (Permutation_cons_inv (a := l)). rewrite <- Hh, <- Hp.
  unfold locs. rewrite Hins, !map_app. simpl. solve_Permutation.
Qed.

Lemma abs_dropped c c' pl l :
  abs c pl → held c ≡ₚ l :: held c' → inPipeline c' = inPipeline c →
  ∃ pl', rtc atomic pl pl' ∧ abs c' pl'.
Proof.
  intros Ha Hh Hk. destruct (abs_locs c pl l Ha) as (pos & ins1 & ins2 & Hins).
  { rewrite Hh. by left. }
  eexists. split; [by apply rtc_once, (atomic_drop l pos ins1 ins2)|].
  split; [simpl; rewrite Hk; apply Ha|]. by eapply abs_removed.
Qed.

(** Every step of the two goroutines is an atomic step or none. *)
Lemma step_simulates c c' pl :
  goroutine_step c c' → abs c pl → ∃ pl', rtc atomic pl pl' ∧ abs c' pl'.
Proof.
  intros Hstep Ha. pose proof Ha as [Hk Hp].
  destruct Hstep; try (exists pl; split; [apply rtc_refl|];
    split; [done|]; rewrite Hp; unfold held; simpl; solve_Permutation).
  - exists pl. split; [apply rtc_refl|]. split; [done|]. rewrite Hp. unfold held; simpl. by destruct w.
  - eexists. split; [apply rtc_once, (atomic_push l true); unfold PipelineDeduper_Push;
      by rewrite bool_decide_eq_false_2 by (simpl in *; by rewrite Hk)|].
    split; [simpl in *; by rewrite Hk|]. unfold locs; simpl. rewrite map_app.
    change (locs pl ++ [l] ≡ₚ held (mkState q s ({[key l]} ∪ k) (Sending l) w b)).
    rewrite Hp. unfold held; simpl. solve_Permutation.
  - assert (l ∈ locs pl) as Hl by (rewrite Hp; unfold held; simpl; set_solver).
    eexists. split; [by apply rtc_once, (atomic_repeat l (mkPosition 0 false))|].
    split; [done|]. unfold locs; simpl. rewrite map_app. simpl.
    change (locs pl ++ [l] ≡ₚ held (mkState q (s ++ [l]) k p w b)).
    rewrite Hp. unfold held; simpl. solve_Permutation.
  - destruct (abs_locs _ pl l Ha) as (pos & ins1 & ins2 & Hins).
    { unfold held; simpl. set_solver. }
    eexists. split; [by apply rtc_once, (atomic_output l pos ins1 ins2)|].
    split; [simpl in *; by rewrite Hk|]. eapply (abs_removed _ _ pl); [done|done|].
    unfold held; simpl. solve_Permutation.
  - eapply (abs_dropped _ _ pl l); [done| |done]. unfold held; simpl. solve_Permutation.
  - eapply (abs_dropped _ _ pl l); [done| |done]. unfold held; simpl. solve_Permutation.
Qed.

Lemma simulates stages c :
  rtc goroutine_step NewPipelineDeduper c →
  ∃ pl, rtc atomic (Pipeline.NewPipelineDeduper stages) pl ∧ abs c pl.
Proof.
  intros Hr. assert (abs NewPipelineDeduper (Pipeline.NewPipelineDeduper stages)) as H0 by done.
  revert H0. generalize (Pipeline.NewPipelineDeduper stages) as pl.
  induction Hr as [|a b c Hab _ IH]; intros pl Ha; [exists pl; split; [apply rtc_refl|done]|].
  destruct (step_simulates a b pl Hab Ha) as (pl' & Hr' & Ha').
  destruct (IH pl' Ha') as (pl2 & ? & ?). exists pl2. split; [by etrans|done].
Qed.
End refinement.

(** ** Waiting for ever *)

(** [Push] has spawned the other goroutine, and both run until the context is
    cancelled. *)
Definition started (c : state) : Prop :=
  match push c with
  | Waiting _ | Locked _ | Sending _ => watch c ≠ NotStarted ∧ watch c ≠ Stopped
  | Idle => watch c ≠ Stopped
  | Closing => cancelled c = true
  | Closed => cancelled c = true
  end.

Lemma step_started c c' : goroutine_step c c' → started c → started c'.
Proof.
  destruct 1; unfold started; simpl; try done; try (by intros []); try (by destruct w);
    destruct p; naive_solver.
Qed.

Lemma run_started c : rtc goroutine_step NewPipelineDeduper c → started c.
Proof.
  intros Hr. assert (started NewPipelineDeduper) as H0 by done.
  revert H0. induction Hr; eauto using step_started.
Qed.

Definition cancel (c : state) : state :=
  mkState (input c) (inside c) (inPipeline c) (push c) (watch c) true.

(** Nothing can happen but that the context is cancelled. *)
Definition stuck (c : state) : Prop := ∀ c', goroutine_step c c' → c' = cancel c.

(** The only way to be stuck: [Push] sends on a full channel, and the other
    goroutine, which would have to make room, waits for the lock it holds. *)
Lemma stuck_shape c :
  0 < size → 0 < capacity → started c → cancelled c = false → stuck c →
  (∃ l, push c = Sending l) ∧ (∃ l, watch c = Received l) ∧
  size ≤ length (input c) ∧ capacity ≤ length (inside c).
Proof.
  intros Hs Hc Hst Hcan Hstuck. destruct c as [q s k p w b]; simpl in *. subst b.
  destruct p as [|l|l|l| |]; unfold started in Hst; simpl in Hst; try done;
    try (specialize (Hstuck _ (step_call inhabitant q s k w false)); done);
    try (specialize (Hstuck _ (step_lock l q s k w false)); done).
  { destruct (decide (key l ∈ k)) as [Hin|Hin];
      [specialize (Hstuck _ (step_refuse l q s k w false Hin))|
       specialize (Hstuck _ (step_mark l q s k w false Hin))]; done. }
  destruct (decide (length q < size)) as [Hq|Hq].
  { specialize (Hstuck _ (step_send l q s k w false Hq)). done. }
  destruct (decide (length s < capacity)) as [Hlt|Hge].
  { destruct q as [|l' q]; [simpl in *; lia|].
    specialize (Hstuck _ (step_enter l' q s k _ w false Hlt)). injection Hstuck as Hq' _.
    apply (f_equal length) in Hq'. simpl in Hq'. lia. }
  destruct Hst. destruct w as [| |l'|]; try done.
  - destruct s as [|l' s]; [simpl in *; lia|].
    specialize (Hstuck _ (step_receive l' q [] s k (Sending l) false)). done.
  - split_and!; [by eexists|by eexists|lia|lia].
Qed.

(** Filling the input channel while the other goroutine waits. *)
Lemma push_one l q s k w :
  length q < size → key l ∉ k → w ≠ NotStarted →
  rtc goroutine_step (mkState q s k Idle w false) (mkState (q ++ [l]) s ({[key l]} ∪ k) Idle w false).
Proof.
  intros Hq Hk Hw. eapply rtc_l; [apply (step_call l)|].
  assert (spawn w = w) as -> by by destruct w.
  eapply rtc_l; [apply step_lock|]. eapply rtc_l; [by apply step_mark|]. by apply rtc_once, step_send.
Qed.

Definition keys_of (ls : list loc) : gset transferKey := list_to_set (map key ls).

Lemma push_many ls : ∀ q s k w,
  length q + length ls ≤ size → NoDup (map key ls) → (∀ l, l ∈ ls → key l ∉ k) →
  w ≠ NotStarted →
  rtc goroutine_step (mkState q s k Idle w false) (mkState (q ++ ls) s (keys_of ls ∪ k) Idle w false).
Proof.
  induction ls as [|l ls IH]; intros q s k w Hq Hnd Hk Hw; simpl in *.
  { unfold keys_of. simpl. rewrite app_nil_r, (left_id_L ∅ (∪)). apply rtc_refl. }
  apply NoDup_cons in Hnd as [Hl Hnd]. etrans; [apply (push_one l); [lia|apply Hk; by left|done]|].
  replace (q ++ l :: ls) with ((q ++ [l]) ++ ls) by (by rewrite <- app_assoc).
  replace (keys_of (l :: ls) ∪ k) with (keys_of ls ∪ ({[key l]} ∪ k)).
  2:{ unfold keys_of. simpl. set_solver. }
  apply IH; [rewrite length_app; simpl; lia|done| |done].
  intros l' Hl'. rewrite elem_of_union, elem_of_singleton. intros [Heq|Hin].
  - apply Hl. rewrite <- Heq. by apply list_elem_of_fmap_2.
  - apply (Hk l'); [by right|done].
Qed.

(** The stages take what is in the channel. *)
Lemma enter_many q2 q1 : ∀ s k p w,
  length s + length q1 ≤ capacity →
  rtc goroutine_step (mkState (q1 ++ q2) s k p w false) (mkState q2 (s ++ q1) k p w false).
Proof.
  induction q1 as [|l q1 IH]; intros s k p w Hs; simpl in *; [rewrite app_nil_r; apply rtc_refl|].
  eapply rtc_l; [apply step_enter; lia|].
  replace (s ++ l :: q1) with ((s ++ [l]) ++ q1) by (by rewrite <- app_assoc).
  apply IH. rewrite length_app. simpl. lia.
Qed.

Lemma feed_many ls : ∀ s k w,
  0 < size → length s + length ls ≤ capacity → NoDup (map key ls) →
  (∀ l, l ∈ ls → key l ∉ k) → w ≠ NotStarted →
  rtc goroutine_step (mkState [] s k Idle w false) (mkState [] (s ++ ls) (keys_of ls ∪ k) Idle w false).
Proof.
  induction ls as [|l ls IH]; intros s k w Hz Hs Hnd Hk Hw; simpl in *.
  { unfold keys_of. simpl. rewrite app_nil_r, (left_id_L ∅ (∪)). apply rtc_refl. }
  apply NoDup_cons in Hnd as [Hl Hnd]. etrans; [apply (push_one l); [done|apply Hk; by left|done]|].
  etrans; [apply (enter_many [] [l]); simpl; lia|].
  replace (s ++ l :: ls) with ((s ++ [l]) ++ ls) by (by rewrite <- app_assoc).
  replace (keys_of (l :: ls) ∪ k) with (keys_of ls ∪ ({[key l]} ∪ k)).
  2:{ unfold keys_of. simpl. set_solver. }
  apply IH; [done|rewrite length_app; simpl; lia|done| |done].
  intros l' Hl'. rewrite elem_of_union, elem_of_singleton. intros [Heq|Hin].
  - apply Hl. rewrite <- Heq. by apply list_elem_of_fmap_2.
  - apply (Hk l'); [by right|done].
Qed.

(** The state both goroutines wait in. *)
Lemma full_stuck l0 l1 s q k :
  capacity ≤ length s → size ≤ length q →
  stuck (mkState q s k (Sending l1) (Received l0) false).
Proof.
  intros Hs Hq c' Hstep. unfold cancel. inversion Hstep; subst; simpl in *; try lia; try done.
Qed.

Lemma fills_up l0 ls1 ls2 l3 :
  0 < size → 0 < capacity → NoDup (map key (l0 :: ls1 ++ ls2 ++ [l3])) →
  length ls1 = capacity → length ls2 = size →
  ∃ k, rtc goroutine_step NewPipelineDeduper (mkState ls2 ls1 k (Sending l3) (Received l0) false).
Proof.
  intros Hz Hc Hnd H1 H2. simpl in Hnd. apply NoDup_cons in Hnd as [Hl0 Hnd].
  rewrite !map_app in Hnd. apply NoDup_app in Hnd as (Hnd1 & Hd1 & Hnd).
  apply NoDup_app in Hnd as (Hnd2 & Hd2 & _). rewrite !map_app in *. simpl in *.
  eexists. unfold NewPipelineDeduper.
  eapply rtc_l; [apply (step_call l0)|]. simpl.
  eapply rtc_l; [apply step_lock|]. eapply rtc_l; [apply step_mark; set_solver|].
  eapply rtc_l; [by apply step_send|]. simpl. eapply rtc_l; [by apply step_enter|].
  eapply rtc_l; [apply (step_receive l0 [] [] [])|]. simpl.
  etrans; [apply (feed_many ls1); [done|simpl; lia|done| |done]|].
  { intros l Hl Hin. apply Hl0. assert (key l = key l0) as <- by set_solver.
    apply elem_of_app. left. by apply list_elem_of_fmap_2. }
  assert (∀ l, l ∈ ls1 ∨ l ∈ ls2 ∨ l = l3 → key l ≠ key l0) as Hne.
  { intros l Hl Heq. apply Hl0. rewrite <- Heq, !elem_of_app. destruct Hl as [Hl|[Hl| ->]];
      [left|right; left|right; right]; [by apply list_elem_of_fmap_2..|by left]. }
  simpl. etrans; [apply (push_many ls2); [simpl; lia|done| |done]|].
  { intros l Hl. unfold keys_of. rewrite !elem_of_union, elem_of_list_to_set, elem_of_singleton.
    intros [Hin|[Hin|Hin]]; [|by apply (Hne l); auto|done].
    apply (Hd1 _ Hin), elem_of_app. left. by apply list_elem_of_fmap_2. }
  simpl. eapply rtc_l; [apply (step_call l3)|]. simpl. eapply rtc_l; [apply step_lock|].
  apply rtc_once, step_mark. unfold keys_of.
  rewrite !elem_of_union, !elem_of_list_to_set, elem_of_singleton.
  intros [Hin|[Hin|[Hin|Hin]]]; [| |by apply (Hne l3); auto|done].
  - apply (Hd2 _ Hin). by left.
  - apply (Hd1 _ Hin), elem_of_app. right. by left.
Qed.

(** ** Closing *)

(** The pipeline drains once the context is cancelled. *)
Lemma drains q s k w :
  rtc goroutine_step (mkState q s k Closing w true) (mkState [] [] k Closing w true).
Proof.
  induction q as [|l q IH]; [|eapply rtc_l; [apply step_drop_input|exact IH]].
  induction s as [|l s IH]; [apply rtc_refl|]. eapply rtc_l; [apply (step_drop_inside l [] [] s)|exact IH].
Qed.

Lemma Close_from_idle q s k w :
  w ≠ NotStarted → w ≠ Stopped →
  ∃ c, rtc goroutine_step (mkState q s k Idle w true) c ∧ push c = Closed.
Proof.
  intros Hw Hw'.
  assert (∃ k', rtc goroutine_step (mkState q s k Idle w true) (mkState q s k' Idle Polling true)) as [k' Hr].
  { destruct w as [| |l|]; try done; eexists; [apply rtc_refl|by apply rtc_once, step_delete]. }
  eexists. split; [etrans; [exact Hr|]|].
  - eapply rtc_l; [apply step_close|]. etrans; [apply drains|].
    eapply rtc_l; [apply step_stop|]. apply rtc_once, step_done.
  - done.
Qed.

(** A deduper nothing was pushed to: nobody sends on [done]. *)
Definition unused (c : state) : Prop := push c = Closing ∧ watch c = NotStarted.

Lemma step_unused c c' : goroutine_step c c' → unused c → unused c'.
Proof. by destruct 1; intros [? ?]; simplify_eq/=. Qed.

(** The number of transfers the deduper holds when it is stuck. *)
Lemma stuck_holds c :
  0 < size → 0 < capacity → started c → cancelled c = false → stuck c →
  size + capacity + 2 ≤ length (held c).
Proof.
  intros Hz Hc Hst Hcan Hstuck.
  destruct (stuck_shape c Hz Hc Hst Hcan Hstuck) as ([l Hp] & [l' Hw] & Hq & Hs).
  unfold held. rewrite Hp, Hw, !length_app. simpl. lia.
Qed.

Lemma fill_reaches_stuck ls :
  0 < size → 0 < capacity → NoDup (map key ls) → length ls = size + capacity + 2 →
  ∃ c, rtc goroutine_step NewPipelineDeduper c ∧ stuck c ∧ cancelled c = false ∧ held c ≡ₚ ls.
Proof.
  intros Hz Hc Hnd Hlen. destruct ls as [|l0 ls]; [simpl in *; lia|].
  destruct ls as [|l3 ls' _] using rev_ind; [simpl in *; lia|].
  simpl in Hlen. rewrite length_app in Hlen. simpl in Hlen.
  rewrite <- (take_drop capacity ls') in Hnd |- *.
  assert (length (take capacity ls') = capacity) as H1 by (rewrite length_take; lia).
  assert (length (drop capacity ls') = size) as H2 by (rewrite length_drop; lia).
  rewrite <- app_assoc in Hnd |- *.
  destruct (fills_up l0 _ _ l3 Hz Hc Hnd H1 H2) as [k Hr].
  eexists. split_and!; [exact Hr|by apply full_stuck; lia|done|].
  unfold held; simpl. solve_Permutation.
Qed.
End steps.

(** C16: the two goroutines of a deduper whose input channel has the size
    [inputBufferSize] and whose stages hold up to [capacity] transfers. With up
    to one transfer more than the channel and the stages hold, one of them can
    always go on. With two more, whatever they are, there is a run in which
    [Push] waits for room in the channel with the lock in its hand, and the
    goroutine that would make room waits for the lock, and nothing can happen
    any more but that the context is cancelled. *)
Theorem deduper_deadlock_threshold capacity transfer :
  0 < capacity →
  (∀ c, rtc (goroutine_step inputBufferSize capacity transfer) NewPipelineDeduper c → cancelled c = false →
    length (held c) ≤ inputBufferSize + capacity + 1 →
    ¬ stuck inputBufferSize capacity transfer c) ∧
  (∀ ls, NoDup (map (key transfer) ls) → length ls = inputBufferSize + capacity + 2 →
    ∃ c, rtc (goroutine_step inputBufferSize capacity transfer) NewPipelineDeduper c ∧
      stuck inputBufferSize capacity transfer c ∧ cancelled c = false ∧ held c ≡ₚ ls).
Proof.
  intros Hc. assert (0 < inputBufferSize) as Hz by (unfold inputBufferSize; lia). split.
  - intros c Hr Hcan Hlen Hstuck.
    pose proof (stuck_holds _ _ _ c Hz Hc (run_started _ _ _ c Hr) Hcan Hstuck). lia.
  - intros ls Hnd Hlen. by apply fill_reaches_stuck.
Qed.

(** Transfers with different sequence numbers. *)
Definition numbered (l : loc) : IBCV2Transfer :=
  mkIBCV2Transfer db.Ibcv2RelayStatusPENDING "a" "b" "0xdead" 0%Z None (Z.pos l) "client-a" "client-b"
    100%Z None None None None None None None None None None None None None None None None None None
    None None None None.

Lemma numbered_key l l' : key numbered l = key numbered l' → l = l'.
Proof. by intros [=]. Qed.

Definition many (n : nat) : list loc := map Pos.of_succ_nat (seq 0 n).

Lemma many_distinct n : NoDup (map (key numbered) (many n)).
Proof.
  apply NoDup_ListNoDup, Finite.Injective_map_NoDup; [exact numbered_key|].
  apply Finite.Injective_map_NoDup; [exact SuccNat2Pos.inj|]. apply seq_NoDup.
Qed.

Lemma deduper_deadlock_threshold_witness :
  ∃ c, rtc (goroutine_step inputBufferSize 1 numbered) NewPipelineDeduper c ∧
    stuck inputBufferSize 1 numbered c.
Proof.
  destruct (deduper_deadlock_threshold 1 numbered Nat.lt_0_1) as [_ Hd].
  destruct (Hd (many (inputBufferSize + 1 + 2))) as (c & Hr & Hs & _).
  - apply many_distinct.
  - unfold many. by rewrite length_map, length_seq.
  - by exists c.
Defined.

(** C15: the deduper with its lock and its goroutines refines the deduper of the
    system model, where a push and a deletion are one step each: whatever the
    goroutines have done, atomic pushes, outputs, drops and repetitions lead to
    a pipeline with the same keys and the same transfers. Until the context is
    cancelled no key is marked without a transfer that has it, so no packet is
    refused for ever. And as long as no stage has repeated a transfer, no two of
    the transfers the deduper holds have the same key, and each key is marked
    as in the pipeline. *)
Theorem deduper_refines_atomic {X} size capacity transfer (stages : list (stage X)) c :
  rtc (goroutine_step size capacity transfer) NewPipelineDeduper c →
  (∃ pl, rtc (atomic transfer) (Pipeline.NewPipelineDeduper stages) pl ∧
     pl_inPipeline pl = inPipeline c ∧ locs pl ≡ₚ held c) ∧
  (cancelled c = false → ∀ tk, tk ∈ inPipeline c → ∃ l, l ∈ held c ∧ key transfer l = tk) ∧
  (rtc (plain_step size capacity transfer) NewPipelineDeduper c →
     NoDup (map (key transfer) (held c)) ∧ ∀ l, l ∈ held c → key transfer l ∈ inPipeline c).
Proof.
  intros Hr. split; [|split; [by eapply run_owned|intros; by eapply run_marked]].
  by apply (simulates size capacity transfer stages).
Qed.

(** A stage that repeats a transfer lets a second one with its key in: the
    first copy to leave unmarks the key while the other is still inside. *)
Theorem repeated_transfer_readmits l l' transfer :
  key transfer l' = key transfer l →
  ∃ c, rtc (goroutine_step 1 2 transfer) NewPipelineDeduper c ∧
    push c = Sending l' ∧ l ∈ inside c.
Proof.
  intros Hk. eexists. split.
  - unfold NewPipelineDeduper. eapply rtc_l; [apply (step_call _ _ _ l)|].
    eapply rtc_l; [apply step_lock|]. eapply rtc_l; [apply step_mark; set_solver|].
    eapply rtc_l; [apply step_send; simpl; lia|]. eapply rtc_l; [apply step_enter; simpl; lia|].
    eapply rtc_l; [apply (step_repeat _ _ _ l); simpl; [by left|lia]|].
    eapply rtc_l; [apply (step_receive _ _ _ l [] [] [l])|]. simpl.
    eapply rtc_l; [by apply step_delete|]. eapply rtc_l; [apply (step_call _ _ _ l')|].
    eapply rtc_l; [apply step_lock|]. apply rtc_once, step_mark. rewrite Hk. set_solver.
  - split; [reflexivity|]. by left.
Qed.

Lemma numbered_run : rtc (plain_step 1 1 numbered) NewPipelineDeduper
  (mkState [2%positive] [] {[key numbered 2%positive; key numbered 1%positive]} Idle
     (Received 1%positive) true).
Proof.
  assert (∀ (c c' : state), goroutine_step 1 1 numbered c c' →
    (length (inside c') ≤ length (inside c) ∨ input c' ≠ input c) → plain_step 1 1 numbered c c')
    as Hplain.
  { intros c c' Hs Hc. split; [done|]. intros (l & _ & ->). simpl in Hc.
    rewrite length_app in Hc. simpl in Hc. destruct Hc; [lia|done]. }
  unfold NewPipelineDeduper.
  eapply rtc_l; [apply Hplain; [apply (step_call _ _ _ 1%positive)|by left]|].
  eapply rtc_l; [apply Hplain; [apply step_lock|by left]|].
  eapply rtc_l; [apply Hplain; [apply step_mark; set_solver|by left]|].
  eapply rtc_l; [apply Hplain; [apply step_send; simpl; lia|by left]|].
  eapply rtc_l; [apply Hplain; [apply step_enter; simpl; lia|by right]|].
  eapply rtc_l; [apply Hplain; [apply (step_receive _ _ _ 1%positive [] [] [])|left; simpl; lia]|]. simpl.
  eapply rtc_l; [apply Hplain; [apply (step_call _ _ _ 2%positive)|by left]|].
  eapply rtc_l; [apply Hplain; [apply step_lock|by left]|].
  eapply rtc_l; [apply Hplain; [apply step_mark; by apply (bool_decide_unpack _)|by left]|].
  eapply rtc_l; [apply Hplain; [apply step_send; simpl; lia|by left]|].
  rewrite (right_id_L ∅ (∪)). apply rtc_once, Hplain; [apply step_cancel|by left].
Qed.

Lemma deduper_refines_atomic_witness :
  ∃ pl : Pipeline Z, rtc (atomic numbered) (Pipeline.NewPipelineDeduper []) pl ∧
    locs pl ≡ₚ [2; 1]%positive ∧ NoDup (map (key numbered) [2; 1]%positive).
Proof.
  destruct (deduper_refines_atomic (X := Z) 1 1 numbered [] _
    (rtc_subrel _ _ _ _ (λ _ _ H, proj1 H) numbered_run)) as ((pl & Hr & _ & Hl) & _ & Hn).
  exists pl. split_and!; [done|done|]. by apply Hn, numbered_run.
Defined.

Lemma repeated_transfer_readmits_witness :
  ∃ c, rtc (goroutine_step 1 2 (λ _, numbered 1%positive)) NewPipelineDeduper c ∧
    push c = Sending 2%positive ∧ 1%positive ∈ inside c.
Proof. by apply (repeated_transfer_readmits 1%positive 2%positive (λ _, numbered 1%positive)). Defined.

(** [Close] on a cancelled deduper can always come to its end when a
    transfer was ever pushed, whatever the channel, the stages and the other
    goroutine hold; on a deduper no transfer was pushed to, it waits for ever. *)
Theorem deduper_Close_returns size capacity transfer c :
  rtc (goroutine_step size capacity transfer) NewPipelineDeduper c → cancelled c = true →
  (push c = Idle → watch c ≠ NotStarted →
    ∃ c', rtc (goroutine_step size capacity transfer) c c' ∧ push c' = Closed) ∧
  (unused c → ∀ c', rtc (goroutine_step size capacity transfer) c c' → push c' = Closing).
Proof.
  intros Hr Hcan. split.
  - intros Hp Hw. pose proof (run_started _ _ _ c Hr) as Hst. unfold started in Hst.
    destruct c as [q s k p w b]; simpl in *. subst p b. by apply Close_from_idle.
  - intros Hu c' Hr'. assert (unused c') as [? _]; [|done].
    clear Hr Hcan. induction Hr'; eauto using step_unused.
Qed.

Lemma deduper_Close_returns_witness :
  ∃ c', rtc (goroutine_step 1 1 numbered)
    (mkState [2%positive] [] {[key numbered 2%positive; key numbered 1%positive]} Idle
       (Received 1%positive) true) c' ∧ push c' = Closed.
Proof.
  by apply (deduper_Close_returns 1 1 numbered _
    (rtc_subrel _ _ _ _ (λ _ _ H, proj1 H) numbered_run) eq_refl).
Defined.
End deduper.
