(* ===== verification/Batcher.v ===== *)
(** * The goroutines of a batch stage

    [ConditionallyBatchProcess] of
    [relayer/ibcv2/conditional_batch_processor.go] with its three goroutines
    and its channels: the splitter, which sends a transfer on or gives it to the
    collector; the mover, which fills the buffer of batches; and the merger,
    which takes the results apart. The splitter's test is [goes_to_batch] and a
    batch is handled by [Process] and [Cancel] of the batch middleware, both
    called on the world as it is at that moment: a step carries the world before
    and after it, and between two steps of the stage other goroutines may change
    the world in any way.

    [pipeline.Collect] and [pipeline.ProcessConcurrently] are the pipeline
    library's: what is used of the first is that it makes batches of up to
    [maxSize] transfers, sends one when it is full, when its time is up or when
    its input is closed, and closes its output after its input; of the second,
    that up to [concurrency] batches are in [Process] or wait for the result
    channel, that an error goes to [Cancel] and drops the batch, and that its
    output is closed when its input is and nothing is left. A send on [out] is a
    step of the stage and of whoever receives there, the next stage.

    - [batcher_refines]: every step of the goroutines is a step of [System.v]
      or changes nothing there, the transfers in the stage's channels being in
      front of the stage, collected for it or behind it.
    - [batcher_bounded]: batches are never empty or too large, the buffer and
      the workers never hold more than they may, and nothing is sent on [out]
      after it was closed.
    - [batcher_delivers]: no deadlock, and every run ends: after a bounded number
      of steps every transfer that came in has gone out, some of them twice, or
      was dropped with its batch, and [out] is closed. *)
From stdpp Require Import prelude strings list gmap relations.
From Stdlib Require Import ZArith.
From S2P Require Import Prelude Go Config Db Transfer World Wp TransferMetrics Processors.
From S2P Require Import ProcessorMW Batch BatchLaws PipelineOpts Pipeline System StageSpecs Demo.

Local Open Scope nat_scope.

Module batcher.

(** The capacity of the buffer of batches. *)
Definition bufferSize : nat := 1000.

(** The splitter: reading from [in], sending on [out], sending on [toBatch],
    or past its loop, with [toBatch] closed. *)
Inductive splitter := Reading | ToOut (l : loc) | ToBatch (l : loc) | SplitDone.

(** [Collect]: with a batch in the making, sending a batch, or done with its
    output closed. *)
Inductive collector := Collecting (b : list loc) | Flushing (b : list loc) | CollectDone.

(** The mover: reading a batch, sending one to the buffer, or done with the
    buffer closed. *)
Inductive mover := Idle | Holding (b : list loc) | MoveDone.

(** [incoming] is what still comes in before [in] is closed; [working] are the
    batches in [Process] and [ready] the results not yet received; [merging] is
    what is left of the result the merger sends on; [delivered] is what was
    sent on [out], and [dropped] what was in a batch that failed. *)
Record state := mkState {
  incoming : list loc;
  split : splitter;
  collect : collector;
  move : mover;
  buffered : list (list loc);
  working : list (list loc);
  ready : list (list loc);
  merging : list loc;
  delivered : list loc;
  dropped : list loc;
  closed : bool;
}.

Section steps.
Context {X : Type} {E : Env X} (concurrency maxSize : nat) (p : IBCV2BatchProcessor X).

(** The mover's warning: the length is read after the send, when some batches
    may already have been taken. *)
Definition warn (accumulating : bool) : M X unit :=
  if accumulating then logger Warn "batches accumulating in buffer..." else mret tt.

Inductive batcher_step : World X → World X → state → state → Prop :=
  | step_read w w' l b i c m q k r g o d x :
      goes_to_batch p l w = (Ret b, w') →
      batcher_step w w' (mkState (l :: i) Reading c m q k r g o d x)
           (mkState i (if b then ToBatch l else ToOut l) c m q k r g o d x)
  | step_out w l i c m q k r g o d x :
      batcher_step w w (mkState i (ToOut l) c m q k r g o d x)
           (mkState i Reading c m q k r g (o ++ [l]) d x)
  | step_to_batch w l b i m q k r g o d x :
      length b < maxSize →
      batcher_step w w (mkState i (ToBatch l) (Collecting b) m q k r g o d x)
           (mkState i Reading (Collecting (b ++ [l])) m q k r g o d x)
  | step_split_done w c m q k r g o d x :
      batcher_step w w (mkState [] Reading c m q k r g o d x) (mkState [] SplitDone c m q k r g o d x)
  | step_flush w b i s m q k r g o d x :
      b ≠ [] →
      batcher_step w w (mkState i s (Collecting b) m q k r g o d x)
           (mkState i s (Flushing b) m q k r g o d x)
  | step_collect_done w i m q k r g o d x :
      batcher_step w w (mkState i SplitDone (Collecting []) m q k r g o d x)
           (mkState i SplitDone CollectDone m q k r g o d x)
  | step_move w b i s q k r g o d x :
      batcher_step w w (mkState i s (Flushing b) Idle q k r g o d x)
           (mkState i s (Collecting []) (Holding b) q k r g o d x)
  | step_buffer w w' accumulating b i s c q k r g o d x :
      length q < bufferSize → (accumulating = true → 3 ≤ S (length q)) →
      warn accumulating w = (Ret tt, w') →
      batcher_step w w' (mkState i s c (Holding b) q k r g o d x)
           (mkState i s c Idle (q ++ [b]) k r g o d x)
  | step_move_done w i s q k r g o d x :
      batcher_step w w (mkState i s CollectDone Idle q k r g o d x)
           (mkState i s CollectDone MoveDone q k r g o d x)
  | step_start w b i s c m q k r g o d x :
      length k + length r < concurrency →
      batcher_step w w (mkState i s c m (b :: q) k r g o d x) (mkState i s c m q (k ++ [b]) r g o d x)
  | step_process w w' b b' i s c m q k1 k2 r g o d x :
      Batch_Process (NewIBCV2BatchProcessorMW p) b w = (Ret b', w') →
      batcher_step w w' (mkState i s c m q (k1 ++ b :: k2) r g o d x)
           (mkState i s c m q (k1 ++ k2) (r ++ [b']) g o d x)
  | step_fail w w' w'' b e i s c m q k1 k2 r g o d x :
      Batch_Process (NewIBCV2BatchProcessorMW p) b w = (Fail e, w') →
      Batch_Cancel (NewIBCV2BatchProcessorMW p) b e w' = (Ret tt, w'') →
      batcher_step w w'' (mkState i s c m q (k1 ++ b :: k2) r g o d x)
           (mkState i s c m q (k1 ++ k2) r g o (d ++ b) x)
  | step_receive w b i s c m q k r1 r2 o d x :
      batcher_step w w (mkState i s c m q k (r1 ++ b :: r2) [] o d x)
           (mkState i s c m q k (r1 ++ r2) b o d x)
  | step_merge w l i s c m q k r g o d x :
      batcher_step w w (mkState i s c m q k r (l :: g) o d x)
           (mkState i s c m q k r g (o ++ [l]) d x)
  | step_close w i s c o d :
      batcher_step w w (mkState i s c MoveDone [] [] [] [] o d false)
           (mkState i s c MoveDone [] [] [] [] o d true).

(** A step in any world: between the steps of the stage the world changes. *)
Definition moves (s s' : state) : Prop := ∃ w w', batcher_step w w' s s'.

(** The stage when it is made, and what will come in. *)
Definition ConditionallyBatchProcess (ls : list loc) : state :=
  mkState ls Reading (Collecting []) Idle [] [] [] [] [] [] false.

(** ** Where the transfers are *)

(** Behind the stage: routed past the batch, in a result, or delivered. *)
Definition passed (s : state) : list loc :=
  match split s with ToOut l => [l] | _ => [] end ++
  concat (ready s) ++ merging s ++ delivered s.

(** Collected for a batch. *)
Definition batched (s : state) : list loc :=
  match split s with ToBatch l => [l] | _ => [] end ++
  match collect s with Collecting b | Flushing b => b | CollectDone => [] end ++
  match move s with Holding b => b | _ => [] end ++
  concat (buffered s) ++ concat (working s).

Ltac crush_places :=
  unfold batched, passed in *; simpl in *;
  rewrite ?concat_app in *; simpl in *; rewrite ?app_nil_r in *.

(** ** Refinement of the system's stage *)

(** The stage [n] of a pipeline in [System.v] and where it has the
    transfers. *)
Definition places (n : nat) (s : state) : list (position * loc) :=
  map (λ l, (mkPosition n false, l)) (incoming s) ++
  map (λ l, (mkPosition n true, l)) (batched s) ++
  map (λ l, (mkPosition (S n) false, l)) (passed s).

(** The pipeline [pk] of [S] has this stage at [n], and holds the transfers of
    the stage where [s] says, next to others. *)
Definition placed (pk : pipelineKey) (n : nat) (others : list (position * loc)) (s : state)
    (S : System X) : Prop :=
  ∃ pl c sz t, sys_pipelines S !! pk = Some pl ∧
    pl_stages pl !! n = Some (Pipeline.ConditionallyBatchProcess c sz t p) ∧
    pl_inside pl ≡ₚ others ++ places n s.

(** What a step of the stage does not touch. *)
Definition same_around (pk : pipelineKey) (S S' : System X) : Prop :=
  sys_waiting S' = sys_waiting S ∧
  ∀ pk', pk' ≠ pk → sys_pipelines S' !! pk' = sys_pipelines S !! pk'.

Definition simulated (pk : pipelineKey) (n : nat) (others : list (position * loc)) (s' : state)
    (S : System X) (w' : World X) : Prop :=
  ∃ S', (S' = S ∨ step S S') ∧ sys_world S' = w' ∧ same_around pk S S' ∧ placed pk n others s' S'.

Lemma simulated_stutter pk n others s s' S :
  placed pk n others s S → places n s ≡ₚ places n s' →
  simulated pk n others s' S (sys_world S).
Proof.
  intros (pl & c & sz & t & Hpl & Hst & Hin) Hp. exists S. split_and!; [by left|done|done|].
  exists pl, c, sz, t. by rewrite <- Hp.
Qed.

Lemma places_perm n s s' :
  incoming s = incoming s' → batched s ≡ₚ batched s' → passed s ≡ₚ passed s' →
  places n s ≡ₚ places n s'.
Proof. unfold places. by intros -> -> ->. Qed.

(** The system takes a step which leaves the pipeline with the transfers in
    the places of [s']. *)
Lemma simulated_step pk n others s' S w' pl inside' :
  sys_pipelines S !! pk = Some pl →
  (∃ c sz t, pl_stages pl !! n = Some (Pipeline.ConditionallyBatchProcess c sz t p)) →
  step S (mkSystem w' (<[pk := with_inside pl inside']> (sys_pipelines S)) (sys_waiting S)) →
  inside' ≡ₚ others ++ places n s' → simulated pk n others s' S w'.
Proof.
  intros Hpl (c & sz & t & Hst) Hs Hin. eexists. split_and!; [by right|done| |].
  - split; [done|]. intros pk' Hne. simpl. by rewrite lookup_insert_ne.
  - exists (with_inside pl inside'), c, sz, t. simpl. by rewrite lookup_insert_eq.
Qed.

Lemma read_simulated pk n others l b i c m q k r g o d x S w' :
  placed pk n others (mkState (l :: i) Reading c m q k r g o d x) S →
  goes_to_batch p l (sys_world S) = (Ret b, w') →
  simulated pk n others (mkState i (if b then ToBatch l else ToOut l) c m q k r g o d x) S w'.
Proof.
  intros (pl & cc & sz & t & Hpl & Hst & Hin) Hgoes. destruct S as [w pls rows]; simpl in *.
  assert ((mkPosition n false, l) ∈ pl_inside pl) as Hl.
  { rewrite Hin. apply elem_of_app. right. unfold places. simpl. by left. }
  apply list_elem_of_split in Hl as (ins1 & ins2 & Hins).
  eapply (simulated_step _ _ _ _ _ _ pl); [done|by eauto|by eapply step_route|].
  rewrite Hins in Hin. unfold places in *. crush_places.
  assert (ins1 ++ ins2 ≡ₚ others ++ places n (mkState i Reading c m q k r g o d x)) as Hrest.
  { apply (Permutation_cons_inv (a := (mkPosition n false, l))).
    rewrite (Permutation_middle ins1), Hin. unfold places. crush_places. solve_Permutation. }
  unfold places in Hrest. crush_places.
  rewrite <- (Permutation_middle ins1), Hrest. destruct b; simpl; solve_Permutation.
Qed.

Lemma batch_simulated pk n others b out i s c m q k1 k2 r g o d x S w' :
  placed pk n others (mkState i s c m q (k1 ++ b :: k2) r g o d x) S →
  Batch_Process (NewIBCV2BatchProcessorMW p) b (sys_world S) = (Ret out, w') →
  simulated pk n others (mkState i s c m q (k1 ++ k2) (r ++ [out]) g o d x) S w'.
Proof.
  intros (pl & cc & sz & t & Hpl & Hst & Hin) Hrun. destruct S as [w pls rows]; simpl in *.
  eapply (simulated_step _ _ _ _ _ _ pl); [done|by eauto| |].
  - eapply (step_batch _ _ _ _ _ _ _ _ _ _ _ b out
      (others ++ places n (mkState i s c m q (k1 ++ k2) r g o d x))); [done|done| |done].
    rewrite Hin. unfold places. crush_places. rewrite !map_app. solve_Permutation.
  - unfold places. crush_places. rewrite !map_app. solve_Permutation.
Qed.

Lemma fail_simulated pk n others b e i s c m q k1 k2 r g o d x S w' w'' :
  placed pk n others (mkState i s c m q (k1 ++ b :: k2) r g o d x) S →
  Batch_Process (NewIBCV2BatchProcessorMW p) b (sys_world S) = (Fail e, w') →
  Batch_Cancel (NewIBCV2BatchProcessorMW p) b e w' = (Ret tt, w'') →
  simulated pk n others (mkState i s c m q (k1 ++ k2) r g o (d ++ b) x) S w''.
Proof.
  intros (pl & cc & sz & t & Hpl & Hst & Hin) Hrun Hcancel. destruct S as [w pls rows]; simpl in *.
  eapply (simulated_step _ _ _ _ _ _ pl); [done|by eauto| |].
  - eapply (step_batch_error _ _ _ _ _ _ _ _ _ _ _ _ b e
      (others ++ places n (mkState i s c m q (k1 ++ k2) r g o (d ++ b) x))); [done|done| |done|done].
    rewrite Hin. unfold places. crush_places. rewrite !map_app. solve_Permutation.
  - done.
Qed.

(** A line of the log is written outside. *)
Lemma warn_simulated pk n others s s' S w' accumulating :
  placed pk n others s S → places n s ≡ₚ places n s' →
  warn accumulating (sys_world S) = (Ret tt, w') → simulated pk n others s' S w'.
Proof.
  intros Hp Hs Hw. destruct S as [[x d h mt lg] pls rows]; simpl in *.
  destruct accumulating; injection Hw as <-;
    [|by apply (simulated_stutter pk n others s s' (mkSystem (mkWorld x d h mt lg) pls rows))].
  destruct Hp as (pl & c & sz & t & Hpl & Hst & Hin). simpl in *.
  eexists (mkSystem _ pls rows). split_and!; [right; apply step_outside|done|done|].
  exists pl, c, sz, t. simpl. by rewrite <- Hs.
Qed.

Lemma step_simulated pk n others s s' S w' :
  placed pk n others s S → batcher_step (sys_world S) w' s s' →
  simulated pk n others s' S w'.
Proof.
  intros Hp Hs. remember (sys_world S) as w eqn:Hw. destruct Hs; subst;
    try (by eapply simulated_stutter; [done|];
         apply places_perm; [done|crush_places; solve_Permutation..]).
  - by eapply read_simulated.
  - eapply warn_simulated; [done| |done]. apply places_perm; [done|crush_places; solve_Permutation..].
  - by eapply batch_simulated.
  - by eapply fail_simulated.
Qed.

(** ** Bounds *)

Definition good_batch (b : list loc) : Prop := b ≠ [] ∧ length b ≤ maxSize.

Record bounded (s : state) : Prop := {
  bd_collect : match collect s with
               | Collecting b => length b ≤ maxSize
               | Flushing b => good_batch b
               | CollectDone => split s = SplitDone
               end;
  bd_move : match move s with
            | Idle => True
            | Holding b => good_batch b
            | MoveDone => collect s = CollectDone
            end;
  bd_split : split s = SplitDone → incoming s = [];
  bd_buffered : Forall good_batch (buffered s) ∧ length (buffered s) ≤ bufferSize;
  bd_working : Forall good_batch (working s) ∧ length (working s) + length (ready s) ≤ concurrency;
  bd_closed : closed s = true →
    move s = MoveDone ∧ buffered s = [] ∧ working s = [] ∧ ready s = [] ∧ merging s = [];
}.

Lemma start_bounded ls : bounded (ConditionallyBatchProcess ls).
Proof. split; simpl; try done; [lia|split; [constructor|lia]..]. Qed.

Lemma step_bounded w w' s s' : batcher_step w w' s s' → bounded s → bounded s'.
Proof.
  intros Hs [Hc Hm Hsp [Hq Hq'] [Hw Hw'] Hcl].
  destruct Hs; simpl in *; (split; simpl in *; [..|split|split|]);
    rewrite ?length_app; simpl; try done; try lia; try (by intros [? ?]%Hcl);
    try (by destruct c); try (by destruct m); try (by destruct b).
  all: try (rewrite ?length_app in Hw'; simpl in Hw'; lia).
  - by apply Forall_app; split; [|constructor].
  - by inversion Hq.
  - apply Forall_app; split; [done|]. inversion Hq. by constructor.
  - by intros (? & ? & ? & ?)%Hcl.
  - apply Forall_app in Hw as [? [? ?]%Forall_cons]. by apply Forall_app.
  - by intros (? & ? & [? ?]%app_nil & ?)%Hcl.
  - apply Forall_app in Hw as [? [? ?]%Forall_cons]. by apply Forall_app.
  - by intros (? & ? & [? ?]%app_nil & ?)%Hcl.
  - by intros (? & ? & ? & [? ?]%app_nil & ?)%Hcl.
  - by intros (? & ? & ? & ? & ?)%Hcl.
Qed.

Lemma run_bounded s s' : rtc moves s s' → bounded s → bounded s'.
Proof. induction 1 as [|a b c (w & w' & Hab) _ IH]; eauto using step_bounded. Qed.

(** ** Progress *)

(** No call the stage makes in the world [w] panics: the transfers that come in
    exist, and [Process] of a batch returns, or fails and [Cancel] returns. *)
Definition calls_return (w : World X) (s : state) : Prop :=
  (∀ l, l ∈ incoming s → is_Ret (goes_to_batch p l w).1 = true) ∧
  ∀ b, b ∈ working s → match Batch_Process (NewIBCV2BatchProcessorMW p) b w with
    | (Ret _, _) => True
    | (Fail e, w') => is_Ret (Batch_Cancel (NewIBCV2BatchProcessorMW p) b e w').1 = true
    | (Panic, _) => False
    end.

Lemma progress s w :
  0 < concurrency → 0 < maxSize → bounded s → closed s = false → calls_return w s →
  ∃ w' s', batcher_step w w' s s'.
Proof.
  intros Hcon Hmax [Hc Hm Hsp [Hq _] [Hw _] _] Hcl [Hgoes Hproc].
  destruct s as [i sp c m q k r g o d x]; simpl in *. subst x.
  destruct g as [|l g]; [|do 2 eexists; apply step_merge].
  destruct r as [|b r]; [|do 2 eexists; apply (step_receive _ b _ _ _ _ _ _ [])].
  destruct k as [|b k].
  2:{ specialize (Hproc b ltac:(by left)).
      destruct (IBCV2BatchProcessorMW_Process p b w) as [[b'|e|] w'] eqn:Hrun; [| |done].
      - do 2 eexists. by apply (step_process _ _ b b' _ _ _ _ _ []).
      - destruct (IBCV2BatchProcessorMW_Cancel p b e w') as [[[]| |] w''] eqn:Hca; [|done..].
        do 2 eexists. by eapply (step_fail _ _ _ b e _ _ _ _ _ []). }
  destruct q as [|b q]; [|do 2 eexists; apply step_start; simpl; lia].
  destruct m as [|b|]; [|do 2 eexists; eapply (step_buffer _ _ false); [unfold bufferSize; simpl; lia|done|done]|
    do 2 eexists; apply step_close].
  destruct c as [b|b|]; [|do 2 eexists; apply step_move|do 2 eexists; apply step_move_done].
  destruct sp as [|l|l|].
  - destruct i as [|l i]; [do 2 eexists; apply step_split_done|].
    specialize (Hgoes l ltac:(by left)).
    destruct (goes_to_batch p l w) as [[b'| |] w'] eqn:Hgo; [|done..].
    do 2 eexists. by apply step_read.
  - do 2 eexists; apply step_out.
  - destruct (decide (length b < maxSize)); [by do 2 eexists; apply step_to_batch|].
    do 2 eexists. apply step_flush. intros ->. simpl in *. lia.
  - destruct b; do 2 eexists; [apply step_collect_done|by apply step_flush].
Qed.

(** ** Nothing is lost *)

Hypothesis Hreturns : returns_batch p.
Hypothesis Htests : tests_only_panic p.

(** The transfers that came in: some have not passed, were dropped, or have
    passed once, and of these some have passed once more. *)
Definition accounted (ls : list loc) (s : state) : Prop :=
  ∃ once again, incoming s ++ batched s ++ dropped s ++ once ≡ₚ ls ∧
    passed s ≡ₚ once ++ again ∧ again ⊆+ once.

Lemma accounted_perm ls s s' :
  incoming s ++ batched s ++ dropped s ≡ₚ incoming s' ++ batched s' ++ dropped s' →
  passed s ≡ₚ passed s' → accounted ls s → accounted ls s'.
Proof.
  intros H1 H2 (once & again & Hl & Hp & Ha). exists once, again. split_and!; [|by rewrite <- H2|done].
  rewrite <- Hl, !app_assoc. f_equiv. by rewrite <- !app_assoc.
Qed.

Lemma step_accounted ls w w' s s' : batcher_step w w' s s' → accounted ls s → accounted ls s'.
Proof.
  destruct 1; try (apply accounted_perm; crush_places; solve_Permutation).
  - destruct b; [apply accounted_perm; crush_places; solve_Permutation|].
    intros (once & again & Hl & Hp & Ha). exists (once ++ [l]), again. split_and!.
    + rewrite <- Hl. crush_places. solve_Permutation.
    + crush_places. rewrite Hp. solve_Permutation.
    + rewrite Ha. by apply submseteq_inserts_r.
  - intros (once & again & Hl & Hp & Ha).
    destruct (batch_mw_any p b w w' (Ret b') Hreturns Htests H) as (reps & Hb' & Hreps).
    exists (once ++ b), (again ++ reps). split_and!.
    + rewrite <- Hl. crush_places. solve_Permutation.
    + crush_places. rewrite Hb'. rewrite <- !app_assoc in *.
      transitivity (passed (mkState i s c m q (k1 ++ b :: k2) r g o d x) ++ b ++ reps);
        [crush_places; solve_Permutation|]. rewrite Hp. solve_Permutation.
    + by apply submseteq_app.
Qed.

Lemma run_accounted ls s : rtc moves (ConditionallyBatchProcess ls) s → accounted ls s.
Proof.
  intros Hr. assert (accounted ls (ConditionallyBatchProcess ls)) as H0.
  { exists [], []. split_and!; [|done|done]. crush_places. by rewrite ?app_nil_r. }
  revert H0. induction Hr as [|a b c (w & w' & Hab) _ IH]; eauto using step_accounted.
Qed.

(** ** Every run ends *)

Definition weigh (k : nat) (bs : list (list loc)) : nat :=
  k * list_sum (map (λ b, S (length b)) bs).

Lemma weigh_app k bs1 bs2 : weigh k (bs1 ++ bs2) = weigh k bs1 + weigh k bs2.
Proof. unfold weigh. rewrite map_app, list_sum_app. lia. Qed.

Lemma weigh_cons k b bs : weigh k (b :: bs) = k * S (length b) + weigh k bs.
Proof. unfold weigh. simpl. lia. Qed.

Lemma weigh_nil k : weigh k [] = 0.
Proof. unfold weigh. simpl. lia. Qed.

(** A result may be twice as long as its batch. *)
Definition measure (s : state) : nat :=
  20 * length (incoming s) +
  match split s with Reading => 1 | ToOut _ | ToBatch _ => 20 | SplitDone => 0 end +
  match collect s with
  | Collecting b => 18 * length b + 1
  | Flushing b => 8 * S (length b) + 1
  | CollectDone => 0
  end +
  match move s with Idle => 1 | Holding b => 7 * S (length b) + 1 | MoveDone => 0 end +
  weigh 6 (buffered s) + weigh 5 (working s) + weigh 2 (ready s) + length (merging s) +
  (if closed s then 0 else 1).

Lemma step_measure w w' s s' : batcher_step w w' s s' → measure s' < measure s.
Proof.
  destruct 1; unfold measure; simpl; rewrite ?weigh_app, ?weigh_cons, ?weigh_nil, ?length_app; simpl;
    try lia.
  - destruct b; lia.
  - destruct b; [done|simpl; lia].
  - destruct (batch_mw_any p b w w' (Ret b') Hreturns Htests H) as (reps & Hb' & Hreps).
    rewrite (Permutation_length Hb'), length_app. pose proof (submseteq_length _ _ Hreps). lia.
Qed.

Lemma steps_measure k s s' : nsteps moves k s s' → k + measure s' ≤ measure s.
Proof.
  induction 1 as [|k a b c (w & w' & Hab) _ IH]; [lia|]. apply step_measure in Hab. lia.
Qed.

(** What is dropped was a batch whose [Process] returned a cancelled
    context. *)
Lemma step_dropped w w' s s' :
  batcher_step w w' s s' →
  dropped s' = dropped s ∨
  ∃ b e w1, b ∈ working s ∧ dropped s' = dropped s ++ b ∧
    Batch_Process (NewIBCV2BatchProcessorMW p) b w = (Fail e, w1) ∧
    errors_Is e ContextCanceled = true.
Proof.
  destruct 1; simpl; try (by left). right. exists b, e, w'. split_and!; [|done|done|].
  - apply elem_of_app. right. by left.
  - by apply (batch_mw_any p b w w' (Fail e)).
Qed.
End steps.

(** C18: the goroutines of a batch stage take only steps of the system model.
    When the pipeline of a system has a stage [ConditionallyBatchProcess] at
    [n], with the transfers the goroutines hold in front of it, collected for
    it or behind it, next to any others, then every step of the goroutines on
    the system's world either changes nothing in the system or is a step of it
    ([step_route], [step_batch], [step_batch_error], or a line of the log):
    it leads to a system with the goroutines' world, with the transfers where
    the goroutines have them now, the others where they were, and the other
    pipelines and the dispatcher as they were. *)
Theorem batcher_refines {X} {E : Env X} concurrency maxSize (p : IBCV2BatchProcessor X) pk n others
    s s' (S : System X) w' :
  placed p pk n others s S → batcher_step concurrency maxSize p (sys_world S) w' s s' →
  ∃ S', (S' = S ∨ step S S') ∧ sys_world S' = w' ∧ same_around pk S S' ∧
    placed p pk n others s' S'.
Proof. apply step_simulated. Qed.

(** No batch is empty or larger than [maxSize], the buffer never holds more
    than [bufferSize] batches and the processor never more than [concurrency];
    when [out] is closed, nothing is left that could still be sent on it. *)
Theorem batcher_bounded {X} {E : Env X} concurrency maxSize (p : IBCV2BatchProcessor X) ls s :
  rtc (moves concurrency maxSize p) (ConditionallyBatchProcess ls) s →
  Forall (λ b, 0 < length b ≤ maxSize) (buffered s ++ working s) ∧
  length (buffered s) ≤ bufferSize ∧ length (working s) + length (ready s) ≤ concurrency ∧
  (closed s = true →
     incoming s = [] ∧ split s = SplitDone ∧ batched s = [] ∧ ready s = [] ∧ merging s = []).
Proof.
  intros Hr. pose proof (run_bounded _ _ _ _ _ Hr (start_bounded concurrency maxSize ls)) as Hb.
  destruct Hb as [Hc Hm Hsp [Hq Hq'] [Hw Hw'] Hcl]. split_and!; [|done|done|].
  - apply Forall_app. split; [eapply Forall_impl; [exact Hq|]|eapply Forall_impl; [exact Hw|]];
      intros b [Hb Hl]; (destruct b; [done|simpl in *; lia]).
  - intros (Hm' & Hq0 & Hw0 & Hr0 & Hg0)%Hcl. rewrite Hm' in Hm. rewrite Hm in Hc.
    unfold batched. rewrite Hc, Hm, Hm', Hq0, Hw0. by split_and!; [apply Hsp|..].
Qed.

(** C17: a batch stage with any of the three batch processors never stands still
    and always comes to its end, whatever the rest of the process does to the
    world between its steps. As long as [out] is open and no call panics some
    goroutine can go on, if need be by sending on [out], where the next stage
    is taken to receive; a run over the transfers [ls] has at most twenty steps
    per transfer and four more; and when [out] is closed each of them was
    dropped or delivered, the delivered ones once or, where the middleware
    repeated them, twice. What is dropped is a batch for which the middleware
    returned a cancelled context. *)
Theorem batcher_delivers {X} {E : Env X} kind sc si dc di concurrency maxSize ls :
  let p := kind_processor (X := X) kind sc si dc di in
  0 < concurrency → 0 < maxSize →
  (∀ k s, nsteps (moves concurrency maxSize p) k (ConditionallyBatchProcess ls) s →
     k ≤ 20 * length ls + 4) ∧
  (∀ s, rtc (moves concurrency maxSize p) (ConditionallyBatchProcess ls) s →
     (closed s = false → ∀ w, calls_return p w s →
        ∃ w' s', batcher_step concurrency maxSize p w w' s s') ∧
     (closed s = true → ∃ once again, dropped s ++ once ≡ₚ ls ∧
        delivered s ≡ₚ once ++ again ∧ again ⊆+ once)) ∧
  (∀ w w' s s', batcher_step concurrency maxSize p w w' s s' → dropped s' = dropped s ∨
     ∃ b e w1, b ∈ working s ∧ dropped s' = dropped s ++ b ∧
       Batch_Process (NewIBCV2BatchProcessorMW p) b w = (Fail e, w1) ∧
       errors_Is e ContextCanceled = true).
Proof.
  intros p Hcon Hmax. pose proof (kind_returns_batch kind sc si dc di) as Hret.
  pose proof (kind_tests_only_panic kind sc si dc di) as Htests. split; [|split].
  - intros k s Hk. apply steps_measure in Hk; [|done..]. unfold measure in Hk; simpl in Hk.
    unfold weigh in Hk; simpl in Hk. lia.
  - intros s Hr. pose proof (run_bounded _ _ _ _ _ Hr (start_bounded concurrency maxSize ls)) as Hb.
    split; [intros Hcl w Hw; by apply progress|]. intros Hcl.
    destruct (run_accounted _ _ _ Hret Htests ls s Hr) as (once & again & Hl & Hp & Ha).
    destruct Hb as [Hc Hm Hsp _ _ Hx]. destruct (Hx Hcl) as (Hm' & Hq0 & Hw0 & Hr0 & Hg0).
    rewrite Hm' in Hm. rewrite Hm in Hc. unfold batched, passed in *.
    rewrite Hc, Hm, Hm', Hq0, Hw0, (Hsp Hc) in Hl. rewrite Hc, Hr0, Hg0 in Hp.
    by exists once, again.
  - intros. by eapply step_dropped.
Qed.

(** ** The theorems applied *)

(** The recv stage between two chains that work, and a transfer to be
    received. *)
Section applied.
Local Instance demo_env : Env Z := demo.env demo.good.

Definition recv_stage : IBCV2BatchProcessor Z :=
  kind_processor RecvBatch "chain-a" "client-a" "chain-b" "client-b".

Definition demo_world : World Z := demo.world stage_row 0.

Lemma demo_read : ∃ w, goes_to_batch recv_stage 1%positive demo_world = (Ret true, w).
Proof. by eexists. Qed.

Lemma demo_process :
  ∃ w, Batch_Process (NewIBCV2BatchProcessorMW recv_stage) [1%positive] demo_world =
    (Ret [1%positive], w).
Proof. by eexists. Qed.

Definition finished : state :=
  mkState [] SplitDone CollectDone MoveDone [] [] [] [] [1%positive] [] true.

Lemma one_transfer :
  rtc (moves 1 5 recv_stage) (ConditionallyBatchProcess [1%positive]) finished.
Proof.
  destruct demo_read as [w1 H1]. destruct demo_process as [w2 H2].
  unfold ConditionallyBatchProcess.
  eapply rtc_l; [do 2 eexists; by apply step_read|].
  eapply rtc_l; [exists demo_world; eexists; apply step_to_batch; simpl; lia|].
  eapply rtc_l; [exists demo_world; eexists; apply step_split_done|].
  eapply rtc_l; [exists demo_world; eexists; by apply step_flush|].
  eapply rtc_l; [exists demo_world; eexists; apply step_move|].
  eapply rtc_l; [exists demo_world; eexists; apply step_collect_done|].
  eapply rtc_l; [exists demo_world; eexists;
    eapply (step_buffer _ _ _ _ _ false); [unfold bufferSize; simpl; lia|done|done]|].
  eapply rtc_l; [exists demo_world; eexists; apply step_move_done|].
  eapply rtc_l; [exists demo_world; eexists; apply step_start; simpl; lia|].
  eapply rtc_l; [do 2 eexists; eapply (step_process _ _ _ _ _ _ _ _ _ _ _ _ [] []); exact H2|].
  eapply rtc_l; [exists demo_world; eexists; eapply (step_receive _ _ _ _ _ _ _ _ _ _ _ [] [])|].
  eapply rtc_l; [exists demo_world; eexists; apply step_merge|].
  apply rtc_once. exists demo_world. eexists. apply step_close.
Qed.

Lemma batcher_delivers_witness :
  ∃ once again, dropped finished ++ once ≡ₚ [1%positive] ∧
    delivered finished ≡ₚ once ++ again ∧ again ⊆+ once.
Proof.
  apply (batcher_delivers RecvBatch "chain-a" "client-a" "chain-b" "client-b" 1 5 [1%positive]
    Nat.lt_0_1 ltac:(lia)); [exact one_transfer|reflexivity].
Defined.

Lemma batcher_bounded_witness : closed finished = true ∧ batched finished = [].
Proof. split; [reflexivity|]. by apply (batcher_bounded 1 5 _ _ finished one_transfer). Defined.

(** A system whose only pipeline is that stage, with the transfer in front. *)
Definition demo_key : pipelineKey := mkPipelineKey "chain-a" "client-a" "chain-b" "client-b".

Definition demo_system : System Z :=
  mkSystem demo_world {[demo_key := mkPipeline
    [Pipeline.ConditionallyBatchProcess 1%Z 5%Z 0%Z recv_stage]
    [(mkPosition 0 false, 1%positive)] ∅]} [].

Lemma batcher_refines_witness : ∃ S' pl, (S' = demo_system ∨ step demo_system S') ∧
  sys_pipelines S' !! demo_key = Some pl ∧ pl_inside pl ≡ₚ [(mkPosition 0 true, 1%positive)].
Proof.
  destruct demo_read as [w1 H1].
  destruct (batcher_refines 1 5 recv_stage demo_key 0 [] (ConditionallyBatchProcess [1%positive])
    _ demo_system w1 ltac:(by do 4 eexists) (step_read 1 5 recv_stage _ _ _ _ _ _ _ _ _ _ _ _ _ _ H1))
    as (S' & Hs & _ & _ & pl & c & sz & t & Hpl & _ & Hin).
  by exists S', pl.
Defined.
End applied.
End batcher.
