(* ===== verification/Daemon.v ===== *)
(** * The dispatcher's loop

    [RelayDispatcher.Run] of [relayer/ibcv2/relay_dispatcher.go]: a ticker, the
    [select] on it and on the context, and what the loop does on either. The
    loop runs beside everything else the relayer does, so it is a step relation
    on the system of [System.v] with a clock, the ticker and the place in the
    loop; [history] is what has happened on its ticks so far.

    - [dispatcher_Run_refines]: the system under a dispatcher that runs by its
      timer takes the steps of [System.v] only, so that the theorems about
      those hold of it; and rows are read only when no row of an earlier tick is
      left to be submitted.
    - [dispatcher_Run_polls]: the first tick comes one millisecond after the
      start at the earliest, a later one [pollInterval] after the end of the one
      before; a dispatcher that is disabled has no tick and no pipeline.
    - [dispatcher_Run_alive]: an enabled dispatcher always comes to its next
      tick, whatever went wrong on the last.
    - [dispatcher_Run_returns]: [Run] returns only when the context is
      cancelled, always with an error, after closing every pipeline. *)
From stdpp Require Import prelude strings list gmap relations.
From Stdlib Require Import ZArith.
From S2P Require Import Prelude Go Config Db Transfer World Wp TransferMetrics Processors Laws.
From S2P Require Import ProcessorMW MWLaws Batch BatchLaws PipelineOpts Pipeline Dispatcher.
From S2P Require Import System DispatcherInv Demo Guarantees.
Open Scope Z_scope.

(** ** [time.Ticker] *)

(** When the next tick comes, [None] for a ticker that is stopped. *)
Record Ticker := mkTicker { due : option Time }.

Definition NewTicker (now : Time) (d : Duration) : Ticker := mkTicker (Some (now + d)).

Definition Ticker_Stop (t : Ticker) : Ticker := mkTicker None.

(** [Reset] panics on an interval that is not positive. *)
Definition Ticker_Reset (now : Time) (d : Duration) : outcome Ticker :=
  if d <=? 0 then Panic else Ret (mkTicker (Some (now + d))).

Record RelayDispatcher := mkRelayDispatcher {
  pollInterval : Duration;
  defaultEnabled : bool;
}.

Definition NewRelayDispatcher : Duration → bool → RelayDispatcher := mkRelayDispatcher.

Definition initialPoll : Duration := Millisecond.

(** In [select]; in the loop of [SubmitWaitingUnfinishedTransfers] since
    [began], the rows left being those of the system; returned. *)
Inductive place :=
  | Selecting
  | Submitting (began : Time)
  | Returned (err : option error).

(** [ctx.Err()]. *)
Definition ctx_Err (cancelled : bool) : option error :=
  if cancelled then Some (Sentinel ContextCanceled) else None.

Record Daemon (X : Type) := mkDaemon {
  d_system : System X;
  d_now : Time;
  d_ticker : Ticker;
  d_place : place;
  d_cancelled : bool;
  d_closed : gset pipelineKey;
  history : list (Time * Time);
}.
Arguments mkDaemon {X}.
Arguments d_system {X}.
Arguments d_now {X}.
Arguments d_ticker {X}.
Arguments d_place {X}.
Arguments d_cancelled {X}.
Arguments d_closed {X}.
Arguments history {X}.

Section run.
Context {X : Type} {E : Env X}.
Variable r : RelayDispatcher.
Implicit Types s : System X.

(** [Close] of the manager closes every pipeline it has made. *)
Definition IBCV2PipelineManager_Close (pipelines : gmap pipelineKey (Pipeline X))
    : gset pipelineKey := dom pipelines.

(** What runs beside the loop: it neither takes the rows the loop still has to
    submit nor makes a pipeline. *)
Definition background s s' : Prop :=
  step s s' ∧ sys_waiting s' = sys_waiting s ∧ dom (sys_pipelines s') = dom (sys_pipelines s).

(** [Run] up to its loop. *)
Definition Run_start (s : System X) (now : Time) : Daemon X :=
  let ticker := NewTicker now initialPoll in
  let msg := if defaultEnabled r then "ibcv2 relaying enabled" else "ibcv2 relaying disabled" in
  let w := (logger (X := X) Info msg (sys_world s)).2 in
  mkDaemon (mkSystem w (sys_pipelines s) (sys_waiting s)) now
    (if defaultEnabled r then ticker else Ticker_Stop ticker) Selecting false ∅ [].

Inductive run_step : Daemon X → Daemon X → Prop :=
  | run_wait s now now' t p c cl h :
      now ≤ now' → run_step (mkDaemon s now t p c cl h) (mkDaemon s now' t p c cl h)
  | run_background s s' now t p c cl h :
      background s s' → run_step (mkDaemon s now t p c cl h) (mkDaemon s' now t p c cl h)
  | run_cancel s now t p c cl h :
      run_step (mkDaemon s now t p c cl h) (mkDaemon s now t p true cl h)
  | run_tick w w' pls rows now t d c cl h :
      due t = Some d → d ≤ now →
      query db.GetUnfinishedIBCV2Transfers w = (Ret rows, w') →
      run_step (mkDaemon (mkSystem w pls []) now t Selecting c cl h)
               (mkDaemon (mkSystem w' pls rows) now (Ticker_Stop t) (Submitting now) c cl h)
  | run_tick_error w w' w'' pls now t t' d c cl h e :
      due t = Some d → d ≤ now →
      query db.GetUnfinishedIBCV2Transfers w = (Fail e, w') →
      logger (X := X) Error "error submitting unfinished transfers to pipeline" w' = (Ret tt, w'') →
      Ticker_Reset now (pollInterval r) = Ret t' →
      run_step (mkDaemon (mkSystem w pls []) now t Selecting c cl h)
               (mkDaemon (mkSystem w'' pls []) now t' Selecting c cl ((now, now) :: h))
  | run_submit w w' pls pls' row rows now t began c cl h :
      submit_row row pls w = (Ret pls', w') →
      run_step (mkDaemon (mkSystem w pls (row :: rows)) now t (Submitting began) c cl h)
               (mkDaemon (mkSystem w' pls' rows) now t (Submitting began) c cl h)
  | run_tick_end w pls now t t' began c cl h :
      Ticker_Reset now (pollInterval r) = Ret t' →
      run_step (mkDaemon (mkSystem w pls []) now t (Submitting began) c cl h)
               (mkDaemon (mkSystem w pls []) now t' Selecting c cl ((began, now) :: h))
  | run_done w w' pls rows now t cl h :
      logger (X := X) Info "relay dispatcher context cancelled, closing pipelines" w = (Ret tt, w') →
      run_step (mkDaemon (mkSystem w pls rows) now t Selecting true cl h)
               (mkDaemon (mkSystem w' pls rows) now t (Returned (ctx_Err true)) true
                  (IBCV2PipelineManager_Close pls) h).

(** ** The loop's invariant *)

(** A tick that ends before the next begins, at least [pollInterval] before
    it. *)
Fixpoint spaced (start : Time) (h : list (Time * Time)) : Prop :=
  match h with
  | [] => True
  | [(began, ended)] => start + initialPoll ≤ began ≤ ended
  | (began, ended) :: ((_, ended') :: _) as h' =>
      ended' + pollInterval r ≤ began ≤ ended ∧ spaced start h'
  end.

(** The time from which on the next tick may come. *)
Definition next_due (start : Time) (h : list (Time * Time)) : Time :=
  match h with
  | [] => start + initialPoll
  | (_, ended) :: _ => ended + pollInterval r
  end.

Lemma spaced_cons start began ended h :
  next_due start h ≤ began ≤ ended → spaced start h → spaced start ((began, ended) :: h).
Proof. destruct h as [|[b e] h]; simpl; intros; [lia|]. split; [lia|done]. Qed.

Definition run_inv (start : Time) (d : Daemon X) : Prop :=
  spaced start (history d) ∧ start ≤ d_now d ∧
  match d_place d with
  | Selecting =>
      sys_waiting (d_system d) = [] ∧
      due (d_ticker d) = if defaultEnabled r then Some (next_due start (history d)) else None
  | Submitting began => next_due start (history d) ≤ began ≤ d_now d ∧ defaultEnabled r = true
  | Returned e =>
      d_cancelled d = true ∧ e = Some (Sentinel ContextCanceled) ∧
      d_closed d = dom (sys_pipelines (d_system d))
  end ∧
  (defaultEnabled r = false → history d = [] ∧ sys_pipelines (d_system d) = ∅).

Lemma run_start_inv w now : run_inv now (Run_start (mkSystem w ∅ []) now).
Proof.
  unfold run_inv, Run_start; simpl. split_and!; [done|lia|done| |done].
  by destruct (defaultEnabled r).
Qed.

Lemma Ticker_Reset_due now t' :
  Ticker_Reset now (pollInterval r) = Ret t' → due t' = Some (now + pollInterval r).
Proof. unfold Ticker_Reset. case_match; [done|]. by intros [= <-]. Qed.

Lemma run_step_inv start d d' : run_step d d' → run_inv start d → run_inv start d'.
Proof.
  unfold run_inv. destruct 1 as [s now now' t p c cl h Hle|s s' now t p c cl h (Hst & Hw & Hd)
    |s now t p c cl h|w w' pls rows now t d c cl h Hdue Hle Hq
    |w w' w'' pls now t t' d c cl h e Hdue Hle Hq Hl Hreset
    |w w' pls pls' row rows now t began c cl h Hsub|w pls now t t' began c cl h Hreset
    |w w' pls rows now t cl h Hl]; simpl; intros (Hsp & Hs & Hp & Hdis).
  - split_and!; [done|lia| |done]. destruct p; [done|destruct Hp; split; [lia|done]|done].
  - rewrite Hw, Hd. split_and!; [done|done|done|]. intros Hen. destruct (Hdis Hen) as [-> Hpl].
    split; [done|]. apply dom_empty_inv_L. by rewrite Hd, Hpl, dom_empty_L.
  - split_and!; [done|done| |done]. by destruct p; naive_solver.
  - destruct Hp as [_ Ht]. destruct (defaultEnabled r); [|congruence].
    rewrite Hdue in Ht. injection Ht as ->. split_and!; [done|lia|lia|lia|done|done].
  - destruct Hp as [_ Ht]. destruct (defaultEnabled r) eqn:Hen; [|congruence].
    rewrite Hdue in Ht. injection Ht as ->. apply Ticker_Reset_due in Hreset.
    split_and!; [by apply spaced_cons; [lia|]|lia|done|done|done].
  - split_and!; [done|lia|lia|lia|apply Hp|]. destruct Hp as [_ Hen]. by rewrite Hen.
  - destruct Hp as [Hp Hen]. apply Ticker_Reset_due in Hreset. rewrite Hen.
    split_and!; [by apply spaced_cons|lia|done|done|done].
  - by split_and!.
Qed.

Lemma run_inv_rtc start d d' : rtc run_step d d' → run_inv start d → run_inv start d'.
Proof. induction 1; eauto using run_step_inv. Qed.

(** ** The steps of the system *)

Lemma logger_outside l msg (w w' : World X) pls rows :
  logger l msg w = (Ret tt, w') → step (mkSystem w pls rows) (mkSystem w' pls rows).
Proof. destruct w. unfold logger. intros [= <-]. apply step_outside. Qed.

Lemma query_error_outside {A} (q : Time → db.Database → outcome A * db.Database)
    (w w' : World X) pls rows e :
  (∀ now d, (q now d).1 ≠ Fail e) → query q w = (Fail e, w') →
  step (mkSystem w pls rows) (mkSystem w' pls rows).
Proof.
  intros Hq. destruct w as [x d h mt lg]. unfold query. destruct (env_storage x) as [[e'|] x'].
  - intros [= _ <-]. apply step_outside.
  - specialize (Hq (env_NOW x') d). destruct (q (env_NOW x') d) as [o d']. naive_solver.
Qed.

Lemma run_step_steps d d' : run_step d d' → rtc step (d_system d) (d_system d').
Proof.
  destruct 1; simpl; try apply rtc_refl.
  - by apply rtc_once, H.
  - by apply rtc_once, step_read.
  - eapply rtc_l; [by eapply query_error_outside; [|done]|].
    by eapply rtc_once, logger_outside.
  - by apply rtc_once, step_submit.
  - by eapply rtc_once, logger_outside.
Qed.

Lemma daemon_steps d d' : rtc run_step d d' → rtc step (d_system d) (d_system d').
Proof. induction 1; [apply rtc_refl|]. etrans; [by eapply run_step_steps|done]. Qed.

(** The relayer under a dispatcher that runs by its timer, from a start
    without pipelines: whatever the loop and everything beside it have done, the
    system has taken steps of the transition system only, in which a reading of
    the rows and their submission come at any time; and in [select] no row of an
    earlier tick is left to be submitted, so that two ticks never overlap. *)
Theorem dispatcher_Run_refines (w : World X) start d :
  rtc run_step (Run_start (mkSystem w ∅ []) start) d →
  rtc step (mkSystem w ∅ []) (d_system d) ∧
  (d_place d = Selecting → sys_waiting (d_system d) = []).
Proof.
  intros Hr. split; [|intros Hp].
  { eapply rtc_l; [|exact (daemon_steps _ _ Hr)]. destruct w. apply step_outside. }
  destruct (run_inv_rtc start _ _ Hr (run_start_inv w start)) as (_ & _ & H & _).
  rewrite Hp in H. apply H.
Qed.

(** The first tick comes at least [initialPoll] after [Run] was called, and
    each later one at least [pollInterval] after the one before has ended,
    however long it took; with relaying disabled there is no tick at all, and no
    pipeline is ever made. *)
Theorem dispatcher_Run_polls (w : World X) start d :
  rtc run_step (Run_start (mkSystem w ∅ []) start) d →
  spaced start (history d) ∧
  (∀ began, d_place d = Submitting began → next_due start (history d) ≤ began) ∧
  (defaultEnabled r = false →
     history d = [] ∧ (∀ began, d_place d ≠ Submitting began) ∧ sys_pipelines (d_system d) = ∅).
Proof.
  intros Hr. destruct (run_inv_rtc start _ _ Hr (run_start_inv w start)) as (Hs & _ & Hp & Hd).
  split_and!; [done|..].
  - intros began Hb. rewrite Hb in Hp. apply Hp.
  - intros Hen. destruct (Hd Hen) as [? ?]. split_and!; [done| |done]. intros began Hb.
    rewrite Hb in Hp. destruct Hp. congruence.
Qed.

(** [Run] returns only after the context was cancelled, and never without
    an error: what it returns is the error of the context, every pipeline the
    manager had made being closed. *)
Theorem dispatcher_Run_returns (w : World X) start d err :
  rtc run_step (Run_start (mkSystem w ∅ []) start) d → d_place d = Returned err →
  d_cancelled d = true ∧ err = Some (Sentinel ContextCanceled) ∧
  d_closed d = dom (sys_pipelines (d_system d)).
Proof.
  intros Hr Hp. destruct (run_inv_rtc start _ _ Hr (run_start_inv w start)) as (_ & _ & H & _).
  by rewrite Hp in H.
Qed.

(** ** The loop goes on *)

(** Submitting a row comes to its end whatever the database answers. *)
Lemma submit_row_returns row pls (w : World X) :
  ibcv2_everywhere → ∃ pls' w', submit_row row pls w = (Ret pls', w').
Proof.
  intros Hc. assert (wp (submit_row row pls) (λ o _, ∃ pls', o = Ret pls') w) as Hwp.
  { destruct w as [x d h mt lg]. unfold submit_row. wp_step. apply wp_alloc. intros l Hl.
    simpl. wp_step. apply wp_silent; [by apply AlertOnExcessiveRelayLatency_silent, Hc|].
    intros [] x1 mt1 lg1. simpl. wp_step.
    apply (wp_SubmitTransfer_total l (NewIBCV2Transfer row)); [apply lookup_insert_eq|..].
    - intros pls' lg' _. simpl. wp_go. by eexists.
    - intros lg' _. simpl. wp_go. by eexists.
    - intros e lg' He. simpl. rewrite He. wp_go; by eexists. }
  unfold wp in Hwp. destruct (submit_row row pls w) as [o w']. simpl in Hwp.
  destruct Hwp as [pls' ->]. by exists pls', w'.
Qed.

Lemma submits_all rows : ∀ (w : World X) pls now t began c cl h,
  ibcv2_everywhere →
  ∃ w' pls', rtc run_step (mkDaemon (mkSystem w pls rows) now t (Submitting began) c cl h)
    (mkDaemon (mkSystem w' pls' []) now t (Submitting began) c cl h).
Proof.
  induction rows as [|row rows IH]; intros w pls now t began c cl h Hc; [by exists w, pls; apply rtc_refl|].
  destruct (submit_row_returns row pls w Hc) as (pls1 & w1 & Hrow).
  destruct (IH w1 pls1 now t began c cl h Hc) as (w2 & pls2 & Hr).
  exists w2, pls2. by eapply rtc_l; [apply run_submit|].
Qed.

Lemma Ticker_Reset_positive now :
  0 < pollInterval r → Ticker_Reset now (pollInterval r) = Ret (mkTicker (Some (now + pollInterval r))).
Proof. intros Hp. unfold Ticker_Reset. by destruct (Z.leb_spec (pollInterval r) 0); [lia|]. Qed.

(** The rows left are submitted, and the tick ends. *)
Lemma ends_tick s now t began c cl h :
  0 < pollInterval r → ibcv2_everywhere →
  ∃ s', rtc run_step (mkDaemon s now t (Submitting began) c cl h)
    (mkDaemon s' now (mkTicker (Some (now + pollInterval r))) Selecting c cl ((began, now) :: h)).
Proof.
  intros Hp Hc. destruct s as [w pls rows].
  destruct (submits_all rows w pls now t began c cl h Hc) as (w' & pls' & Hr).
  exists (mkSystem w' pls' []). etrans; [exact Hr|]. apply rtc_once, run_tick_end.
  by apply Ticker_Reset_positive.
Qed.

(** A dispatcher that is enabled and has not returned comes to the end of
    one tick more, whether it is waiting for its ticker or in the middle of a
    tick, and whether the database answers or not, provided that every
    configured chain is set up for IBC v2 (without, [submit_row] panics). *)
Theorem dispatcher_Run_alive (w : World X) start d :
  ibcv2_everywhere → defaultEnabled r = true → 0 < pollInterval r →
  rtc run_step (Run_start (mkSystem w ∅ []) start) d → (∀ err, d_place d ≠ Returned err) →
  ∃ d', rtc run_step d d' ∧ d_place d' = Selecting ∧
    length (history d') = S (length (history d)).
Proof.
  intros Hc Hen Hpos Hr Hnr.
  destruct (run_inv_rtc start _ _ Hr (run_start_inv w start)) as (_ & _ & Hp & _). clear Hr.
  destruct d as [[w1 pls rows] now t p c cl h]; simpl in *.
  destruct p as [|began|err]; [|by destruct (ends_tick (mkSystem w1 pls rows) now t began c cl h
    Hpos Hc) as [s' Hs]; eexists; split_and!|by destruct (Hnr err)].
  destruct Hp as [-> Hdue]. rewrite Hen in Hdue. set (due := next_due start h) in *.
  assert (rtc run_step (mkDaemon (mkSystem w1 pls []) now t Selecting c cl h)
    (mkDaemon (mkSystem w1 pls []) (Z.max now due) t Selecting c cl h)) as Hw
    by (apply rtc_once, run_wait; lia).
  destruct (query db.GetUnfinishedIBCV2Transfers w1) as [[rows|e|] w2] eqn:Hq.
  - destruct (ends_tick (mkSystem w2 pls rows) (Z.max now due) (Ticker_Stop t) (Z.max now due) c cl h
      Hpos Hc) as [s' Hs].
    eexists. split_and!; [etrans; [exact Hw|]; eapply rtc_l; [|exact Hs]|done|done].
    by eapply run_tick; [exact Hdue|lia|].
  - destruct w2 as [x2 d2 h2 mt2 lg2].
    eexists. split; [etrans; [exact Hw|]; apply rtc_once|].
    { by eapply run_tick_error; [exact Hdue|lia|exact Hq|done|apply Ticker_Reset_positive]. }
    done.
  - exfalso. destruct w1 as [x1 d1 h1 mt1 lg1]. unfold query in Hq.
    by destruct (env_storage x1) as [[] ?].
Qed.
End run.

(** ** The theorems applied *)

(** The dispatcher of [main] on the two chains of the running example. *)
Definition demo_dispatcher : RelayDispatcher := NewRelayDispatcher (5 * Second) true.

Lemma dispatcher_Run_alive_witness : ∃ d,
  rtc (run_step (E := env_ab) demo_dispatcher)
    (Run_start demo_dispatcher (mkSystem start ∅ []) 0) d ∧
  d_place d = Selecting ∧ length (history d) = 1%nat.
Proof.
  by apply (dispatcher_Run_alive (E := env_ab) demo_dispatcher start 0 _ env_ab_ibcv2 eq_refl
    eq_refl (rtc_refl _ _)).
Defined.

(** A run in which the database is down on the first tick. *)
Definition broken_env : Env Z :=
  mkEnv Z ∅ (env_RelayByTx (Env := env_ab)) None (config.NewConfigReader conf_ab)
    (λ x, (x, x + 1)) (λ x, (Some (ErrorNew "connection refused"), x)) (λ x, x) (λ x, (true, x)).

Definition ticked (w : World Z) : Daemon Z :=
  mkDaemon (mkSystem w ∅ []) Millisecond (mkTicker (Some (Millisecond + 5 * Second))) Selecting
    false ∅ [(Millisecond, Millisecond)].

Lemma broken_run : ∃ w,
  rtc (run_step (E := broken_env) demo_dispatcher)
    (Run_start demo_dispatcher (mkSystem start ∅ []) 0) (ticked w).
Proof.
  eexists. eapply rtc_l; [by apply (run_wait _ _ _ Millisecond)|]. apply rtc_once.
  by eapply run_tick_error; [reflexivity|done|vm_compute; reflexivity|reflexivity|reflexivity].
Qed.

Lemma dispatcher_Run_refines_witness : ∃ w,
  rtc (step (E := broken_env)) (mkSystem start ∅ []) (mkSystem w ∅ []).
Proof.
  destruct broken_run as [w Hr]. exists w.
  exact (proj1 (dispatcher_Run_refines (E := broken_env) demo_dispatcher start 0 (ticked w) Hr)).
Defined.

Lemma dispatcher_Run_polls_witness : spaced demo_dispatcher 0 [(Millisecond, Millisecond)].
Proof.
  destruct broken_run as [w Hr].
  exact (proj1 (dispatcher_Run_polls (E := broken_env) demo_dispatcher start 0 (ticked w) Hr)).
Defined.

Lemma returned_run : ∃ d,
  rtc (run_step (E := broken_env) demo_dispatcher)
    (Run_start demo_dispatcher (mkSystem start ∅ []) 0) d ∧
  d_place d = Returned (Some (Sentinel ContextCanceled)).
Proof.
  eexists. split; [eapply rtc_l; [apply run_cancel|]; by apply rtc_once, run_done|done].
Qed.

Lemma dispatcher_Run_returns_witness : ∃ d : Daemon Z,
  d_place d = Returned (Some (Sentinel ContextCanceled)) ∧
  d_closed d = dom (sys_pipelines (d_system d)).
Proof.
  destruct returned_run as (d & Hr & Hp). exists d. split; [exact Hp|].
  exact (proj2 (proj2 (dispatcher_Run_returns (E := broken_env) demo_dispatcher start 0 d _ Hr Hp))).
Defined.
