(* ===== verification/Relayer.v ===== *)
(** * The dispatcher, the dedupers and the stages together

    The relayer at the level of its goroutines: the loop of the dispatcher
    ([Daemon.v]), which sends every transfer it pushes on the input channel of
    one pipeline after the other, and for each pipeline the channel, the stages
    and the goroutine of the deduper that takes transfers from the output
    ([Deduper.v]), all on the one system of [System.v]. The transfers inside a
    pipeline of the system are those in its channel, those in its stages, the
    one that is being sent and the one the deduper's goroutine holds.

    A step is what a goroutine does between two points at which it can wait.
    The deduper's lock is taken by the dispatcher, who holds it until the send
    is done, and by the pipeline's own goroutine, who gives it back in the step
    that takes it; so the dispatcher only ever waits in the send.

    - [relayer_refines]: the goroutines take the steps of the dispatcher's loop
      in [Daemon.v] only, and so of the system; no channel holds more than its
      size.
    - [relayer_unblocks]: while the table has no more rows of a pipeline than
      its channel and its stages hold, a send to it goes through.
    - [relayer_starves]: with more than that one pipeline can stop the
      dispatcher, and with it the relaying on all pipelines, until the process
      is stopped. *)
From stdpp Require Import prelude strings list gmap relations.
From Stdlib Require Import ZArith.
From S2P Require Import Prelude Go Config Db Transfer World Wp TransferMetrics Processors Laws.
From S2P Require Import ProcessorMW MWLaws Batch BatchLaws PipelineOpts Pipeline Dispatcher.
From S2P Require Import System SystemInv DispatcherInv Demo Guarantees Progress Deduper Daemon.

Local Open Scope nat_scope.

Lemma inputBufferSize_pos : 0 < deduper.inputBufferSize.
Proof. unfold deduper.inputBufferSize. lia. Qed.
Local Opaque deduper.inputBufferSize.

(** The input channel of a pipeline, and the transfer its deduper's goroutine
    has taken from the output and not yet deleted. *)
Record channels := mkChannels {
  ch_input : list loc;
  ch_hand : option loc;
}.

(** [rl_sending] is the transfer [Push] is sending, with the lock of its
    pipeline in its hand. *)
Record Relayer (X : Type) := mkRelayer {
  rl_daemon : Daemon X;
  rl_channels : gmap pipelineKey channels;
  rl_sending : option (pipelineKey * loc);
}.
Arguments mkRelayer {X}.
Arguments rl_daemon {X}.
Arguments rl_channels {X}.
Arguments rl_sending {X}.

Section relayer.
Context {X : Type} {E : Env X}.
Context (r : RelayDispatcher) (capacity : pipelineKey → nat).

Definition pipelines (d : Daemon X) : gmap pipelineKey (Pipeline X) := sys_pipelines (d_system d).

Definition channels_of (ch : gmap pipelineKey channels) (pk : pipelineKey) : channels :=
  default (mkChannels [] None) (ch !! pk).

(** The transfers of a pipeline that are not in its stages. *)
Definition held_back (ch : gmap pipelineKey channels) (sending : option (pipelineKey * loc))
    (pk : pipelineKey) : list loc :=
  match sending with
  | Some (pk', l) => if decide (pk' = pk) then [l] else []
  | None => []
  end ++ ch_input (channels_of ch pk) ++
  match ch_hand (channels_of ch pk) with Some l => [l] | None => [] end.

(** How many transfers are in the stages of a pipeline. *)
Definition in_stages (d : Daemon X) (ch : gmap pipelineKey channels)
    (sending : option (pipelineKey * loc)) (pk : pipelineKey) : nat :=
  match pipelines d !! pk with Some pl => length (pl_inside pl) | None => 0 end -
  length (held_back ch sending pk).

(** The transfer the deduper has accepted for the pipeline, if it has. *)
Definition just_pushed (pk : pipelineKey) (pls pls' : gmap pipelineKey (Pipeline X))
    : option (pipelineKey * loc) :=
  match pls' !! pk with
  | Some pl' =>
      match drop (length (default [] (pl_inside <$> pls !! pk))) (pl_inside pl') with
      | [(_, l)] => Some (pk, l)
      | _ => None
      end
  | None => None
  end.

(** What the stages and the API do: they do not touch a transfer that is not
    in the stages, or a key of a deduper; and a stage gives up a transfer only
    when its context is cancelled. The first two are about which goroutine a
    step belongs to: a transfer in the channel or in the hand of the deduper's
    goroutine is not in front of a stage, and only that goroutine deletes keys.
    The third is derived from the stages in [kept_unless_cancelled]. *)
Definition undisturbed (cancelled : bool) (hb : pipelineKey → list loc) (s s' : System X) : Prop :=
  ∀ pk pl pl', sys_pipelines s !! pk = Some pl → sys_pipelines s' !! pk = Some pl' →
    pl_inPipeline pl' = pl_inPipeline pl ∧
    (∀ pos l, l ∈ hb pk → (pos, l) ∈ pl_inside pl → (pos, l) ∈ pl_inside pl') ∧
    (cancelled = false → length (pl_inside pl) ≤ length (pl_inside pl')).

Definition with_system (d : Daemon X) (s : System X) : Daemon X :=
  mkDaemon s (d_now d) (d_ticker d) (d_place d) (d_cancelled d) (d_closed d) (history d).

Inductive relayer_step : Relayer X → Relayer X → Prop :=
  (** Time passes, or the context is cancelled. *)
  | rl_clock d d' ch sd :
      run_step r d d' → d_system d' = d_system d → d_place d' = d_place d →
      history d' = history d →
      relayer_step (mkRelayer d ch sd) (mkRelayer d' ch sd)
  (** The dispatcher's loop: a tick, its end, the return. *)
  | rl_loop d d' ch :
      run_step r d d' → pipelines d' = pipelines d →
      relayer_step (mkRelayer d ch None) (mkRelayer d' ch None)
  (** A row is submitted; if its transfer is accepted it is to be sent. *)
  | rl_submit w w' pls pls' row rows now t began c cl h ch :
      submit_row row pls w = (Ret pls', w') →
      relayer_step
        (mkRelayer (mkDaemon (mkSystem w pls (row :: rows)) now t (Submitting began) c cl h) ch None)
        (mkRelayer (mkDaemon (mkSystem w' pls' rows) now t (Submitting began) c cl h) ch
           (just_pushed (newPipelineKey (NewIBCV2Transfer row)) pls pls'))
  (** The channel has room. *)
  | rl_send d ch pk l :
      length (ch_input (channels_of ch pk)) < deduper.inputBufferSize →
      relayer_step (mkRelayer d ch (Some (pk, l)))
        (mkRelayer d (<[pk := mkChannels (ch_input (channels_of ch pk) ++ [l])
                                (ch_hand (channels_of ch pk))]> ch) None)
  (** The first stage receives. *)
  | rl_enter d ch sd pk l q :
      ch_input (channels_of ch pk) = l :: q → in_stages d ch sd pk < capacity pk →
      relayer_step (mkRelayer d ch sd)
        (mkRelayer d (<[pk := mkChannels q (ch_hand (channels_of ch pk))]> ch) sd)
  (** The deduper's goroutine receives. *)
  | rl_receive d ch sd pk pl l :
      pipelines d !! pk = Some pl → ch_hand (channels_of ch pk) = None →
      (mkPosition (length (pl_stages pl)) false, l) ∈ pl_inside pl → l ∉ held_back ch sd pk →
      relayer_step (mkRelayer d ch sd)
        (mkRelayer d (<[pk := mkChannels (ch_input (channels_of ch pk)) (Some l)]> ch) sd)
  (** It takes the lock and deletes the key. *)
  | rl_delete d w pls rows ch sd pk pl l t ins1 ins2 :
      d_system d = mkSystem w pls rows → pls !! pk = Some pl →
      ch_hand (channels_of ch pk) = Some l → (∀ l', sd ≠ Some (pk, l')) →
      pl_inside pl = ins1 ++ (mkPosition (length (pl_stages pl)) false, l) :: ins2 →
      w_heap w !! l = Some t →
      relayer_step (mkRelayer d ch sd)
        (mkRelayer (with_system d (mkSystem w
             (<[pk := PipelineDeduper_output t (with_inside pl (ins1 ++ ins2))]> pls) rows))
           (<[pk := mkChannels (ch_input (channels_of ch pk)) None]> ch) sd)
  (** A stage, or the API. *)
  | rl_beside d s' ch sd :
      background (d_system d) s' →
      undisturbed (d_cancelled d) (held_back ch sd) (d_system d) s' →
      relayer_step (mkRelayer d ch sd) (mkRelayer (with_system d s') ch sd).

Definition relayer_start (w : World X) (now : Time) : Relayer X :=
  mkRelayer (Run_start r (mkSystem w ∅ []) now) ∅ None.

(** ** Refinement *)

Lemma with_system_eta (d : Daemon X) : with_system d (d_system d) = d.
Proof. by destruct d. Qed.

Lemma relayer_step_runs a b : relayer_step a b → rtc (run_step r) (rl_daemon a) (rl_daemon b).
Proof.
  destruct 1 as [d d' ch sd Hr _ _ _|d d' ch Hr _|w w' pls pls' row rows now t began c cl h ch Hs
    |d ch pk l Hl|d ch sd pk l q Hq Hc|d ch sd pk pl l Hpl Hh Hin Hn
    |d w pls rows ch sd pk pl l t ins1 ins2 Hd Hpl Hh Hlock Hins Ht|d s' ch sd Hb Hu]; simpl;
    try apply rtc_refl; try (by apply rtc_once).
  - by apply rtc_once, run_submit.
  - apply rtc_once. rewrite <- (with_system_eta d) at 1. rewrite Hd. unfold with_system.
    apply run_background. split_and!; [by eapply step_output|done|]. simpl.
    rewrite dom_insert_L. assert (pk ∈ dom pls) by by eapply elem_of_dom_2. set_solver.
  - apply rtc_once. rewrite <- (with_system_eta d) at 1. by apply run_background.
Qed.

Lemma relayer_runs a b : rtc relayer_step a b → rtc (run_step r) (rl_daemon a) (rl_daemon b).
Proof. induction 1; [apply rtc_refl|]. etrans; [by eapply relayer_step_runs|done]. Qed.

(** The channels stay within their size, and the dispatcher sends only while it
    submits, to a pipeline it has. *)
Definition relayer_inv (a : Relayer X) : Prop :=
  (∀ pk, length (ch_input (channels_of (rl_channels a) pk)) ≤ deduper.inputBufferSize) ∧
  ∀ pk l, rl_sending a = Some (pk, l) →
    (∃ began, d_place (rl_daemon a) = Submitting began) ∧ is_Some (pipelines (rl_daemon a) !! pk).

Lemma channels_of_insert ch pk c pk' :
  channels_of (<[pk := c]> ch) pk' = if decide (pk = pk') then c else channels_of ch pk'.
Proof. unfold channels_of. rewrite lookup_insert. by case_decide. Qed.

Lemma just_pushed_Some pk pls pls' pk' l :
  just_pushed pk pls pls' = Some (pk', l) → pk' = pk ∧ is_Some (pls' !! pk).
Proof.
  unfold just_pushed. destruct (pls' !! pk) as [pl'|]; [|done].
  destruct (drop _ _) as [|[? ?] []]; naive_solver.
Qed.

Lemma is_Some_dom (pls pls' : gmap pipelineKey (Pipeline X)) pk :
  dom pls' = dom pls → is_Some (pls !! pk) → is_Some (pls' !! pk).
Proof. intros Hd. rewrite <- !elem_of_dom. by rewrite Hd. Qed.

Lemma relayer_step_inv a b : relayer_step a b → relayer_inv a → relayer_inv b.
Proof.
  unfold relayer_inv.
  destruct 1 as [d d' ch sd Hr Hsys Hp _|d d' ch Hr Hpl|w w' pls pls' row rows now t began c cl h ch Hs
    |d ch pk l Hl|d ch sd pk l q Hq Hc|d ch sd pk pl l Hpl Hh Hin Hn
    |d w pls rows ch sd pk pl l t ins1 ins2 Hd Hpl Hh Hlock Hins Ht|d s' ch sd (Hst & _ & Hdom) Hu];
    simpl; intros [Hb Hsd]; (split; [intros pk0; try rewrite channels_of_insert; try case_decide; simpl|]);
    try done.
  - unfold pipelines. by rewrite Hp, Hsys.
  - intros pk l Hj. apply just_pushed_Some in Hj as [-> ?]. split; [by eexists|done].
  - rewrite length_app. simpl. lia.
  - specialize (Hb pk). rewrite Hq in Hb. simpl in Hb. lia.
  - intros pk' l' ->. destruct (Hsd pk' l' eq_refl) as [? Hpk']. split; [done|].
    unfold pipelines in *. rewrite Hd in Hpk'. simpl in *. rewrite lookup_insert. by case_decide.
  - intros pk l ->. destruct (Hsd pk l eq_refl) as [? Hpk]. split; [done|].
    by eapply is_Some_dom.
Qed.

Lemma relayer_run_inv w now a : rtc relayer_step (relayer_start w now) a → relayer_inv a.
Proof.
  intros Hr. assert (relayer_inv (relayer_start w now)) as H0.
  { split; [|done]. intros pk. unfold channels_of. simpl. rewrite lookup_empty. simpl. lia. }
  revert H0. induction Hr; eauto using relayer_step_inv.
Qed.

(** The goroutines of the relayer, from a start without pipelines, only do what
    the dispatcher's loop with atomic pushes and deletions can do too, and so
    take steps of the transition system only; no input channel ever holds more
    than its size, and the dispatcher does not come to its [select] in the
    middle of a send. *)
Lemma relayer_refines (w : World X) now a :
  rtc relayer_step (relayer_start w now) a →
  rtc (run_step r) (Run_start r (mkSystem w ∅ []) now) (rl_daemon a) ∧
  rtc step (mkSystem w ∅ []) (d_system (rl_daemon a)) ∧
  (∀ pk, length (ch_input (channels_of (rl_channels a) pk)) ≤ deduper.inputBufferSize) ∧
  (d_place (rl_daemon a) = Selecting → rl_sending a = None).
Proof.
  intros Hr. pose proof (relayer_runs _ _ Hr) as Hd. destruct (relayer_run_inv w now a Hr) as [Hb Hs].
  split_and!; [done| |done|].
  - eapply rtc_l; [|by eapply daemon_steps]. destruct w. apply step_outside.
  - intros Hp. destruct (rl_sending a) as [[pk l]|]; [|done].
    destruct (Hs pk l eq_refl) as [[began Hb'] _]. congruence.
Qed.

(** The stages give up a transfer only when a context is cancelled: the part of
    [undisturbed] that is about what their calls return. *)
Lemma kept_unless_cancelled s s' pk pl pl' :
  sys_inv s → built (sys_pipelines s) → step s s' →
  sys_pipelines s !! pk = Some pl → sys_pipelines s' !! pk = Some pl' →
  pl_inPipeline pl' = pl_inPipeline pl → ¬ stage_cancelled pl (sys_world s) →
  length (pl_inside pl) ≤ length (pl_inside pl').
Proof.
  intros Hinv Hb Hstep Hpl Hpl' Hkeys Hnc. rewrite <- !(length_map snd).
  destruct (step_keeps s s' pk pl pl' Hinv Hb Hstep Hpl Hpl') as [Hk|[Hleft|Hc]]; [|exfalso|done].
  { by apply submseteq_length. }
  destruct Hleft as (l & t & Hin & Ht & _ & Hdel). destruct Hinv as [Hinv _].
  assert (newTransferKey t ∈ pl_inPipeline pl); [|set_solver].
  eapply (pi_keys _ _ _ _ (wi_pipelines _ _ _ Hinv pk pl Hpl)); [|done].
  by apply (list_elem_of_fmap_2' snd _ (mkPosition (length (pl_stages pl)) false, l)).
Qed.

(** ** Sends that go through *)

(** The rows of the table whose packets go through a pipeline. *)
Definition rows_of (pk : pipelineKey) (d : db.Database) : list db.Ibcv2Transfer :=
  filter (λ row, newPipelineKey (NewIBCV2Transfer row) = pk) (db.ibcv2_transfers d).

Lemma attached_rows_of d t row :
  db_wf d → attached d t → db.row (update_key t) d = Some row → is_uint32 (PacketSequenceNumber t) →
  row ∈ rows_of (newPipelineKey t) d.
Proof.
  intros Hwf (row' & Hrow' & Hroute & _) Hrow Hseq. assert (row' = row) as -> by congruence.
  apply list_elem_of_filter. split; [|by eapply lookup_by_elem].
  apply lookup_by_key in Hrow. unfold update_key, db.row_key in Hrow. injection Hrow as H1 H2 _.
  unfold route, db.row_route in Hroute. injection Hroute as H3 H4.
  unfold newPipelineKey, GetSourceChainID, GetPacketSourceClientID, GetDestinationChainID,
    GetPacketDestinationClientID in *. simpl. congruence.
Qed.

(** A pipeline holds at most as many transfers as the table has rows for it. *)
Lemma pipeline_rows pk (pl : Pipeline X) d h :
  db_wf d → pipeline_inv pk pl d h → length (pl_inside pl) ≤ length (rows_of pk d).
Proof.
  intros Hwf Hinv. unfold rows_of.
  set (key_of l := from_option update_key db.zero_key (h !! l)).
  transitivity (length (map key_of (locs pl))); [unfold locs; by rewrite !length_map|].
  rewrite <- (length_map db.row_key). apply NoDup_incl_length.
  - apply NoDup_ListNoDup. pose proof (pi_nodup _ _ _ _ Hinv) as Hnd.
    pose proof (pi_member _ _ _ _ Hinv) as Hm. clear Hwf Hinv.
    induction (locs pl) as [|l ls IH]; simpl in *; [constructor|].
    apply NoDup_cons in Hnd as [Hl Hnd]. apply NoDup_cons. split; [|apply IH; set_solver].
    intros (l' & Heq & Hl')%list_elem_of_fmap. apply Hl.
    destruct (Hm l) as (t & Ht & _ & _ & Hs); [by left|].
    destruct (Hm l') as (t' & Ht' & _ & _ & Hs'); [by right|].
    unfold key_of in Heq. rewrite Ht, Ht' in Heq. simpl in Heq.
    assert (key_at h l = key_at h l') as ->; [|by apply list_elem_of_fmap_2].
    unfold key_at. rewrite Ht, Ht'. simpl. f_equal. by apply transferKey_update_key.
  - intros k (l & <- & Hl)%in_map_iff. apply list_elem_of_In in Hl.
    destruct (pi_member _ _ _ _ Hinv l Hl) as (t & Ht & Ha & <- & Hs).
    pose proof Ha as (row & Hrow & _). unfold key_of. rewrite Ht. simpl.
    apply in_map_iff. exists row. split; [by eapply lookup_by_key|].
    apply list_elem_of_In. by eapply attached_rows_of.
Qed.


(** ** Sends that do not *)

(** The dispatcher sends to a pipeline whose channel and stages are full and
    whose goroutine waits for the lock the dispatcher holds. *)
Definition blocked (pk : pipelineKey) (a : Relayer X) : Prop :=
  (∃ l, rl_sending a = Some (pk, l)) ∧
  is_Some (ch_hand (channels_of (rl_channels a) pk)) ∧
  deduper.inputBufferSize ≤ length (ch_input (channels_of (rl_channels a) pk)) ∧
  capacity pk ≤ in_stages (rl_daemon a) (rl_channels a) (rl_sending a) pk ∧
  is_Some (pipelines (rl_daemon a) !! pk).

(** What cannot change while the dispatcher is blocked: what it still has to
    submit, where its loop is, and, but for fewer, the packets of every
    pipeline. *)
Definition stands_still (a b : Relayer X) : Prop :=
  sys_waiting (d_system (rl_daemon b)) = sys_waiting (d_system (rl_daemon a)) ∧
  d_place (rl_daemon b) = d_place (rl_daemon a) ∧
  history (rl_daemon b) = history (rl_daemon a) ∧
  ∀ pk pl pl', pipelines (rl_daemon a) !! pk = Some pl → pipelines (rl_daemon b) !! pk = Some pl' →
    pl_inPipeline pl' ⊆ pl_inPipeline pl.

Lemma run_step_cancelled d d' : run_step r d d' → d_cancelled d = true → d_cancelled d' = true.
Proof. by destruct 1. Qed.

Lemma relayer_step_cancelled a b :
  relayer_step a b → d_cancelled (rl_daemon a) = true → d_cancelled (rl_daemon b) = true.
Proof. destruct 1; simpl; eauto using run_step_cancelled. Qed.

Lemma relayer_cancelled a b :
  rtc relayer_step a b → d_cancelled (rl_daemon a) = true → d_cancelled (rl_daemon b) = true.
Proof. induction 1; eauto using relayer_step_cancelled. Qed.

Lemma still_refl a b : rl_daemon b = rl_daemon a → stands_still a b.
Proof. unfold stands_still. intros ->. split_and!; [done..|]. intros. by simplify_eq. Qed.

Lemma still_trans a b c : stands_still a b → (∀ pk, is_Some (pipelines (rl_daemon a) !! pk) →
  is_Some (pipelines (rl_daemon b) !! pk)) → stands_still b c → stands_still a c.
Proof.
  intros (Hw & Hp & Hh & Hk) Hdom (Hw' & Hp' & Hh' & Hk'). split_and!; [congruence..|].
  intros pk pl pl' Hpl Hpl'. destruct (Hdom pk) as [pl1 Hpl1]; [by eexists|].
  transitivity (pl_inPipeline pl1); eauto.
Qed.

(** Another pipeline's channels do not matter. *)
Lemma channels_apart ch pk0 c sd pk d :
  pk0 ≠ pk → channels_of (<[pk0 := c]> ch) pk = channels_of ch pk ∧
  in_stages d (<[pk0 := c]> ch) sd pk = in_stages d ch sd pk.
Proof.
  intros Hne. assert (channels_of (<[pk0 := c]> ch) pk = channels_of ch pk) as Hc
    by (by rewrite channels_of_insert, decide_False). split; [done|].
  unfold in_stages, held_back. by rewrite Hc.
Qed.

Lemma in_stages_grows d s' ch sd pk :
  (∀ pl, pipelines d !! pk = Some pl → ∃ pl', sys_pipelines s' !! pk = Some pl' ∧
     length (pl_inside pl) ≤ length (pl_inside pl')) →
  in_stages d ch sd pk ≤ in_stages (with_system d s') ch sd pk.
Proof.
  unfold in_stages. change (pipelines (with_system d s')) with (sys_pipelines s'). intros Hpl.
  destruct (pipelines d !! pk) as [pl|]; [|lia].
  destruct (Hpl pl eq_refl) as (pl' & -> & ?). lia.
Qed.

Lemma blocked_step pk a b :
  relayer_step a b → blocked pk a → d_cancelled (rl_daemon b) = false →
  blocked pk b ∧ stands_still a b.
Proof.
  intros Hstep ([l Hl] & Hhand & Hfull & Hcap & Hpk) Hnc. unfold blocked.
  destruct Hstep as [d d' ch sd Hr Hsys Hp Hh|d d' ch Hr Hpl|w w' pls pls' row rows now t began c cl h ch Hs
    |d ch pk0 l0 Hlen|d ch sd pk0 l0 q Hq Hc|d ch sd pk0 pl l0 Hpl Hh Hin Hn
    |d w pls rows ch sd pk0 pl l0 t ins1 ins2 Hd Hpl Hh Hlock Hins Ht|d s' ch sd (Hst & Hw & Hdom) Hu];
    simpl in *; simplify_eq.
  - unfold in_stages, stands_still, pipelines in *. simpl. rewrite Hsys, Hp, Hh.
    split; [by eauto 10|]. split_and!; [done..|]. intros. by simplify_eq.
  - lia.
  - destruct (decide (pk0 = pk)) as [-> |Hne]; [lia|].
    destruct (channels_apart ch pk0 (mkChannels q (ch_hand (channels_of ch pk0))) (Some (pk, l)) pk d Hne)
      as [-> ->]. split; [by eauto 10|by apply still_refl].
  - destruct (decide (pk0 = pk)) as [-> |Hne]; [by rewrite Hh in Hhand; destruct Hhand|].
    destruct (channels_apart ch pk0 (mkChannels (ch_input (channels_of ch pk0)) (Some l0))
      (Some (pk, l)) pk d Hne) as [-> ->]. split; [by eauto 10|by apply still_refl].
  - assert (pk0 ≠ pk) as Hne by (intros ->; by apply (Hlock l)).
    edestruct (channels_apart ch pk0 (mkChannels (ch_input (channels_of ch pk0)) None)
      (Some (pk, l)) pk) as [-> ->]; [done|].
    set (pls' := <[pk0 := PipelineDeduper_output t (with_inside pl (ins1 ++ ins2))]> pls).
    assert (∀ k, k ≠ pk0 → pls' !! k = pls !! k) as Hother
      by (intros; unfold pls'; by rewrite lookup_insert_ne).
    unfold in_stages, stands_still, pipelines in *. simpl. rewrite Hd in *. simpl in *.
    rewrite Hother by done. split; [by eauto 10|]. split_and!; [done..|].
    intros k pl1 pl2 H1 H2. destruct (decide (k = pk0)) as [-> |Hk].
    + unfold pls' in H2. rewrite lookup_insert_eq in H2. simplify_eq. simpl. set_solver.
    + rewrite Hother in H2 by done. by simplify_eq.
  - assert (∀ k pl, pipelines d !! k = Some pl → ∃ pl', sys_pipelines s' !! k = Some pl' ∧
      pl_inPipeline pl' = pl_inPipeline pl ∧ length (pl_inside pl) ≤ length (pl_inside pl')) as Hk.
    { intros k pl Hpl. destruct (is_Some_dom _ (sys_pipelines s') k Hdom) as [pl' Hpl']; [by eexists|].
      exists pl'. destruct (Hu k pl pl' Hpl Hpl') as (? & _ & ?). by auto. }
    split.
    + split_and!; [by eexists|done|done| |].
      * etransitivity; [exact Hcap|]. apply in_stages_grows. intros pl Hpl.
        destruct (Hk pk pl Hpl) as (pl' & ? & _ & ?). by eauto.
      * destruct Hpk as [pl Hpl]. destruct (Hk pk pl Hpl) as (pl' & ? & _). by eexists.
    + split_and!; [done..|]. intros k pl pl' Hpl Hpl'. unfold pipelines in Hpl'. simpl in Hpl'.
      destruct (Hk k pl Hpl) as (pl2 & ? & Heq & _). simplify_eq. by rewrite Heq.
Qed.

(** Pipelines are not closed before the context is cancelled. *)
Lemma relayer_step_keeps a b pk :
  relayer_step a b → is_Some (rl_sending a) → is_Some (pipelines (rl_daemon a) !! pk) →
  is_Some (pipelines (rl_daemon b) !! pk).
Proof.
  unfold pipelines.
  destruct 1 as [d d' ch sd Hr Hsys Hp Hh|d d' ch Hr Hpl|w w' pls pls' row rows now t began c cl h ch Hs
    |d ch pk0 l0 Hlen|d ch sd pk0 l0 q Hq Hc|d ch sd pk0 pl l0 Hpl Hh Hin Hn
    |d w pls rows ch sd pk0 pl l0 t ins1 ins2 Hd Hpl Hh Hlock Hins Ht|d s' ch sd (Hst & Hw & Hdom) Hu];
    simpl in *; intros Hsd Hpk; try done; try (by destruct Hsd).
  - by rewrite Hsys.
  - rewrite Hd in Hpk. simpl in Hpk. rewrite lookup_insert. by case_decide.
  - by eapply is_Some_dom.
Qed.

(** C21: a pipeline whose channel and stages are full, and whose goroutine waits
    for the lock that the dispatcher holds while it sends, stops the relaying on
    every pipeline for good: whatever the stages, the other dedupers, the API
    and the clock do, as long as the process is not stopped the dispatcher stays
    in that send, no further row is submitted and no further tick comes, and no
    pipeline gets a packet it did not have. *)
Theorem relayer_starves pk a b :
  blocked pk a → rtc relayer_step a b → d_cancelled (rl_daemon b) = false →
  blocked pk b ∧ stands_still a b.
Proof.
  intros Hbl Hr Hnc. induction Hr as [a|a a1 b Hstep Hr IH]; [by split; [|apply still_refl]|].
  assert (d_cancelled (rl_daemon a1) = false) as Hnc1.
  { destruct (d_cancelled (rl_daemon a1)) eqn:He; [|done].
    by rewrite (relayer_cancelled a1 b Hr He) in Hnc. }
  destruct (blocked_step pk a a1 Hstep Hbl Hnc1) as [Hbl1 Hst1].
  destruct (IH Hbl1 Hnc) as [Hbl2 Hst2]. split; [done|]. eapply still_trans; [done| |done].
  intros k. apply (relayer_step_keeps a); [done|]. destruct Hbl as [[l ->] _]. by eexists.
Qed.
End relayer.

(** ** The theorems applied

    The relayer of the running example starts, ticks, and submits the one row
    of its table. *)

Section example.
Local Existing Instance env_ab.

Definition example_capacity (_ : pipelineKey) : nat := 17.

Definition started : Daemon Z := Run_start demo_dispatcher (mkSystem start ∅ []) 0%Z.
Definition started_world : World Z := sys_world (d_system started).

Definition read : outcome (list db.Ibcv2Transfer) * World Z :=
  query db.GetUnfinishedIBCV2Transfers started_world.

Lemma read_eq : read = (Ret [demo.row_pending], read.2).
Proof. vm_compute. reflexivity. Qed.

Definition submitted : outcome (gmap pipelineKey (Pipeline Z)) * World Z :=
  submit_row demo.row_pending ∅ read.2.

Definition submitted_pipelines : gmap pipelineKey (Pipeline Z) :=
  match submitted.1 with Ret pls => pls | _ => ∅ end.

Lemma submitted_eq : submit_row demo.row_pending ∅ read.2 = (Ret submitted_pipelines, submitted.2).
Proof.
  assert (is_Ret submitted.1 = true) as Hret by (by vm_compute).
  unfold submitted_pipelines, submitted in *. by destruct (submit_row _ _ _) as [[]].
Qed.

Definition example_key : pipelineKey := newPipelineKey demo.transfer.

Definition sending : Relayer Z :=
  mkRelayer (mkDaemon (mkSystem submitted.2 submitted_pipelines []) Millisecond (mkTicker None)
    (Submitting Millisecond) false ∅ []) ∅ (Some (example_key, 2%positive)).

Lemma sending_run :
  rtc (relayer_step demo_dispatcher example_capacity) (relayer_start demo_dispatcher start 0%Z) sending.
Proof.
  unfold relayer_start. fold started.
  eapply rtc_l; [by apply (rl_clock _ _ _ (mkDaemon (d_system started) Millisecond (d_ticker started)
    Selecting false ∅ [])); [apply run_wait|..]|].
  eapply rtc_l.
  { apply (rl_loop _ _ _ (mkDaemon (mkSystem read.2 ∅ [demo.row_pending]) Millisecond (mkTicker None)
      (Submitting Millisecond) false ∅ [])); [|done].
    by eapply run_tick; [reflexivity|done|exact read_eq]. }
  apply rtc_once. unfold sending. 
  replace (Some (example_key, 2%positive)) with
    (just_pushed (newPipelineKey (NewIBCV2Transfer demo.row_pending)) ∅ submitted_pipelines)
    by (vm_compute; reflexivity).
  apply rl_submit. exact submitted_eq.
Qed.

Lemma sending_reaches :
  reaches (mkSystem start ∅ []) (mkSystem submitted.2 submitted_pipelines []).
Proof.
  apply healthy_reaches; [done|apply start_inv, demo.demo_row_wf|].
  eapply rtc_l; [split; [|done]; apply (step_outside _ (w_ext started_world) _ _ _ (w_metrics started_world)
    _ (w_log started_world))|].
  eapply rtc_l; [split; [exact (step_read started_world read.2 ∅ _ read_eq)|done]|].
  apply rtc_once. split; [exact (step_submit _ _ _ _ _ [] submitted_eq)|]. left. by vm_compute.
Qed.


(** A pipeline with one transfer in its stages, one in the hand of its
    goroutine, one that is being sent, and a full channel. *)
Definition crowd : list loc := deduper.many (deduper.inputBufferSize + 3).

Definition crowded : Pipeline Z :=
  mkPipeline [] (map (λ l, (mkPosition 0 false, l)) crowd) ∅.

Definition full : Relayer Z :=
  mkRelayer (mkDaemon (mkSystem start {[example_key := crowded]} [demo.row_pending]) 0%Z (mkTicker None)
    (Submitting 0%Z) false ∅ [])
    {[example_key := mkChannels (take deduper.inputBufferSize crowd)
        (crowd !! deduper.inputBufferSize)]}
    (Some (example_key, Pos.of_succ_nat (deduper.inputBufferSize + 1))).

Lemma crowd_length : length crowd = deduper.inputBufferSize + 3.
Proof. unfold crowd, deduper.many. by rewrite length_map, length_seq. Qed.

Lemma crowd_hand : is_Some (crowd !! deduper.inputBufferSize).
Proof. apply lookup_lt_is_Some. rewrite crowd_length. lia. Qed.

Lemma full_blocked : blocked (λ _, 1) example_key full.
Proof.
  assert (channels_of (rl_channels full) example_key =
    mkChannels (take deduper.inputBufferSize crowd) (crowd !! deduper.inputBufferSize)) as Hch
    by (unfold channels_of; simpl; by rewrite lookup_singleton_eq).
  assert (pipelines (rl_daemon full) !! example_key = Some crowded) as Hpl
    by (unfold pipelines; simpl; by rewrite lookup_singleton_eq).
  unfold blocked, in_stages, held_back. rewrite Hch, Hpl. split_and!.
  - by eexists.
  - apply crowd_hand.
  - simpl. rewrite length_take, crowd_length. lia.
  - unfold full. cbn [rl_sending ch_input ch_hand]. rewrite decide_True by done.
    destruct crowd_hand as [l0 ->]. unfold crowded. cbn [pl_inside].
    rewrite !length_app, length_map, length_take, crowd_length. simpl. lia.
  - by eexists.
Qed.

(** An hour later. *)
Definition full_later : Relayer Z :=
  mkRelayer (mkDaemon (d_system (rl_daemon full)) (60 * Minute)%Z (mkTicker None) (Submitting 0%Z)
    false ∅ []) (rl_channels full) (rl_sending full).

Lemma relayer_starves_witness :
  blocked (λ _, 1) example_key full_later ∧ stands_still full full_later.
Proof.
  apply (relayer_starves demo_dispatcher (λ _, 1)); [exact full_blocked| |reflexivity].
  apply rtc_once, rl_clock; [by apply run_wait|reflexivity..].
Defined.
End example.
