(* ===== verification/Client.v ===== *)
(** * Code that runs inside the external state

    The bridge clients, the signers and the price client keep state of their
    own (a clock reading, caches) and talk to nodes. Seen from the pipeline all
    of it is the abstract external state [X] of [World.v]; here is what is
    needed to write that code down:

    - the state and error monad [Ext X];
    - [Runtime]: [time.Now], [time.Sleep], the [select] on a timer and
      [ctx.Done()], and the logger;
    - [Lens]: a mutable Go object that lives in [X];
    - loops that end when a tick says so, cut after a number of ticks by the
      cancellation of the context. *)
From stdpp Require Import prelude strings list gmap.
From Stdlib Require Import ZArith.
From S2P Require Import Prelude Go Config Db Transfer World.
Open Scope Z_scope.

(** ** The monad *)

#[global] Instance Ext_ret {X} : MRet (Ext X) := λ A a x, (Ret a, x).

#[global] Instance Ext_bind {X} : MBind (Ext X) := λ A B k m x,
  match m x with
  | (Ret a, x') => k a x'
  | (Fail e, x') => (Fail e, x')
  | (Panic, x') => (Panic, x')
  end.

Section ops.
Context {X : Type}.

(** [return nil, e]. *)
Definition efail {A} (e : error) : Ext X A := λ x, (Fail e, x).

(** [panic(...)], a nil pointer or an index out of range. *)
Definition epanic {A} : Ext X A := λ x, (Panic, x).

(** A call without effects. *)
Definition elift {A} (o : outcome A) : Ext X A := λ x, (o, x).

(** [if err != nil { return nil, fmt.Errorf("msg: %w", err) }]. *)
Definition ewrap {A} (msg : string) (m : Ext X A) : Ext X A := λ x,
  match m x with
  | (Fail e, x') => (Fail (Errorf msg e), x')
  | r => r
  end.

(** [v, err := m], for code that looks at [err] itself. *)
Definition eattempt {A} (m : Ext X A) : Ext X (A + error) := λ x,
  match m x with
  | (Ret a, x') => (Ret (inl a), x')
  | (Fail e, x') => (Ret (inr e), x')
  | (Panic, x') => (Panic, x')
  end.

(** The outcome of a call as a value, panics included. *)
Definition eoutcome {A} (m : Ext X A) : Ext X (outcome A) := λ x,
  let '(o, x') := m x in (Ret o, x').

(** A nilable pointer that is dereferenced. *)
Definition ederef {A} (o : option A) : Ext X A :=
  match o with Some a => mret a | None => epanic end.

(** [for _, a := range l { acc = f(acc, a) }]. *)
Fixpoint efold {A S} (f : S → A → Ext X S) (l : list A) (s : S) : Ext X S :=
  match l with
  | [] => mret s
  | a :: l' => s' ← f s a; efold f l' s'
  end.
End ops.

(** ** The run time *)

(** [rt_wait d] is [select] between [time.After(d)] and [ctx.Done()]: [Some e]
    when the context is done, with [e] its error. [rt_Sleep] cannot be
    interrupted. *)
Class Runtime (X : Type) := mkRuntime {
  rt_Now : X → Time * X;
  rt_Sleep : Duration → X → X;
  rt_wait : Duration → X → option error * X;
  rt_Log : level → string → X → X;
}.

Section runtime.
Context {X : Type} `{!Runtime X}.

Definition enow : Ext X Time := λ x, let '(t, x') := rt_Now x in (Ret t, x').

(** [time.Since(t)]. *)
Definition esince (t : Time) : Ext X Duration := now ← enow; mret (time_Sub now t).

(** [time.Until(t)]. *)
Definition euntil (t : Time) : Ext X Duration := now ← enow; mret (time_Sub t now).

Definition esleep (d : Duration) : Ext X unit := λ x, (Ret tt, rt_Sleep d x).

Definition ewait (d : Duration) : Ext X unit := λ x,
  match rt_wait d x with
  | (None, x') => (Ret tt, x')
  | (Some e, x') => (Fail e, x')
  end.

Definition elog (l : level) (msg : string) : Ext X unit := λ x, (Ret tt, rt_Log l msg x).

(** ** Loops on a ticker

    [for { select { case <-ctx.Done(): return ctx.Err(); case <-ticker.C: ... } }]
    where the body either goes on with the next tick or returns. [d] is the
    delay before the next tick. A run that has not returned after [ticks] ticks
    is one whose context is cancelled there. *)
Fixpoint eloop {A} (ticks : nat) (d d' : Duration) (body : Ext X (option A)) : Ext X A :=
  match ticks with
  | O => efail (Sentinel ContextCanceled)
  | S n =>
      ewait d ≫= λ _,
      r ← body;
      match r with
      | Some a => mret a
      | None => eloop n d' d' body
      end
  end.
End runtime.

(** ** Mutable objects in the external state *)

Record Lens (X S : Type) := mkLens {
  lget : X → S;
  lset : S → X → X;
}.
Arguments mkLens {X S}.
Arguments lget {X S}.
Arguments lset {X S}.

(** An object is a part of the state of its own. *)
Class LensLaws {X S} (l : Lens X S) : Prop := mkLensLaws {
  lget_lset s x : lget l (lset l s x) = s;
  lset_lget x : lset l (lget l x) x = x;
  lset_lset s s' x : lset l s (lset l s' x) = lset l s x;
}.

(** A field of an object. *)
Definition lens_compose {X S T} (l : Lens X S) (m : Lens S T) : Lens X T :=
  mkLens (λ x, lget m (lget l x)) (λ t x, lset l (lset m t (lget l x)) x).

#[global] Instance lens_compose_laws {X S T} (l : Lens X S) (m : Lens S T) :
  LensLaws l → LensLaws m → LensLaws (lens_compose l m).
Proof.
  intros Hl Hm. split; intros; simpl.
  - by rewrite !lget_lset.
  - by rewrite !lset_lget.
  - by rewrite lget_lset, !lset_lset.
Qed.

Section lens.
Context {X S : Type} (l : Lens X S).

Definition eget : Ext X S := λ x, (Ret (lget l x), x).
Definition eset (s : S) : Ext X unit := λ x, (Ret tt, lset l s x).

(** A call that does not touch the object. *)
Definition keeps {A} (m : Ext X A) : Prop := ∀ x, lget l (m x).2 = lget l x.

Lemma keeps_ret {A} (a : A) : keeps (mret a).
Proof. done. Qed.

Lemma keeps_bind {A B} (m : Ext X A) (k : A → Ext X B) :
  keeps m → (∀ a, keeps (k a)) → keeps (m ≫= k).
Proof.
  intros Hm Hk x. specialize (Hm x). unfold mbind, Ext_bind.
  destruct (m x) as [[a|e|] x']; simpl in *; [|done..]. by rewrite Hk.
Qed.

Lemma keeps_wrap {A} msg (m : Ext X A) : keeps m → keeps (ewrap msg m).
Proof. intros Hm x. specialize (Hm x). unfold ewrap. by destruct (m x) as [[a|e|] x']. Qed.

Lemma keeps_attempt {A} (m : Ext X A) : keeps m → keeps (eattempt m).
Proof. intros Hm x. specialize (Hm x). unfold eattempt. by destruct (m x) as [[a|e|] x']. Qed.

Lemma keeps_lift {A} (o : outcome A) : keeps (elift o).
Proof. done. Qed.

Lemma keeps_fail {A} e : keeps (@efail X A e).
Proof. done. Qed.

Lemma keeps_panic {A} : keeps (@epanic X A).
Proof. done. Qed.

Lemma keeps_deref {A} (o : option A) : keeps (@ederef X A o).
Proof. by destruct o. Qed.

Lemma keeps_get : keeps eget.
Proof. done. Qed.

(** The run time has no access to the object. *)
Class RuntimeKeeps `{!Runtime X} : Prop := mkRuntimeKeeps {
  keeps_Now x : lget l (rt_Now x).2 = lget l x;
  keeps_Sleep d x : lget l (rt_Sleep d x) = lget l x;
  keeps_rt_wait d x : lget l (rt_wait d x).2 = lget l x;
  keeps_Log lv msg x : lget l (rt_Log lv msg x) = lget l x;
}.

Context `{!Runtime X} `{!RuntimeKeeps}.

Lemma keeps_enow : keeps enow.
Proof. intros x. unfold enow. pose proof (keeps_Now x). by destruct (rt_Now x). Qed.

Lemma keeps_log lv msg : keeps (elog lv msg).
Proof. intros x. apply keeps_Log. Qed.

Lemma keeps_sleep d : keeps (esleep d).
Proof. intros x. apply keeps_Sleep. Qed.

Lemma keeps_wait d : keeps (ewait d).
Proof. intros x. unfold ewait. pose proof (keeps_rt_wait d x). by destruct (rt_wait d x) as [[]?]. Qed.

Lemma keeps_since t : keeps (esince t).
Proof. apply keeps_bind; [apply keeps_enow|intros; apply keeps_ret]. Qed.

Lemma keeps_until t : keeps (euntil t).
Proof. apply keeps_bind; [apply keeps_enow|intros; apply keeps_ret]. Qed.
End lens.
Arguments RuntimeKeeps {X S} l {_}.

Create HintDb keeps.
#[export] Hint Resolve keeps_ret keeps_bind keeps_wrap keeps_attempt keeps_lift keeps_fail
  keeps_panic keeps_deref keeps_get keeps_enow keeps_log keeps_sleep keeps_wait keeps_since
  keeps_until : keeps.

(** ** Running a program one call at a time *)

Section run.
Context {X : Type}.

Lemma ebind_Ret {A B} (m : Ext X A) (k : A → Ext X B) x a x' :
  m x = (Ret a, x') → (m ≫= k) x = k a x'.
Proof. unfold mbind, Ext_bind. by intros ->. Qed.

Lemma ebind_Fail {A B} (m : Ext X A) (k : A → Ext X B) x e x' :
  m x = (Fail e, x') → (m ≫= k) x = (Fail e, x').
Proof. unfold mbind, Ext_bind. by intros ->. Qed.

Lemma ebind_Panic {A B} (m : Ext X A) (k : A → Ext X B) x x' :
  m x = (Panic, x') → (m ≫= k) x = (Panic, x').
Proof. unfold mbind, Ext_bind. by intros ->. Qed.

(** A result of a sequence comes from a result of its first half. *)
Lemma ebind_inv {A B} (m : Ext X A) (k : A → Ext X B) x b x' :
  (m ≫= k) x = (Ret b, x') → ∃ a x1, m x = (Ret a, x1) ∧ k a x1 = (Ret b, x').
Proof.
  unfold mbind, Ext_bind. destruct (m x) as [[a|e|] x1] eqn:E; intros; simplify_eq. eauto.
Qed.

Lemma ewrap_Ret {A} msg (m : Ext X A) x a x' : ewrap msg m x = (Ret a, x') ↔ m x = (Ret a, x').
Proof. unfold ewrap. destruct (m x) as [[] ?]; naive_solver. Qed.

(** The first tick that returns ends the loop, whatever the number of ticks
    allowed after it. *)
Lemma eloop_step `{!Runtime X} {A} n d d' (body : Ext X (option A)) x x1 :
  rt_wait d x = (None, x1) →
  eloop (S n) d d' body x =
    match body x1 with
    | (Ret (Some a), x2) => (Ret a, x2)
    | (Ret None, x2) => eloop n d' d' body x2
    | (Fail e, x2) => (Fail e, x2)
    | (Panic, x2) => (Panic, x2)
    end.
Proof.
  intros H. simpl. unfold mbind at 1, Ext_bind at 1, ewait. rewrite H.
  unfold mbind, Ext_bind. by destruct (body x1) as [[[a|]|e|] x2].
Qed.
End run.
