(* ===== verification/Float.v ===== *)
(** * Floating point

    The floating-point arithmetic of the fee code: [float64] values by their
    IEEE 754 bits, the products of [math/big.Float] and their truncation to an
    integer, and [math.Ceil] of a [float64] product. Rounding is to nearest,
    ties to even, as in Go. *)
From stdpp Require Import prelude strings list gmap.
From Stdlib Require Import ZArith.
From S2P Require Import Prelude Go Config.
Open Scope Z_scope.

(** ** [float64] *)

(** [FFinite m e] is the number [m * 2 ^ e]. *)
Inductive float_class :=
  | FNaN
  | FInf (negative : bool)
  | FFinite (m e : Z).

Definition float64_class (f : config.float64) : float_class :=
  let b := config.float64_bits f in
  let negative := Z.testbit b 63 in
  let exponent := Z.land (Z.shiftr b 52) 2047 in
  let fraction := Z.land b (2 ^ 52 - 1) in
  let sign := if negative then -1 else 1 in
  if exponent =? 2047 then if fraction =? 0 then FInf negative else FNaN
  else if exponent =? 0 then FFinite (sign * fraction) (-1074)
  else FFinite (sign * (2 ^ 52 + fraction)) (exponent - 1075).

(** [f > 0]. *)
Definition float_positive (f : config.float64) : bool :=
  match float64_class f with
  | FNaN => false
  | FInf negative => negb negative
  | FFinite m _ => 0 <? m
  end.

(** [f == 0]. *)
Definition float_zero (f : config.float64) : bool :=
  match float64_class f with FFinite m _ => m =? 0 | _ => false end.

(** ** Rounding *)

(** The number of bits of a magnitude, [big.Int.BitLen]. *)
Definition BitLen (z : Z) : Z := if z =? 0 then 0 else Z.log2 (Z.abs z) + 1.

(** A magnitude rounded to [p] significant bits. *)
Definition round_magnitude (p z : Z) : Z :=
  let d := BitLen z - p in
  if d <=? 0 then z
  else
    let q := z / 2 ^ d in
    let r := z mod 2 ^ d in
    let half := 2 ^ (d - 1) in
    (q + (if (half <? r) || ((half =? r) && Z.odd q) then 1 else 0)) * 2 ^ d.

Definition round (p z : Z) : Z := Z.sgn z * round_magnitude p (Z.abs z).

(** [m * 2 ^ e] without its fraction. *)
Definition truncate (m e : Z) : Z := if 0 <=? e then m * 2 ^ e else Z.quot m (2 ^ (- e)).

(** ** Products *)

(** [new(big.Float).Mul(x, y).Int(nil)] for the integer [z] at precision
    [prec] and the float [f]: a NaN operand and the product of zero and an
    infinity panic, an infinite product has no integer. *)
Definition mul_to_int (prec z : Z) (f : config.float64) : outcome (option Z) :=
  match float64_class f with
  | FNaN => Panic
  | FInf _ => if z =? 0 then Panic else Ret None
  | FFinite m e => Ret (Some (truncate (round prec (z * m)) e))
  end.

(** [SetInt] takes the precision of the integer, at least 64 bits. *)
Definition MulFloat (z : Z) (f : config.float64) : outcome (option Z) :=
  mul_to_int (Z.max 64 (BitLen z)) z f.

(** [uint64(math.Ceil(float64(gas) * 1.5))]: [float64(gas)] has 53 bits, and so
    has its product with 1.5, which is a number of halves. *)
Definition ceil_three_halves (gas : Z) : Z :=
  uint64 ((round 53 (3 * round 53 gas) + 1) / 2).

(** ** Facts *)

Lemma round_magnitude_small p z : 0 ≤ z < 2 ^ p → 0 ≤ p → round_magnitude p z = z.
Proof.
  intros Hz Hp. unfold round_magnitude, BitLen. destruct (Z.eqb_spec z 0) as [->|Hne].
  { rewrite (proj2 (Z.leb_le _ _)); [done|lia]. }
  rewrite (proj2 (Z.leb_le _ _)); [done|]. rewrite Z.abs_eq by lia.
  assert (Z.log2 z < p) by (apply Z.log2_lt_pow2; lia). lia.
Qed.

Lemma round_small p z : 0 ≤ z < 2 ^ p → 0 ≤ p → round p z = z.
Proof.
  intros Hz Hp. unfold round. rewrite Z.abs_eq by lia.
  rewrite round_magnitude_small by lia.
  destruct (Z.eq_dec z 0) as [->|]; [done|]. rewrite Z.sgn_pos by lia. lia.
Qed.

(** Rounding never goes below a number of [p] bits. *)
Lemma round_magnitude_above p c k x :
  0 < p → 0 ≤ k → 0 ≤ c < 2 ^ p → c * 2 ^ k ≤ x → 0 < x → c * 2 ^ k ≤ round_magnitude p x.
Proof.
  intros Hp Hk Hc Hx Hpos. unfold round_magnitude, BitLen.
  rewrite (proj2 (Z.eqb_neq x 0)) by lia. rewrite Z.abs_eq by lia.
  set (d := Z.log2 x + 1 - p). destruct (Z.leb_spec d 0) as [Hd|Hd]; [done|].
  set (q := x / 2 ^ d). match goal with |- context [if ?c then 1 else 0] => set (b := if c then 1 else 0) end.
  assert (0 ≤ b) by (unfold b; case_match; lia).
  assert (Hd2 : 0 < 2 ^ d) by (apply Z.pow_pos_nonneg; lia).
  cut (c * 2 ^ k ≤ q * 2 ^ d); [nia|].
  destruct (Z.le_gt_cases d k) as [Hdk|Hkd].
  - replace (2 ^ k) with (2 ^ (k - d) * 2 ^ d) in * by (rewrite <- Z.pow_add_r by lia; f_equal; lia).
    rewrite Z.mul_assoc in *. apply Z.mul_le_mono_nonneg_r; [lia|].
    apply Z.div_le_lower_bound; [done|]. lia.
  - assert (Hq : 2 ^ (p - 1) ≤ q).
    { apply Z.div_le_lower_bound; [done|]. rewrite <- Z.pow_add_r by lia.
      replace (d + (p - 1)) with (Z.log2 x) by (unfold d; lia). by apply Z.log2_spec. }
    assert (Hpk : 2 ^ p * 2 ^ k ≤ 2 ^ (p - 1) * 2 ^ d).
    { rewrite <- !Z.pow_add_r by lia. apply Z.pow_le_mono_r; lia. }
    assert (0 < 2 ^ k) by (apply Z.pow_pos_nonneg; lia). nia.
Qed.

(** A float of at least one. *)
Definition at_least_one (m e : Z) : Prop :=
  if 0 <=? e then 1 ≤ m else 2 ^ (- e) ≤ m.

Lemma BitLen_bound z : 0 ≤ z → z < 2 ^ BitLen z.
Proof.
  intros Hz. unfold BitLen. destruct (Z.eqb_spec z 0) as [->|]; [done|].
  rewrite Z.abs_eq by lia. apply Z.log2_spec. lia.
Qed.

Lemma MulFloat_ge z f m e :
  float64_class f = FFinite m e → at_least_one m e → 0 ≤ z →
  ∃ y, MulFloat z f = Ret (Some y) ∧ z ≤ y.
Proof.
  intros Hf Hm Hz. unfold MulFloat, mul_to_int. rewrite Hf. eexists. split; [done|].
  set (p := Z.max 64 (BitLen z)).
  assert (Hzp : z < 2 ^ p).
  { eapply Z.lt_le_trans; [by apply BitLen_bound|]. apply Z.pow_le_mono_r; lia. }
  unfold at_least_one, truncate in *. destruct (Z.eq_dec z 0) as [->|Hz0].
  { change (round p (0 * m)) with 0. case_match; [lia|].
    rewrite Z.quot_0_l; [lia|]. apply Z.pow_nonzero; lia. }
  destruct (Z.leb_spec 0 e) as [He|He].
  - assert (Hr : z * 2 ^ 0 ≤ round_magnitude p (z * m)).
    { apply round_magnitude_above; [lia..|rewrite Z.pow_0_r|]; nia. }
    rewrite Z.pow_0_r in Hr. unfold round. rewrite Z.sgn_pos, Z.abs_eq by nia.
    assert (0 < 2 ^ e) by (apply Z.pow_pos_nonneg; lia). nia.
  - assert (H2 : 0 < 2 ^ (- e)) by (apply Z.pow_pos_nonneg; lia).
    assert (Hr : z * 2 ^ (- e) ≤ round_magnitude p (z * m)).
    { apply round_magnitude_above; [lia..| |]; nia. }
    unfold round. rewrite Z.sgn_pos, Z.abs_eq by nia. rewrite Z.mul_1_l.
    apply Z.quot_le_lower_bound; lia.
Qed.

(** Up to [2 ^ 51] units of gas the limit is exactly half more, rounded up. *)
Lemma ceil_three_halves_exact gas :
  0 ≤ gas < 2 ^ 51 → ceil_three_halves gas = (3 * gas + 1) / 2.
Proof.
  intros Hg. unfold ceil_three_halves. rewrite (round_small 53 gas) by lia.
  rewrite round_small by lia. unfold uint64. apply Z.mod_small. split.
  - apply Z.div_pos; lia.
  - apply Z.div_lt_upper_bound; lia.
Qed.

(** ** [float64] arithmetic

    Finite values as pairs [m * 2 ^ e]; each operation rounds its exact result
    to 53 bits. Overflow and subnormal results are outside the model. *)

Definition dyadic : Type := Z * Z.

Definition fl_of_Z (z : Z) : dyadic := (round 53 z, 0).

Definition fl_mul (a b : dyadic) : dyadic := (round 53 (a.1 * b.1), a.2 + b.2).

Definition fl_add (a b : dyadic) : dyadic :=
  let e := Z.min a.2 b.2 in
  (round 53 (a.1 * 2 ^ (a.2 - e) + b.1 * 2 ^ (b.2 - e)), e).

(** The quotient to well over 53 bits, with one more bit that says whether
    there is a remainder. *)
Definition fl_div (a b : dyadic) : dyadic :=
  let k := 64 + BitLen b.1 in
  let q := Z.quot (a.1 * 2 ^ k) b.1 in
  let sticky := if Z.rem (a.1 * 2 ^ k) b.1 =? 0 then 0 else Z.sgn a.1 * Z.sgn b.1 in
  (round 53 (2 * q + sticky), a.2 - b.2 - k - 1).

(** [math.Pow10(n)] for [0 <= n <= 308]: the product of two table entries. *)
Definition Pow10 (n : Z) : dyadic :=
  fl_mul (fl_of_Z (10 ^ (32 * (n / 32)))) (fl_of_Z (10 ^ (n mod 32))).

(** A value times [10 ^ 6], rounded to the nearest integer, ties to even: the
    digits of [fmt.Sprintf("%f", v)] without the point. *)
Definition millionths (a : dyadic) : Z :=
  let n := a.1 * 10 ^ 6 in
  if 0 <=? a.2 then n * 2 ^ a.2
  else
    let d := 2 ^ (- a.2) in
    let q := Z.abs n / d in
    let r := 2 * (Z.abs n mod d) in
    Z.sgn n * (q + (if (d <? r) || ((d =? r) && Z.odd q) then 1 else 0)).

Lemma fl_of_Z_exact z : 0 ≤ z < 2 ^ 53 → fl_of_Z z = (z, 0).
Proof. intros. unfold fl_of_Z. by rewrite round_small. Qed.
