(* ===== verification/Once.v ===== *)
(** * Calls made once per key

    [OnceWithKey] and [onceWithTimeout] of [shared/bridges/ibcv2/once.go]: a
    map from keys to pointers to one-shot calls, each with the instants after
    which its success or its error no longer counts. [Do] is the code run by
    one caller at a time; [OnceRun.v] has the interleavings of many.

    Keys are of type [any] in Go: the callers use strings, and [Do] itself
    passes a pointer to [delete], so a key is a string or a pointer. *)
From stdpp Require Import prelude strings list gmap.
From Stdlib Require Import ZArith.
From S2P Require Import Prelude Go Config Db Transfer World Client.
Open Scope Z_scope.

(** ** Data *)

(** [once_value] is the state of [sync.OnceValues]: the outcome of the action
    once it has run. *)
Record onceWithTimeout (T : Type) := mkOnceWithTimeout {
  once_value : option (outcome T);
  once_errorTimeout : Time;
  once_successTimeout : Time;
  once_err : option error;
}.
Arguments mkOnceWithTimeout {T}.
Arguments once_value {T}.
Arguments once_errorTimeout {T}.
Arguments once_successTimeout {T}.
Arguments once_err {T}.

Definition once_key : Type := string + positive.

(** [once_heap] holds the objects the pointers of [onces] refer to. *)
Record OnceWithKey (T : Type) := mkOnceWithKey {
  onces : gmap once_key positive;
  once_heap : gmap positive (onceWithTimeout T);
  once_next : positive;
  successTimeout : Duration;
  errorTimeout : Duration;
}.
Arguments mkOnceWithKey {T}.
Arguments onces {T}.
Arguments once_heap {T}.
Arguments once_next {T}.
Arguments successTimeout {T}.
Arguments errorTimeout {T}.

Definition NewOnceWithKey {T} (sucessTimeout errorTimeout : Duration) : OnceWithKey T :=
  mkOnceWithKey ∅ ∅ 1 sucessTimeout errorTimeout.

(** ** The steps of a call *)

Section steps.
Context {T : Type}.
Implicit Types (o : OnceWithKey T) (e : onceWithTimeout T) (p : positive).

(** [newOnceWithTimeout], with the two readings of the clock. *)
Definition newOnceWithTimeout (t1 t2 : Time) (successTimeout errorTimeout : Duration)
    : onceWithTimeout T :=
  mkOnceWithTimeout None (time_Add t1 errorTimeout) (time_Add t2 successTimeout) None.

(** [IsTimedOut], with its two readings of the clock. *)
Definition timed_out (t1 t2 : Time) e : bool :=
  let errorTimeout := negb (Before t1 (once_errorTimeout e)) && has (once_err e) in
  let successTimeout := negb (Before t2 (once_successTimeout e)) && is_nil (once_err e) in
  errorTimeout || successTimeout.

(** [o.onces[key] = once] for a new [once]. *)
Definition put_once (key : string) e o : OnceWithKey T :=
  mkOnceWithKey (<[inl key := once_next o]> (onces o)) (<[once_next o := e]> (once_heap o))
    (Pos.succ (once_next o)) (successTimeout o) (errorTimeout o).

Definition alter_once (f : onceWithTimeout T → onceWithTimeout T) p o : OnceWithKey T :=
  mkOnceWithKey (onces o) (alter f p (once_heap o)) (once_next o) (successTimeout o)
    (errorTimeout o).

Definition set_value (r : outcome T) e : onceWithTimeout T :=
  mkOnceWithTimeout (Some r) (once_errorTimeout e) (once_successTimeout e) (once_err e).

(** [SetError]. *)
Definition SetError (err : error) e : onceWithTimeout T :=
  mkOnceWithTimeout (once_value e) (once_errorTimeout e) (once_successTimeout e) (Some err).

(** [delete(o.onces, once)]. *)
Definition delete_once p o : OnceWithKey T :=
  mkOnceWithKey (delete (inr p) (onces o)) (once_heap o) (once_next o) (successTimeout o)
    (errorTimeout o).
End steps.

(** ** The call *)

Section do.
Context {X T : Type} `{!Runtime X} (l : Lens X (OnceWithKey T)).

Definition IsTimedOut (e : onceWithTimeout T) : Ext X bool :=
  t1 ← enow; t2 ← enow; mret (timed_out t1 t2 e).

Definition create_once (key : string) : Ext X positive :=
  o ← eget l;
  t1 ← enow; t2 ← enow;
  eset l (put_once key (newOnceWithTimeout t1 t2 (successTimeout o) (errorTimeout o)) o) ≫= λ _,
  mret (once_next o).

Definition read_once (p : positive) : Ext X (onceWithTimeout T) :=
  o ← eget l; ederef (once_heap o !! p).

Definition modify_once (f : onceWithTimeout T → onceWithTimeout T) (p : positive) : Ext X unit :=
  o ← eget l; eset l (alter_once f p o).

(** The first critical section: the pointer the caller uses. *)
Definition join_once (key : string) : Ext X positive :=
  o ← eget l;
  match onces o !! inl key with
  | None => create_once key
  | Some p =>
      e ← read_once p;
      b ← IsTimedOut e;
      if (b : bool) then create_once key else mret p
  end.

(** [once.once()]: the function [sync.OnceValues] made of the action. Its
    outcome is a value here, for the code that looks at the error. *)
Definition run_once (p : positive) (action : Ext X T) : Ext X (outcome T) :=
  e ← read_once p;
  match once_value e with
  | Some r => mret r
  | None =>
      r ← eoutcome action;
      modify_once (set_value r) p ≫= λ _, mret r
  end.

(** The second critical section. *)
Definition leave_once (p : positive) : Ext X unit :=
  e ← read_once p;
  b ← IsTimedOut e;
  if (b : bool) then (o ← eget l; eset l (delete_once p o)) else mret tt.

Definition Do (key : string) (action : Ext X T) : Ext X T :=
  p ← join_once key;
  r ← run_once p action;
  match r with
  | Panic => epanic
  | Ret value => leave_once p ≫= λ _, mret value
  | Fail err =>
      modify_once (SetError err) p ≫= λ _,
      leave_once p ≫= λ _, efail err
  end.
End do.

(** ** Well-formed states *)

Section wf.
Context {T : Type}.
Implicit Types o : OnceWithKey T.

(** Every key is a string, every pointer of the map is allocated, and no two
    keys share an object. *)
Record once_wf o : Prop := mkOnceWf {
  wf_string k p : onces o !! k = Some p → ∃ s, k = inl s;
  wf_alloc k p : onces o !! k = Some p → is_Some (once_heap o !! p);
  wf_next p : is_Some (once_heap o !! p) → (p < once_next o)%positive;
  wf_inj k k' p : onces o !! k = Some p → onces o !! k' = Some p → k = k';
}.

Lemma once_wf_new sT eT : once_wf (NewOnceWithKey sT eT : OnceWithKey T).
Proof.
  split; simpl; intros *; rewrite ?lookup_empty; try done.
Qed.

Lemma once_wf_fresh o k p : once_wf o → onces o !! k = Some p → p ≠ once_next o.
Proof.
  intros Hw Hk ->. apply wf_alloc in Hk; [|done]. apply wf_next in Hk; [|done]. lia.
Qed.

Lemma once_wf_put key e o : once_wf o → once_wf (put_once key e o).
Proof.
  intros Hw. split; simpl.
  - intros k p [[<- _]|[_ H]]%lookup_insert_Some; [eauto|by eapply wf_string].
  - intros k p [[_ <-]|[_ H]]%lookup_insert_Some; [by rewrite lookup_insert_eq; eauto|].
    rewrite lookup_insert_ne by (apply not_eq_sym; by eapply once_wf_fresh). by eapply wf_alloc.
  - intros p [e' [[<- _]|[_ H]]%lookup_insert_Some]; [lia|].
    assert (p < once_next o)%positive by (eapply wf_next; eauto). lia.
  - intros k k' p [[<- <-]|[? H]]%lookup_insert_Some [[<- Hp]|[? H']]%lookup_insert_Some;
      [done| | |by eapply wf_inj].
    + by eapply once_wf_fresh in H'.
    + subst. by eapply once_wf_fresh in H.
Qed.

Lemma once_wf_alter f p o : once_wf o → once_wf (alter_once f p o).
Proof.
  intros Hw. split; simpl; try apply Hw.
  - intros k q H. rewrite lookup_alter_is_Some. by eapply wf_alloc.
  - intros q H. rewrite lookup_alter_is_Some in H. by eapply wf_next.
Qed.

(** The pointer passed to [delete] is never a key: the map keeps its entry. *)
Lemma delete_once_id p o : once_wf o → delete_once p o = o.
Proof.
  intros Hw. destruct o as [m h n sT eT]. unfold delete_once; simpl. f_equal.
  apply delete_id, eq_None_not_Some. intros [q Hq].
  by destruct (wf_string _ Hw _ _ Hq) as [s [=]].
Qed.
End wf.
