(* ===== verification/OnceLaws.v ===== *)
(** * What [OnceWithKey.Do] does for one caller

    The outcome of a call that finds no live entry ([Do_runs]) and of one that
    does ([Do_reuses]), the state both leave behind, and how the map of entries
    grows ([Do_grows]). *)
From stdpp Require Import prelude strings list gmap.
From Stdlib Require Import ZArith.
From S2P Require Import Prelude Go Config Db Transfer World Client Once.
Open Scope Z_scope.

(** The live object of a key. *)
Definition entry_of {T} (key : string) (o : OnceWithKey T) : option (onceWithTimeout T) :=
  match onces o !! inl key with Some p => once_heap o !! p | None => None end.

(** The error [Do] records next to an outcome. *)
Definition err_of {T} (r : outcome T) : option error :=
  match r with Fail e => Some e | _ => None end.

(** The next two readings of the clock. *)
Definition read1 {X} `{!Runtime X} (x : X) : Time := (rt_Now x).1.
Definition after1 {X} `{!Runtime X} (x : X) : X := (rt_Now x).2.
Definition read2 {X} `{!Runtime X} (x : X) : Time := read1 (after1 x).
Definition after2 {X} `{!Runtime X} (x : X) : X := after1 (after1 x).

(** A key whose entry is missing or no longer counts at [x]. *)
Definition stale {X T} `{!Runtime X} (key : string) (o : OnceWithKey T) (x : X) : Prop :=
  match entry_of key o with
  | None => onces o !! inl key = None
  | Some e => timed_out (read1 x) (read2 x) e = true
  end.

(** An entry the code has finished with: what [Do] returns for it. *)
Definition settled {T} (e : onceWithTimeout T) (r : outcome T) : Prop :=
  once_value e = Some r ∧ once_err e = err_of r ∧ r ≠ Panic.

Section do.
Context {X T : Type} `{!Runtime X} (l : Lens X (OnceWithKey T)).
Context `{!LensLaws l} `{!RuntimeKeeps l}.
Implicit Types (x : X) (p : positive) (e : onceWithTimeout T) (action : Ext X T).

Lemma enow_run x : enow x = (Ret (read1 x), after1 x).
Proof. unfold enow, read1, after1. by destruct (rt_Now x). Qed.

Lemma lget_after1 x : lget l (after1 x) = lget l x.
Proof. unfold after1. by rewrite keeps_Now. Qed.

Lemma lget_after2 x : lget l (after2 x) = lget l x.
Proof. unfold after2. by rewrite !lget_after1. Qed.

Lemma IsTimedOut_run e x : IsTimedOut e x = (Ret (timed_out (read1 x) (read2 x) e), after2 x).
Proof.
  unfold IsTimedOut. erewrite ebind_Ret by apply enow_run.
  by erewrite ebind_Ret by apply enow_run.
Qed.

Lemma read_once_run p e x :
  once_heap (lget l x) !! p = Some e → read_once l p x = (Ret e, x).
Proof. intros H. unfold read_once. erewrite ebind_Ret by done. by rewrite H. Qed.

Lemma modify_once_run f p x :
  modify_once l f p x = (Ret tt, lset l (alter_once f p (lget l x)) x).
Proof. done. Qed.

(** The entry a new call puts in place. *)
Definition fresh_once x : onceWithTimeout T :=
  newOnceWithTimeout (read1 x) (read2 x) (successTimeout (lget l x)) (errorTimeout (lget l x)).

Lemma create_once_run key x :
  create_once l key x =
    (Ret (once_next (lget l x)), lset l (put_once key (fresh_once x) (lget l x)) (after2 x)).
Proof.
  unfold create_once. erewrite ebind_Ret by done.
  erewrite ebind_Ret by apply enow_run. by erewrite ebind_Ret by apply enow_run.
Qed.

(** Where the call that runs the action starts it. *)
Definition start_state (key : string) x : X :=
  let x0 := match entry_of key (lget l x) with Some _ => after2 x | None => x end in
  lset l (put_once key (fresh_once x0) (lget l x)) (after2 x0).

Definition start_entry (key : string) x : onceWithTimeout T :=
  fresh_once (match entry_of key (lget l x) with Some _ => after2 x | None => x end).

Lemma join_once_stale key x :
  stale key (lget l x) x →
  join_once l key x = (Ret (once_next (lget l x)), start_state key x).
Proof.
  unfold stale, start_state, join_once. intros Hs. erewrite ebind_Ret by done.
  destruct (onces (lget l x) !! inl key) as [p|] eqn:Hp.
  - unfold entry_of in *. rewrite Hp in *.
    destruct (once_heap (lget l x) !! p) as [e|] eqn:He; [|done].
    erewrite ebind_Ret by (by apply read_once_run).
    erewrite ebind_Ret by apply IsTimedOut_run. rewrite Hs, create_once_run.
    by rewrite lget_after2.
  - unfold entry_of in *. rewrite Hp in *. by rewrite create_once_run.
Qed.

Lemma join_once_live key p e x :
  onces (lget l x) !! inl key = Some p → once_heap (lget l x) !! p = Some e →
  timed_out (read1 x) (read2 x) e = false →
  join_once l key x = (Ret p, after2 x).
Proof.
  intros Hp He Ht. unfold join_once. erewrite ebind_Ret by done. rewrite Hp.
  erewrite ebind_Ret by (by apply read_once_run).
  erewrite ebind_Ret by apply IsTimedOut_run. by rewrite Ht.
Qed.

Lemma leave_once_run p e x :
  once_wf (lget l x) → once_heap (lget l x) !! p = Some e →
  leave_once l p x = (Ret tt, after2 x).
Proof.
  intros Hw He. unfold leave_once. erewrite ebind_Ret by (by apply read_once_run).
  erewrite ebind_Ret by apply IsTimedOut_run.
  destruct (timed_out _ _ e); [|done].
  erewrite ebind_Ret by done. rewrite delete_once_id by (by rewrite lget_after2).
  unfold eset. by rewrite lset_lget.
Qed.

(** The second half of [Do], from a state in which the outcome is known. *)
Definition finish (p : positive) (r : outcome T) : Ext X T :=
  match r with
  | Panic => epanic
  | Ret value => leave_once l p ≫= λ _, mret value
  | Fail err => modify_once l (SetError err) p ≫= λ _, leave_once l p ≫= λ _, efail err
  end.

Lemma finish_run p r e x :
  once_wf (lget l x) → once_heap (lget l x) !! p = Some e → once_err e = None → r ≠ Panic →
  ∃ x', finish p r x = (r, x') ∧
    lget l x' = match r with
                | Fail err => alter_once (SetError err) p (lget l x)
                | _ => lget l x
                end.
Proof.
  intros Hw He Herr Hr. destruct r as [v|err|]; [| |done]; unfold finish.
  - erewrite ebind_Ret by (by eapply leave_once_run). eexists; split; [done|].
    apply lget_after2.
  - erewrite ebind_Ret by apply modify_once_run.
    erewrite ebind_Ret.
    2:{ eapply leave_once_run; rewrite lget_lset; [by apply once_wf_alter|].
        unfold alter_once; simpl. by rewrite lookup_alter_eq, He. }
    eexists; split; [done|]. by rewrite lget_after2, lget_lset.
Qed.

(** A call that finds no live entry runs its action, once, and returns what the
    action returned; the entry of the key holds that outcome from then on. *)
Lemma Do_runs_gen key action x r x1 :
  once_wf (lget l x) → keeps l action → stale key (lget l x) x →
  action (start_state key x) = (r, x1) → r ≠ Panic →
  ∃ x', Do l key action x = (r, x') ∧ once_wf (lget l x') ∧
    entry_of key (lget l x') =
      Some (mkOnceWithTimeout (Some r) (once_errorTimeout (start_entry key x))
              (once_successTimeout (start_entry key x)) (err_of r)).
Proof.
  intros Hw Hk Hs Ha Hr. set (p := once_next (lget l x)).
  set (o1 := put_once key (start_entry key x) (lget l x)).
  assert (Hw1 : once_wf o1) by by apply once_wf_put.
  assert (Hstart : lget l (start_state key x) = o1).
  { unfold start_state. rewrite lget_lset. unfold o1, start_entry. by destruct (entry_of _ _). }
  assert (Hx1 : lget l x1 = o1) by (pose proof (Hk (start_state key x)) as H; rewrite Ha in H; by rewrite <- Hstart).
  set (x2 := lset l (alter_once (set_value r) p o1) x1).
  assert (Hx2 : lget l x2 = alter_once (set_value r) p o1) by apply lget_lset.
  assert (Hh : once_heap o1 !! p = Some (start_entry key x)) by (simpl; apply lookup_insert_eq).
  assert (Hrun : run_once l p action (start_state key x) = (Ret r, x2)).
  { unfold run_once. erewrite ebind_Ret by (apply read_once_run; by rewrite Hstart).
    change (once_value (start_entry key x)) with (@None (outcome T)). cbv beta iota.
    erewrite ebind_Ret by (unfold eoutcome; by rewrite Ha).
    erewrite ebind_Ret by apply modify_once_run. by rewrite Hx1. }
  assert (He2 : once_heap (lget l x2) !! p = Some (set_value r (start_entry key x))).
  { rewrite Hx2. simpl. by rewrite lookup_alter_eq, lookup_insert_eq. }
  destruct (finish_run p r (set_value r (start_entry key x)) x2) as (x' & Hf & Hx'); [by rewrite Hx2; apply once_wf_alter|done|done|done|].
  exists x'. split_and!.
  - unfold Do. erewrite ebind_Ret by (by apply join_once_stale). by erewrite ebind_Ret by done.
  - rewrite Hx', Hx2. destruct r; repeat apply once_wf_alter; done.
  - rewrite Hx', Hx2. unfold entry_of. destruct r; [| |done]; simpl;
      by rewrite lookup_insert_eq, ?lookup_alter_eq, lookup_insert_eq.
Qed.

(** A call that finds a live entry returns its outcome, whatever its action. *)
Lemma Do_reuses_gen key e r x :
  once_wf (lget l x) → entry_of key (lget l x) = Some e → settled e r →
  timed_out (read1 x) (read2 x) e = false →
  ∃ x', (∀ action, Do l key action x = (r, x')) ∧ lget l x' = lget l x.
Proof.
  intros Hw He (Hv & Herr & Hr) Ht. unfold entry_of in He.
  destruct (onces (lget l x) !! inl key) as [p|] eqn:Hp; [|done].
  assert (Hrun : ∀ action, run_once l p action (after2 x) = (Ret r, after2 x)).
  { intros. unfold run_once.
    erewrite ebind_Ret by (apply read_once_run; by rewrite lget_after2). by rewrite Hv. }
  destruct r as [v|err|]; [| |done].
  - exists (after2 (after2 x)). split; [|by rewrite !lget_after2]. intros action.
    unfold Do. erewrite ebind_Ret by (by eapply join_once_live). erewrite ebind_Ret by apply Hrun.
    cbv beta iota.
    by erewrite ebind_Ret by (eapply leave_once_run; by rewrite lget_after2).
  - assert (Hid : alter_once (SetError err) p (lget l x) = lget l x).
    { destruct (lget l x) as [m h n sT eT]. unfold alter_once; simpl in *. f_equal.
      apply map_eq. intros q. destruct (decide (q = p)) as [->|];
        [|by rewrite lookup_alter_ne].
      rewrite lookup_alter_eq, He. simpl. f_equal. destruct e. unfold SetError; simpl in *. congruence. }
    exists (after2 (after2 x)). split; [|by rewrite !lget_after2]. intros action.
    unfold Do. erewrite ebind_Ret by (by eapply join_once_live). erewrite ebind_Ret by apply Hrun.
    cbv beta iota.
    erewrite ebind_Ret by apply modify_once_run. rewrite lget_after2, Hid.
    assert (lset l (lget l x) (after2 x) = after2 x) as ->
      by (rewrite <- (lget_after2 x); apply lset_lget).
    by erewrite ebind_Ret by (eapply leave_once_run; by rewrite lget_after2).
Qed.

(** The instant up to which an outcome counts. *)
Definition deadline (e : onceWithTimeout T) (r : outcome T) : Time :=
  match r with Fail _ => once_errorTimeout e | _ => once_successTimeout e end.

Lemma timed_out_settled e r t1 t2 :
  settled e r →
  timed_out t1 t2 e =
    match r with Fail _ => negb (Before t1 (deadline e r)) | _ => negb (Before t2 (deadline e r)) end.
Proof.
  intros (_ & Herr & Hr). unfold timed_out, Before. rewrite Herr.
  destruct r; simpl; by rewrite ?andb_true_r, ?andb_false_r, ?orb_false_r.
Qed.

(** ** How the map grows *)

(** What a step may do to the object. *)
Definition grows {A} (m : Ext X A) : Prop := ∀ x,
  once_wf (lget l x) →
  once_wf (lget l (m x).2) ∧ dom (onces (lget l x)) ⊆ dom (onces (lget l (m x).2)).

Lemma grows_keeps {A} (m : Ext X A) : keeps l m → grows m.
Proof. intros Hm x Hw. by rewrite Hm. Qed.

Lemma grows_bind {A B} (m : Ext X A) (k : A → Ext X B) :
  grows m → (∀ a, grows (k a)) → grows (m ≫= k).
Proof.
  intros Hm Hk x Hw. destruct (Hm x Hw) as [Hw' Hd]. unfold mbind, Ext_bind.
  destruct (m x) as [[a|e|] x']; simpl in *; [|done..].
  destruct (Hk a x' Hw') as [Hw'' Hd']. split; [done|]. set_solver.
Qed.

Lemma grows_modify f p : grows (modify_once l f p).
Proof.
  intros x Hw. rewrite modify_once_run. simpl. rewrite lget_lset. split; [|done].
  by apply once_wf_alter.
Qed.

Lemma grows_create key : grows (create_once l key).
Proof.
  intros x Hw. rewrite create_once_run. simpl. rewrite lget_lset. split.
  - by apply once_wf_put.
  - simpl. rewrite dom_insert_L. set_solver.
Qed.

Lemma keeps_read_once p : keeps l (read_once l p).
Proof. apply keeps_bind; [done|intros; apply keeps_deref]. Qed.

Lemma keeps_IsTimedOut e : keeps l (IsTimedOut e).
Proof. unfold IsTimedOut. auto 10 with keeps. Qed.

Lemma grows_join key : grows (join_once l key).
Proof.
  apply grows_bind; [by apply grows_keeps|]. intros o. destruct (onces o !! inl key) as [p|];
    [|apply grows_create].
  apply grows_bind; [apply grows_keeps, keeps_read_once|]. intros e.
  apply grows_bind; [apply grows_keeps, keeps_IsTimedOut|]. intros [];
    [apply grows_create|by apply grows_keeps].
Qed.

Lemma grows_run p action : keeps l action → grows (run_once l p action).
Proof.
  intros Ha. apply grows_bind; [apply grows_keeps, keeps_read_once|]. intros e.
  destruct (once_value e); [by apply grows_keeps|].
  apply grows_bind.
  - apply grows_keeps. intros x. specialize (Ha x). unfold eoutcome. by destruct (action x).
  - intros r. apply grows_bind; [apply grows_modify|]. intros. by apply grows_keeps.
Qed.

Lemma grows_leave p : grows (leave_once l p).
Proof.
  apply grows_bind; [apply grows_keeps, keeps_read_once|]. intros e.
  apply grows_bind; [apply grows_keeps, keeps_IsTimedOut|]. intros [].
  - intros x Hw. erewrite ebind_Ret by done. simpl.
    by rewrite lget_lset, delete_once_id.
  - by apply grows_keeps.
Qed.

Lemma grows_finish p r : grows (finish p r).
Proof.
  destruct r; simpl.
  - apply grows_bind; [apply grows_leave|]. intros. by apply grows_keeps.
  - apply grows_bind; [apply grows_modify|]. intros.
    apply grows_bind; [apply grows_leave|]. intros. by apply grows_keeps.
  - by apply grows_keeps.
Qed.

Lemma Do_grows key action : keeps l action → grows (Do l key action).
Proof.
  intros Ha. apply grows_bind; [apply grows_join|]. intros p.
  apply grows_bind; [by apply grows_run|]. intros r. apply (grows_finish p r).
Qed.

Lemma join_once_adds key x :
  once_wf (lget l x) →
  ∃ p x1, join_once l key x = (Ret p, x1) ∧ inl key ∈ dom (onces (lget l x1)).
Proof.
  intros Hw. unfold join_once. erewrite ebind_Ret by done.
  destruct (onces (lget l x) !! inl key) as [p|] eqn:Hp.
  - destruct (wf_alloc _ Hw _ _ Hp) as [e He].
    erewrite ebind_Ret by (by apply read_once_run).
    erewrite ebind_Ret by apply IsTimedOut_run. destruct (timed_out _ _ _).
    + rewrite create_once_run. do 2 eexists. split; [done|]. rewrite lget_lset. simpl.
      rewrite dom_insert_L. set_solver.
    + do 2 eexists. split; [done|]. rewrite lget_after2. by apply elem_of_dom.
  - rewrite create_once_run. do 2 eexists. split; [done|]. rewrite lget_lset. simpl.
    rewrite dom_insert_L. set_solver.
Qed.

Lemma Do_adds key action x :
  once_wf (lget l x) → keeps l action →
  inl key ∈ dom (onces (lget l (Do l key action x).2)).
Proof.
  intros Hw Ha. destruct (join_once_adds key x Hw) as (p & x1 & Hj & Hd).
  destruct (grows_join key x Hw) as [Hw1 _]. rewrite Hj in Hw1. simpl in Hw1.
  unfold Do. erewrite ebind_Ret by done.
  destruct (grows_bind (run_once l p action) (finish p)
    (grows_run p action Ha) (grows_finish p) x1 Hw1) as [_ Hd'].
  apply Hd', Hd.
Qed.

(** The calls of a whole run, with their actions. *)
Fixpoint Do_all (calls : list (string * Ext X T)) (x : X) : X :=
  match calls with
  | [] => x
  | (key, action) :: calls' => Do_all calls' (Do l key action x).2
  end.

Lemma Do_all_grows calls x :
  once_wf (lget l x) → Forall (λ c, keeps l c.2) calls →
  dom (onces (lget l x)) ∪ list_to_set (map (inl ∘ fst) calls)
    ⊆ dom (onces (lget l (Do_all calls x))).
Proof.
  revert x. induction calls as [|[key action] calls IH]; intros x Hw Hc; simpl; [set_solver|].
  apply Forall_cons in Hc as [Ha Hc]. simpl in Ha.
  destruct (Do_grows key action Ha x Hw) as [Hw' Hd].
  pose proof (Do_adds key action x Hw Ha). specialize (IH _ Hw' Hc). set_solver.
Qed.
End do.
