(* ===== verification/OnceRun.v ===== *)
(** * Many callers of one [OnceWithKey]

    [Do] holds its mutex for two short sections and runs the action between
    them, so callers interleave. Here are those interleavings as a step
    relation: [acquire] is the first critical section, [start] and [stop] are
    the run of the action inside [sync.OnceValues], [share] the return of
    [sync.OnceValues] to the callers that did not run it, [note] the call of
    [SetError] and [release] the second critical section. The clock moves
    forward between any two steps. An action may return anything.

    [at_most_once] is the invariant; [once_per_key] the promise of the type:
    as long as nothing times out, the action of a key runs once. *)
From stdpp Require Import prelude strings list gmap.
From Stdlib Require Import ZArith.
From S2P Require Import Prelude Go Config Db Transfer World Client Once.
Open Scope Z_scope.

Section run.
Context {T : Type}.
Implicit Types (o : OnceWithKey T) (p : positive) (r : outcome T).

(** Where a caller is. *)
Inductive caller :=
  | Calling (key : string)
  | Joined (key : string) (p : positive)
  | Running (key : string) (p : positive)
  | Got (key : string) (p : positive) (r : outcome T)
  | Noted (key : string) (p : positive) (r : outcome T)
  | Returned (key : string) (p : positive) (r : outcome T).

(** [g_runs] lists the objects whose action was started, with their keys. *)
Record config := mkConfig {
  g_time : Time;
  g_once : OnceWithKey T;
  g_callers : list caller;
  g_runs : list (string * positive);
}.

(** The pointer and outcome a caller has. *)
Definition c_entry (c : caller) : option (string * positive) :=
  match c with
  | Calling _ => None
  | Joined k p | Running k p | Got k p _ | Noted k p _ | Returned k p _ => Some (k, p)
  end.

Definition c_outcome (c : caller) : option (outcome T) :=
  match c with Got _ _ r | Noted _ _ r | Returned _ _ r => Some r | _ => None end.

Definition is_running (p : positive) (c : caller) : Prop :=
  match c with Running _ q => q = p | _ => False end.

Inductive step : config → config → Prop :=
  | step_tick t t' o cs rs :
      t ≤ t' → step (mkConfig t o cs rs) (mkConfig t' o cs rs)
  | step_create t t1 t2 o cs rs i key :
      cs !! i = Some (Calling key) →
      match onces o !! inl key with
      | None => True
      | Some p => ∃ e t3 t4, once_heap o !! p = Some e ∧
          t ≤ t3 ≤ t4 ∧ t4 ≤ t1 ∧ timed_out t3 t4 e = true
      end →
      t ≤ t1 ≤ t2 →
      step (mkConfig t o cs rs)
        (mkConfig t2
          (put_once key (newOnceWithTimeout t1 t2 (successTimeout o) (errorTimeout o)) o)
          (<[i := Joined key (once_next o)]> cs) rs)
  | step_join t t1 t2 o cs rs i key p e :
      cs !! i = Some (Calling key) →
      onces o !! inl key = Some p → once_heap o !! p = Some e →
      t ≤ t1 ≤ t2 → timed_out t1 t2 e = false →
      step (mkConfig t o cs rs) (mkConfig t2 o (<[i := Joined key p]> cs) rs)
  | step_start t o cs rs i key p e :
      cs !! i = Some (Joined key p) →
      once_heap o !! p = Some e → once_value e = None →
      Forall (λ c, ¬ is_running p c) cs →
      step (mkConfig t o cs rs)
        (mkConfig t o (<[i := Running key p]> cs) (rs ++ [(key, p)]))
  | step_stop t o cs rs i key p r :
      cs !! i = Some (Running key p) → r ≠ Panic →
      step (mkConfig t o cs rs)
        (mkConfig t (alter_once (set_value r) p o) (<[i := Got key p r]> cs) rs)
  | step_share t o cs rs i key p e r :
      cs !! i = Some (Joined key p) →
      once_heap o !! p = Some e → once_value e = Some r →
      step (mkConfig t o cs rs) (mkConfig t o (<[i := Got key p r]> cs) rs)
  | step_note t o cs rs i key p r :
      cs !! i = Some (Got key p r) →
      step (mkConfig t o cs rs)
        (mkConfig t
          (match r with Fail err => alter_once (SetError err) p o | _ => o end)
          (<[i := Noted key p r]> cs) rs)
  | step_release t t1 t2 o cs rs i key p r e :
      cs !! i = Some (Noted key p r) → once_heap o !! p = Some e →
      t ≤ t1 ≤ t2 →
      step (mkConfig t o cs rs)
        (mkConfig t2 (if timed_out t1 t2 e then delete_once p o else o)
          (<[i := Returned key p r]> cs) rs).

(** Everything starts with an empty map and callers that have not begun. *)
Inductive initial : config → Prop :=
  | initial_intro t sT eT keys :
      initial (mkConfig t (NewOnceWithKey sT eT) (map Calling keys) []).

(** ** The invariant *)

(** What is known of an object: [None] when it is not allocated, [Some None]
    before its action has returned. *)
Definition value_at o p : option (option (outcome T)) := once_value <$> once_heap o !! p.

(** An object has been started at most once; it has a value once its run has
    stopped, and that value is what every caller that left it got. *)
Record at_most_once (v : positive → option (option (outcome T))) (cs : list caller)
    (rs : list positive) : Prop := mkAtMostOnce {
  inv_runs : NoDup rs;
  inv_alloc i c k p : cs !! i = Some c → c_entry c = Some (k, p) → is_Some (v p);
  inv_running i k p : cs !! i = Some (Running k p) → v p = Some None;
  inv_runner i j k k' p : cs !! i = Some (Running k p) → cs !! j = Some (Running k' p) → i = j;
  inv_stopped p : p ∈ rs →
    (∃ r, v p = Some (Some r)) ∨ (v p = Some None ∧ ∃ i k, cs !! i = Some (Running k p));
  inv_value i c k p r : cs !! i = Some c → c_entry c = Some (k, p) → c_outcome c = Some r →
    v p = Some (Some r);
}.

(** A caller that moves on without touching the object it uses. *)
Lemma at_most_once_move v cs rs i c c' :
  at_most_once v cs rs → cs !! i = Some c →
  (∀ k p, c ≠ Running k p) → (∀ k p, c' ≠ Running k p) →
  (∀ k p, c_entry c' = Some (k, p) → is_Some (v p)) →
  (∀ k p r, c_entry c' = Some (k, p) → c_outcome c' = Some r → v p = Some (Some r)) →
  at_most_once v (<[i := c']> cs) rs.
Proof.
  intros [H1 H2 H3 H4 H5 H6] Hi Hc Hc' Ha Hv. split.
  - done.
  - intros j d k p [(-> & -> & _)|[_ Hj]]%list_lookup_insert_Some; eauto.
  - intros j k p [(_ & Heq & _)|[_ Hj]]%list_lookup_insert_Some; [by destruct (Hc' k p)|eauto].
  - intros j j' k k' p [(_ & Heq & _)|[_ Hj]]%list_lookup_insert_Some
      [(_ & Heq' & _)|[_ Hj']]%list_lookup_insert_Some; first [by destruct (Hc' k p)|by destruct (Hc' k' p)|by eauto].
  - intros p [?|[Hv' (j & k & Hj)]]%H5; [by left|]. right. split; [done|]. exists j, k.
    rewrite list_lookup_insert_ne; [done|]. intros ->. rewrite Hi in Hj. by destruct (Hc k p); simplify_eq.
  - intros j d k p r [(-> & -> & _)|[_ Hj]]%list_lookup_insert_Some; eauto.
Qed.

(** A new object. *)
Lemma at_most_once_alloc v v' cs rs p :
  at_most_once v cs rs → v p = None → v' p = Some None → (∀ q, q ≠ p → v' q = v q) →
  at_most_once v' cs rs.
Proof.
  intros [H1 H2 H3 H4 H5 H6] Hp Hp' Hq.
  assert (Hle : ∀ q w, v q = Some w → v' q = Some w).
  { intros q w Hw. rewrite Hq; [done|]. intros ->. congruence. }
  split; [done|..|done| |].
  - intros i c k q Hi Hc. destruct (H2 i c k q Hi Hc) as [w Hw]. eauto.
  - eauto.
  - intros q [[r Hr]|[Hv ?]]%H5; [left; eauto|right; eauto].
  - eauto.
Qed.

Lemma at_most_once_start v cs rs i k p :
  at_most_once v cs rs → cs !! i = Some (Joined k p) → v p = Some None →
  Forall (λ c, ¬ is_running p c) cs →
  at_most_once v (<[i := Running k p]> cs) (rs ++ [p]).
Proof.
  intros [H1 H2 H3 H4 H5 H6] Hi Hv Hn. rewrite Forall_lookup in Hn.
  assert (Hp : ∀ j k', cs !! j = Some (Running k' p) → False)
    by (intros j k' Hj; by apply (Hn _ _ Hj)).
  assert (Hl : (i < length cs)%nat) by by eapply lookup_lt_Some.
  split.
  - apply NoDup_app. split_and!; [done| |apply NoDup_singleton].
    intros q Hq ->%list_elem_of_singleton.
    destruct (H5 p Hq) as [[r Hr]|[_ (j & k' & Hj)]]; [congruence|eauto].
  - intros j d k' q [(-> & <- & _)|[_ Hj]]%list_lookup_insert_Some; [intros [= <- <-]|]; eauto.
  - intros j k' q [(_ & Heq & _)|[_ Hj]]%list_lookup_insert_Some; [simplify_eq|]; eauto.
  - intros j j' k' k'' q [(<- & Heq & _)|[Hne Hj]]%list_lookup_insert_Some
      [(<- & Heq' & _)|[Hne' Hj']]%list_lookup_insert_Some; simplify_eq; try done; [| |eauto];
      exfalso; eauto.
  - intros q [Hq| ->%list_elem_of_singleton]%elem_of_app.
    + destruct (H5 q Hq) as [?|[Hv' (j & k' & Hj)]]; [by left|]. right. split; [done|].
      exists j, k'. rewrite list_lookup_insert_ne; [done|]. intros ->. congruence.
    + right. split; [done|]. exists i, k. by rewrite list_lookup_insert_eq.
  - intros j d k' q r [(-> & <- & _)|[_ Hj]]%list_lookup_insert_Some; [done|eauto].
Qed.

Lemma at_most_once_stop v v' cs rs i k p r :
  at_most_once v cs rs → cs !! i = Some (Running k p) →
  v' p = Some (Some r) → (∀ q, q ≠ p → v' q = v q) →
  at_most_once v' (<[i := Got k p r]> cs) rs.
Proof.
  intros [H1 H2 H3 H4 H5 H6] Hi Hp Hq.
  assert (Hle : ∀ q w, v q = Some (Some w) → v' q = Some (Some w)).
  { intros q w Hw. rewrite Hq; [done|]. intros ->. apply H3 in Hi. congruence. }
  assert (Hal : ∀ q, is_Some (v q) → is_Some (v' q)).
  { intros q [w Hw]. destruct (decide (q = p)) as [->|]; [|rewrite Hq by done]; eauto. }
  split; [done|..].
  - intros j d k' q [(-> & <- & _)|[_ Hj]]%list_lookup_insert_Some; [intros [= <- <-]|]; eauto.
  - intros j k' q [(_ & Heq & _)|[Hne Hj]]%list_lookup_insert_Some; [done|].
    rewrite Hq; [eauto|]. intros ->. by destruct Hne; eapply H4.
  - intros j j' k' k'' q [(_ & Heq & _)|[_ Hj]]%list_lookup_insert_Some
      [(_ & Heq' & _)|[_ Hj']]%list_lookup_insert_Some; [done..|eauto].
  - intros q Hin. destruct (decide (q = p)) as [->|Hne]; [left; eauto|].
    rewrite Hq by done. destruct (H5 q Hin) as [?|[Hv (j & k' & Hj)]]; [by left|].
    right. split; [done|]. exists j, k'. rewrite list_lookup_insert_ne; [done|]. congruence.
  - intros j d k' q r' [(-> & <- & _)|[_ Hj]]%list_lookup_insert_Some; [|eauto].
    intros [= <- <-] [= <-]. done.
Qed.

Definition inv (g : config) : Prop :=
  once_wf (g_once g) ∧ at_most_once (value_at (g_once g)) (g_callers g) (g_runs g).*2.

Lemma value_at_fresh o : once_wf o → value_at o (once_next o) = None.
Proof.
  intros Hw. unfold value_at. destruct (once_heap o !! once_next o) as [e|] eqn:He; [|done].
  assert (once_next o < once_next o)%positive by (eapply wf_next; eauto). lia.
Qed.

Lemma value_at_put key e o p :
  p ≠ once_next o → value_at (put_once key e o) p = value_at o p.
Proof. intros. unfold value_at; simpl. by rewrite lookup_insert_ne. Qed.

Lemma value_at_alter f q o p : p ≠ q → value_at (alter_once f q o) p = value_at o p.
Proof. intros. unfold value_at; simpl. by rewrite lookup_alter_ne. Qed.

Lemma value_at_SetError err q o p : value_at (alter_once (SetError err) q o) p = value_at o p.
Proof.
  destruct (decide (p = q)) as [->|]; [|by apply value_at_alter]. unfold value_at; simpl.
  rewrite lookup_alter_eq. by destruct (once_heap o !! q).
Qed.

Lemma at_most_once_ext v v' cs rs :
  (∀ p, v' p = v p) → at_most_once v cs rs → at_most_once v' cs rs.
Proof.
  intros E [H1 H2 H3 H4 H5 H6].
  split; intros; rewrite ?E in *; eauto.
Qed.

Lemma once_step_inv g g' : inv g → step g g' → inv g'.
Proof.
  intros [Hw Hi] Hs. unfold inv. destruct Hs; simpl in *.
  - done.
  - split; [by apply once_wf_put|]. eapply at_most_once_move; [|done|done|done| |done].
    + eapply at_most_once_alloc; [done|by apply value_at_fresh| |].
      * unfold value_at; simpl. by rewrite lookup_insert_eq.
      * intros. by apply value_at_put.
    + intros k p [= <- <-]. unfold value_at; simpl. rewrite lookup_insert_eq. eauto.
  - split; [done|]. eapply at_most_once_move; [done..| |done].
    intros k' p' [= <- <-]. unfold value_at. rewrite H1. eauto.
  - split; [done|]. rewrite fmap_app. apply at_most_once_start; [done|done| |done].
    unfold value_at. rewrite H0. simpl. by rewrite H1.
  - split; [by apply once_wf_alter|]. eapply at_most_once_stop; [done..| |].
    + assert (Hv : value_at o p = Some None) by (by eapply inv_running). revert Hv.
      unfold value_at; simpl. rewrite lookup_alter_eq. by destruct (once_heap o !! p).
    + intros. by apply value_at_alter.
  - split; [done|]. assert (value_at o p = Some (Some r)).
    { unfold value_at. rewrite H0. simpl. by rewrite H1. }
    eapply at_most_once_move; [done..| |]; [intros k p' [= <- <-]|intros k p' r' [= <- <-] [= <-]]; eauto.
  - assert (Hv : value_at o p = Some (Some r)) by (by eapply inv_value).
    split; [destruct r; [done|by apply once_wf_alter|done]|].
    eapply (at_most_once_ext (value_at o)).
    { intros q. destruct r; [done|apply value_at_SetError|done]. }
    eapply at_most_once_move; [done..| |]; [intros k p' [= <- <-]|intros k p' r' [= <- <-] [= <-]]; eauto.
  - assert (Hv : value_at o p = Some (Some r)) by (by eapply inv_value).
    assert ((if timed_out t1 t2 e then delete_once p o else o) = o) as ->.
    { destruct (timed_out _ _ _); [by apply delete_once_id|done]. }
    split; [done|].
    eapply at_most_once_move; [done..| |]; [intros k p' [= <- <-]|intros k p' r' [= <- <-] [= <-]]; eauto.
Qed.

Lemma initial_callers keys i (c : caller) :
  map Calling keys !! i = Some c → ∃ k, c = Calling k.
Proof. intros [k [-> _]]%list_lookup_fmap_Some. eauto. Qed.

Lemma initial_inv g : initial g → inv g.
Proof.
  intros []. split; [apply once_wf_new|]. simpl. split.
  - constructor.
  - by intros i c k p [k' ->]%initial_callers.
  - by intros i k p [k' [=]]%initial_callers.
  - by intros i j k k' p [k'' [=]]%initial_callers.
  - by intros p []%not_elem_of_nil.
  - by intros i c k p r [k' ->]%initial_callers.
Qed.

Lemma steps_inv g g' : initial g → rtc step g g' → inv g'.
Proof.
  intros Hg Hs. apply initial_inv in Hg. induction Hs as [|g1 g2 g3 Hs _ IH]; [done|].
  by apply IH, (once_step_inv g1).
Qed.

(** ** Nothing times out *)

Definition known (g : config) (k : string) (p : positive) : Prop :=
  (∃ i c, g_callers g !! i = Some c ∧ c_entry c = Some (k, p)) ∨ (k, p) ∈ g_runs g.

(** Objects do not expire before [D], and up to [D] the map has the object of
    every caller and of every run. *)
Record young (t0 D sT eT : Z) (g : config) : Prop := mkYoung {
  young_inv : inv g;
  young_time : t0 ≤ g_time g;
  young_sT : successTimeout (g_once g) = sT;
  young_eT : errorTimeout (g_once g) = eT;
  young_entry p e : once_heap (g_once g) !! p = Some e →
    D ≤ once_errorTimeout e ∧ D ≤ once_successTimeout e;
  young_known k p : g_time g < D → known g k p → onces (g_once g) !! inl k = Some p;
}.

Lemma timed_out_young D t1 t2 (e : onceWithTimeout T) :
  D ≤ once_errorTimeout e → D ≤ once_successTimeout e → t1 < D → t2 < D →
  timed_out t1 t2 e = false.
Proof.
  intros. unfold timed_out, Before. rewrite !bool_decide_true by lia. done.
Qed.

(** A caller that changes place brings no new object. *)
Lemma known_move t t' o o' cs rs i c c' k p :
  cs !! i = Some c → c_entry c' = c_entry c →
  known (mkConfig t' o' (<[i := c']> cs) rs) k p → known (mkConfig t o cs rs) k p.
Proof.
  intros Hi Hc [(j & d & Hj & Hd)|Hr]; [|by right]. left. simpl in *.
  apply list_lookup_insert_Some in Hj as [(<- & <- & _)|[_ Hj]]; [|eauto].
  exists i, c. split; [done|]. congruence.
Qed.

Lemma young_alter t0 D sT eT t o cs rs f p cs' :
  young t0 D sT eT (mkConfig t o cs rs) → inv (mkConfig t (alter_once f p o) cs' rs) →
  (∀ e, once_errorTimeout (f e) = once_errorTimeout e) →
  (∀ e, once_successTimeout (f e) = once_successTimeout e) →
  (∀ k q, known (mkConfig t (alter_once f p o) cs' rs) k q → known (mkConfig t o cs rs) k q) →
  young t0 D sT eT (mkConfig t (alter_once f p o) cs' rs).
Proof.
  intros [Hi Ht HsT HeT He Hk] Hinv Hf1 Hf2 Hkn. split; simpl in *; try done.
  - intros q e Hq. apply lookup_alter_Some in Hq as [(-> & e' & Hq & ->)|[_ Hq]]; [|eauto].
    rewrite Hf1, Hf2. eauto.
  - eauto.
Qed.

Lemma young_later t0 D sT eT t t' o cs rs cs' :
  young t0 D sT eT (mkConfig t o cs rs) → inv (mkConfig t' o cs' rs) → t ≤ t' →
  (∀ k q, t' < D → known (mkConfig t' o cs' rs) k q →
     onces o !! inl k = Some q ∨ known (mkConfig t o cs rs) k q) →
  young t0 D sT eT (mkConfig t' o cs' rs).
Proof.
  intros [Hi Ht HsT HeT He Hk] Hinv Hle Hkn. split; simpl in *; try done; [lia|].
  intros k p Hlt Hp. destruct (Hkn k p Hlt Hp) as [?|?]; [done|]. apply Hk; [lia|done].
Qed.

Lemma once_step_young t0 D sT eT g g' :
  D = t0 + sT `min` eT → young t0 D sT eT g → step g g' → young t0 D sT eT g'.
Proof.
  intros HD Hy Hs. pose proof (once_step_inv _ _ (young_inv _ _ _ _ _ Hy) Hs) as Hinv.
  destruct Hs; simpl in *.
  - eapply young_later; [done|done|lia|]. intros k q _ Hkn. by right.
  - destruct Hy as [[Hw Hi] Ht HsT HeT He Hk]; simpl in *. split; simpl; try done; [lia| |].
    + intros p e [[<- <-]|[_ Hp]]%lookup_insert_Some; [|eauto]. simpl. unfold time_Add. lia.
    + intros k p Hlt Hkn. destruct (onces o !! inl key) as [q|] eqn:Hq.
      { destruct H0 as (e & t3 & t4 & Hh & ? & ? & Hto).
        destruct (He _ _ Hh). rewrite (timed_out_young D) in Hto by lia. done. }
      destruct Hkn as [(j & d & Hj & Hd)|Hr]; simpl in *.
      * apply list_lookup_insert_Some in Hj as [(<- & <- & _)|[_ Hj]];
          [simplify_eq/=; apply lookup_insert_eq|].
        assert (Hkp : onces o !! inl k = Some p) by (apply Hk; [lia|left; eauto]).
        rewrite lookup_insert_ne; [done|]. congruence.
      * assert (Hkp : onces o !! inl k = Some p) by (apply Hk; [lia|by right]).
        rewrite lookup_insert_ne; [done|]. congruence.
  - eapply young_later; [done|done|lia|]. intros k q _ [(j & d & Hj & Hd)|Hr]; [|right; by right].
    simpl in Hj. apply list_lookup_insert_Some in Hj as [(<- & <- & _)|[_ Hj]].
    + left. by simplify_eq/=.
    + right. left. eauto.
  - destruct Hy as [Hi Ht HsT HeT He Hk]. split; simpl in *; try done. intros k q Hlt Hkn.
    apply Hk; [done|]. destruct Hkn as [(j & d & Hj & Hd)|Hr]; simpl in *.
    + apply list_lookup_insert_Some in Hj as [(<- & <- & _)|[_ Hj]]; [|left; eauto].
      left. simplify_eq/=. exists i, (Joined k q). done.
    + apply elem_of_app in Hr as [Hr|Hr%list_elem_of_singleton]; [by right|]. simplify_eq.
      left. exists i, (Joined key p). done.
  - eapply young_alter; eauto; try done. intros k q Hkn. eapply known_move; [eassumption| |exact Hkn]; done.
  - eapply young_later; [done|done|lia|]. intros k q _ Hkn. right. eapply known_move; [eassumption| |exact Hkn]; done.
  - destruct r; [eapply young_later; [done|done|lia|]; intros k q _ Hkn; right
                |eapply young_alter; eauto; try done; intros k q Hkn
                |eapply young_later; [done|done|lia|]; intros k q _ Hkn; right];
      (eapply known_move; [eassumption| |exact Hkn]; done).
  - assert ((if timed_out t1 t2 e then delete_once p o else o) = o) as Heq.
    { destruct Hy as [[Hw _] _ _ _ _ _]. destruct (timed_out _ _ _); [by apply delete_once_id|done]. }
    rewrite Heq in *.
    eapply young_later; [done|done|lia|]. intros k q _ Hkn. right. eapply known_move; [eassumption| |exact Hkn]; done.
Qed.

Lemma initial_young g :
  initial g →
  young (g_time g) (g_time g + successTimeout (g_once g) `min` errorTimeout (g_once g))
    (successTimeout (g_once g)) (errorTimeout (g_once g)) g.
Proof.
  intros Hg. pose proof (initial_inv _ Hg). destruct Hg. split; simpl; try done.
  intros k p _ [(i & c & Hi & Hc)|Hr%not_elem_of_nil]; [|done].
  simpl in Hi. by apply initial_callers in Hi as [k' ->].
Qed.

Lemma steps_young g g' :
  initial g → rtc step g g' →
  young (g_time g) (g_time g + successTimeout (g_once g) `min` errorTimeout (g_once g))
    (successTimeout (g_once g)) (errorTimeout (g_once g)) g'.
Proof.
  intros Hg Hs. apply initial_young in Hg. revert Hg.
  generalize (g_time g) (successTimeout (g_once g)) (errorTimeout (g_once g)).
  intros t0 sT eT. induction Hs as [|g1 g2 g3 Hs _ IH]; [done|].
  intros Hy. apply IH. by eapply once_step_young.
Qed.

Lemma NoDup_fst_of_snd {A B} (l : list (A * B)) :
  NoDup l.*2 → (∀ a b b', (a, b) ∈ l → (a, b') ∈ l → b = b') → NoDup l.*1.
Proof.
  induction l as [|[a b] l IH]; simpl; intros Hnd Hf; [constructor|].
  apply NoDup_cons in Hnd as [Hb Hnd]. apply NoDup_cons. split.
  - intros ([a' b'] & -> & Hin)%list_elem_of_fmap. simpl in *. apply Hb.
    rewrite (Hf a' b b'); [|by left|by right]. apply list_elem_of_fmap. by exists (a', b').
  - apply IH; [done|]. intros a' b1 b2 H1 H2. apply (Hf a'); by right.
Qed.

(** ** Objects belong to keys *)

(** [f] is the key each object was made for. *)
Record keyed (f : positive → string) (g : config) : Prop := mkKeyed {
  keyed_map k p : onces (g_once g) !! inl k = Some p → f p = k;
  keyed_known k p : known g k p → f p = k;
}.

Lemma known_alloc g k p :
  inv g → (∃ i c, g_callers g !! i = Some c ∧ c_entry c = Some (k, p)) →
  p ≠ once_next (g_once g).
Proof.
  intros [Hw Hi] (i & c & Hc & He) ->. destruct (inv_alloc _ _ _ Hi _ _ _ _ Hc He) as [v Hv].
  by rewrite value_at_fresh in Hv.
Qed.

Lemma runs_alloc g k p : inv g → (k, p) ∈ g_runs g → p ≠ once_next (g_once g).
Proof.
  intros [Hw Hi] Hr ->. destruct (inv_stopped _ _ _ Hi (once_next (g_once g))) as [[r Hv]|[Hv _]].
  - apply list_elem_of_fmap. by exists (k, once_next (g_once g)).
  - by rewrite value_at_fresh in Hv.
  - by rewrite value_at_fresh in Hv.
Qed.

Lemma step_keyed f g g' : inv g → keyed f g → step g g' → ∃ f', keyed f' g'.
Proof.
  intros Hi [Hm Hk] Hs. destruct Hs; simpl in *.
  - exists f. by split.
  - exists (λ q, if decide (q = once_next o) then key else f q). split; simpl.
    + intros k p [[[= <-] <-]|[_ Hp]]%lookup_insert_Some; [by case_decide|].
      case_decide; [|auto]. destruct Hi as [Hw _]. by eapply once_wf_fresh in Hp.
    + intros k p [(j & d & Hj & Hd)|Hr]; simpl in *.
      * apply list_lookup_insert_Some in Hj as [(<- & <- & _)|[_ Hj]];
          [simplify_eq/=; by case_decide|].
        rewrite decide_False; [apply Hk; left; eauto|]. eapply known_alloc in Hi; [done|]; simpl; eauto.
      * rewrite decide_False; [apply Hk; by right|]. by eapply runs_alloc in Hi.
  - exists f. split; simpl; [done|]. intros k q [(j & d & Hj & Hd)|Hr]; [|apply Hk; by right].
    simpl in Hj. apply list_lookup_insert_Some in Hj as [(<- & <- & _)|[_ Hj]].
    + simplify_eq/=. auto.
    + apply Hk. left. eauto.
  - exists f. split; simpl; [done|]. intros k q [(j & d & Hj & Hd)|Hr]; simpl in *.
    + apply list_lookup_insert_Some in Hj as [(<- & <- & _)|[_ Hj]]; [|apply Hk; left; eauto].
      simplify_eq/=. apply Hk. left. exists i, (Joined k q). done.
    + apply elem_of_app in Hr as [Hr|Hr%list_elem_of_singleton]; [apply Hk; by right|].
      simplify_eq. apply Hk. left. exists i, (Joined key p). done.
  - exists f. split; [done|]. intros k q Hkn. apply Hk.
    eapply known_move; [eassumption| |exact Hkn]; done.
  - exists f. split; [done|]. intros k q Hkn. apply Hk.
    eapply known_move; [eassumption| |exact Hkn]; done.
  - exists f. split; [by destruct r|]. intros k q Hkn. apply Hk.
    eapply known_move; [eassumption| |exact Hkn]; done.
  - exists f. destruct Hi as [Hw _]. split.
    + simpl. destruct (timed_out _ _ _); [|done]. by rewrite delete_once_id.
    + intros k q Hkn. apply Hk. eapply known_move; [eassumption| |exact Hkn]; done.
Qed.

Lemma steps_keyed g g' : initial g → rtc step g g' → ∃ f, keyed f g'.
Proof.
  intros Hg Hs. pose proof (initial_inv _ Hg) as Hi.
  assert (Hf : ∃ f, keyed f g).
  { exists (λ _, ""). destruct Hg. split; simpl; [by intros k p; rewrite lookup_empty|].
    intros k p [(i & c & Hc & He)|Hr%not_elem_of_nil]; [|done].
    simpl in Hc. by apply initial_callers in Hc as [k' ->]. }
  clear Hg. induction Hs as [|g1 g2 g3 Hs _ IH]; [done|]. destruct Hf as [f Hf].
  apply IH; [by eapply once_step_inv|by eapply step_keyed].
Qed.

Lemma known_returned g i k p r : g_callers g !! i = Some (Returned k p r) → known g k p.
Proof. intros Hi. left. by exists i, (Returned k p r). Qed.

(** ** The promises of the type *)

(** Callers share calls. In every interleaving of the callers of [Do], the
    action of an object runs at most once, and two callers that return from the
    same object asked for the same key and return the same outcome. *)
Theorem callers_share g g' :
  initial g → rtc step g g' →
  NoDup (g_runs g').*2 ∧
  ∀ i j k k' p r r',
    g_callers g' !! i = Some (Returned k p r) → g_callers g' !! j = Some (Returned k' p r') →
    k = k' ∧ r = r'.
Proof.
  intros Hg Hs. destruct (steps_inv _ _ Hg Hs) as [_ Hi]. destruct (steps_keyed _ _ Hg Hs) as [f Hf].
  split; [apply Hi|]. intros i j k k' p r r' Hr Hr'. split.
  - pose proof (keyed_known _ _ Hf k p (known_returned _ _ _ _ _ Hr)).
    pose proof (keyed_known _ _ Hf k' p (known_returned _ _ _ _ _ Hr')). congruence.
  - pose proof (inv_value _ _ _ Hi _ _ _ _ _ Hr eq_refl eq_refl).
    pose proof (inv_value _ _ _ Hi _ _ _ _ _ Hr' eq_refl eq_refl). congruence.
Qed.

(** C31: Once per key. As long as neither timeout has passed since the start,
    the action of a key has run at most once, however many callers there are. *)
Theorem once_per_key g g' :
  initial g → rtc step g g' →
  g_time g' < g_time g + successTimeout (g_once g) `min` errorTimeout (g_once g) →
  NoDup (g_runs g').*1.
Proof.
  intros Hg Hs Ht. pose proof (steps_young _ _ Hg Hs) as Hy.
  apply NoDup_fst_of_snd; [apply Hy|]. intros k p p' H H'.
  pose proof (young_known _ _ _ _ _ Hy k p Ht (or_intror H)).
  pose proof (young_known _ _ _ _ _ Hy k p' Ht (or_intror H')). congruence.
Qed.
End run.

(** ** Two callers *)

Section two.
Notation OK7 := (Ret 7 : outcome Z).

Definition two_start : @config Z := mkConfig 0 (NewOnceWithKey 60 5) (map Calling ["tx"; "tx"]) [].

Definition two_entry : onceWithTimeout Z := mkOnceWithTimeout (Some OK7) 6 61 None.

Definition two_end : @config Z :=
  mkConfig 3 (mkOnceWithKey {[inl "tx" := 1%positive]} {[1%positive := two_entry]} 2 60 5)
    [Returned "tx" 1 OK7; Returned "tx" 1 OK7] [("tx", 1%positive)].

Lemma two_callers : rtc step two_start two_end.
Proof.
  eapply rtc_l; [by apply (step_create 0 1 1 _ _ _ 0)|].
  eapply rtc_l; [by eapply (step_join 1 1 2 _ _ _ 1)|].
  eapply rtc_l; [eapply (step_start _ _ _ _ 1); [done..|]; repeat constructor; by intros ?|].
  eapply rtc_l; [by eapply (step_stop _ _ _ _ 1 _ _ OK7)|].
  eapply rtc_l; [by eapply (step_share _ _ _ _ 0)|].
  eapply rtc_l; [by eapply (step_note _ _ _ _ 0)|].
  eapply rtc_l; [by eapply (step_note _ _ _ _ 1)|].
  eapply rtc_l; [by eapply (step_release _ 2 3 _ _ _ 0)|].
  eapply rtc_l; [by eapply (step_release _ 3 3 _ _ _ 1)|].
  apply rtc_refl.
Qed.

Lemma callers_share_witness : NoDup (g_runs two_end).*2 ∧ OK7 = OK7.
Proof.
  destruct (callers_share two_start two_end) as [H1 H2];
    [constructor|apply two_callers|].
  split; [exact H1|]. by apply (H2 0%nat 1%nat "tx" "tx" 1%positive OK7 OK7).
Defined.

Lemma once_per_key_witness : NoDup (g_runs two_end).*1.
Proof.
  apply (once_per_key two_start two_end); [constructor|apply two_callers|done].
Defined.
End two.
