(* ===== verification/Signing.v ===== *)
(** * Signers

    [shared/signing] (the [Signer] interface, the local, console and no-op
    signers), [shared/signing/evm], [shared/signing/signer_service] and the two
    remote signers of [relayer/ibcv2].

    go-ethereum, the Cosmos SDK and the signer service are not part of the
    repository: [Geth], [CosmosSDK] and [SignerService] are what the code calls
    of them. A [Hash] is Go's [[32]byte] and an [Address] its [[20]byte], as
    lists of bytes. *)
From stdpp Require Import prelude strings list gmap.
From Stdlib Require Import ZArith.
From S2P Require Import Prelude Go Config Db Transfer World Client.
Open Scope Z_scope.

Definition Hash := bytes.
Definition Address := bytes.

(** ** Libraries *)

(** The fields of [types.DynamicFeeTx] the code sets. *)
Record DynamicFeeTx := mkDynamicFeeTx {
  To : Address;
  Nonce : Z;
  GasFeeCap : option Z;
  GasTipCap : option Z;
  Gas : Z;
  Data : bytes;
}.

Class Geth := mkGeth {
  EthTransaction : Type;
  EthPrivateKey : Type;
  NewTx : DynamicFeeTx → EthTransaction;
  EthTransaction_Hash : EthTransaction → Hash;
  EthTransaction_MarshalBinary : EthTransaction → outcome bytes;
  EthTransaction_MarshalJSON : EthTransaction → outcome string;
  (** [types.SignTx] with [types.NewCancunSigner(chainID)]. *)
  SignTx : EthTransaction → Z → EthPrivateKey → outcome EthTransaction;
  (** [types.NewCancunSigner(chainID).Hash(tx)] and [tx.WithSignature]; the
      chain id may be nil. *)
  CancunSigner_Hash : option Z → EthTransaction → outcome Hash;
  WithSignature : option Z → EthTransaction → bytes → outcome EthTransaction;
  Ecrecover : Hash → bytes → outcome bytes;
  (** [types.Sender] with [types.NewPragueSigner(chainID)]. *)
  Sender : Z → EthTransaction → outcome Address;
  PubkeyToAddress : EthPrivateKey → Address;
  (** [crypto.UnmarshalPubkey] and [crypto.PubkeyToAddress] of the result. *)
  UnmarshalPubkey_Address : bytes → outcome Address;
  HexToECDSA : string → outcome EthPrivateKey;
  HexToHash : string → Hash;
  Hash_String : Hash → string;
  HexToAddress : string → Address;
  Address_String : Address → string;
  Keccak256Hash : bytes → Hash;
  (** [rpc.FinalizedBlockNumber]. *)
  FinalizedBlockNumber : Z;
}.

(** [signing.SignatureV2] with a single signature. *)
Record SignatureV2 := mkSignatureV2 {
  sig_PubKey : bytes;
  sig_SignMode : Z;
  sig_Signature : option bytes;
  sig_Sequence : Z;
}.

(** [authsigning.SignerData]. *)
Record SignerData := mkSignerData {
  sd_ChainID : string;
  sd_AccountNumber : Z;
  sd_Sequence : Z;
}.

Definition SignMode_SIGN_MODE_DIRECT : Z := 1.

Class CosmosSDK := mkCosmosSDK {
  SdkTx : Type;
  SdkMsg : Type;
  TxBuilder : Type;
  TxConfig : Type;
  CosmosPrivKey : Type;
  NewTxBuilder : TxConfig → TxBuilder;
  WrapTxBuilder : TxConfig → SdkTx → outcome TxBuilder;
  DefaultMode : TxConfig → Z;
  TxEncoder : TxConfig → SdkTx → outcome bytes;
  TxDecoder : TxConfig → bytes → outcome SdkTx;
  TxJSONEncoder : TxConfig → SdkTx → outcome string;
  (** The builder's setters, on the value the pointer refers to. *)
  SetMsgs : list SdkMsg → TxBuilder → outcome TxBuilder;
  SetGasLimit : Z → TxBuilder → TxBuilder;
  SetFeeAmount : list (string * Z) → TxBuilder → TxBuilder;
  SetSignatures : SignatureV2 → TxBuilder → outcome TxBuilder;
  GetTx : TxBuilder → SdkTx;
  (** [authSigning.GetSignBytesAdapter]. *)
  GetSignBytes : TxConfig → Z → SignerData → SdkTx → outcome bytes;
  (** [clienttx.SignWithPrivKey]. *)
  SignWithPrivKey : Z → SignerData → TxBuilder → CosmosPrivKey → TxConfig → Z →
    outcome SignatureV2;
  PubKey_Bytes : CosmosPrivKey → bytes;
  (** [secp256k1.PubKey.Address]: it panics on a key that is not 33 bytes. *)
  PubKey_Address : bytes → outcome bytes;
  UnmarshalAmino : bytes → outcome CosmosPrivKey;
  DefaultTxConfig : TxConfig;
}.

(** The signer service over gRPC. *)
Inductive PubKeyType := PubKeyType_Cosmos | PubKeyType_Ethereum.

Inductive SignPayload :=
  | CosmosPayload (SignDocBytes : bytes)
  | SolanaPayload (Transaction : string)
  | EvmPayload (ChainId : string) (TxBytes : bytes).

(** [SignResponse]; the accessors of a signature that is not set return
    nothing. *)
Record SignResponse := mkSignResponse {
  resp_Cosmos : bytes;
  resp_Evm_R : bytes;
  resp_Evm_S : bytes;
  resp_Evm_V : bytes;
}.

Class SignerService (X : Type) := mkSignerService {
  sc_Sign : string → SignPayload → Ext X SignResponse;
  (** The public key of [GetWallet]'s response. *)
  sc_GetWallet : string → PubKeyType → Ext X bytes;
}.

Section signing.
Context {X : Type} `{!Geth} `{!CosmosSDK} `{!Runtime X}.

(** ** Transactions and signers *)

Record CosmosTransaction := mkCosmosTransaction {
  ct_Tx : SdkTx;
  ct_AccountNumber : Z;
  ct_Sequence : Z;
  ct_TxConfig : TxConfig;
}.

Definition NewCosmosTransaction (tx : SdkTx) (accountNumber sequence : Z) (txConfig : TxConfig)
    : CosmosTransaction :=
  mkCosmosTransaction tx accountNumber sequence txConfig.

(** The values of the [Transaction] interface. *)
Inductive Transaction :=
  | NilTransaction
  | EthTx (tx : EthTransaction)
  | CosmosTx (tx : CosmosTransaction).

Definition MarshalBinary (tx : Transaction) : outcome bytes :=
  match tx with
  | NilTransaction => Panic
  | EthTx t => EthTransaction_MarshalBinary t
  | CosmosTx t => TxEncoder (ct_TxConfig t) (ct_Tx t)
  end.

Definition MarshalJSON (tx : Transaction) : outcome string :=
  match tx with
  | NilTransaction => Panic
  | EthTx t => EthTransaction_MarshalJSON t
  | CosmosTx t => TxJSONEncoder (ct_TxConfig t) (ct_Tx t)
  end.

Definition CosmosTransaction_UnmarshalBinary (t : CosmosTransaction) (data : bytes)
    : outcome CosmosTransaction :=
  match TxDecoder (ct_TxConfig t) data with
  | Ret tx => Ret (mkCosmosTransaction tx (ct_AccountNumber t) (ct_Sequence t) (ct_TxConfig t))
  | Fail e => Fail e
  | Panic => Panic
  end.

Record Signer := mkSigner {
  Sign : string → Transaction → Ext X Transaction;
  signer_Address : Ext X bytes;
}.

(** ** Local signers *)

Definition LocalEthereumSigner_Sign (privateKey : EthPrivateKey) (chainID : string)
    (tx : Transaction) : Ext X Transaction :=
  match tx with
  | EthTx ethereumTx =>
      match SetString chainID with
      | None => efail (ErrorNew "invalid chain ID")
      | Some intChainID =>
          signedTx ← elift (SignTx ethereumTx intChainID privateKey);
          mret (EthTx signedTx)
      end
  | _ => efail (ErrorNew "unsupported transaction type")
  end.

Definition NewLocalEthereumSigner (privateKey : EthPrivateKey) : Signer :=
  mkSigner (LocalEthereumSigner_Sign privateKey) (mret (PubkeyToAddress privateKey)).

Definition SignCosmosTx (privateKey : CosmosPrivKey) (txConfig : TxConfig) (chainID : string)
    (accountNumber sequence : Z) (tx : SdkTx) : Ext X SdkTx :=
  txBuilder ← elift (WrapTxBuilder txConfig tx);
  txBuilder ← elift (SetSignatures
    (mkSignatureV2 (PubKey_Bytes privateKey) (DefaultMode txConfig) None sequence) txBuilder);
  signature ← elift (SignWithPrivKey (DefaultMode txConfig)
    (mkSignerData chainID accountNumber sequence) txBuilder privateKey txConfig sequence);
  txBuilder ← elift (SetSignatures signature txBuilder);
  mret (GetTx txBuilder).

Definition with_Tx (t : CosmosTransaction) (tx : SdkTx) : CosmosTransaction :=
  mkCosmosTransaction tx (ct_AccountNumber t) (ct_Sequence t) (ct_TxConfig t).

Definition LocalCosmosSigner_Sign (privateKey : CosmosPrivKey) (chainID : string)
    (tx : Transaction) : Ext X Transaction :=
  match tx with
  | CosmosTx cosmosTx =>
      signedTx ← SignCosmosTx privateKey (ct_TxConfig cosmosTx) chainID
        (ct_AccountNumber cosmosTx) (ct_Sequence cosmosTx) (ct_Tx cosmosTx);
      mret (CosmosTx (with_Tx cosmosTx signedTx))
  | _ => efail (ErrorNew "unsupported transaction type")
  end.

Definition NewLocalCosmosSigner (privateKey : CosmosPrivKey) : Signer :=
  mkSigner (LocalCosmosSigner_Sign privateKey) (elift (PubKey_Address (PubKey_Bytes privateKey))).

(** [NopSigner] returns the transaction as it is and has no address. *)
Definition NewNopSigner : Signer := mkSigner (λ _ tx, mret tx) (mret []).

(** [LocalSolanaSigner.Sign] returns nil and no error. *)
Definition LocalSolanaSigner_Sign (chainID : string) (tx : Transaction) : Ext X Transaction :=
  mret NilTransaction.

(** ** The console signer *)

Section console.
(** [bufio.Reader.ReadString('\n')] on standard input, and [strings.TrimSpace]
    of a line. *)
Context (ReadString : Ext X string) (TrimSpace : string → string).

(** The loop of [promptYesNo], for [lines] lines of input: [None] when the
    question is still open after them. *)
Fixpoint promptYesNo (lines : nat) : Ext X (option bool) :=
  match lines with
  | O => mret None
  | S n =>
      r ← eattempt ReadString;
      match r with
      | inr _ => promptYesNo n
      | inl response =>
          let response := ToLower (TrimSpace response) in
          if bool_decide (response = "y") || bool_decide (response = "yes") then mret (Some true)
          else if bool_decide (response = "n") || bool_decide (response = "no")
          then mret (Some false)
          else promptYesNo n
      end
  end.

(** [ConsoleSigner.Sign] around another signer; an open question leaves the
    caller waiting, here [None]. *)
Definition ConsoleSigner_Sign (lines : nat) (signer : Signer) (chainID : string)
    (tx : Transaction) : Ext X (option Transaction) :=
  _ ← elift (MarshalJSON tx);
  r ← promptYesNo lines;
  match r with
  | None => mret None
  | Some false => efail (ErrorNew "user abandoned transaction")
  | Some true => tx' ← Sign signer chainID tx; mret (Some tx')
  end.
End console.

(** ** The go-ethereum adapter *)

(** [EthereumSignerToBindSignerFn]; the address it is called with is not used. *)
Definition EthereumSignerToBindSignerFn (signer : Signer) (chainID : string) (_ : Address)
    (tx : EthTransaction) : Ext X EthTransaction :=
  signedTx ← Sign signer chainID (EthTx tx);
  match signedTx with
  | EthTx rawTx => mret rawTx
  | _ => efail (ErrorNew "invalid transaction type")
  end.

(** ** The signer service *)

Context `{!SignerService X}.

Definition SignerManager_GetWallet (id : string) (t : PubKeyType) : Ext X bytes := sc_GetWallet id t.

Definition SignCosmosTransaction (txb : TxBuilder) (accountNumber sequence : Z) (chainID : string)
    (signerWalletID : string) (config : TxConfig) : Ext X SdkTx :=
  let tx := GetTx txb in
  signDocBz ← ewrap "getting bytes to sign" (elift (GetSignBytes config
    SignMode_SIGN_MODE_DIRECT (mkSignerData chainID accountNumber sequence) tx));
  signResp ← ewrap "failed to sign transaction. Error"
    (sc_Sign signerWalletID (CosmosPayload signDocBz));
  r ← eattempt (sc_GetWallet signerWalletID PubKeyType_Cosmos);
  match r with
  | inr err =>
      elog Error "failed to get wallet from signer to retrieve public key" ≫= λ _,
      efail (Errorf "failed to get wallet from signer to retrieve public key. Error" err)
  | inl pubKeyBytes =>
      txb ← elift (SetSignatures (mkSignatureV2 pubKeyBytes SignMode_SIGN_MODE_DIRECT
        (Some (resp_Cosmos signResp)) sequence) txb);
      mret (GetTx txb)
  end.

Definition RemoteSignerToBindSignerFn (chainID : string) (signerWalletID : string)
    (_ : Address) (tx : EthTransaction) : Ext X EthTransaction :=
  txBytes ← ewrap "failed to marshal transaction" (elift (EthTransaction_MarshalBinary tx));
  signResp ← ewrap "failed to sign transaction. Error"
    (sc_Sign signerWalletID (EvmPayload chainID txBytes));
  let chainIDInt := SetString chainID in
  hash ← elift (CancunSigner_Hash chainIDInt tx);
  let sig := resp_Evm_R signResp ++ (resp_Evm_S signResp ++ resp_Evm_V signResp) in
  _ ← ewrap "failed to get public key from evm signature. Error" (elift (Ecrecover hash sig));
  ewrap "failed to set signature on evm tx. Error" (elift (WithSignature chainIDInt tx sig)).

(** ** Remote signers *)

Definition RemoteCosmosSigner_Sign (walletID : string) (txConfig : TxConfig) (chainID : string)
    (tx : Transaction) : Ext X Transaction :=
  match tx with
  | CosmosTx cosmosTx =>
      txBuilder ← ewrap "wrapping tx as builder" (elift (WrapTxBuilder txConfig (ct_Tx cosmosTx)));
      signedTx ← ewrap "remote signing failed" (SignCosmosTransaction txBuilder
        (ct_AccountNumber cosmosTx) (ct_Sequence cosmosTx) chainID walletID txConfig);
      mret (CosmosTx (with_Tx cosmosTx signedTx))
  | _ => efail (ErrorNew "expected CosmosTransaction")
  end.

Definition RemoteCosmosSigner_Address (walletID : string) : Ext X bytes :=
  r ← eattempt (SignerManager_GetWallet walletID PubKeyType_Cosmos);
  match r with
  | inr _ => mret []
  | inl pubKey => elift (PubKey_Address pubKey)
  end.

Definition NewRemoteCosmosSigner (walletID chainID : string) (txConfig : TxConfig) : Signer :=
  mkSigner (RemoteCosmosSigner_Sign walletID txConfig) (RemoteCosmosSigner_Address walletID).

Definition RemoteEVMSigner_Sign (walletID : string) (chainID : string) (tx : Transaction)
    : Ext X Transaction :=
  match tx with
  | EthTx evmTx =>
      signedTx ← ewrap "remote EVM signing failed"
        (RemoteSignerToBindSignerFn chainID walletID (replicate 20 0) evmTx);
      mret (EthTx signedTx)
  | _ => efail (ErrorNew "expected *types.Transaction")
  end.

Definition RemoteEVMSigner_Address (walletID : string) : Ext X bytes :=
  r ← eattempt (SignerManager_GetWallet walletID PubKeyType_Ethereum);
  match r with
  | inr _ => mret []
  | inl pubKeyBytes =>
      a ← eattempt (elift (UnmarshalPubkey_Address pubKeyBytes));
      match a with inr _ => mret [] | inl address => mret address end
  end.

Definition NewRemoteEVMSigner (walletID chainID : string) : Signer :=
  mkSigner (RemoteEVMSigner_Sign walletID) (RemoteEVMSigner_Address walletID).
End signing.
Arguments Transaction {_ _}.
Arguments Signer X {_ _}.
