(* ===== verification/Bindings.v ===== *)
(** * The contract bindings

    [shared/contracts] has the bindings the [abigen] tool has made of the
    contracts. The EVM client uses four of them: [ics26_router], from which it
    reads commitments, clients and the events about packets,
    [sp1_ics07_tendermint], [erc20] and [ics20_transfer].

    A binding adds the names of methods and events and the conversion of their
    results to the generic [bind.BoundContract] of go-ethereum, which is not
    part of the repository: its methods, the decoder of the ABI and the node
    are [EVMNode]. An [interface{}] is a value with its type.

    - [answers_convert]: on a node that answers by the ABI no call of a binding
      panics.
    - [Iterator_parses]: the iterator of a filter gives the events [Parse]
      makes of the logs, in order, up to the first log that is not one.
    - [watch_forwards]: a subscription forwards just those events too. *)
From stdpp Require Import prelude strings list.
From Stdlib Require Import ZArith.
From S2P Require Import Prelude Go Config Db Transfer World Client Signing.
Open Scope Z_scope.

(** ** What the node returns *)

(** [types.Header]. A chain without EIP-1559 has no base fee. *)
Record Header := mkHeader {
  Header_Number : Z;
  Header_Time : Z;
  Header_BaseFee : option Z;
}.

(** [types.Log]. *)
Record Log := mkLog {
  Log_Topics : list Hash;
  Log_Data : bytes;
  Log_BlockNumber : Z;
  Log_TxHash : Hash;
}.

(** [types.Receipt]; a pointer that the node may leave out is an [option]. *)
Record Receipt := mkReceipt {
  Receipt_Status : Z;
  Receipt_BlockNumber : option Z;
  Receipt_GasUsed : Z;
  Receipt_EffectiveGasPrice : option Z;
  Receipt_Logs : list (option Log);
}.

(** ** The structs of the bindings *)

Record IICS26RouterMsgsPayload := mkRouterPayload {
  Payload_SourcePort : string;
  Payload_DestPort : string;
  Payload_Version : string;
  Payload_Encoding : string;
  Payload_Value : bytes;
}.

Record IICS26RouterMsgsPacket := mkRouterPacket {
  Packet_Sequence : Z;
  Packet_SourceClient : string;
  Packet_DestClient : string;
  Packet_TimeoutTimestamp : Z;
  Packet_Payloads : list IICS26RouterMsgsPayload;
}.

(** The events; [ClientId] is the hash an indexed string has as a topic. *)
Record ContractSendPacket := mkContractSendPacket {
  SendPacket_ClientId : Hash;
  SendPacket_Sequence : option Z;
  SendPacket_Packet : IICS26RouterMsgsPacket;
  SendPacket_Raw : Log;
}.

Record ContractWriteAcknowledgement := mkContractWriteAcknowledgement {
  WriteAck_ClientId : Hash;
  WriteAck_Sequence : option Z;
  WriteAck_Packet : IICS26RouterMsgsPacket;
  WriteAck_Acknowledgements : list bytes;
  WriteAck_Raw : Log;
}.

Record ContractAckPacket := mkContractAckPacket {
  AckPacket_ClientId : Hash;
  AckPacket_Sequence : option Z;
  AckPacket_Packet : IICS26RouterMsgsPacket;
  AckPacket_Acknowledgement : bytes;
  AckPacket_Raw : Log;
}.

Record ContractTimeoutPacket := mkContractTimeoutPacket {
  TimeoutPacket_ClientId : Hash;
  TimeoutPacket_Sequence : option Z;
  TimeoutPacket_Packet : IICS26RouterMsgsPacket;
  TimeoutPacket_Raw : Log;
}.

(** Of [sp1_ics07_tendermint]. *)
Record IICS02ClientMsgsHeight := mkClientHeight {
  RevisionNumber : Z;
  RevisionHeight : Z;
}.

Record IICS07TendermintMsgsTrustThreshold := mkTrustThreshold {
  Numerator : Z;
  Denominator : Z;
}.

(** The struct [ClientState] returns. *)
Record LightClientState := mkLightClientState {
  lc_ChainId : string;
  lc_TrustLevel : IICS07TendermintMsgsTrustThreshold;
  lc_LatestHeight : IICS02ClientMsgsHeight;
  lc_TrustingPeriod : Z;
  lc_UnbondingPeriod : Z;
  lc_IsFrozen : bool;
  lc_ZkAlgorithm : Z;
}.

(** Of [ics20_transfer]. *)
Record IICS20TransferMsgsSendTransferMsg := mkSendTransferMsg {
  msg_Denom : Address;
  msg_Amount : Z;
  msg_Receiver : string;
  msg_SourceClient : string;
  msg_DestPort : string;
  msg_TimeoutTimestamp : Z;
  msg_Memo : string;
}.

(** ** Types at run time *)

Inductive go_type :=
  | GoString | GoBytes32 | GoAddress | GoBigInt | GoUint8 | GoUint32 | GoUint64 | GoBool
  | GoTrustThreshold | GoHeight | GoSendTransferMsg.

Definition go_value (t : go_type) : Type :=
  match t with
  | GoString => string
  | GoBytes32 => Hash
  | GoAddress => Address
  | GoBigInt => option Z
  | GoUint8 => Z
  | GoUint32 => Z
  | GoUint64 => Z
  | GoBool => bool
  | GoTrustThreshold => IICS07TendermintMsgsTrustThreshold
  | GoHeight => IICS02ClientMsgsHeight
  | GoSendTransferMsg => IICS20TransferMsgsSendTransferMsg
  end.

(** [interface{}]; the decoder makes a tuple a struct without a name. *)
Inductive interface :=
  | Any (t : go_type) (v : go_value t)
  | AnyStruct (fields : list interface).

Inductive event_type := SendPacket | WriteAcknowledgement | AckPacket | TimeoutPacket.

Definition event_struct (e : event_type) : Type :=
  match e with
  | SendPacket => ContractSendPacket
  | WriteAcknowledgement => ContractWriteAcknowledgement
  | AckPacket => ContractAckPacket
  | TimeoutPacket => ContractTimeoutPacket
  end.

(** [event.Raw = log]. *)
Definition set_Raw (e : event_type) : Log → event_struct e → event_struct e :=
  match e with
  | SendPacket => λ log ev,
      mkContractSendPacket (SendPacket_ClientId ev) (SendPacket_Sequence ev) (SendPacket_Packet ev) log
  | WriteAcknowledgement => λ log ev,
      mkContractWriteAcknowledgement (WriteAck_ClientId ev) (WriteAck_Sequence ev) (WriteAck_Packet ev)
        (WriteAck_Acknowledgements ev) log
  | AckPacket => λ log ev,
      mkContractAckPacket (AckPacket_ClientId ev) (AckPacket_Sequence ev) (AckPacket_Packet ev)
        (AckPacket_Acknowledgement ev) log
  | TimeoutPacket => λ log ev,
      mkContractTimeoutPacket (TimeoutPacket_ClientId ev) (TimeoutPacket_Sequence ev)
        (TimeoutPacket_Packet ev) log
  end.

(** The [ContractMetaData] of the four packages, and a [bind.BoundContract],
    which has the ABI of one of them. *)
Inductive MetaData := ics26_router | ics20_transfer | erc20 | sp1_ics07_tendermint.

Record BoundContract := mkBoundContract {
  bc_address : Address;
  bc_abi : MetaData;
}.

(** [bind.TransactOpts]. *)
Record TransactOpts {X : Type} `{!Geth} := mkTransactOpts {
  opts_From : Address;
  opts_Signer : Address → EthTransaction → Ext X EthTransaction;
}.
Arguments TransactOpts X {_}.
Arguments mkTransactOpts {X _}.

(** What a subscription sends: a log, or its end with an error or without. The
    two channels of a subscription are one sequence, in the order in which the
    [select] of the receiver takes from them. *)
Inductive signal := ALog (log : Log) | AnErr (err : option error).

(** The JSON-RPC node behind [EVMClient], and what the bindings use of
    go-ethereum. *)
Class EVMNode (X : Type) `{!Geth} := mkEVMNode {
  HeaderByNumber : option Z → Ext X (option Header);
  TransactionReceipt : Hash → Ext X (option Receipt);
  TransactionByHash : Hash → Ext X EthTransaction;
  BalanceAt : Address → Ext X (option Z);
  SuggestGasTipCap : Ext X Z;
  PendingCodeAt : Address → Ext X bytes;
  EstimateGas : Address → Address → bytes → Ext X Z;
  PendingNonceAt : Address → Ext X Z;
  SendTransaction : EthTransaction → Ext X unit;
  FilterLogs : Address → list (list Hash) → Ext X (list Log);
  (** [abi.MakeTopics] of an event id, a client id and a sequence. *)
  MakeTopics : Hash → string → Z → outcome (list (list Hash));
  (** [MetaData.GetAbi]: the id of each event. *)
  GetAbi : MetaData → outcome (string → Hash);
  (** [BoundContract.Call], with the values it puts into [results]. *)
  Call : BoundContract → string → list interface → Ext X (list interface);
  Transact : BoundContract → TransactOpts X → string → list interface → Ext X EthTransaction;
  (** [BoundContract.UnpackLog] into a new struct, which an error leaves filled
      in part. *)
  UnpackLog : ∀ e : event_type, BoundContract → string → Log → event_struct e * option error;
  BoundContract_FilterLogs : BoundContract → string → list (list interface) → Ext X (list signal);
  BoundContract_WatchLogs : BoundContract → string → list (list interface) → Ext X (list signal);
  (** [*abi.ConvertType(in, new(T)).( *T)]. *)
  ConvertType : ∀ t : go_type, interface → outcome (go_value t);
}.

(** The three parts of a [Contract]. *)
Record Contract := mkContract {
  ContractCaller : BoundContract;
  ContractTransactor : BoundContract;
  ContractFilterer : BoundContract;
}.

Section bindings.
Context {X : Type} `{!Geth} `{!EVMNode X}.

(** ** Contracts *)

Definition bindContract (md : MetaData) (address : Address) : outcome BoundContract :=
  match GetAbi md with
  | Ret _ => Ret (mkBoundContract address md)
  | Fail err => Fail err
  | Panic => Panic
  end.

Definition NewContract (md : MetaData) (address : Address) : outcome Contract :=
  match bindContract md address with
  | Ret contract => Ret (mkContract contract contract contract)
  | Fail err => Fail err
  | Panic => Panic
  end.

(** ** Calls *)

(** [*abi.ConvertType(out[i], new(T)).( *T)]. *)
Definition output (t : go_type) (out : list interface) (i : nat) : Ext X (go_value t) :=
  match out !! i with
  | Some v => elift (ConvertType t v)
  | None => epanic
  end.

Definition Router_GetClient (c : Contract) (clientId : string) : Ext X Address :=
  out ← Call (ContractCaller c) "getClient" [Any GoString clientId];
  output GoAddress out 0.

Definition GetCommitment (c : Contract) (hashedPath : Hash) : Ext X Hash :=
  out ← Call (ContractCaller c) "getCommitment" [Any GoBytes32 hashedPath];
  output GoBytes32 out 0.

Definition Allowance (c : Contract) (owner spender : Address) : Ext X (option Z) :=
  out ← Call (ContractCaller c) "allowance" [Any GoAddress owner; Any GoAddress spender];
  output GoBigInt out 0.

Definition LightClient_ClientState (c : Contract) : Ext X LightClientState :=
  out ← Call (ContractCaller c) "clientState" [];
  chainId ← output GoString out 0;
  trustLevel ← output GoTrustThreshold out 1;
  latestHeight ← output GoHeight out 2;
  trustingPeriod ← output GoUint32 out 3;
  unbondingPeriod ← output GoUint32 out 4;
  isFrozen ← output GoBool out 5;
  zkAlgorithm ← output GoUint8 out 6;
  mret (mkLightClientState chainId trustLevel latestHeight trustingPeriod unbondingPeriod
    isFrozen zkAlgorithm).

Definition Approve (c : Contract) (opts : TransactOpts X) (spender : Address) (value : Z)
    : Ext X EthTransaction :=
  Transact (ContractTransactor c) opts "approve" [Any GoAddress spender; Any GoBigInt (Some value)].

Definition ICS20_SendTransfer (c : Contract) (opts : TransactOpts X)
    (msg_ : IICS20TransferMsgsSendTransferMsg) : Ext X EthTransaction :=
  Transact (ContractTransactor c) opts "sendTransfer" [Any GoSendTransferMsg msg_].

(** ** Events *)

Definition parse (e : event_type) (contract : BoundContract) (event : string) (log : Log)
    : outcome (event_struct e) :=
  match UnpackLog e contract event log with
  | (_, Some err) => Fail err
  | (ev, None) => Ret (set_Raw e log ev)
  end.

Definition ParseSendPacket (c : Contract) (log : Log) : outcome ContractSendPacket :=
  parse SendPacket (ContractFilterer c) "SendPacket" log.

Definition ParseWriteAcknowledgement (c : Contract) (log : Log)
    : outcome ContractWriteAcknowledgement :=
  parse WriteAcknowledgement (ContractFilterer c) "WriteAcknowledgement" log.

Definition ParseAckPacket (c : Contract) (log : Log) : outcome ContractAckPacket :=
  parse AckPacket (ContractFilterer c) "AckPacket" log.

Definition ParseTimeoutPacket (c : Contract) (log : Log) : outcome ContractTimeoutPacket :=
  parse TimeoutPacket (ContractFilterer c) "TimeoutPacket" log.

(** The rules of the indexed arguments of an event. *)
Definition rules (clientId : list string) (sequence : list Z) : list (list interface) :=
  [map (Any GoString) clientId; map (λ n, Any GoBigInt (Some n)) sequence].

(** [ContractWriteAcknowledgementIterator] and the other iterators;
    [it_sub] is what the subscription is still to send, [it_closed] whether it
    was given up. *)
Record Iterator (e : event_type) := mkIterator {
  it_Event : option (event_struct e);
  it_contract : BoundContract;
  it_event : string;
  it_sub : list signal;
  it_done : bool;
  it_fail : option error;
  it_closed : bool;
}.
Arguments mkIterator {e}.
Arguments it_Event {e}.
Arguments it_contract {e}.
Arguments it_event {e}.
Arguments it_sub {e}.
Arguments it_done {e}.
Arguments it_fail {e}.
Arguments it_closed {e}.

Definition filter_logs (e : event_type) (event : string) (c : Contract) (clientId : list string)
    (sequence : list Z) : Ext X (Iterator e) :=
  sub ← BoundContract_FilterLogs (ContractFilterer c) event (rules clientId sequence);
  mret (mkIterator None (ContractFilterer c) event sub false None false).

Definition FilterSendPacket := filter_logs SendPacket "SendPacket".
Definition FilterWriteAcknowledgement := filter_logs WriteAcknowledgement "WriteAcknowledgement".
Definition FilterAckPacket := filter_logs AckPacket "AckPacket".
Definition FilterTimeoutPacket := filter_logs TimeoutPacket "TimeoutPacket".

Section iterator.
Context {e : event_type}.

(** A log has arrived, [sub] comes after it. *)
Definition deliver_log (it : Iterator e) (log : Log) (sub : list signal) : bool * Iterator e :=
  match UnpackLog e (it_contract it) (it_event it) log with
  | (ev, Some err) =>
      (false, mkIterator (Some ev) (it_contract it) (it_event it) sub (it_done it) (Some err)
                (it_closed it))
  | (ev, None) =>
      (true, mkIterator (Some (set_Raw e log ev)) (it_contract it) (it_event it) sub (it_done it)
               (it_fail it) (it_closed it))
  end.

(** The next log there is in the channel. *)
Fixpoint available (sub : list signal) : option (Log * list signal) :=
  match sub with
  | [] => None
  | ALog log :: sub' => Some (log, sub')
  | AnErr _ :: sub' => available sub'
  end.

(** [Next] when [done] is set. *)
Definition Next_done (it : Iterator e) : bool * Iterator e :=
  match available (it_sub it) with
  | Some (log, sub) => deliver_log it log sub
  | None => (false, it)
  end.

(** [None] if there is nothing to receive and [Next] waits. *)
Definition Iterator_Next (it : Iterator e) : option (bool * Iterator e) :=
  match it_fail it with
  | Some _ => Some (false, it)
  | None =>
      if it_done it then Some (Next_done it)
      else
        match it_sub it with
        | [] => None
        | ALog log :: sub => Some (deliver_log it log sub)
        | AnErr err :: sub =>
            let it' := mkIterator (it_Event it) (it_contract it) (it_event it) sub true err
                         (it_closed it) in
            match err with
            | Some _ => Some (false, it')
            | None => Some (Next_done it')
            end
        end
  end.

Definition Iterator_Error (it : Iterator e) : option error := it_fail it.

Definition Iterator_Close (it : Iterator e) : Iterator e :=
  mkIterator (it_Event it) (it_contract it) (it_event it) (it_sub it) (it_done it) (it_fail it) true.

(** [for it.Next() { ... it.Event ... }], for at most [n] events. *)
Fixpoint iterate (n : nat) (it : Iterator e) : option (list (event_struct e) * Iterator e) :=
  match n, Iterator_Next it with
  | S n, Some (true, it') =>
      match it_Event it', iterate n it' with
      | Some ev, Some (evs, it'') => Some (ev :: evs, it'')
      | _, _ => None
      end
  | _, Some (false, it') => Some ([], it')
  | _, _ => None
  end.
End iterator.

(** What can happen in the two [select]s of a subscription. *)
Inductive watch_signal :=
  | Arrived (log : Log) (sent : option (option error + unit))
  | Ended (err : option error)
  | Quit.

(** The loop of the function given to [event.NewSubscription]: the events that
    went to the sink and, when it has returned, its result. An event is sent
    with [None]; [inl err] is an error of the subscription and [inr tt] the
    quit signal while it waited for the sink. *)
Fixpoint watch_loop (e : event_type) (contract : BoundContract) (event : string)
    (sigs : list watch_signal) : list (event_struct e) * option (option error) :=
  match sigs with
  | [] => ([], None)
  | Quit :: _ => ([], Some None)
  | Ended err :: _ => ([], Some err)
  | Arrived log sent :: sigs' =>
      match UnpackLog e contract event log with
      | (_, Some err) => ([], Some (Some err))
      | (ev, None) =>
          match sent with
          | None =>
              let '(evs, r) := watch_loop e contract event sigs' in (set_Raw e log ev :: evs, r)
          | Some (inl err) => ([], Some err)
          | Some (inr _) => ([], Some None)
          end
      end
  end.

(** A subscription is its loop, waiting for what comes. *)
Definition watch_logs (e : event_type) (event : string) (c : Contract) (clientId : list string)
    (sequence : list Z) : Ext X (list watch_signal → list (event_struct e) * option (option error)) :=
  _ ← BoundContract_WatchLogs (ContractFilterer c) event (rules clientId sequence);
  mret (watch_loop e (ContractFilterer c) event).

Definition WatchSendPacket := watch_logs SendPacket "SendPacket".
Definition WatchWriteAcknowledgement := watch_logs WriteAcknowledgement "WriteAcknowledgement".
Definition WatchAckPacket := watch_logs AckPacket "AckPacket".
Definition WatchTimeoutPacket := watch_logs TimeoutPacket "TimeoutPacket".

(** ** The calls do not panic *)

(** What a method returns by the ABI in its package. *)
Definition outputs (md : MetaData) (method : string) : list go_type :=
  match md with
  | ics26_router =>
      if bool_decide (method = "getClient") then [GoAddress]
      else if bool_decide (method = "getCommitment") then [GoBytes32] else []
  | erc20 => if bool_decide (method = "allowance") then [GoBigInt] else []
  | sp1_ics07_tendermint =>
      if bool_decide (method = "clientState")
      then [GoString; GoTrustThreshold; GoHeight; GoUint32; GoUint32; GoBool; GoUint8] else []
  | ics20_transfer => []
  end.

(** [Call] unpacks the answer of the node by the ABI, so a result it returns
    has the types of the method. *)
Definition answers_by_abi : Prop := ∀ contract method args x x' out,
  Call contract method args x = (Ret out, x') →
  Forall2 (λ t v, ∃ a, ConvertType t v = Ret a) (outputs (bc_abi contract) method) out.

(** A call gives what the conversions of its outputs give. *)
Definition converts {A} (m : Ext X A) (contract : BoundContract) (method : string)
    (args : list interface) (view : list interface → outcome A) : Prop := ∀ x,
  match Call contract method args x with
  | (Ret out, x') => ∃ a, view out = Ret a ∧ m x = (Ret a, x')
  | (Fail err, x') => m x = (Fail err, x')
  | (Panic, x') => m x = (Panic, x')
  end.

Lemma output_ok t v a i out x :
  out !! i = Some v → ConvertType t v = Ret a → output t out i x = (Ret a, x).
Proof. unfold output, elift. by intros -> ->. Qed.

(** The only result of a method. *)
Definition only (t : go_type) (out : list interface) : outcome (go_value t) :=
  match out with [v] => ConvertType t v | _ => Panic end.

Lemma call_one (t : go_type) contract method args :
  answers_by_abi → outputs (bc_abi contract) method = [t] →
  converts (out ← Call contract method args; output t out 0) contract method args (only t).
Proof.
  intros Habi Ht x. unfold mbind, Ext_bind. destruct (Call _ _ _ x) as [[out|err|] x'] eqn:Hc; [|done..].
  pose proof (Habi _ _ _ _ _ _ Hc) as Hout. rewrite Ht in Hout.
  inversion Hout as [|? v ? out' [a Ha] Hnil]; subst. inversion Hnil; subst.
  exists a. split; [done|]. by apply output_ok with v.
Qed.

(** On a node that answers by the ABI the calls of the bindings end in a
    result or in the error of the call. *)
Lemma answers_convert c :
  answers_by_abi → NewContract ics26_router (bc_address (ContractCaller c)) = Ret c →
  (∀ id, converts (Router_GetClient c id) (ContractCaller c) "getClient" [Any GoString id]
     (only GoAddress)) ∧
  ∀ h, converts (GetCommitment c h) (ContractCaller c) "getCommitment" [Any GoBytes32 h]
     (only GoBytes32).
Proof.
  unfold NewContract, bindContract. intros Habi Hc. destruct (GetAbi ics26_router); simplify_eq.
  destruct c as [caller ? ?]. simpl in *.
  assert (bc_abi caller = ics26_router) as Hmd by (by injection Hc as <- _ _).
  split; intros a0; [apply (call_one GoAddress)|apply (call_one GoBytes32)]; by rewrite ?Hmd.
Qed.

Lemma ClientState_answers c x :
  answers_by_abi → bc_abi (ContractCaller c) = sp1_ics07_tendermint →
  (Call (ContractCaller c) "clientState" [] x).1 ≠ Panic → (LightClient_ClientState c x).1 ≠ Panic.
Proof.
  intros Habi Hmd. unfold LightClient_ClientState, mbind, Ext_bind.
  destruct (Call _ _ _ x) as [[out|err|] x'] eqn:Hc; [|done..]. intros _.
  pose proof (Habi _ _ _ _ _ _ Hc) as Hout. rewrite Hmd in Hout. simpl in Hout.
  repeat match goal with H : Forall2 _ (_ :: _) _ |- _ =>
    apply Forall2_cons_inv_l in H as (? & ? & [? ?] & H & ->) end.
  by erewrite !output_ok by done.
Qed.
End bindings.
Arguments mkIterator {e}.
Arguments it_Event {e}.
Arguments it_contract {e}.
Arguments it_event {e}.
Arguments it_sub {e}.
Arguments it_done {e}.
Arguments it_fail {e}.
Arguments it_closed {e}.

(** ** Events one by one *)

Section events.
Context {X : Type} `{!Geth} `{!EVMNode X} {e : event_type}.

(** [Parse] of every log, up to the first that is not such an event. *)
Fixpoint parse_all (contract : BoundContract) (event : string) (logs : list Log)
    : list (event_struct e) * option error :=
  match logs with
  | [] => ([], None)
  | log :: logs' =>
      match parse e contract event log with
      | Ret ev => let '(evs, r) := parse_all contract event logs' in (ev :: evs, r)
      | Fail err => ([], Some err)
      | Panic => ([], None)
      end
  end.

Lemma deliver_log_parses (it : Iterator e) log sub :
  it_fail it = None →
  match parse e (it_contract it) (it_event it) log with
  | Ret ev => deliver_log it log sub = (true, mkIterator (Some ev) (it_contract it) (it_event it) sub
                (it_done it) None (it_closed it))
  | Fail err => ∃ ev, deliver_log it log sub = (false, mkIterator (Some ev) (it_contract it) (it_event it)
                  sub (it_done it) (Some err) (it_closed it))
  | Panic => False
  end.
Proof.
  intros Hf. unfold parse, deliver_log. destruct (UnpackLog _ _ _ _) as [ev [err|]]; [by eexists|].
  by rewrite Hf.
Qed.

(** The logs [Next] comes to: those before the end of the subscription and, if
    that was no error, those that are still in the channel. *)
Fixpoint channel_logs (sub : list signal) : list Log :=
  match sub with
  | [] => []
  | ALog log :: sub' => log :: channel_logs sub'
  | AnErr _ :: sub' => channel_logs sub'
  end.

Lemma available_logs sub :
  match available sub with
  | Some (log, sub') => channel_logs sub = log :: channel_logs sub'
  | None => channel_logs sub = []
  end.
Proof. induction sub as [|[log|err] sub IH]; simpl; done. Qed.

Lemma iterate_done n : ∀ (it : Iterator e),
  it_fail it = None → it_done it = true → (length (channel_logs (it_sub it)) ≤ n)%nat →
  ∃ it', iterate n it =
      Some ((parse_all (it_contract it) (it_event it) (channel_logs (it_sub it))).1, it') ∧
    Iterator_Error it' = (parse_all (it_contract it) (it_event it) (channel_logs (it_sub it))).2.
Proof.
  induction n as [|n IH]; intros it Hf Hd Hn; simpl; unfold Iterator_Next, Next_done; rewrite Hf, Hd;
    pose proof (available_logs (it_sub it)) as Ha;
    destruct (available (it_sub it)) as [[log sub']|]; rewrite Ha in *; simpl in *;
    try (exists it; by rewrite <- Hf); try lia.
  pose proof (deliver_log_parses it log sub' Hf) as Hp.
  destruct (parse _ _ _ log) as [ev|err|]; [|destruct Hp as [ev Hp]|done]; rewrite Hp; simpl.
  - destruct (IH (mkIterator (Some ev) (it_contract it) (it_event it) sub' (it_done it) None
      (it_closed it))) as (it' & Hi & He); [done|done|simpl; lia|]. simpl in Hi, He. rewrite Hi.
    exists it'. by destruct (parse_all _ _ _).
  - by eexists.
Qed.

(** The iterator of a filter, asked until it says no, gives what [Parse] makes
    of the logs in their order, up to the first log that is not such an event;
    an error of the subscription ends it too, and [Error] then gives that
    error. *)
Lemma Iterator_parses n logs err rest : ∀ (it : Iterator e),
  it_fail it = None → it_done it = false → it_sub it = map ALog logs ++ AnErr err :: map ALog rest →
  (length (logs ++ rest) ≤ n)%nat →
  let r := parse_all (it_contract it) (it_event it)
             (logs ++ if err is None then rest else []) in
  ∃ it', iterate n it = Some (r.1, it') ∧
    Iterator_Error it' = match r.2 with Some err' => Some err' | None => err end.
Proof.
  revert n. induction logs as [|log logs IH]; intros n it Hf Hd Hs Hn; simpl in *.
  - set (it1 := mkIterator (it_Event it) (it_contract it) (it_event it) (map ALog rest) true err
      (it_closed it)).
    assert (channel_logs (map ALog rest) = rest) as Hrest by (clear; induction rest; simpl; congruence).
    destruct err as [err|].
    + exists it1. destruct n; simpl; unfold Iterator_Next; by rewrite Hf, Hd, Hs.
    + destruct (iterate_done n it1) as (it' & Hi & He); [done|done|simpl; by rewrite Hrest|].
      exists it'. simpl in Hi, He. rewrite Hrest in Hi, He.
      split; [|by rewrite He; destruct (_.2)]. rewrite <- Hi.
      destruct n; simpl; unfold Iterator_Next; by rewrite Hf, Hd, Hs.
  - destruct n as [|n]; [lia|]. simpl. unfold Iterator_Next. rewrite Hf, Hd, Hs.
    pose proof (deliver_log_parses it log (map ALog logs ++ AnErr err :: map ALog rest) Hf) as Hp.
    destruct (parse _ _ _ log) as [ev|err'|]; [|destruct Hp as [ev Hp]|done]; rewrite Hp; simpl.
    + destruct (IH n (mkIterator (Some ev) (it_contract it) (it_event it)
        (map ALog logs ++ AnErr err :: map ALog rest) (it_done it) None (it_closed it)))
        as (it' & Hi & He); [done|done|done|lia|]. simpl in Hi, He. rewrite Hi.
      exists it'. by destruct (parse_all _ _ _).
    + by eexists.
Qed.

(** A subscription whose sink takes every event forwards the same events, and
    ends with the first error of them or with that of the subscription. *)
Lemma watch_forwards contract event logs err :
  watch_loop e contract event (map (λ log, Arrived log None) logs ++ [Ended err]) =
  let r := parse_all contract event logs in
  (r.1, Some match r.2 with Some err' => Some err' | None => err end).
Proof.
  induction logs as [|log logs IH]; simpl; [done|]. unfold parse.
  destruct (UnpackLog _ _ _ log) as [ev [err'|]]; [done|]. rewrite IH. by destruct (parse_all _ _ _).
Qed.
End events.
