(* ===== verification/ProtoWire.v ===== *)
(** * The wire format of the generated protobuf code

    Every message of [proto/gen] has the same generated methods: [Size],
    [MarshalToSizedBuffer], which fills a buffer from its end, [Marshal],
    which makes a buffer of just that size, and [Unmarshal], a loop over the
    fields with an index into the data. This file has what they share: the
    loops that read and write a varint, the reading of a length and of what
    it delimits, the skipping of unknown fields, and the loop over the fields;
    [PacketCodec.v] has the messages.

    An index or a length is an [int] of 64 bits; an index past the end of a
    slice is a [Panic]. The loops are recursive on fuel and panic without it,
    so that a theorem that they do not panic says that they end.

    [ProtoMessage] is what the generated methods of a message are, and
    [ProtoLaws] what a message has to show of them; from these follow
    [Marshal_wire], [Unmarshal_wire] and [Unmarshal_lands] for every
    message. *)
From stdpp Require Import prelude strings list.
From Stdlib Require Import ZArith Lia.
From S2P Require Import Prelude Go.
Open Scope Z_scope.

#[global] Instance outcome_ret : MRet outcome := @Ret.
#[global] Instance outcome_bind : MBind outcome := λ A B k o,
  match o with Ret a => k a | Fail e => Fail e | Panic => Panic end.

(** ** Errors *)

Definition ErrUnexpectedEOF : error := ErrorNew "unexpected EOF".
Definition ErrInvalidLength : error := ErrorNew "proto: negative length found during unmarshaling".
Definition ErrIntOverflow : error := ErrorNew "proto: integer overflow".
Definition ErrUnexpectedEndOfGroup : error := ErrorNew "proto: unexpected end of group".

(** ** Slices *)

Definition len (bs : bytes) : Z := Z.of_nat (length bs).

(** [bs[i]]. *)
Definition index (bs : bytes) (i : Z) : outcome Z :=
  if 0 <=? i
  then match (bs : list Z) !! Z.to_nat i with Some b => Ret b | None => Panic end
  else Panic.

(** [bs[i:j]]. *)
Definition slice (bs : bytes) (i j : Z) : outcome bytes :=
  if (0 <=? i) && (i <=? j) && (j <=? len bs)
  then Ret (take (Z.to_nat (j - i)) (drop (Z.to_nat i) bs))
  else Panic.

(** [bs[i] = b]. *)
Definition assign (bs : bytes) (i b : Z) : outcome bytes :=
  if (0 <=? i) && (i <? len bs) then Ret (<[Z.to_nat i := b]> (bs : list Z)) else Panic.

(** [copy(bs[i:], src)]. *)
Definition copy_at (bs : bytes) (i : Z) (src : bytes) : outcome bytes :=
  if (0 <=? i) && (i <=? len bs)
  then Ret (take (Z.to_nat i) bs ++
            take (length bs - Z.to_nat i) src ++ drop (Z.to_nat i + length src) bs)
  else Panic.

(** ** Reading *)

(** The values below 64 that [shift] runs through in
    [for shift := uint(0); ; shift += 7]. *)
Definition shifts : list Z := [0; 7; 14; 21; 28; 35; 42; 49; 56; 63].

(** The loop that reads a varint into a variable of the type [conv] converts
    to. *)
Fixpoint varint_loop (conv : Z → Z) (dAtA : bytes) (shs : list Z) (v iNdEx : Z)
    : outcome (Z * Z) :=
  match shs with
  | [] => Fail ErrIntOverflow
  | shift :: shs' =>
      if len dAtA <=? iNdEx then Fail ErrUnexpectedEOF
      else
        b ← index dAtA iNdEx;
        let v := Z.lor v (conv (Z.shiftl (Z.land b 127) shift)) in
        if b <? 128 then Ret (v, iNdEx + 1) else varint_loop conv dAtA shs' v (iNdEx + 1)
  end.

Definition read_varint (conv : Z → Z) (dAtA : bytes) (iNdEx : Z) : outcome (Z * Z) :=
  varint_loop conv dAtA shifts 0 iNdEx.

(** A length, and the index after what it delimits. *)
Definition read_postIndex (conv : Z → Z) (dAtA : bytes) (iNdEx : Z) : outcome (Z * Z) :=
  '(n, iNdEx) ← read_varint conv dAtA iNdEx;
  let n := int64 n in
  if n <? 0 then Fail ErrInvalidLength
  else
    let postIndex := int64 (iNdEx + n) in
    if postIndex <? 0 then Fail ErrInvalidLength
    else if len dAtA <? postIndex then Fail ErrUnexpectedEOF
    else Ret (iNdEx, postIndex).

(** The bytes a length delimits, and the index after them. *)
Definition read_bytes (conv : Z → Z) (dAtA : bytes) (iNdEx : Z) : outcome (bytes * Z) :=
  '(iNdEx, postIndex) ← read_postIndex conv dAtA iNdEx;
  bs ← slice dAtA iNdEx postIndex;
  Ret (bs, postIndex).

(** ** Skipping *)

Fixpoint skip_varint (dAtA : bytes) (shs : list Z) (iNdEx : Z) : outcome Z :=
  match shs with
  | [] => Fail ErrIntOverflow
  | _ :: shs' =>
      if len dAtA <=? iNdEx then Fail ErrUnexpectedEOF
      else
        b ← index dAtA iNdEx;
        if b <? 128 then Ret (iNdEx + 1) else skip_varint dAtA shs' (iNdEx + 1)
  end.

(** The [switch] on the wire type: the new index and depth. *)
Definition skip_value (dAtA : bytes) (wireType depth iNdEx : Z) : outcome (Z * Z) :=
  if wireType =? 0 then
    i ← skip_varint dAtA shifts iNdEx; Ret (i, depth)
  else if wireType =? 1 then Ret (int64 (iNdEx + 8), depth)
  else if wireType =? 2 then
    '(length, i) ← read_varint int64 dAtA iNdEx;
    if length <? 0 then Fail ErrInvalidLength else Ret (int64 (i + length), depth)
  else if wireType =? 3 then Ret (iNdEx, depth + 1)
  else if wireType =? 4 then
    if depth =? 0 then Fail ErrUnexpectedEndOfGroup else Ret (iNdEx, depth - 1)
  else if wireType =? 5 then Ret (int64 (iNdEx + 4), depth)
  else Fail (ErrorNew "proto: illegal wireType").

Fixpoint skip_loop (fuel : nat) (dAtA : bytes) (depth iNdEx : Z) : outcome Z :=
  match fuel with
  | O => Panic
  | S fuel' =>
      if len dAtA <=? iNdEx then Fail ErrUnexpectedEOF
      else
        '(wire, i) ← read_varint uint64 dAtA iNdEx;
        '(i, depth) ← skip_value dAtA (Z.land wire 7) depth i;
        if i <? 0 then Fail ErrInvalidLength
        else if depth =? 0 then Ret i
        else skip_loop fuel' dAtA depth i
  end.

(** How many bytes the first field of the data takes. *)
Definition skipPacket (dAtA : bytes) : outcome Z := skip_loop (S (length dAtA)) dAtA 0 0.

(** ** The loop over the fields *)

Section unmarshal.
Context {T : Type} (name : string).

(** The [switch] on the field number, after the tag has been read; [None] is
    its [default]. *)
Context (field : T → bytes → Z → Z → Z → option (outcome (T * Z))).

Fixpoint unmarshal_loop (fuel : nat) (dAtA : bytes) (m : T) (iNdEx : Z) : outcome T :=
  match fuel with
  | O => Panic
  | S fuel' =>
      if iNdEx <? len dAtA then
        '(wire, i) ← read_varint uint64 dAtA iNdEx;
        let fieldNum := int32 (Z.shiftr wire 3) in
        let wireType := Z.land wire 7 in
        if wireType =? 4
        then Fail (ErrorNew ("proto: " +:+ name +:+ ": wiretype end group for non-group"))
        else if fieldNum <=? 0
        then Fail (ErrorNew ("proto: " +:+ name +:+ ": illegal tag"))
        else
          match field m dAtA fieldNum wireType i with
          | Some r => '(m, i) ← r; unmarshal_loop fuel' dAtA m i
          | None =>
              rest ← slice dAtA iNdEx (len dAtA);
              skippy ← skipPacket rest;
              if (skippy <? 0) || (int64 (iNdEx + skippy) <? 0) then Fail ErrInvalidLength
              else if len dAtA <? int64 (iNdEx + skippy) then Fail ErrUnexpectedEOF
              else unmarshal_loop fuel' dAtA m (int64 (iNdEx + skippy))
          end
      else if len dAtA <? iNdEx then Fail ErrUnexpectedEOF
      else Ret m
  end.

Definition unmarshal (dAtA : bytes) (m : T) : outcome T :=
  unmarshal_loop (S (length dAtA)) dAtA m 0.
End unmarshal.

(** The test of the wire type in each case. *)
Definition expect {A} (wireType want : Z) (name : string) (k : outcome A) : outcome A :=
  if negb (wireType =? want)
  then Fail (ErrorNew ("proto: wrong wireType for field " +:+ name))
  else k.

(** ** Writing

    The state of [MarshalToSizedBuffer]: the index [i] and the buffer. *)

Definition Len64 (x : Z) : Z := if x =? 0 then 0 else Z.log2 x + 1.

Definition sov (x : Z) : Z := (Len64 (Z.lor x 1) + 6) / 7.

Definition buffer : Type := Z * bytes.
Definition writer : Type := buffer → outcome buffer.

Definition nothing : writer := Ret.
Definition andThen (w1 w2 : writer) : writer := λ b, b ← w1 b; w2 b.
Notation "w1 ;>> w2" := (andThen w1 w2) (at level 90, right associativity).

(** [i -= len(bs); copy(dAtA[i:], bs)]. *)
Definition put_bytes (bs : bytes) : writer := λ '(i, dAtA),
  let i := i - len bs in
  dAtA ← copy_at dAtA i bs; Ret (i, dAtA).

(** [i--; dAtA[i] = b]. *)
Definition put_byte (b : Z) : writer := λ '(i, dAtA),
  let i := i - 1 in
  dAtA ← assign dAtA i b; Ret (i, dAtA).

Fixpoint encodeVarint_loop (fuel : nat) (dAtA : bytes) (offset v : Z) : outcome bytes :=
  match fuel with
  | O => Panic
  | S fuel' =>
      if 128 <=? v then
        dAtA ← assign dAtA offset (uint8 (Z.lor (Z.land v 127) 128));
        encodeVarint_loop fuel' dAtA (offset + 1) (Z.shiftr v 7)
      else assign dAtA offset (uint8 v)
  end.

(** [i = encodeVarint(dAtA, i, v)]. *)
Definition encodeVarint (v : Z) : writer := λ '(offset, dAtA),
  let base := offset - sov v in
  dAtA ← encodeVarint_loop 10 dAtA base v; Ret (base, dAtA).

(** A field: its value, its length if it has one, and its tag, in the order in
    which they are written. *)
Definition put_uint (tag v : Z) : writer :=
  if v =? 0 then nothing else encodeVarint v ;>> put_byte tag.

Definition put_delimited (tag : Z) (bs : bytes) : writer :=
  put_bytes bs ;>> encodeVarint (len bs) ;>> put_byte tag.

Definition put_nonempty (tag : Z) (bs : bytes) : writer :=
  if len bs =? 0 then nothing else put_delimited tag bs.

(** A message inside another, written into [dAtA[:i]]. *)
Definition put_message (tag : Z) (w : bytes → outcome (Z * bytes)) : writer := λ '(i, dAtA),
  inner ← slice dAtA 0 i;
  '(size, inner) ← w inner;
  (encodeVarint size ;>> put_byte tag) (i - size, inner ++ drop (Z.to_nat i) dAtA).

(** The elements of a repeated field, from the last to the first. *)
Fixpoint put_repeated {A} (put : A → writer) (l : list A) : writer :=
  match l with
  | [] => nothing
  | a :: l' => put_repeated put l' ;>> put a
  end.

(** The fields of a message, written into a buffer: how many bytes they took. *)
Definition to_sized_buffer (w : writer) (dAtA : bytes) : outcome (Z * bytes) :=
  '(i, dAtA') ← w (len dAtA, dAtA);
  Ret (len dAtA' - i, dAtA').

(** ** A message *)

Class ProtoMessage (T : Type) := mkProtoMessage {
  proto_name : string;
  proto_zero : T;
  proto_Size : T → Z;
  proto_fields : T → writer;
  proto_field : T → bytes → Z → Z → Z → option (outcome (T * Z));
}.

Section methods.
Context {T : Type} `{!ProtoMessage T}.

Definition MarshalToSizedBuffer (m : T) (dAtA : bytes) : outcome (Z * bytes) :=
  to_sized_buffer (proto_fields m) dAtA.

Definition MarshalTo (m : T) (dAtA : bytes) : outcome (Z * bytes) :=
  dAtA' ← slice dAtA 0 (proto_Size m);
  '(n, dAtA') ← MarshalToSizedBuffer m dAtA';
  Ret (n, dAtA' ++ drop (Z.to_nat (proto_Size m)) dAtA).

(** [make] panics on a negative size. *)
Definition Marshal (m : T) : outcome bytes :=
  let size := proto_Size m in
  if size <? 0 then Panic
  else
    '(n, dAtA) ← MarshalToSizedBuffer m (replicate (Z.to_nat size) 0);
    slice dAtA 0 n.

Definition Unmarshal (dAtA : bytes) (m : T) : outcome T :=
  unmarshal proto_name proto_field dAtA m.

(** [proto.Unmarshal], which resets the message first. *)
Definition proto_Unmarshal (dAtA : bytes) : outcome T := Unmarshal dAtA proto_zero.
End methods.

(** ** The reference encoding *)

Fixpoint varint_bytes (n : nat) (v : Z) : bytes :=
  match n with
  | O => [v]
  | S n' =>
      if v <? 128 then [v] else (v mod 128 + 128) :: varint_bytes n' (v / 128)
  end.

(** A number of 64 bits takes at most ten bytes. *)
Definition varint (v : Z) : bytes := varint_bytes 9 v.

Definition wire_uint (tag v : Z) : bytes := if v =? 0 then [] else tag :: varint v.
Definition wire_delimited (tag : Z) (bs : bytes) : bytes := tag :: varint (len bs) ++ bs.
Definition wire_nonempty (tag : Z) (bs : bytes) : bytes :=
  if len bs =? 0 then [] else wire_delimited tag bs.

(** ** Arithmetic of varints *)

Lemma low_bits v : Z.land v 127 = v mod 128.
Proof. change 127 with (Z.ones 7). by rewrite Z.land_ones. Qed.

Lemma next_bits v : Z.shiftr v 7 = v / 128.
Proof. by rewrite Z.shiftr_div_pow2. Qed.

(** A statement about the numbers below 128 can be computed. *)
Lemma below_128 (P : Z → bool) :
  forallb P (seqZ 0 128) = true → ∀ x, 0 ≤ x < 128 → P x = true.
Proof.
  intros H x Hx. rewrite forallb_forall in H. apply H, list_elem_of_In, elem_of_seqZ. lia.
Qed.

Lemma more_bit x : 0 ≤ x < 128 → uint8 (Z.lor x 128) = x + 128.
Proof.
  intros Hx. apply Z.eqb_eq.
  by apply (below_128 (λ x, uint8 (Z.lor x 128) =? x + 128)); [vm_compute|].
Qed.

Lemma without_more_bit x : 0 ≤ x < 128 → Z.land (x + 128) 127 = x.
Proof. intros. rewrite low_bits. by rewrite <- (Z.mul_1_l 128) at 1; rewrite Z.mod_add, Z.mod_small. Qed.

Lemma split_bits v sh :
  0 ≤ sh → Z.lor (Z.shiftl (v mod 128) sh) (Z.shiftl (v / 128) (sh + 7)) = Z.shiftl v sh.
Proof.
  intros Hsh. rewrite <- low_bits, <- next_bits. change 127 with (Z.ones 7).
  apply Z.bits_inj'. intros i Hi. rewrite Z.lor_spec, !Z.shiftl_spec by done.
  destruct (Z.ltb_spec i sh).
  { rewrite (Z.testbit_neg_r _ (i - sh)), (Z.testbit_neg_r _ (i - (sh + 7))),
      (Z.testbit_neg_r v) by lia. done. }
  rewrite Z.land_spec, Z.testbit_ones_nonneg by lia. destruct (Z.ltb_spec (i - sh) 7).
  - rewrite (Z.testbit_neg_r _ (i - (sh + 7))) by lia. by rewrite andb_true_r, orb_false_r.
  - rewrite Z.shiftr_spec by lia. rewrite andb_false_r. simpl. f_equal. lia.
Qed.

Lemma div_128_bound v k : 0 ≤ v < 2 ^ (7 * (k + 1)) → 0 ≤ k → 0 ≤ v / 128 < 2 ^ (7 * k).
Proof.
  intros Hv Hk. split; [apply Z.div_pos; lia|]. apply Z.div_lt_upper_bound; [lia|].
  replace (7 * (k + 1)) with (7 + 7 * k) in Hv by lia. rewrite Z.pow_add_r in Hv by lia. lia.
Qed.

Lemma varint_pos v : 0 < len (varint v).
Proof. unfold varint, len. cbn [varint_bytes]. case_match; simpl; lia. Qed.

(** [sov] is the length of the encoding. *)
Lemma sov_log2 v : 0 ≤ v → sov v = Z.log2 v / 7 + 1.
Proof.
  intros Hv. unfold sov, Len64.
  assert (Z.lor v 1 ≠ 0) as Hne by (rewrite Z.lor_eq_0_iff; lia).
  destruct (Z.eqb_spec (Z.lor v 1) 0); [done|].
  rewrite Z.log2_lor by lia. change (Z.log2 1) with 0. rewrite Z.max_l by apply Z.log2_nonneg.
  replace (Z.log2 v + 1 + 6) with (Z.log2 v + 1 * 7) by lia. by rewrite Z.div_add.
Qed.

Lemma sov_next v : 128 ≤ v → sov v = sov (v / 128) + 1.
Proof.
  intros Hv. rewrite !sov_log2 by (try apply Z.div_pos; lia). rewrite <- next_bits, Z.log2_shiftr by lia.
  assert (7 ≤ Z.log2 v) by (by apply (Z.log2_le_mono 128 v)).
  rewrite Z.max_r by lia. replace (Z.log2 v) with (Z.log2 v - 7 + 1 * 7) at 1 by lia.
  rewrite Z.div_add by lia. lia.
Qed.

Lemma sov_small v : 0 ≤ v < 128 → sov v = 1.
Proof.
  intros Hv. rewrite sov_log2 by lia. rewrite Z.div_small; [done|].
  split; [apply Z.log2_nonneg|]. destruct (decide (v = 0)) as [-> |]; [done|].
  apply Z.log2_lt_pow2; lia.
Qed.

Lemma varint_bytes_length n : ∀ v,
  0 ≤ v < 2 ^ (7 * (Z.of_nat n + 1)) → len (varint_bytes n v) = sov v.
Proof.
  unfold len. induction n as [|n IH]; intros v Hv; simpl.
  { rewrite sov_small; [done|]. lia. }
  destruct (Z.ltb_spec v 128); [rewrite sov_small; [done|lia]|].
  cbn [length]. rewrite sov_next, Nat2Z.inj_succ by done. rewrite IH; [lia|].
  replace (Z.of_nat n + 1) with (Z.of_nat (S n)) by lia. apply div_128_bound; lia.
Qed.

Lemma varint_length v : is_uint64 v → len (varint v) = sov v.
Proof. intros Hv. apply varint_bytes_length. unfold is_uint64 in Hv. simpl. lia. Qed.

Lemma varint_bytes_bytes n : ∀ v,
  0 ≤ v < 2 ^ (7 * (Z.of_nat n + 1)) → Forall is_byte (varint_bytes n v).
Proof.
  unfold is_byte. induction n as [|n IH]; intros v Hv; simpl; [repeat constructor; lia|].
  destruct (Z.ltb_spec v 128); [repeat constructor; lia|].
  pose proof (Z.mod_pos_bound v 128). constructor; [lia|]. apply IH.
  replace (Z.of_nat n + 1) with (Z.of_nat (S n)) by lia. apply div_128_bound; lia.
Qed.

(** ** Slices *)

Lemma len_app bs bs' : len (bs ++ bs') = len bs + len bs'.
Proof. unfold len. rewrite length_app. lia. Qed.

Lemma len_cons b bs : len (b :: bs) = len bs + 1.
Proof. unfold len. simpl. lia. Qed.

Lemma len_nonneg bs : 0 ≤ len bs.
Proof. unfold len. lia. Qed.

Lemma len_to_nat bs : Z.to_nat (len bs) = length bs.
Proof. unfold len. lia. Qed.

Lemma len_eq bs bs' : length bs = length bs' → len bs = len bs'.
Proof. unfold len. by intros ->. Qed.

Lemma index_app pre b post : index (pre ++ b :: post) (len pre) = Ret b.
Proof.
  unfold index. pose proof (len_nonneg pre). destruct (Z.leb_spec 0 (len pre)); [|lia].
  rewrite len_to_nat, lookup_app_r, Nat.sub_diag by lia. done.
Qed.

Lemma slice_app pre bs post : slice (pre ++ bs ++ post) (len pre) (len pre + len bs) = Ret bs.
Proof.
  unfold slice. pose proof (len_nonneg pre). pose proof (len_nonneg bs). pose proof (len_nonneg post).
  rewrite !len_app. destruct (Z.leb_spec 0 (len pre)); [|lia].
  destruct (Z.leb_spec (len pre) (len pre + len bs)); [|lia].
  destruct (Z.leb_spec (len pre + len bs) (len pre + (len bs + len post))); [|lia]. simpl.
  replace (len pre + len bs - len pre) with (len bs) by lia.
  rewrite !len_to_nat, drop_app_length, take_app_length. done.
Qed.

Lemma slice_suffix pre bs : slice (pre ++ bs) (len pre) (len (pre ++ bs)) = Ret bs.
Proof. rewrite len_app. rewrite <- (app_nil_r bs) at 1. apply slice_app. Qed.

Lemma slice_prefix bs post : slice (bs ++ post) 0 (len bs) = Ret bs.
Proof. apply (slice_app [] bs post). Qed.

Lemma assign_app pre x b post : assign (pre ++ x :: post) (len pre) b = Ret (pre ++ b :: post).
Proof.
  unfold assign. pose proof (len_nonneg pre). pose proof (len_nonneg post). rewrite len_app, len_cons.
  destruct (Z.leb_spec 0 (len pre)); [|lia].
  destruct (Z.ltb_spec (len pre) (len pre + (len post + 1))); [|lia]. simpl.
  by rewrite len_to_nat, insert_app_r_alt, Nat.sub_diag by lia.
Qed.

Lemma copy_at_app pre slot post src :
  length slot = length src → copy_at (pre ++ slot ++ post) (len pre) src = Ret (pre ++ src ++ post).
Proof.
  intros Hl. unfold copy_at. pose proof (len_nonneg pre). pose proof (len_nonneg (slot ++ post)).
  rewrite len_app. destruct (Z.leb_spec 0 (len pre)); [|lia].
  destruct (Z.leb_spec (len pre) (len pre + len (slot ++ post))); [|lia]. simpl.
  rewrite len_to_nat, take_app_length, take_ge by (rewrite !length_app; lia).
  rewrite drop_app_add', <- Hl, drop_app_length by lia. done.
Qed.

(** ** Reading what was written *)

(** A conversion between integer types drops high bits, so that it commutes
    with [|]. *)
Class Conversion (conv : Z → Z) : Prop := {
  conv_zero : conv 0 = 0;
  conv_lor a b : conv (Z.lor a b) = Z.lor (conv a) (conv b);
}.

Lemma signed_bits w z i : 1 < w → 0 ≤ i →
  Z.testbit ((z + 2 ^ (w - 1)) mod 2 ^ w - 2 ^ (w - 1)) i = Z.testbit z (Z.min i (w - 1)).
Proof.
  intros Hw Hi.
  assert (2 ^ w = 2 * 2 ^ (w - 1)) as Hp by (rewrite <- Z.pow_succ_r by lia; f_equal; lia).
  assert (0 < 2 ^ (w - 1)) as Hpos by (apply Z.pow_pos_nonneg; lia).
  set (k := (z + 2 ^ (w - 1)) / 2 ^ w).
  assert ((z + 2 ^ (w - 1)) mod 2 ^ w - 2 ^ (w - 1) = z - k * 2 ^ w) as ->.
  { unfold k. pose proof (Z.div_mod (z + 2 ^ (w - 1)) (2 ^ w)). lia. }
  pose proof (Z.div_mod (z + 2 ^ (w - 1)) (2 ^ w)) as Hdm.
  pose proof (Z.mod_pos_bound (z + 2 ^ (w - 1)) (2 ^ w)) as Hb.
  assert (- 2 ^ (w - 1) ≤ z - k * 2 ^ w < 2 ^ (w - 1)) as Hr by (unfold k; lia).
  assert (∀ j, 0 ≤ j < w → Z.testbit (z - k * 2 ^ w) j = Z.testbit z j) as Hlow.
  { intros j Hj. rewrite <- (Z.mod_pow2_bits_low z w j), <- (Z.mod_pow2_bits_low (z - _) w j) by lia.
    f_equal. rewrite <- (Z.mod_add (z - k * 2 ^ w) k (2 ^ w)) by lia. f_equal. lia. }
  destruct (Z.lt_ge_cases i w) as [Hlt|Hge].
  { rewrite Hlow by lia. f_equal. lia. }
  rewrite Z.min_r by lia. rewrite <- (Hlow (w - 1)) by lia.
  generalize dependent (z - k * 2 ^ w). intros y Hy _.
  destruct (Z.lt_ge_cases y 0).
  - rewrite !Z.bits_above_log2_neg; [done|lia| |lia|];
      (destruct (decide (y = -1)) as [-> |]; [simpl; lia|]; apply Z.log2_lt_pow2; [lia|];
       try (apply Z.lt_le_trans with (2 ^ (w - 1)); [lia|apply Z.pow_le_mono_r; lia]); lia).
  - rewrite <- (Z.mod_small y (2 ^ (w - 1))) by lia. by rewrite !Z.mod_pow2_bits_high by lia.
Qed.

Lemma signed_lor w a b : 1 < w →
  (Z.lor a b + 2 ^ (w - 1)) mod 2 ^ w - 2 ^ (w - 1) =
  Z.lor ((a + 2 ^ (w - 1)) mod 2 ^ w - 2 ^ (w - 1)) ((b + 2 ^ (w - 1)) mod 2 ^ w - 2 ^ (w - 1)).
Proof.
  intros Hw. apply Z.bits_inj'. intros i Hi. by rewrite Z.lor_spec, !signed_bits, Z.lor_spec.
Qed.

#[global] Instance uint64_conversion : Conversion uint64.
Proof.
  split; [done|]. intros a b. unfold uint64. rewrite <- !Z.land_ones by lia.
  by rewrite Z.land_lor_distr_l.
Qed.

#[global] Instance int64_conversion : Conversion int64.
Proof. split; [done|]. intros a b. by apply (signed_lor 64). Qed.

#[global] Instance int32_conversion : Conversion int32.
Proof. split; [done|]. intros a b. by apply (signed_lor 32). Qed.

Fixpoint shifts_from (shift : Z) (n : nat) : list Z :=
  match n with O => [] | S n' => shift :: shifts_from (shift + 7) n' end.

Section reading.
Context (conv : Z → Z) `{!Conversion conv}.

Lemma varint_loop_step b pre post v sh shs :
  varint_loop conv (pre ++ b :: post) (sh :: shs) (conv v) (len pre) =
    if b <? 128 then Ret (conv (Z.lor v (Z.shiftl (Z.land b 127) sh)), len pre + 1)
    else varint_loop conv (pre ++ b :: post) shs
           (conv (Z.lor v (Z.shiftl (Z.land b 127) sh))) (len pre + 1).
Proof.
  simpl. pose proof (len_nonneg post). rewrite len_app, len_cons.
  destruct (Z.leb_spec (len pre + (len post + 1)) (len pre)); [lia|].
  rewrite index_app. simpl. by rewrite conv_lor.
Qed.

Lemma varint_loop_read n : ∀ v a sh pre post,
  0 ≤ sh → 0 ≤ v < 2 ^ (7 * (Z.of_nat n + 1)) →
  varint_loop conv (pre ++ varint_bytes n v ++ post) (shifts_from sh (S n)) (conv a) (len pre) =
    Ret (conv (Z.lor a (Z.shiftl v sh)), len pre + len (varint_bytes n v)).
Proof.
  induction n as [|n IH]; intros v a sh pre post Hsh Hv.
  { cbn [varint_bytes app]. simpl in Hv. unfold shifts_from. rewrite varint_loop_step.
    destruct (Z.ltb_spec v 128); [|lia]. by rewrite low_bits, Z.mod_small by lia. }
  cbn [varint_bytes shifts_from]. destruct (Z.ltb_spec v 128) as [Hlt|Hge].
  { cbn [app]. rewrite varint_loop_step. destruct (Z.ltb_spec v 128); [|lia].
    by rewrite low_bits, Z.mod_small by lia. }
  pose proof (Z.mod_pos_bound v 128 ltac:(lia)).
  cbn [app]. rewrite varint_loop_step. destruct (Z.ltb_spec (v mod 128 + 128) 128); [lia|].
  rewrite without_more_bit by lia.
  replace (pre ++ v mod 128 + 128 :: varint_bytes n (v / 128) ++ post)
    with ((pre ++ [v mod 128 + 128]) ++ varint_bytes n (v / 128) ++ post)
    by (by rewrite <- app_assoc).
  replace (len pre + 1) with (len (pre ++ [v mod 128 + 128])) by (by rewrite len_app).
  change (sh + 7 :: shifts_from (sh + 7 + 7) n) with (shifts_from (sh + 7) (S n)).
  rewrite IH; [|lia|apply (div_128_bound v (Z.of_nat n + 1)); lia].
  f_equal. f_equal; [|rewrite len_app, len_cons; unfold len; simpl; lia].
  by rewrite <- Z.lor_assoc, split_bits.
Qed.

Lemma read_varint_wire v pre post :
  is_uint64 v →
  read_varint conv (pre ++ varint v ++ post) (len pre) = Ret (conv v, len pre + len (varint v)).
Proof.
  intros Hv. unfold read_varint. rewrite <- conv_zero at 1.
  change shifts with (shifts_from 0 10). rewrite (varint_loop_read 9 v 0 0); [|lia|].
  - by rewrite Z.shiftl_0_r.
  - unfold is_uint64 in Hv. simpl. lia.
Qed.
End reading.

Lemma int64_uint64 z : int64 (uint64 z) = int64 z.
Proof. unfold int64, uint64. by rewrite Zplus_mod_idemp_l. Qed.

Lemma int64_range z : - 2 ^ 63 ≤ int64 z < 2 ^ 63.
Proof. unfold int64. pose proof (Z.mod_pos_bound (z + 2 ^ 63) (2 ^ 64)). lia. Qed.

Lemma int64_int64 z : int64 (int64 z) = int64 z.
Proof. apply int64_id, int64_range. Qed.

(** A length of a slice fits any of the types it is read into. *)
Class LengthConversion (conv : Z → Z) : Prop := {
  length_conversion :: Conversion conv;
  int64_conv z : int64 (conv z) = int64 z;
}.

#[global] Instance uint64_length : LengthConversion uint64.
Proof. split; [apply _|apply int64_uint64]. Qed.

#[global] Instance int64_length : LengthConversion int64.
Proof. split; [apply _|apply int64_int64]. Qed.

Lemma read_postIndex_wire conv `{!LengthConversion conv} bs pre post :
  len (pre ++ varint (len bs) ++ bs ++ post) < 2 ^ 63 →
  read_postIndex conv (pre ++ varint (len bs) ++ bs ++ post) (len pre) =
    Ret (len (pre ++ varint (len bs)), len (pre ++ varint (len bs)) + len bs).
Proof.
  intros Hl. rewrite !len_app in Hl.
  pose proof (len_nonneg bs). pose proof (len_nonneg pre). pose proof (len_nonneg post).
  pose proof (len_nonneg (varint (len bs))).
  unfold read_postIndex. rewrite read_varint_wire by (apply _ || (unfold is_uint64; lia)).
  simpl. rewrite int64_conv, int64_id by lia.
  destruct (Z.ltb_spec (len bs) 0); [lia|]. rewrite int64_id by lia.
  destruct (Z.ltb_spec (len pre + len (varint (len bs)) + len bs) 0); [lia|].
  rewrite !len_app. destruct (Z.ltb_spec (len pre + (len (varint (len bs)) + (len bs + len post)))
    (len pre + len (varint (len bs)) + len bs)); [lia|]. done.
Qed.

Lemma read_bytes_wire conv `{!LengthConversion conv} bs pre post :
  len (pre ++ varint (len bs) ++ bs ++ post) < 2 ^ 63 →
  read_bytes conv (pre ++ varint (len bs) ++ bs ++ post) (len pre) =
    Ret (bs, len (pre ++ varint (len bs) ++ bs)).
Proof.
  intros Hl. unfold read_bytes. rewrite read_postIndex_wire by done. simpl.
  rewrite !(app_assoc pre). rewrite slice_app. simpl. by rewrite <- len_app, <- app_assoc.
Qed.

(** ** Writing in front

    A writer puts certain bytes in front of what is in the buffer already, if
    there is room, and touches nothing else. *)

Definition prepends (w : writer) (bs : bytes) : Prop := ∀ pre slot post,
  length slot = length bs →
  w (len (pre ++ slot), pre ++ slot ++ post) = Ret (len pre, pre ++ bs ++ post).

Create HintDb wire.

Lemma prepends_nothing : prepends nothing [].
Proof. intros pre [|] post Hs; [|done]. unfold nothing. by rewrite app_nil_r. Qed.

Lemma prepends_andThen w1 w2 b1 b2 :
  prepends w1 b1 → prepends w2 b2 → prepends (w1 ;>> w2) (b2 ++ b1).
Proof.
  intros H1 H2 pre slot post Hs. unfold andThen.
  rewrite <- (take_drop (length b2) slot). rewrite length_app in Hs.
  rewrite (app_assoc pre), <- (app_assoc (take _ _)), (app_assoc pre).
  rewrite H1 by (rewrite length_drop; lia). simpl. rewrite <- app_assoc.
  rewrite H2 by (rewrite length_take; lia). by rewrite <- app_assoc.
Qed.

Lemma prepends_put_bytes bs : prepends (put_bytes bs) bs.
Proof.
  intros pre slot post Hs. unfold put_bytes. rewrite len_app.
  replace (len pre + len slot - len bs) with (len pre) by (rewrite (len_eq slot bs) by done; lia).
  by rewrite copy_at_app.
Qed.

Lemma prepends_put_byte b : prepends (put_byte b) [b].
Proof.
  intros pre [|x [|]] post Hs; try done. unfold put_byte. rewrite len_app.
  replace (len pre + len [x] - 1) with (len pre) by (unfold len; simpl; lia).
  simpl. by rewrite assign_app.
Qed.

Lemma encodeVarint_loop_writes n : ∀ fuel v pre slot post,
  (n < fuel)%nat → 0 ≤ v < 2 ^ (7 * (Z.of_nat n + 1)) → length slot = length (varint_bytes n v) →
  encodeVarint_loop fuel (pre ++ slot ++ post) (len pre) v = Ret (pre ++ varint_bytes n v ++ post).
Proof.
  induction n as [|n IH]; intros [|fuel] v pre slot post Hf Hv Hs; try lia; simpl in *.
  { destruct (Z.leb_spec 128 v); [lia|]. destruct slot as [|x [|]]; try done. simpl.
    rewrite assign_app. unfold uint8. by rewrite Z.mod_small by lia. }
  destruct (Z.ltb_spec v 128); destruct (Z.leb_spec 128 v); try lia.
  { destruct slot as [|x [|]]; try done. simpl. rewrite assign_app.
    unfold uint8. by rewrite Z.mod_small by lia. }
  destruct slot as [|x slot]; [done|]. simpl in *. injection Hs as Hs.
  rewrite low_bits, next_bits, more_bit, assign_app by (apply Z.mod_pos_bound; lia). simpl.
  specialize (IH fuel (v / 128) (pre ++ [v mod 128 + 128]) slot post).
  rewrite len_app, <- !app_assoc in IH. simpl in IH. apply IH; [lia| |done].
  apply (div_128_bound v (Z.of_nat n + 1)); lia.
Qed.

Lemma prepends_varint v : is_uint64 v → prepends (encodeVarint v) (varint v).
Proof.
  intros Hv pre slot post Hs. unfold encodeVarint. rewrite len_app.
  replace (len pre + len slot - sov v) with (len pre)
    by (rewrite <- varint_length, (len_eq slot (varint v)) by done; lia).
  rewrite (encodeVarint_loop_writes 9); [done|lia| |done]. unfold is_uint64 in Hv. simpl. lia.
Qed.
#[export] Hint Resolve prepends_nothing prepends_andThen prepends_put_bytes prepends_put_byte
  prepends_varint : wire.

Lemma prepends_put_uint tag v : is_uint64 v → prepends (put_uint tag v) (wire_uint tag v).
Proof.
  intros Hv. unfold put_uint, wire_uint. destruct (v =? 0); [auto with wire|].
  apply (prepends_andThen _ _ (varint v) [tag]); auto with wire.
Qed.

(** The length of a slice is one of a slice in memory. *)
Definition fits (bs : bytes) : Prop := len bs < 2 ^ 63.

Lemma fits_uint64 bs : fits bs → is_uint64 (len bs).
Proof. unfold fits, is_uint64. pose proof (len_nonneg bs). lia. Qed.
#[export] Hint Resolve fits_uint64 : wire.

Lemma prepends_put_delimited tag bs :
  fits bs → prepends (put_delimited tag bs) (wire_delimited tag bs).
Proof.
  intros Hb. unfold put_delimited, wire_delimited.
  change (tag :: varint (len bs) ++ bs) with (([tag] ++ varint (len bs)) ++ bs).
  auto with wire.
Qed.

Lemma prepends_put_nonempty tag bs :
  fits bs → prepends (put_nonempty tag bs) (wire_nonempty tag bs).
Proof.
  intros Hb. unfold put_nonempty, wire_nonempty.
  destruct (len bs =? 0); [auto with wire|by apply prepends_put_delimited].
Qed.

Lemma prepends_sized_buffer w bs pre slot :
  prepends w bs → length slot = length bs →
  to_sized_buffer w (pre ++ slot) = Ret (len bs, pre ++ bs).
Proof.
  intros Hw Hs. unfold to_sized_buffer. specialize (Hw pre slot [] Hs).
  rewrite !app_nil_r in Hw. unfold bytes in *. rewrite Hw. simpl. rewrite len_app. do 2 f_equal. lia.
Qed.

Lemma prepends_put_message tag w bs :
  fits bs → prepends w bs → prepends (put_message tag (to_sized_buffer w)) (wire_delimited tag bs).
Proof.
  intros Hb Hw pre slot post Hs. unfold put_message, wire_delimited in *.
  set (hd := tag :: varint (len bs)).
  assert (length slot = length hd + length bs)%nat as Hs'
    by (rewrite Hs; unfold hd; simpl; rewrite length_app; lia).
  rewrite <- (take_drop (length hd) slot), <- !app_assoc.
  set (s1 := take (length hd) slot). set (s2 := drop (length hd) slot).
  assert (length s1 = length hd) as H1 by (unfold s1; rewrite length_take; lia).
  assert (length s2 = length bs) as H2 by (unfold s2; rewrite length_drop; lia).
  replace (pre ++ s1 ++ s2 ++ post) with ((pre ++ s1 ++ s2) ++ post) by (by rewrite <- !app_assoc).
  rewrite slice_prefix. simpl. rewrite (app_assoc pre s1 s2).
  rewrite (prepends_sized_buffer _ bs) by done. simpl.
  rewrite len_to_nat, drop_app_length.
  replace (len ((pre ++ s1) ++ s2) - len bs) with (len (pre ++ s1))
    by (rewrite (len_app _ s2), (len_eq s2 bs) by done; lia).
  rewrite <- !app_assoc.
  assert (prepends (encodeVarint (len bs) ;>> put_byte tag) hd) as Hhd
    by (apply (prepends_andThen _ _ (varint (len bs)) [tag]); auto with wire).
  by rewrite (Hhd pre s1 (bs ++ post) H1).
Qed.

Lemma prepends_put_repeated {A} (put : A → writer) (enc : A → bytes) l :
  (∀ a, a ∈ l → prepends (put a) (enc a)) → prepends (put_repeated put l) (concat (map enc l)).
Proof.
  induction l as [|a l IH]; intros Ha; simpl; [auto with wire|].
  apply prepends_andThen; [apply IH; intros; apply Ha; by right|apply Ha; by left].
Qed.
#[export] Hint Resolve prepends_put_uint prepends_put_delimited prepends_put_nonempty
  prepends_put_message prepends_put_repeated : wire.

(** The sizes the generated code computes for each kind of field. *)
Lemma wire_uint_len tag v :
  is_uint64 v → len (wire_uint tag v) = if v =? 0 then 0 else 1 + sov v.
Proof.
  intros Hv. unfold wire_uint. destruct (v =? 0); [done|]. rewrite len_cons, varint_length by done. lia.
Qed.

Lemma wire_delimited_len tag bs :
  fits bs → len (wire_delimited tag bs) = 1 + len bs + sov (len bs).
Proof.
  intros Hb. unfold wire_delimited. rewrite len_cons, len_app, varint_length by auto with wire. lia.
Qed.

Lemma wire_nonempty_len tag bs :
  fits bs → len (wire_nonempty tag bs) = if 0 <? len bs then 1 + len bs + sov (len bs) else 0.
Proof.
  intros Hb. unfold wire_nonempty. pose proof (len_nonneg bs).
  destruct (Z.eqb_spec (len bs) 0); destruct (Z.ltb_spec 0 (len bs)); try lia; [done|].
  by apply wire_delimited_len.
Qed.

(** ** Reading whatever comes

    No data makes a loop index past the end of a slice or go on for ever. *)

(** Reading at [i] ends in an error or at an index that [P] allows. *)
Definition lands {A} (P : A → Prop) (o : outcome A) : Prop :=
  match o with Ret a => P a | Fail _ => True | Panic => False end.

Lemma lands_bind {A B} (P : A → Prop) (Q : B → Prop) (o : outcome A) (k : A → outcome B) :
  lands P o → (∀ a, P a → lands Q (k a)) → lands Q (o ≫= k).
Proof. destruct o; simpl; auto. Qed.

Lemma lands_weaken {A} (P Q : A → Prop) (o : outcome A) :
  lands P o → (∀ a, P a → Q a) → lands Q o.
Proof. destruct o; simpl; auto. Qed.

Lemma index_lands dAtA i : 0 ≤ i < len dAtA → lands (λ b, b ∈ dAtA) (index dAtA i).
Proof.
  intros Hi. unfold index. destruct (Z.leb_spec 0 i); [|lia].
  destruct (lookup_lt_is_Some_2 (dAtA : list Z) (Z.to_nat i)) as [b Hb]; [unfold len in Hi; lia|].
  rewrite Hb. simpl. by eapply list_elem_of_lookup_2.
Qed.

Lemma slice_lands dAtA i j :
  0 ≤ i ≤ j → j ≤ len dAtA → lands (λ bs, len bs = j - i ∧ bs ⊆ dAtA) (slice dAtA i j).
Proof.
  intros Hi Hj. unfold slice. destruct (Z.leb_spec 0 i); [|lia].
  destruct (Z.leb_spec i j); [|lia]. destruct (Z.leb_spec j (len dAtA)); [|lia]. simpl. split.
  - unfold len in *. rewrite length_take, length_drop. lia.
  - intros b Hb. eapply subseteq_drop, subseteq_take, Hb.
Qed.

Lemma varint_loop_lands conv `{!Conversion conv} dAtA shs : ∀ a i,
  0 ≤ i →
  lands (λ '(v, i'), i < i' ≤ len dAtA ∧ ∃ z, v = conv z) (varint_loop conv dAtA shs (conv a) i).
Proof.
  induction shs as [|sh shs IH]; intros a i Hi; simpl; [done|].
  destruct (Z.leb_spec (len dAtA) i); [done|].
  eapply lands_bind; [apply index_lands; lia|]. intros b _. rewrite <- conv_lor.
  destruct (b <? 128); simpl; [split; [lia|by eexists]|].
  eapply lands_weaken; [apply IH; lia|]. intros [v i'] [? ?]. split; [lia|done].
Qed.

Lemma read_varint_lands conv `{!Conversion conv} dAtA i :
  0 ≤ i →
  lands (λ '(v, i'), i < i' ≤ len dAtA ∧ ∃ z, v = conv z) (read_varint conv dAtA i).
Proof. intros Hi. unfold read_varint. rewrite <- conv_zero at 1. by apply varint_loop_lands. Qed.

Lemma int64_sum x : 0 ≤ x < 2 ^ 64 → 0 ≤ int64 x → int64 x = x.
Proof.
  intros Hx Hi. destruct (Z.lt_ge_cases x (2 ^ 63)); [apply int64_id; lia|].
  unfold int64 in *. exfalso.
  assert ((x + 2 ^ 63) mod 2 ^ 64 = x - 2 ^ 63) as Heq; [|lia].
  symmetry. apply Z.mod_unique with 1; lia.
Qed.

Lemma read_postIndex_lands conv `{!LengthConversion conv} dAtA i :
  0 ≤ i → fits dAtA →
  lands (λ '(i', j), i < i' ≤ j ∧ j ≤ len dAtA) (read_postIndex conv dAtA i).
Proof.
  intros Hi Hf. unfold read_postIndex, fits in *.
  eapply lands_bind; [by apply read_varint_lands; [apply _|]|]. intros [n i'] [Hi' _].
  destruct (Z.ltb_spec (int64 n) 0); [done|].
  destruct (Z.ltb_spec (int64 (i' + int64 n)) 0) as [|Hp]; [done|].
  pose proof (int64_range n). rewrite int64_sum by lia. rewrite int64_sum in Hp by lia.
  destruct (Z.ltb_spec (len dAtA) (i' + int64 n)); simpl; [done|lia].
Qed.

Lemma read_bytes_lands conv `{!LengthConversion conv} dAtA i :
  0 ≤ i → fits dAtA →
  lands (λ '(bs, j), i < j ≤ len dAtA ∧ len bs ≤ len dAtA ∧ bs ⊆ dAtA) (read_bytes conv dAtA i).
Proof.
  intros Hi Hf. unfold read_bytes. eapply lands_bind; [by apply read_postIndex_lands|].
  intros [i' j] [? ?]. eapply lands_bind; [apply slice_lands; lia|]. intros bs [? ?]. simpl.
  split_and!; [lia|lia|lia|done].
Qed.

Lemma skip_varint_lands dAtA shs : ∀ i,
  0 ≤ i → lands (λ i', i < i' ≤ len dAtA) (skip_varint dAtA shs i).
Proof.
  induction shs as [|sh shs IH]; intros i Hi; simpl; [done|].
  destruct (Z.leb_spec (len dAtA) i); [done|].
  eapply lands_bind; [apply index_lands; lia|]. intros b _.
  destruct (b <? 128); simpl; [lia|]. eapply lands_weaken; [apply IH; lia|]. simpl. lia.
Qed.

Lemma skip_value_lands dAtA wireType depth i :
  0 ≤ i ≤ len dAtA → fits dAtA →
  lands (λ '(i', _), i' < 0 ∨ i ≤ i' < 2 ^ 63) (skip_value dAtA wireType depth i).
Proof.
  intros Hi Hf. unfold skip_value, fits in *.
  assert (∀ i' n, i ≤ i' ≤ len dAtA → 0 ≤ n < 2 ^ 63 →
    int64 (i' + n) < 0 ∨ i ≤ int64 (i' + n) < 2 ^ 63) as Hadd.
  { intros i' n Hi' Hn. pose proof (int64_range (i' + n)).
    destruct (Z.lt_ge_cases (int64 (i' + n)) 0); [by left|right].
    pose proof (int64_sum (i' + n)). lia. }
  destruct (wireType =? 0).
  { eapply lands_bind; [apply skip_varint_lands; lia|]. simpl. lia. }
  destruct (wireType =? 1); [simpl; apply Hadd; lia|]. destruct (wireType =? 2).
  { eapply lands_bind; [apply (read_varint_lands int64); lia|]. intros [n i'] [Hi' [z ->]].
    destruct (Z.ltb_spec (int64 z) 0); simpl; [done|]. pose proof (int64_range z). apply Hadd; lia. }
  destruct (wireType =? 3); [simpl; lia|]. destruct (wireType =? 4).
  { destruct (depth =? 0); simpl; [done|lia]. }
  destruct (wireType =? 5); [simpl; apply Hadd; lia|done].
Qed.

Lemma skip_loop_lands dAtA fuel : ∀ depth i,
  0 ≤ i → (Z.to_nat (len dAtA - i) < fuel)%nat → fits dAtA →
  lands (λ n, i < n < 2 ^ 63) (skip_loop fuel dAtA depth i).
Proof.
  induction fuel as [|fuel IH]; intros depth i Hi Hfuel Hf; [lia|]. cbn [skip_loop].
  destruct (Z.leb_spec (len dAtA) i); [done|].
  eapply lands_bind; [apply (read_varint_lands uint64); lia|]. intros [wire i1] [Hi1 _].
  eapply lands_bind; [apply skip_value_lands; [lia|done]|]. intros [i2 depth'] Hi2.
  destruct (Z.ltb_spec i2 0); [done|]. destruct (depth' =? 0); simpl; [lia|].
  eapply lands_weaken; [apply IH; [lia|lia|done]|]. simpl. lia.
Qed.

Lemma skipPacket_lands dAtA : fits dAtA → lands (λ n, 0 < n < 2 ^ 63) (skipPacket dAtA).
Proof. intros Hf. apply skip_loop_lands; [lia| |done]. unfold len. lia. Qed.

(** ** Reading the fields of a message *)

Section fields.
Context {T : Type} `{!ProtoMessage T}.

Notation loop := (unmarshal_loop (proto_name (T := T)) proto_field).

(** The bytes [bs], wherever they are in the data, take the loop from [m] to
    [m'] in at most as many turns as there are bytes. *)
Definition reads (bs : bytes) (m m' : T) : Prop :=
  ∃ n, (n ≤ length bs)%nat ∧ ∀ fuel pre post,
    fits (pre ++ bs ++ post) →
    loop (n + fuel) (pre ++ bs ++ post) m (len pre) =
    loop fuel (pre ++ bs ++ post) m' (len (pre ++ bs)).

Lemma reads_nil m : reads [] m m.
Proof. exists 0%nat. split; [done|]. intros. by rewrite app_nil_r. Qed.

Lemma reads_app b1 b2 m m1 m2 : reads b1 m m1 → reads b2 m1 m2 → reads (b1 ++ b2) m m2.
Proof.
  intros (n1 & Hn1 & H1) (n2 & Hn2 & H2). exists (n1 + n2)%nat.
  split; [rewrite length_app; lia|]. intros fuel pre post Hf.
  rewrite <- app_assoc in *. rewrite <- Nat.add_assoc, H1 by done.
  specialize (H2 fuel (pre ++ b1) post). rewrite <- !app_assoc in *. by apply H2.
Qed.

(** From an empty message the loop has read what the fields amount to. *)
Lemma reads_unmarshal bs m m' : fits bs → reads bs m m' → Unmarshal bs m = Ret m'.
Proof.
  intros Hf (n & Hn & H). unfold Unmarshal, unmarshal.
  specialize (H (S (length bs - n)) [] []). simpl in H. rewrite app_nil_r in H.
  replace (S (length bs)) with (n + S (length bs - n))%nat by lia.
  change (len []) with 0 in H. rewrite H by done. cbn [unmarshal_loop]. by rewrite Z.ltb_irrefl.
Qed.

(** A tag and what the [switch] makes of the rest. *)
Lemma reads_field tag body m m' fieldNum wireType :
  0 ≤ tag < 128 → fieldNum = tag / 8 → wireType = tag mod 8 → 0 < fieldNum → wireType ≠ 4 →
  (∀ pre post, fits (pre ++ body ++ post) →
     proto_field m (pre ++ body ++ post) fieldNum wireType (len pre) =
       Some (Ret (m', len (pre ++ body)))) →
  reads (tag :: body) m m'.
Proof.
  intros Htag -> -> Hnum Hty Hfield. exists 1%nat. split; [simpl; lia|].
  intros fuel pre post Hf. cbn [Nat.add unmarshal_loop].
  pose proof (len_nonneg (body ++ post)).
  destruct (Z.ltb_spec (len pre) (len (pre ++ (tag :: body) ++ post))) as [_|Hge].
  2:{ rewrite len_app in Hge. simpl in Hge. rewrite len_cons in Hge. lia. }
  assert (varint tag = [tag]) as Hv.
  { unfold varint. cbn [varint_bytes]. by destruct (Z.ltb_spec tag 128); [|lia]. }
  pose proof (read_varint_wire uint64 tag pre (body ++ post)) as Hr. rewrite Hv in Hr.
  change ((tag :: body) ++ post) with ([tag] ++ body ++ post).
  rewrite Hr by (unfold is_uint64; lia). simpl.
  change 7 with (Z.ones 3). rewrite Z.land_ones, Z.shiftr_div_pow2, uint64_id
    by (unfold is_uint64; lia). change (2 ^ 3) with 8.
  pose proof (Z.div_lt_upper_bound tag 8 16).
  rewrite int32_id by (unfold is_int32; lia).
  destruct (Z.eqb_spec (tag mod 8) 4); [done|]. destruct (Z.leb_spec (tag / 8) 0); [lia|].
  specialize (Hfield (pre ++ [tag]) post). rewrite <- !app_assoc in Hfield. simpl in Hfield.
  replace (len (pre ++ [tag])) with (len pre + len [tag]) in Hfield by (by rewrite len_app).
  by rewrite Hfield.
Qed.

(** The fields of each kind, if the [switch] reads them as the generated code
    does. *)
Lemma reads_uint tag v m m' :
  0 ≤ tag < 128 → 0 < tag / 8 → tag mod 8 = 0 → is_uint64 v → (v = 0 → m' = m) →
  (∀ dAtA i i', read_varint uint64 dAtA i = Ret (v, i') →
     proto_field m dAtA (tag / 8) 0 i = Some (Ret (m', i'))) →
  reads (wire_uint tag v) m m'.
Proof.
  intros Htag Hnum Hty Hv Hzero Hfield. unfold wire_uint. destruct (Z.eqb_spec v 0).
  { rewrite Hzero by done. apply reads_nil. }
  apply (reads_field _ _ _ _ (tag / 8) 0); try done. intros pre post _. apply Hfield.
  rewrite (read_varint_wire uint64), uint64_id, len_app by done. done.
Qed.

Lemma reads_delimited conv `{!LengthConversion conv} tag bs m m' :
  0 ≤ tag < 128 → 0 < tag / 8 → tag mod 8 = 2 →
  (∀ dAtA i i', read_bytes conv dAtA i = Ret (bs, i') →
     proto_field m dAtA (tag / 8) 2 i = Some (Ret (m', i'))) →
  reads (wire_delimited tag bs) m m'.
Proof.
  intros Htag Hnum Hty Hfield. apply (reads_field _ _ _ _ (tag / 8) 2); try done.
  intros pre post Hf. apply Hfield. rewrite <- app_assoc in *. by rewrite read_bytes_wire.
Qed.

Lemma reads_nonempty conv `{!LengthConversion conv} tag bs m m' :
  0 ≤ tag < 128 → 0 < tag / 8 → tag mod 8 = 2 → (bs = [] → m' = m) →
  (∀ dAtA i i', read_bytes conv dAtA i = Ret (bs, i') →
     proto_field m dAtA (tag / 8) 2 i = Some (Ret (m', i'))) →
  reads (wire_nonempty tag bs) m m'.
Proof.
  intros Htag Hnum Hty Hempty Hfield. unfold wire_nonempty. destruct (Z.eqb_spec (len bs) 0) as [H0|_].
  - rewrite Hempty by (apply nil_length_inv; unfold len in H0; lia). apply reads_nil.
  - by apply (reads_delimited conv).
Qed.

(** A repeated field, element by element. *)
Lemma reads_repeated {A} (enc : A → bytes) (add : T → A → T) (l : list A) : ∀ m,
  (∀ m a, a ∈ l → reads (enc a) m (add m a)) → reads (concat (map enc l)) m (foldl add m l).
Proof.
  induction l as [|a l IH]; intros m Ha; simpl; [apply reads_nil|].
  eapply reads_app; [apply Ha; by left|]. apply IH. intros. apply Ha. by right.
Qed.
End fields.

(** ** What a message has to show *)

Class ProtoLaws (T : Type) `{!ProtoMessage T} := mkProtoLaws {
  wire : T → bytes;
  proto_valid : T → Prop;
  law_zero : proto_valid proto_zero;
  law_Size m : proto_valid m → fits (wire m) → proto_Size m = len (wire m);
  law_fields m : proto_valid m → fits (wire m) → prepends (proto_fields m) (wire m);
  law_reads m : proto_valid m → fits (wire m) → reads (wire m) proto_zero m;
  law_field m dAtA fieldNum wireType i r :
    0 ≤ i ≤ len dAtA → fits dAtA → proto_field m dAtA fieldNum wireType i = Some r →
    lands (λ '(m', i'), i ≤ i' ≤ len dAtA ∧
      (proto_valid m → Forall is_byte dAtA → proto_valid m')) r;
}.

Section laws.
Context {T : Type} `{!ProtoMessage T} `{!ProtoLaws T}.

Lemma Marshal_wire m : proto_valid m → fits (wire m) → Marshal m = Ret (wire m).
Proof.
  intros Hv Hf. unfold Marshal, MarshalToSizedBuffer. rewrite (law_Size m) by done.
  pose proof (len_nonneg (wire m)). destruct (Z.ltb_spec (len (wire m)) 0); [lia|].
  pose proof (prepends_sized_buffer (proto_fields m) (wire m) [] (replicate (Z.to_nat (len (wire m))) 0)
    (law_fields m Hv Hf)) as Hb. simpl in Hb. rewrite len_to_nat in *.
  rewrite Hb by (by rewrite length_replicate). simpl.
  by rewrite <- (app_nil_r (wire m)) at 1; rewrite slice_prefix.
Qed.

Lemma Unmarshal_wire m : proto_valid m → fits (wire m) → proto_Unmarshal (wire m) = Ret m.
Proof. intros Hv Hf. apply reads_unmarshal; [done|]. by apply law_reads. Qed.

Lemma unmarshal_loop_lands dAtA : fits dAtA → ∀ fuel m i,
  0 ≤ i ≤ len dAtA → (Z.to_nat (len dAtA - i) < fuel)%nat →
  lands (λ m', proto_valid m → Forall is_byte dAtA → proto_valid m')
    (unmarshal_loop proto_name proto_field fuel dAtA m i).
Proof.
  intros Hf. induction fuel as [|fuel IH]; intros m i Hi Hfuel; [lia|]. cbn [unmarshal_loop].
  destruct (Z.ltb_spec i (len dAtA)).
  2:{ destruct (Z.ltb_spec (len dAtA) i); simpl; auto. }
  eapply lands_bind; [apply (read_varint_lands uint64); lia|]. intros [w i1] [Hi1 _].
  destruct (Z.land w 7 =? 4); [done|]. destruct (int32 (Z.shiftr w 3) <=? 0); [done|].
  destruct (proto_field m dAtA _ _ i1) as [r|] eqn:Hr.
  - apply law_field in Hr; [|lia|done]. eapply lands_bind; [exact Hr|]. intros [m' i2] [Hi2 Hv].
    eapply lands_weaken; [apply IH; lia|]. simpl. auto.
  - eapply lands_bind; [apply slice_lands; lia|]. intros rest [Hlen _].
    eapply lands_bind; [apply skipPacket_lands; unfold fits in *; lia|]. intros n Hn.
    destruct (Z.ltb_spec n 0); [done|]. destruct (Z.ltb_spec (int64 (i + n)) 0) as [|Hp]; [done|].
    simpl. destruct (Z.ltb_spec (len dAtA) (int64 (i + n))); [done|].
    simpl in Hn. unfold fits in Hf. rewrite int64_sum in * by lia. apply IH; lia.
Qed.

(** Reading ends, without a panic, on any data that fits into memory, and
    leaves a message of the right types. *)
Lemma Unmarshal_lands dAtA m :
  fits dAtA →
  lands (λ m', proto_valid m → Forall is_byte dAtA → proto_valid m') (Unmarshal dAtA m).
Proof.
  intros Hf. pose proof (len_nonneg dAtA). apply unmarshal_loop_lands; [done|lia|].
  unfold len. lia.
Qed.
End laws.

(** ** Fields that are not known *)

(** A value of each of the wire types a field can have. *)
Inductive wire_value : Z → bytes → Prop :=
  | wire_value_varint v : is_uint64 v → wire_value 0 (varint v)
  | wire_value_fixed64 bs : len bs = 8 → wire_value 1 bs
  | wire_value_bytes bs : wire_value 2 (varint (len bs) ++ bs)
  | wire_value_fixed32 bs : len bs = 4 → wire_value 5 bs.

Definition wire_tag (fieldNum wireType : Z) : bytes := varint (8 * fieldNum + wireType).

Lemma skip_varint_read dAtA shs : ∀ a i,
  skip_varint dAtA shs i = '(_, i') ← varint_loop uint64 dAtA shs a i; Ret i'.
Proof.
  induction shs as [|sh shs IH]; intros a i; simpl; [done|].
  destruct (len dAtA <=? i); [done|]. destruct (index dAtA i) as [b| |]; simpl; try done.
  destruct (b <? 128); [done|]. apply IH.
Qed.

Lemma skip_value_wire wireType value depth pre post :
  wire_value wireType value → fits (pre ++ value ++ post) →
  skip_value (pre ++ value ++ post) wireType depth (len pre) = Ret (len (pre ++ value), depth).
Proof.
  unfold fits. rewrite !len_app. intros Hw Hf.
  pose proof (len_nonneg pre). pose proof (len_nonneg post). pose proof (len_nonneg value).
  destruct Hw as [v Hv|bs Hbs|bs|bs Hbs]; unfold skip_value; cbn [Z.eqb Pos.eqb].
  - rewrite (skip_varint_read _ _ 0). fold (read_varint uint64 (pre ++ varint v ++ post) (len pre)).
    by rewrite (read_varint_wire uint64) by done.
  - by rewrite Hbs, int64_id by lia.
  - rewrite len_app in *. pose proof (len_nonneg bs). pose proof (len_nonneg (varint (len bs))).
    rewrite <- app_assoc, (read_varint_wire int64) by (unfold is_uint64; lia). simpl.
    rewrite (int64_id (len bs)) by lia. destruct (Z.ltb_spec (len bs) 0); [lia|].
    rewrite int64_id by lia. do 2 f_equal. lia.
  - by rewrite Hbs, int64_id by lia.
Qed.

Lemma tag_uint64 fieldNum wireType :
  0 < fieldNum < 2 ^ 29 → 0 ≤ wireType < 8 → is_uint64 (8 * fieldNum + wireType).
Proof. unfold is_uint64. lia. Qed.

Lemma tag_wireType fieldNum wireType :
  0 ≤ wireType < 8 → Z.land (8 * fieldNum + wireType) 7 = wireType.
Proof.
  intros Hw. change 7 with (Z.ones 3). rewrite Z.land_ones by lia. change (2 ^ 3) with 8.
  rewrite Z.add_comm, Z.mul_comm, Z.mod_add by lia. by apply Z.mod_small.
Qed.

Lemma tag_fieldNum fieldNum wireType :
  0 < fieldNum < 2 ^ 29 → 0 ≤ wireType < 8 →
  int32 (Z.shiftr (8 * fieldNum + wireType) 3) = fieldNum.
Proof.
  intros Hf Hw. rewrite Z.shiftr_div_pow2 by lia. change (2 ^ 3) with 8.
  rewrite Z.mul_comm, Z.div_add_l, Z.div_small by lia. rewrite Z.add_0_r. apply int32_id.
  unfold is_int32. lia.
Qed.

Lemma wire_value_type wireType value : wire_value wireType value → 0 ≤ wireType < 8 ∧ wireType ≠ 4.
Proof. destruct 1; lia. Qed.

Lemma skipPacket_wire fieldNum wireType value post :
  0 < fieldNum < 2 ^ 29 → wire_value wireType value →
  fits (wire_tag fieldNum wireType ++ value ++ post) →
  skipPacket (wire_tag fieldNum wireType ++ value ++ post) =
    Ret (len (wire_tag fieldNum wireType ++ value)).
Proof.
  intros Hn Hw Hf. destruct (wire_value_type _ _ Hw) as [Ht _]. unfold skipPacket. cbn [skip_loop].
  set (dAtA := wire_tag fieldNum wireType ++ value ++ post) in *.
  assert (0 < len dAtA) as Hpos.
  { unfold dAtA, wire_tag. rewrite len_app. pose proof (varint_pos (8 * fieldNum + wireType)).
    pose proof (len_nonneg (value ++ post)). lia. }
  destruct (Z.leb_spec (len dAtA) 0); [lia|].
  pose proof (read_varint_wire uint64 (8 * fieldNum + wireType) [] (value ++ post)) as Hr.
  rewrite uint64_id in Hr by (by apply tag_uint64). simpl in Hr.
  fold (wire_tag fieldNum wireType) in Hr. fold dAtA in Hr.
  change (len []) with 0 in Hr. rewrite Z.add_0_l in Hr. rewrite Hr by (by apply tag_uint64). simpl.
  rewrite tag_wireType by done. unfold dAtA. rewrite skip_value_wire by done. simpl.
  pose proof (len_nonneg (wire_tag fieldNum wireType ++ value)).
  by destruct (Z.ltb_spec (len (wire_tag fieldNum wireType ++ value)) 0); [lia|].
Qed.

Lemma reads_unknown `{!ProtoMessage T} (m : T) fieldNum wireType value :
  0 < fieldNum < 2 ^ 29 → wire_value wireType value →
  (∀ dAtA i, proto_field m dAtA fieldNum wireType i = None) →
  reads (wire_tag fieldNum wireType ++ value) m m.
Proof.
  intros Hn Hw Hfield. destruct (wire_value_type _ _ Hw) as [Ht H4]. exists 1%nat. split.
  { pose proof (varint_pos (8 * fieldNum + wireType)) as Hpos. unfold wire_tag. rewrite length_app.
    unfold len in Hpos. lia. }
  intros fuel pre post Hf. cbn [Nat.add unmarshal_loop].
  rewrite <- app_assoc in *. set (tg := wire_tag fieldNum wireType) in *.
  assert (0 < len tg) as Hpos by apply varint_pos.
  pose proof (len_nonneg (value ++ post)). pose proof (len_nonneg pre).
  destruct (Z.ltb_spec (len pre) (len (pre ++ tg ++ value ++ post))) as [_|Hge];
    [|rewrite !len_app in *; lia].
  pose proof (read_varint_wire uint64 (8 * fieldNum + wireType) pre (value ++ post)
    (tag_uint64 _ _ Hn Ht)) as Hr.
  change (varint (8 * fieldNum + wireType)) with tg in Hr. rewrite Hr. simpl.
  rewrite uint64_id by (by apply tag_uint64). rewrite tag_wireType, tag_fieldNum by done.
  destruct (Z.eqb_spec wireType 4); [done|]. destruct (Z.leb_spec fieldNum 0); [lia|].
  rewrite Hfield, slice_suffix. simpl. unfold fits in Hf. rewrite len_app in Hf.
  pose proof (skipPacket_wire fieldNum wireType value post Hn Hw) as Hs. fold tg in Hs.
  rewrite Hs by (unfold fits; lia). simpl.
  pose proof (len_nonneg value). pose proof (len_nonneg post). rewrite !len_app in *.
  rewrite int64_id by lia.
  destruct (Z.ltb_spec (len tg + len value) 0); [lia|].
  destruct (Z.ltb_spec (len pre + (len tg + len value)) 0); [lia|]. simpl.
  destruct (Z.ltb_spec (len pre + (len tg + (len value + len post)))
    (len pre + (len tg + len value))); [lia|]. done.
Qed.
