(* ===== verification/PacketCodec.v ===== *)
(** * The messages of [packet.pb.go] and the client state of [wasm.pb.go]

    [proto/gen/ibc/core/channel/v2/packet.pb.go] has packets, payloads,
    acknowledgements and results of receiving a packet; the Cosmos client
    decodes acknowledgements with it. Of [lightclients/wasm/v1/wasm.pb.go]
    there is the client state, which the Cosmos client decodes too, with the
    height of [core/client/v1/client.pb.go] inside it. Each message is an
    instance of [ProtoMessage] with its generated methods and of [ProtoLaws].

    - [MarshalTo_front]: a longer buffer gets the encoding at its front.
    - [Packet_roundtrip]: the buffer of a packet is filled with its reference
      encoding, and is read back.
    - [Unmarshal_any_bytes]: reading ends on every sequence of bytes, without
      a panic, and what it reads can be written and read again.
    - [Unmarshal_unknown_field]: fields of later versions are skipped.
    - [Acknowledgement_concat]: encodings one after the other are read as the
      acknowledgement with the elements of both. *)
From stdpp Require Import prelude strings list.
From Stdlib Require Import ZArith Lia.
From S2P Require Import Prelude Go ProtoWire.
Open Scope Z_scope.

Module channel.

(** ** Data *)

Record Payload := mkPayload {
  SourcePort : string;
  DestinationPort : string;
  Version : string;
  Encoding : string;
  Value : bytes;
}.

Record Packet := mkPacket {
  Sequence : Z;
  SourceClient : string;
  DestinationClient : string;
  TimeoutTimestamp : Z;
  Payloads : list Payload;
}.

Record Acknowledgement := mkAcknowledgement { AppAcknowledgements : list bytes }.

(** [PacketStatus] is an [int32]; the decoder keeps values without a name. *)
Definition PacketStatus : Type := Z.
Definition PacketStatus_NONE : PacketStatus := 0.
Definition PacketStatus_Success : PacketStatus := 1.
Definition PacketStatus_Failure : PacketStatus := 2.
Definition PacketStatus_Async : PacketStatus := 3.

Record RecvPacketResult := mkRecvPacketResult {
  Status : PacketStatus;
  Result_Acknowledgement : bytes;
}.

(** ** [Size] *)

(** [l = len(s); if l > 0 { n += 1 + l + sov(l) }]. *)
Definition size_nonempty (l : Z) : Z := if 0 <? l then 1 + l + sov l else 0.

Definition size_uint (v : Z) : Z := if v =? 0 then 0 else 1 + sov (uint64 v).

Definition slen (s : string) : Z := len (bytes_of_string s).

Definition Payload_Size (m : Payload) : Z :=
  size_nonempty (slen (SourcePort m)) + size_nonempty (slen (DestinationPort m)) +
  size_nonempty (slen (Version m)) + size_nonempty (slen (Encoding m)) +
  size_nonempty (len (Value m)).

(** The sum over a repeated field. *)
Fixpoint size_repeated {A} (size : A → Z) (l : list A) : Z :=
  match l with
  | [] => 0
  | a :: l' => (1 + size a + sov (size a)) + size_repeated size l'
  end.

Definition Packet_Size (m : Packet) : Z :=
  size_uint (Sequence m) + size_nonempty (slen (SourceClient m)) +
  size_nonempty (slen (DestinationClient m)) + size_uint (TimeoutTimestamp m) +
  size_repeated Payload_Size (Payloads m).

Definition Acknowledgement_Size (m : Acknowledgement) : Z :=
  size_repeated len (AppAcknowledgements m).

Definition RecvPacketResult_Size (m : RecvPacketResult) : Z :=
  size_uint (Status m) + size_nonempty (len (Result_Acknowledgement m)).

(** ** [MarshalToSizedBuffer] *)

Definition Payload_fields (m : Payload) : writer :=
  put_nonempty 42 (Value m) ;>>
  put_nonempty 34 (bytes_of_string (Encoding m)) ;>>
  put_nonempty 26 (bytes_of_string (Version m)) ;>>
  put_nonempty 18 (bytes_of_string (DestinationPort m)) ;>>
  put_nonempty 10 (bytes_of_string (SourcePort m)).

Definition Packet_fields (m : Packet) : writer :=
  put_repeated (λ e, put_message 42 (to_sized_buffer (Payload_fields e))) (Payloads m) ;>>
  put_uint 32 (TimeoutTimestamp m) ;>>
  put_nonempty 26 (bytes_of_string (DestinationClient m)) ;>>
  put_nonempty 18 (bytes_of_string (SourceClient m)) ;>>
  put_uint 8 (Sequence m).

Definition Acknowledgement_fields (m : Acknowledgement) : writer :=
  put_repeated (put_delimited 10) (AppAcknowledgements m).

Definition RecvPacketResult_fields (m : RecvPacketResult) : writer :=
  put_nonempty 18 (Result_Acknowledgement m) ;>>
  put_uint 8 (uint64 (Status m)).

(** ** [Unmarshal]: the [switch] on the field number *)

Definition read_string (dAtA : bytes) (iNdEx : Z) : outcome (string * Z) :=
  '(bs, i) ← read_bytes uint64 dAtA iNdEx; Ret (string_of_bytes bs, i).

Definition Payload_field (m : Payload) (dAtA : bytes) (fieldNum wireType iNdEx : Z)
    : option (outcome (Payload * Z)) :=
  let '(mkPayload sourcePort destinationPort version encoding value) := m in
  if fieldNum =? 1 then Some (expect wireType 2 "SourcePort" (
    '(s, i) ← read_string dAtA iNdEx;
    Ret (mkPayload s destinationPort version encoding value, i)))
  else if fieldNum =? 2 then Some (expect wireType 2 "DestinationPort" (
    '(s, i) ← read_string dAtA iNdEx;
    Ret (mkPayload sourcePort s version encoding value, i)))
  else if fieldNum =? 3 then Some (expect wireType 2 "Version" (
    '(s, i) ← read_string dAtA iNdEx;
    Ret (mkPayload sourcePort destinationPort s encoding value, i)))
  else if fieldNum =? 4 then Some (expect wireType 2 "Encoding" (
    '(s, i) ← read_string dAtA iNdEx;
    Ret (mkPayload sourcePort destinationPort version s value, i)))
  else if fieldNum =? 5 then Some (expect wireType 2 "Value" (
    '(bs, i) ← read_bytes int64 dAtA iNdEx;
    Ret (mkPayload sourcePort destinationPort version encoding bs, i)))
  else None.

Definition Payload_zero : Payload := mkPayload "" "" "" "" [].

#[global] Instance Payload_message : ProtoMessage Payload :=
  mkProtoMessage _ "Payload" Payload_zero Payload_Size Payload_fields Payload_field.

Definition Packet_field (m : Packet) (dAtA : bytes) (fieldNum wireType iNdEx : Z)
    : option (outcome (Packet * Z)) :=
  let '(mkPacket sequence sourceClient destinationClient timeoutTimestamp payloads) := m in
  if fieldNum =? 1 then Some (expect wireType 0 "Sequence" (
    '(v, i) ← read_varint uint64 dAtA iNdEx;
    Ret (mkPacket v sourceClient destinationClient timeoutTimestamp payloads, i)))
  else if fieldNum =? 2 then Some (expect wireType 2 "SourceClient" (
    '(s, i) ← read_string dAtA iNdEx;
    Ret (mkPacket sequence s destinationClient timeoutTimestamp payloads, i)))
  else if fieldNum =? 3 then Some (expect wireType 2 "DestinationClient" (
    '(s, i) ← read_string dAtA iNdEx;
    Ret (mkPacket sequence sourceClient s timeoutTimestamp payloads, i)))
  else if fieldNum =? 4 then Some (expect wireType 0 "TimeoutTimestamp" (
    '(v, i) ← read_varint uint64 dAtA iNdEx;
    Ret (mkPacket sequence sourceClient destinationClient v payloads, i)))
  else if fieldNum =? 5 then Some (expect wireType 2 "Payloads" (
    '(bs, i) ← read_bytes int64 dAtA iNdEx;
    e ← Unmarshal bs Payload_zero;
    Ret (mkPacket sequence sourceClient destinationClient timeoutTimestamp (payloads ++ [e]), i)))
  else None.

Definition Packet_zero : Packet := mkPacket 0 "" "" 0 [].

#[global] Instance Packet_message : ProtoMessage Packet :=
  mkProtoMessage _ "Packet" Packet_zero Packet_Size Packet_fields Packet_field.

Definition Acknowledgement_field (m : Acknowledgement) (dAtA : bytes)
    (fieldNum wireType iNdEx : Z) : option (outcome (Acknowledgement * Z)) :=
  if fieldNum =? 1 then Some (expect wireType 2 "AppAcknowledgements" (
    '(bs, i) ← read_bytes int64 dAtA iNdEx;
    Ret (mkAcknowledgement (AppAcknowledgements m ++ [bs]), i)))
  else None.

#[global] Instance Acknowledgement_message : ProtoMessage Acknowledgement :=
  mkProtoMessage _ "Acknowledgement" (mkAcknowledgement []) Acknowledgement_Size
    Acknowledgement_fields Acknowledgement_field.

Definition RecvPacketResult_field (m : RecvPacketResult) (dAtA : bytes)
    (fieldNum wireType iNdEx : Z) : option (outcome (RecvPacketResult * Z)) :=
  if fieldNum =? 1 then Some (expect wireType 0 "Status" (
    '(v, i) ← read_varint int32 dAtA iNdEx;
    Ret (mkRecvPacketResult v (Result_Acknowledgement m), i)))
  else if fieldNum =? 2 then Some (expect wireType 2 "Acknowledgement" (
    '(bs, i) ← read_bytes int64 dAtA iNdEx;
    Ret (mkRecvPacketResult (Status m) bs, i)))
  else None.

#[global] Instance RecvPacketResult_message : ProtoMessage RecvPacketResult :=
  mkProtoMessage _ "RecvPacketResult" (mkRecvPacketResult PacketStatus_NONE [])
    RecvPacketResult_Size RecvPacketResult_fields RecvPacketResult_field.
End channel.

Module wasm.

(** [Height] of [client.pb.go]. *)
Record Height := mkHeight {
  RevisionNumber : Z;
  RevisionHeight : Z;
}.

Record ClientState := mkClientState {
  Data : bytes;
  Checksum : bytes;
  LatestHeight : Height;
}.

Definition Height_Size (m : Height) : Z :=
  channel.size_uint (RevisionNumber m) + channel.size_uint (RevisionHeight m).

Definition Height_fields (m : Height) : writer :=
  put_uint 16 (RevisionHeight m) ;>> put_uint 8 (RevisionNumber m).

Definition Height_field (m : Height) (dAtA : bytes) (fieldNum wireType iNdEx : Z)
    : option (outcome (Height * Z)) :=
  if fieldNum =? 1 then Some (expect wireType 0 "RevisionNumber" (
    '(v, i) ← read_varint uint64 dAtA iNdEx; Ret (mkHeight v (RevisionHeight m), i)))
  else if fieldNum =? 2 then Some (expect wireType 0 "RevisionHeight" (
    '(v, i) ← read_varint uint64 dAtA iNdEx; Ret (mkHeight (RevisionNumber m) v, i)))
  else None.

#[global] Instance Height_message : ProtoMessage Height :=
  mkProtoMessage _ "Height" (mkHeight 0 0) Height_Size Height_fields Height_field.

(** The height is written even when it is zero. *)
Definition ClientState_Size (m : ClientState) : Z :=
  channel.size_nonempty (len (Data m)) + channel.size_nonempty (len (Checksum m)) +
  (1 + Height_Size (LatestHeight m) + sov (Height_Size (LatestHeight m))).

Definition ClientState_fields (m : ClientState) : writer :=
  put_message 26 (to_sized_buffer (Height_fields (LatestHeight m))) ;>>
  put_nonempty 18 (Checksum m) ;>>
  put_nonempty 10 (Data m).

(** The height is read into the one the message has. *)
Definition ClientState_field (m : ClientState) (dAtA : bytes) (fieldNum wireType iNdEx : Z)
    : option (outcome (ClientState * Z)) :=
  if fieldNum =? 1 then Some (expect wireType 2 "Data" (
    '(bs, i) ← read_bytes int64 dAtA iNdEx;
    Ret (mkClientState bs (Checksum m) (LatestHeight m), i)))
  else if fieldNum =? 2 then Some (expect wireType 2 "Checksum" (
    '(bs, i) ← read_bytes int64 dAtA iNdEx;
    Ret (mkClientState (Data m) bs (LatestHeight m), i)))
  else if fieldNum =? 3 then Some (expect wireType 2 "LatestHeight" (
    '(bs, i) ← read_bytes int64 dAtA iNdEx;
    h ← Unmarshal bs (LatestHeight m);
    Ret (mkClientState (Data m) (Checksum m) h, i)))
  else None.

#[global] Instance ClientState_message : ProtoMessage ClientState :=
  mkProtoMessage _ "ClientState" (mkClientState [] [] (mkHeight 0 0)) ClientState_Size
    ClientState_fields ClientState_field.
End wasm.

(** ** The laws of the messages *)

Lemma fits_app a b : fits (a ++ b) → fits a ∧ fits b.
Proof. unfold fits. rewrite len_app. pose proof (len_nonneg a). pose proof (len_nonneg b). lia. Qed.

Lemma fits_delimited tag bs : fits (wire_delimited tag bs) → fits bs.
Proof.
  unfold wire_delimited, fits. rewrite len_cons, len_app.
  pose proof (len_nonneg (varint (len bs))). lia.
Qed.

Lemma fits_nonempty tag bs : fits (wire_nonempty tag bs) → fits bs.
Proof.
  unfold wire_nonempty. destruct (Z.eqb_spec (len bs) 0) as [H|_]; [|apply fits_delimited].
  unfold fits. lia.
Qed.

Lemma fits_concat {A} (enc : A → bytes) l a : fits (concat (map enc l)) → a ∈ l → fits (enc a).
Proof.
  induction l as [|x l IH]; simpl; [by intros _ ?%elem_of_nil|].
  intros [Hx Hl]%fits_app [->|Ha]%elem_of_cons; [done|]. auto.
Qed.

(** Splits what is known of the length of an encoding over its fields. *)
Ltac split_fits :=
  repeat match goal with
  | H : fits (_ ++ _) |- _ => apply fits_app in H as [? ?]
  | H : fits (wire_nonempty _ _) |- _ => apply fits_nonempty in H
  end.

Lemma size_repeated_len {A} (size : A → Z) (enc : A → bytes) tag l :
  (∀ a, a ∈ l → size a = len (enc a)) → (∀ a, a ∈ l → fits (enc a)) →
  channel.size_repeated size l = len (concat (map (λ a, wire_delimited tag (enc a)) l)).
Proof.
  induction l as [|a l IH]; intros Hs Hf; [done|]. cbn [concat map channel.size_repeated].
  rewrite len_app, <- IH by (intros; (apply Hs || apply Hf); by right).
  rewrite (Hs a), wire_delimited_len by (try apply Hf; by left). done.
Qed.

Lemma read_string_lands dAtA i :
  0 ≤ i → fits dAtA → lands (λ '(_, j), i ≤ j ≤ len dAtA) (channel.read_string dAtA i).
Proof.
  intros Hi Hf. unfold channel.read_string. eapply lands_bind; [by apply (read_bytes_lands uint64)|].
  intros [bs j] [? _]. simpl. lia.
Qed.

Lemma sub_bytes (bs dAtA : bytes) : bs ⊆ dAtA → Forall is_byte dAtA → Forall is_byte bs.
Proof. rewrite !Forall_forall. auto. Qed.

(** One case of a [switch]: the value is read and the message is as before but
    for its field. *)
Ltac case_lands :=
  intros [= <-]; unfold expect; case_match; [done|];
  eapply lands_bind;
  [lazymatch goal with
   | |- lands _ (channel.read_string _ _) => by apply read_string_lands; [lia|]
   | |- lands _ (read_bytes _ _ _) => by apply (read_bytes_lands int64); [lia|]
   | |- lands _ (read_varint ?conv _ _) => by apply (read_varint_lands conv); lia
   end
  |intros [? ?] ?; simpl in *].

Module channel_laws.
Import channel.

Definition Payload_wire (m : Payload) : bytes :=
  (((wire_nonempty 10 (bytes_of_string (SourcePort m)) ++
     wire_nonempty 18 (bytes_of_string (DestinationPort m))) ++
    wire_nonempty 26 (bytes_of_string (Version m))) ++
   wire_nonempty 34 (bytes_of_string (Encoding m))) ++
  wire_nonempty 42 (Value m).

Lemma Payload_law_field m dAtA fieldNum wireType i r :
  0 ≤ i ≤ len dAtA → fits dAtA → Payload_field m dAtA fieldNum wireType i = Some r →
  lands (λ '(m', i'), i ≤ i' ≤ len dAtA ∧
    (Forall is_byte (Value m) → Forall is_byte dAtA → Forall is_byte (Value m'))) r.
Proof.
  intros Hi Hf. destruct m as [sp dp v e val]. unfold Payload_field.
  repeat (case_match; [case_lands; split; [lia|]; naive_solver eauto using sub_bytes|]). done.
Qed.

Lemma read_string_wire s dAtA i i' :
  read_bytes uint64 dAtA i = Ret (bytes_of_string s, i') → read_string dAtA i = Ret (s, i').
Proof. unfold read_string. intros ->. simpl. by rewrite string_of_bytes_of_string. Qed.

Lemma bytes_of_string_nil s : bytes_of_string s = [] → s = "".
Proof. by destruct s. Qed.

(** A field as the [switch] of its message reads it. *)
Ltac open_case :=
  try match goal with |- context [?t / 8] =>
    let n := eval vm_compute in (t / 8) in change (t / 8) with n end;
  cbn -[read_varint read_bytes read_string Unmarshal wire]; unfold expect;
  cbn -[read_varint read_bytes read_string Unmarshal wire].

Ltac run_case Hr := open_case; rewrite Hr; reflexivity.

Ltac reads_string :=
  apply (reads_nonempty uint64); [done|done|done|by intros ->%bytes_of_string_nil|];
  let Hr := fresh in intros ? ? ? Hr%read_string_wire; run_case Hr.

Ltac reads_bytes :=
  apply (reads_nonempty int64); [done|done|done|by intros ->|];
  let Hr := fresh in intros ? ? ? Hr; run_case Hr.

Ltac reads_number :=
  apply reads_uint; [done|done|done|done|by intros ->|];
  let Hr := fresh in intros ? ? ? Hr; run_case Hr.

#[global, program] Instance Payload_laws : ProtoLaws Payload := {|
  wire := Payload_wire;
  proto_valid m := Forall is_byte (Value m);
|}.
Next Obligation. constructor. Qed.
Next Obligation.
  intros [sp dp v e val] _ Hf. unfold Payload_wire in *. simpl in *. split_fits.
  rewrite !len_app, !wire_nonempty_len by done. done.
Qed.
Next Obligation.
  intros [sp dp v e val] _ Hf. unfold Payload_wire in *. simpl in *. split_fits.
  unfold Payload_fields. auto 10 with wire.
Qed.
Next Obligation.
  intros [sp dp v e val] _ Hf. unfold Payload_wire in *. simpl in *.
  apply (reads_app _ _ _ (mkPayload sp dp v e [])); [|reads_bytes].
  apply (reads_app _ _ _ (mkPayload sp dp v "" [])); [|reads_string].
  apply (reads_app _ _ _ (mkPayload sp dp "" "" [])); [|reads_string].
  apply (reads_app _ _ _ (mkPayload sp "" "" "" [])); reads_string.
Qed.
Next Obligation. apply Payload_law_field. Qed.

(** *** Packets *)

Definition Packet_wire (m : Packet) : bytes :=
  (((wire_uint 8 (Sequence m) ++ wire_nonempty 18 (bytes_of_string (SourceClient m))) ++
    wire_nonempty 26 (bytes_of_string (DestinationClient m))) ++
   wire_uint 32 (TimeoutTimestamp m)) ++
  concat (map (λ e, wire_delimited 42 (wire e)) (Payloads m)).

Record Packet_valid (m : Packet) : Prop := {
  pv_Sequence : is_uint64 (Sequence m);
  pv_TimeoutTimestamp : is_uint64 (TimeoutTimestamp m);
  pv_Payloads : Forall proto_valid (Payloads m);
}.

Lemma size_uint_len tag v : is_uint64 v → size_uint v = len (wire_uint tag v).
Proof. intros Hv. unfold size_uint. by rewrite wire_uint_len, uint64_id. Qed.

Lemma uint64_conv v : (∃ z, v = uint64 z) → is_uint64 v.
Proof. intros [z ->]. apply uint64_range. Qed.

Lemma Packet_law_field m dAtA fieldNum wireType i r :
  0 ≤ i ≤ len dAtA → fits dAtA → Packet_field m dAtA fieldNum wireType i = Some r →
  lands (λ '(m', i'), i ≤ i' ≤ len dAtA ∧
    (Packet_valid m → Forall is_byte dAtA → Packet_valid m')) r.
Proof.
  intros Hi Hf. destruct m as [sq sc dc t ps]. unfold Packet_field.
  case_match; [case_lands; split; [lia|]; intros [] ?; constructor; try done; apply uint64_conv; naive_solver|].
  do 2 (case_match; [case_lands; split; [lia|]; intros [] ?; by constructor|]).
  case_match; [case_lands; split; [lia|]; intros [] ?; constructor; try done; apply uint64_conv; naive_solver|].
  case_match; [|done]. case_lands. destruct_and!.
  eapply lands_bind; [apply Unmarshal_lands; unfold fits in *; lia|]. intros e He.
  simpl. split; [lia|]. intros [] Hb. constructor; try done. simpl. apply Forall_app. split; [done|].
  apply Forall_singleton, He; [constructor|by eapply sub_bytes].
Qed.

Definition add_payload (m : Packet) (e : Payload) : Packet :=
  mkPacket (Sequence m) (SourceClient m) (DestinationClient m) (TimeoutTimestamp m)
    (Payloads m ++ [e]).

Lemma add_payloads l : ∀ m,
  foldl add_payload m l =
    mkPacket (Sequence m) (SourceClient m) (DestinationClient m) (TimeoutTimestamp m)
      (Payloads m ++ l).
Proof.
  induction l as [|e l IH]; intros m; simpl; [by destruct m; simpl; rewrite app_nil_r|].
  rewrite IH. simpl. by rewrite <- app_assoc.
Qed.

Lemma reads_payload m e :
  proto_valid e → fits (wire e) → reads (wire_delimited 42 (wire e)) m (add_payload m e).
Proof.
  intros Hv Hf. apply (reads_delimited int64); [done|done|done|]. intros dAtA i i' Hr.
  destruct m as [sq sc dc t ps]. pose proof (Unmarshal_wire e Hv Hf) as Hu.
  unfold proto_Unmarshal in Hu. open_case. rewrite Hr. cbn -[Unmarshal wire] in *. by rewrite Hu.
Qed.

Lemma payload_fits (ps : list Payload) e :
  fits (concat (map (λ e, wire_delimited 42 (wire e)) ps)) → e ∈ ps → fits (wire e).
Proof. intros Hf He. by eapply fits_delimited, (fits_concat (λ e, wire_delimited 42 (wire e))). Qed.

#[global, program] Instance Packet_laws : ProtoLaws Packet := {|
  wire := Packet_wire;
  proto_valid := Packet_valid;
|}.
Next Obligation. constructor; [done|done|constructor]. Qed.
Next Obligation.
  intros [sq sc dc t ps] [Hs Ht Hp] Hf. rewrite Forall_forall in Hp. unfold Packet_wire, Packet_Size in *. simpl in *. split_fits.
  rewrite !len_app, !wire_nonempty_len by done. rewrite <- !size_uint_len by done.
  unfold Packet_Size. simpl. rewrite (size_repeated_len Payload_Size wire 42); [done| |].
  - intros e He. change (proto_Size e = len (wire e)). apply law_Size; [by apply Hp|by eapply (payload_fits ps)].
  - intros e He. by eapply (payload_fits ps).
Qed.
Next Obligation.
  intros [sq sc dc t ps] [Hs Ht Hp] Hf. rewrite Forall_forall in Hp. unfold Packet_wire, Packet_fields in *. simpl in *. split_fits.
  apply prepends_andThen; [|auto 10 with wire]. apply prepends_put_repeated. intros e He.
  assert (fits (wire e)) by (by eapply (payload_fits ps)).
  change (prepends (put_message 42 (to_sized_buffer (proto_fields e))) (wire_delimited 42 (wire e))).
  apply prepends_put_message; [done|]. by apply law_fields; [apply Hp|].
Qed.
Next Obligation.
  intros [sq sc dc t ps] [Hs Ht Hp] Hf. rewrite Forall_forall in Hp. unfold Packet_wire in *. simpl in *. split_fits.
  apply (reads_app _ _ _ (mkPacket sq sc dc t [])).
  2:{ pose proof (add_payloads ps (mkPacket sq sc dc t [])) as Hadd. simpl in Hadd.
      rewrite <- Hadd. apply reads_repeated. intros m e He.
      apply reads_payload; [by apply Hp|].
      by eapply (payload_fits ps). }
  apply (reads_app _ _ _ (mkPacket sq sc dc 0 [])); [|reads_number].
  apply (reads_app _ _ _ (mkPacket sq sc "" 0 [])); [|reads_string].
  apply (reads_app _ _ _ (mkPacket sq "" "" 0 [])); [reads_number|reads_string].
Qed.
Next Obligation. apply Packet_law_field. Qed.

(** *** Acknowledgements *)

Definition Acknowledgement_wire (m : Acknowledgement) : bytes :=
  concat (map (wire_delimited 10) (AppAcknowledgements m)).

Lemma add_acknowledgements l : ∀ m,
  foldl (λ m bs, mkAcknowledgement (AppAcknowledgements m ++ [bs])) m l =
    mkAcknowledgement (AppAcknowledgements m ++ l).
Proof.
  induction l as [|bs l IH]; intros [acks]; simpl; [by rewrite app_nil_r|].
  rewrite IH. simpl. by rewrite <- app_assoc.
Qed.

(** Reading adds to the elements that are there. *)
Lemma Acknowledgement_reads m m0 :
  reads (Acknowledgement_wire m) m0
    (mkAcknowledgement (AppAcknowledgements m0 ++ AppAcknowledgements m)).
Proof.
  rewrite <- add_acknowledgements. apply reads_repeated. intros m1 bs _.
  apply (reads_delimited int64); [done|done|done|]. intros dAtA i i' Hr. run_case Hr.
Qed.

Lemma app_ack_fits l bs : fits (concat (map (wire_delimited 10) l)) → bs ∈ l → fits bs.
Proof. intros Hf Hb. by eapply fits_delimited, (fits_concat (wire_delimited 10)). Qed.

#[global, program] Instance Acknowledgement_laws : ProtoLaws Acknowledgement := {|
  wire := Acknowledgement_wire;
  proto_valid m := Forall (Forall is_byte) (AppAcknowledgements m);
|}.
Next Obligation. constructor. Qed.
Next Obligation.
  intros [acks] _ Hf. apply (size_repeated_len _ id 10); [done|]. intros bs. by apply app_ack_fits.
Qed.
Next Obligation.
  intros [acks] _ Hf. apply prepends_put_repeated. intros bs Hb.
  by apply prepends_put_delimited, (app_ack_fits acks).
Qed.
Next Obligation. intros [acks] _ Hf. apply Acknowledgement_reads. Qed.
Next Obligation.
  intros m dAtA fieldNum wireType i r Hi Hf. simpl. unfold Acknowledgement_field.
  case_match; [|done]. case_lands. split; [lia|]. destruct_and!. intros Hv Hb.
  apply Forall_app. split; [done|]. by apply Forall_singleton, (sub_bytes _ dAtA).
Qed.

(** *** Results of receiving a packet *)

Definition RecvPacketResult_wire (m : RecvPacketResult) : bytes :=
  wire_uint 8 (uint64 (Status m)) ++ wire_nonempty 18 (Result_Acknowledgement m).

Record RecvPacketResult_valid (m : RecvPacketResult) : Prop := {
  rv_Status : is_int32 (Status m);
  rv_Acknowledgement : Forall is_byte (Result_Acknowledgement m);
}.

(** A status is extended to 64 bits when it is written and cut when it is
    read. *)
Lemma status_bits v : is_int32 v → int32 (uint64 v) = v.
Proof.
  intros Hv. unfold is_int32 in Hv. rewrite <- (int32_id v) at 2 by done.
  unfold int32, uint64. f_equal. rewrite <- (Zplus_mod_idemp_l (v mod 2 ^ 64)).
  change (2 ^ 64) with (2 ^ 32 * 2 ^ 32). rewrite Z.rem_mul_r by lia.
  rewrite (Z.mul_comm (2 ^ 32) (_ mod _)), Z.mod_add, Z.mod_mod by lia. by rewrite Zplus_mod_idemp_l.
Qed.

Lemma status_zero v : is_int32 v → uint64 v = 0 → v = 0.
Proof. intros Hv H. rewrite <- (status_bits v Hv), H. done. Qed.

#[global, program] Instance RecvPacketResult_laws : ProtoLaws RecvPacketResult := {|
  wire := RecvPacketResult_wire;
  proto_valid := RecvPacketResult_valid;
|}.
Next Obligation. split; [done|constructor]. Qed.
Next Obligation.
  intros [st ack] [Hs Ha] Hf. unfold RecvPacketResult_wire in *. simpl in *. split_fits.
  unfold RecvPacketResult_Size. rewrite len_app, wire_nonempty_len by done. simpl. f_equal.
  rewrite wire_uint_len by apply uint64_range. unfold size_uint. pose proof (status_zero st Hs).
  destruct (Z.eqb_spec st 0) as [-> |]; [done|]. destruct (Z.eqb_spec (uint64 st) 0); [tauto|done].
Qed.
Next Obligation.
  intros [st ack] [Hs Ha] Hf. unfold RecvPacketResult_wire in *. simpl in *. split_fits.
  apply prepends_andThen; [by auto with wire|]. apply prepends_put_uint, uint64_range.
Qed.
Next Obligation.
  intros [st ack] [Hs Ha] Hf. unfold RecvPacketResult_wire in *. simpl in *. split_fits.
  apply (reads_app _ _ _ (mkRecvPacketResult st [])); [|reads_bytes]. unfold wire_uint.
  destruct (Z.eqb_spec (uint64 st) 0) as [Hz|_]; [rewrite (status_zero st Hs Hz); apply reads_nil|].
  apply (reads_field _ _ _ _ 1 0); try done. intros pre post _.
  pose proof (read_varint_wire int32 (uint64 st) pre post (uint64_range st)) as Hr.
  rewrite status_bits, <- len_app in Hr by done.
  generalize dependent (pre ++ varint (uint64 st) ++ post). intros dAtA Hr. run_case Hr.
Qed.
Next Obligation.
  intros m dAtA fieldNum wireType i r Hi Hf. simpl. unfold RecvPacketResult_field.
  case_match; [case_lands; split; [lia|]; intros [] ?; constructor; [|done];
    destruct H1 as [_ [? ->]]; apply int32_range|].
  case_match; [|done]. case_lands. split; [lia|]. destruct_and!. intros [] ?.
  constructor; [done|]. by apply (sub_bytes _ dAtA).
Qed.
End channel_laws.

Module wasm_laws.
Import channel_laws wasm.

Definition Height_wire (m : Height) : bytes :=
  wire_uint 8 (RevisionNumber m) ++ wire_uint 16 (RevisionHeight m).

Record Height_valid (m : Height) : Prop := {
  hv_RevisionNumber : is_uint64 (RevisionNumber m);
  hv_RevisionHeight : is_uint64 (RevisionHeight m);
}.

#[global, program] Instance Height_laws : ProtoLaws Height := {|
  wire := Height_wire;
  proto_valid := Height_valid;
|}.
Next Obligation. split; done. Qed.
Next Obligation.
  intros m [Hn Hh] Hf. simpl. unfold Height_wire. rewrite len_app, <- !size_uint_len by done. done.
Qed.
Next Obligation. intros m [Hn Hh] Hf. simpl. unfold Height_fields, Height_wire. auto with wire. Qed.
Next Obligation.
  intros [n h] [Hn Hh] Hf. unfold Height_wire. simpl in *.
  apply (reads_app _ _ _ (mkHeight n 0)); reads_number.
Qed.
Next Obligation.
  intros m dAtA fieldNum wireType i r Hi Hf. simpl. unfold Height_field.
  do 2 (case_match; [case_lands; split; [lia|]; intros [] ?; constructor; try done;
    apply uint64_conv; naive_solver|]). done.
Qed.

Definition ClientState_wire (m : ClientState) : bytes :=
  (wire_nonempty 10 (Data m) ++ wire_nonempty 18 (Checksum m)) ++
  wire_delimited 26 (wire (LatestHeight m)).

Record ClientState_valid (m : ClientState) : Prop := {
  cv_Data : Forall is_byte (Data m);
  cv_Checksum : Forall is_byte (Checksum m);
  cv_LatestHeight : proto_valid (LatestHeight m);
}.

#[global, program] Instance ClientState_laws : ProtoLaws ClientState := {|
  wire := ClientState_wire;
  proto_valid := ClientState_valid;
|}.
Next Obligation. split; [constructor|constructor|done]. Qed.
Next Obligation.
  intros [d c h] [Hd Hc Hh] Hf. unfold ClientState_wire in *. cbn -[wire] in *. split_fits.
  apply fits_delimited in H0 as Hw. unfold ClientState_Size. cbn -[wire].
  rewrite !len_app, !wire_nonempty_len, wire_delimited_len by done.
  by rewrite <- (law_Size h) by done.
Qed.
Next Obligation.
  intros [d c h] [Hd Hc Hh] Hf. unfold ClientState_wire in *. cbn -[wire] in *. split_fits.
  apply fits_delimited in H0 as Hw. apply prepends_andThen; [|auto with wire].
  apply prepends_put_message; [done|]. change (prepends (proto_fields h) (wire h)). by apply law_fields.
Qed.
Next Obligation.
  intros [d c h] [Hd Hc Hh] Hf. unfold ClientState_wire in *. cbn -[wire] in *. split_fits.
  apply fits_delimited in H0 as Hw. apply (reads_app _ _ _ (mkClientState d c (mkHeight 0 0))).
  { apply (reads_app _ _ _ (mkClientState d [] (mkHeight 0 0))); reads_bytes. }
  apply (reads_delimited int64); [done|done|done|]. intros dAtA i i' Hr.
  assert (proto_Unmarshal (wire h) = Ret h) as Hu by by apply Unmarshal_wire. unfold proto_Unmarshal in Hu.
  open_case. rewrite Hr. cbn -[Unmarshal wire] in *. by rewrite Hu.
Qed.
Next Obligation.
  intros m dAtA fieldNum wireType i r Hi Hf. simpl. unfold ClientState_field.
  do 2 (case_match; [case_lands; split; [lia|]; destruct_and!; intros [] ?; constructor; try done;
    by apply (sub_bytes _ dAtA)|]).
  case_match; [|done]. case_lands. destruct_and!.
  eapply lands_bind; [apply Unmarshal_lands; unfold fits in *; lia|]. intros h Hh.
  simpl. split; [lia|]. intros [] ?. constructor; try done. apply Hh; [done|]. by apply (sub_bytes _ dAtA).
Qed.
End wasm_laws.

(** ** Theorems *)

Section messages.
Context {T : Type} `{!ProtoMessage T} `{!ProtoLaws T}.

(** [MarshalTo] writes to the front of a buffer that is large enough. *)
Lemma MarshalTo_front (m : T) slot rest :
  proto_valid m → fits (wire m) → length slot = length (wire m) →
  MarshalTo m (slot ++ rest) = Ret (len (wire m), wire m ++ rest).
Proof.
  intros Hv Hf Hs. unfold MarshalTo, MarshalToSizedBuffer. rewrite law_Size by done.
  pose proof (slice_prefix slot rest) as Hsl. rewrite (len_eq slot (wire m) Hs) in Hsl.
  rewrite Hsl. simpl. pose proof (prepends_sized_buffer _ _ [] slot (law_fields m Hv Hf) Hs) as Hb.
  simpl in Hb. rewrite Hb. simpl. by rewrite len_to_nat, <- Hs, drop_app_length.
Qed.

(** C36: whatever the bytes are, as long as they fit into memory, [Unmarshal] of
    every message ends, without indexing past the end of a slice, in a message
    or an error; and a message that was read can be written again and is then
    read as the same. *)
Theorem Unmarshal_any_bytes (dAtA : bytes) :
  fits dAtA → Forall is_byte dAtA →
  proto_Unmarshal (T := T) dAtA ≠ Panic ∧
  ∀ m : T, proto_Unmarshal dAtA = Ret m → fits (wire m) →
    ∃ dAtA', Marshal m = Ret dAtA' ∧ proto_Unmarshal dAtA' = Ret m.
Proof.
  intros Hf Hb. pose proof (Unmarshal_lands dAtA proto_zero Hf) as Hl. unfold proto_Unmarshal.
  split; [by destruct (Unmarshal dAtA proto_zero)|]. intros m Hm Hw. rewrite Hm in Hl. simpl in Hl.
  specialize (Hl law_zero Hb). exists (wire m). split; [by apply Marshal_wire|by apply Unmarshal_wire].
Qed.

(** A message is read as the same when fields it does not know, of any
    type, come before and after it. *)
Theorem Unmarshal_unknown_field (m : T) fieldNum wireType value :
  proto_valid m → 0 < fieldNum < 2 ^ 29 → wire_value wireType value →
  (∀ m dAtA i, proto_field (T := T) m dAtA fieldNum wireType i = None) →
  let unknown := wire_tag fieldNum wireType ++ value in
  fits (unknown ++ wire m ++ unknown) →
  proto_Unmarshal (unknown ++ wire m ++ unknown) = Ret m.
Proof.
  intros Hv Hn Hw Hfield unknown Hf. apply reads_unmarshal; [done|].
  apply fits_app in Hf as [_ [Hf _]%fits_app]. apply (reads_app _ _ _ proto_zero).
  - by apply reads_unknown.
  - apply (reads_app _ _ _ m); [by apply law_reads|by apply reads_unknown].
Qed.
End messages.

Import channel channel_laws wasm wasm_laws.

Definition sample_payload : Payload := mkPayload "transfer" "transfer" "ics20-1" "" [1; 2; 255].
Definition sample_packet : Packet :=
  mkPacket (2 ^ 40) "08-wasm-0" "cosmoshub-0" 1700000000 [sample_payload; Payload_zero].

Lemma sample_packet_valid : Packet_valid sample_packet.
Proof. split; [done|done|]. repeat constructor; done. Qed.

(** C35: a packet is written into a buffer of [Size] bytes, filled from its end
    without a gap, as its fields one after the other; and reading that gives
    the packet. *)
Theorem Packet_roundtrip (m : Packet) :
  Packet_valid m → fits (Packet_wire m) →
  Marshal m = Ret (Packet_wire m) ∧ Packet_Size m = len (Packet_wire m) ∧
  proto_Unmarshal (Packet_wire m) = Ret m.
Proof.
  intros Hv Hf. change (Packet_wire m) with (wire m) in *. change (Packet_Size m) with (proto_Size m).
  split_and!; [by apply Marshal_wire|by apply law_Size|by apply Unmarshal_wire].
Qed.

Lemma Packet_roundtrip_witness :
  Marshal sample_packet = Ret (Packet_wire sample_packet) ∧
  Packet_Size sample_packet = len (Packet_wire sample_packet) ∧
  proto_Unmarshal (Packet_wire sample_packet) = Ret sample_packet.
Proof. apply (Packet_roundtrip sample_packet); [exact sample_packet_valid|vm_compute; reflexivity]. Defined.

Lemma Unmarshal_any_bytes_witness :
  proto_Unmarshal (T := Packet) [42; 255; 255; 255; 255; 15; 7] ≠ Panic ∧
  ∀ m : Packet, proto_Unmarshal [42; 255; 255; 255; 255; 15; 7] = Ret m → fits (wire m) →
    ∃ dAtA', Marshal m = Ret dAtA' ∧ proto_Unmarshal dAtA' = Ret m.
Proof.
  apply (Unmarshal_any_bytes (T := Packet)); [vm_compute; reflexivity|].
  repeat constructor; done.
Defined.

Lemma Unmarshal_unknown_field_witness :
  proto_Unmarshal ((wire_tag 1000 2 ++ varint (len [9; 9]) ++ [9; 9]) ++ wire sample_packet ++
    (wire_tag 1000 2 ++ varint (len [9; 9]) ++ [9; 9])) = Ret sample_packet.
Proof.
  apply (Unmarshal_unknown_field sample_packet 1000 2);
    [exact sample_packet_valid|done|constructor|by intros []|vm_compute; reflexivity].
Defined.

(** Two acknowledgements one after the other are read as one with the
    elements of both. *)
Lemma Acknowledgement_concat m1 m2 :
  fits (wire m1 ++ wire m2) →
  proto_Unmarshal (wire m1 ++ wire m2) =
    Ret (mkAcknowledgement (AppAcknowledgements m1 ++ AppAcknowledgements m2)).
Proof.
  intros Hf. apply reads_unmarshal; [done|]. eapply reads_app; [apply Acknowledgement_reads|].
  apply (Acknowledgement_reads m2 (mkAcknowledgement (AppAcknowledgements m1))).
Qed.
