(* ===== verification/EvmClient.v ===== *)
(** * The bridge client of EVM chains

    [EVMBridgeClient] of [shared/bridges/ibcv2/evm_bridge_client.go], one
    definition per method, on the contract bindings of [Bindings.v]. The node
    ([EVMClient], an [ethclient]) is [EVMNode]; go-ethereum is [Geth]. The
    fields of the object that change, [lastSubmissionTime] and the two caches,
    live in the external state as [EVMState] and are reached by a lens.

    The two loops on a ticker take the number of ticks after which their
    context is cancelled. *)
From stdpp Require Import prelude strings list gmap.
From Stdlib Require Import ZArith.
From S2P Require Import Prelude Go Config Db Transfer World Client Float Once Signing Bindings.
Open Scope Z_scope.

(** ** The object *)

(** The fields [DeliverTx] and the caches change. *)
Record EVMState := mkEVMState {
  evm_lastSubmissionTime : Time;
  evm_txOnce : OnceWithKey (option Receipt);
  evm_latestTimestampOnce : OnceWithKey Time;
}.

(** The fields that are set once; [evm_self] is where the others are. *)
Record EVMBridgeClient {X : Type} `{!Geth} `{!CosmosSDK} := mkEVMBridgeClient {
  evm_self : Lens X EVMState;
  evm_chainID : string;
  evm_ics26Router : Contract;
  evm_routerAddress : Address;
  evm_ics20Transfer : Contract;
  evm_transferAddress : Address;
  evm_signer : Signer X;
  evm_signerAddress : Address;
  evm_txSubmissionDelay : Duration;
  evm_gasFeeCapMultiplier : option config.float64;
  evm_gasTipCapMultiplier : option config.float64;
}.
Arguments EVMBridgeClient X {_ _}.
Arguments mkEVMBridgeClient X {_ _}.

Definition AddressLength : nat := 20.

(** [sha256("UNIVERSAL_ERROR_ACKNOWLEDGEMENT")]. *)
Definition ErrorAcknowledgement : bytes :=
  [71; 116; 212; 165; 117; 153; 63; 150; 59; 28; 6; 87; 55; 54; 97; 122;
   69; 122; 190; 248; 88; 145; 120; 219; 141; 16; 201; 75; 74; 181; 17; 171].

(** ** Byte strings *)

(** [sdk.Uint64ToBigEndian]. *)
Fixpoint big_endian (n : nat) (z : Z) : bytes :=
  match n with
  | O => []
  | S n' => Z.shiftr z (8 * Z.of_nat n') mod 2 ^ 8 :: big_endian n' z
  end.

Definition Uint64ToBigEndian (z : Z) : bytes := big_endian 8 z.

(** The values [encodePacked] is called with; [other] is any other type. *)
Inductive any :=
  | any_bytes (v : bytes)
  | any_byte (v : Z)
  | any_string (v : string)
  | any_other.

Fixpoint encodePacked (values : list any) : outcome bytes :=
  match values with
  | [] => Ret []
  | value :: values' =>
      match
        match value with
        | any_bytes v => Some v
        | any_byte v => Some [v]
        | any_string v => Some (bytes_of_string v)
        | any_other => None
        end
      with
      | None => Fail (ErrorNew "unsupported value type")
      | Some bz =>
          match encodePacked values' with
          | Ret rest => Ret (bz ++ rest)
          | r => r
          end
      end
  end.

(** [common.BytesToHash] of 20 zero bytes. *)
Definition unwritten : Hash := replicate 32 0.

(** [strings.Contains]. *)
Fixpoint Contains (s sub : string) : bool :=
  String.prefix sub s ||
  match s with
  | EmptyString => false
  | String _ s' => Contains s' sub
  end.

(** [strings.Contains(err.Error(), "not found")]. *)
Definition is_not_found (e : error) : bool := Contains (error_string e) "not found".

(** ** Methods *)

Section client.
Context {X : Type} `{!Geth} `{!CosmosSDK} `{!Runtime X} `{!EVMNode X}.

Definition with_lastSubmissionTime (t : Time) (c : EVMState) : EVMState :=
  mkEVMState t (evm_txOnce c) (evm_latestTimestampOnce c).

(** [&client.txOnce] and [&client.latestTimestampOnce]. *)
Definition evm_tx_field : Lens EVMState (OnceWithKey (option Receipt)) :=
  mkLens evm_txOnce (λ o c, mkEVMState (evm_lastSubmissionTime c) o (evm_latestTimestampOnce c)).
Definition evm_time_field : Lens EVMState (OnceWithKey Time) :=
  mkLens evm_latestTimestampOnce (λ o c, mkEVMState (evm_lastSubmissionTime c) (evm_txOnce c) o).

(** The new object is put at [self]. *)
Definition NewEVMBridgeClient (self : Lens X EVMState) (chainID ics26RouterContractAddress
    ics20TransferContractAddress : string) (signer : Signer X)
    (gasFeeCapMultiplier gasTipCapMultiplier : option config.float64)
    : Ext X (EVMBridgeClient X) :=
  let routerAddress := HexToAddress ics26RouterContractAddress in
  ics26Router ← ewrap "creating contract binding for ics26 router"
    (elift (NewContract ics26_router routerAddress));
  let transferAddress := HexToAddress ics20TransferContractAddress in
  ics20Transfer ← ewrap "creating contract binding for ics20 transfer"
    (elift (NewContract ics20_transfer transferAddress));
  signerAddressBytes ← signer_Address signer;
  if negb (bool_decide (length signerAddressBytes = AddressLength)) then
    efail (ErrorNew "invalid signer address length")
  else
    eset self (mkEVMState zero_time (NewOnceWithKey Minute (5 * Second))
      (NewOnceWithKey (12 * Second) (200 * Millisecond))) ≫= λ _,
    mret (mkEVMBridgeClient X self chainID ics26Router routerAddress ics20Transfer transferAddress signer
      signerAddressBytes (2 * Second) gasFeeCapMultiplier gasTipCapMultiplier).

Context (client : EVMBridgeClient X).

(** The hashed key of a commitment: [kind] is 1 for packet commitments and 2
    for packet receipts. *)
Definition commitment_path (clientID : string) (kind sequence : Z) : outcome bytes :=
  encodePacked [any_string clientID; any_byte kind; any_bytes (Uint64ToBigEndian sequence)].

Definition evm_IsPacketReceived (packetDestinationClientID : string) (sequence : Z) : Ext X bool :=
  calldata ← ewrap "encoding packed client id, '2' and sequence"
    (elift (commitment_path packetDestinationClientID 2 sequence));
  commitment ← ewrap "getting commitment for packet with destination client id"
    (GetCommitment (evm_ics26Router client) (Keccak256Hash calldata));
  mret (negb (bool_decide (commitment = unwritten))).

Definition evm_IsPacketCommitted (packetSourceClientID : string) (sequence : Z) : Ext X bool :=
  calldata ← ewrap "encoding packed client id, '1' and sequence"
    (elift (commitment_path packetSourceClientID 1 sequence));
  commitment ← ewrap "getting commitment for packet with source client id"
    (GetCommitment (evm_ics26Router client) (Keccak256Hash calldata));
  mret (negb (bool_decide (commitment = unwritten))).

Definition evm_txSigner (hash : Hash) : Ext X string :=
  match SetString (evm_chainID client) with
  | None => efail (ErrorNew "could not convert chain id to *big.Int")
  | Some chainID =>
      tx ← ewrap "getting transaction for hash" (TransactionByHash hash);
      sender ← ewrap "getting transaction sender" (elift (Sender chainID tx));
      mret (Address_String sender)
  end.

(** [time.Unix(int64(header.Time), 0)]. *)
Definition header_time (header : Header) : Time := time_Unix (int64 (Header_Time header)).

(** The signer of a transaction that was found, left empty when it cannot be
    determined. *)
Definition evm_signer_or_empty (hash : Hash) (msg : string) : Ext X string :=
  r ← eattempt (evm_txSigner hash);
  match r with
  | inl signer => mret signer
  | inr _ => elog Error msg ≫= λ _, mret ""
  end.

Definition evm_FindRecvTx (sourceClientID destinationClientID : string) (sequence : Z)
    (timeoutTimestamp : Time) : Ext X (option BridgeTx) :=
  routerABI ← ewrap "getting ics26 router abi" (elift (GetAbi ics26_router));
  topics ← ewrap "creating topics for filter logs query"
    (elift (MakeTopics (routerABI "WriteAcknowledgement") destinationClientID sequence));
  logs ← ewrap "filtering for write ack logs" (FilterLogs (evm_routerAddress client) topics);
  match logs with
  | [] => efail (Sentinel ErrTxNotFound)
  | [log] =>
      writeAck ← ewrap "parsing write ack" (elift (ParseWriteAcknowledgement (evm_ics26Router client) log));
      let blockNumber := Log_BlockNumber (WriteAck_Raw writeAck) in
      header ← ewrap "getting block header at height" (HeaderByNumber (Some (int64 blockNumber)));
      signer ← evm_signer_or_empty (Log_TxHash (WriteAck_Raw writeAck))
        "found recv tx but could not determine the tx's signer, ignoring error and continuing";
      header ← ederef header;
      mret (Some (mkBridgeTx (Hash_String (Log_TxHash (WriteAck_Raw writeAck)))
        (header_time header) signer))
  | _ => efail (ErrorNew "expected to receive 1 log for write ack")
  end.

Definition evm_FindAckTx (sourceClientID _destinationClientID : string) (sequence : Z)
    : Ext X (option BridgeTx) :=
  routerABI ← ewrap "getting ics26 router abi" (elift (GetAbi ics26_router));
  topics ← ewrap "creating topics for filter logs query"
    (elift (MakeTopics (routerABI "AckPacket") sourceClientID sequence));
  logs ← ewrap "filtering ack logs" (FilterLogs (evm_routerAddress client) topics);
  match logs with
  | [] => efail (Sentinel ErrTxNotFound)
  | [log] =>
      ackPacket ← ewrap "parsing ack packet log"
        (elift (ParseAckPacket (evm_ics26Router client) log));
      let raw := AckPacket_Raw ackPacket in
      header ← ewrap "getting block header at height"
        (HeaderByNumber (Some (int64 (Log_BlockNumber raw))));
      signer ← evm_signer_or_empty (Log_TxHash raw)
        "found ack tx but could not determine the tx's signer, ignoring error and continuing";
      header ← ederef header;
      mret (Some (mkBridgeTx (Hash_String (Log_TxHash raw)) (header_time header) signer))
  | _ => efail (ErrorNew "expected to receive 1 log for ack packet")
  end.

Definition evm_FindTimeoutTx (sourceClientID _destinationClientID : string) (sequence : Z)
    : Ext X (option BridgeTx) :=
  routerABI ← ewrap "getting ics26 router abi" (elift (GetAbi ics26_router));
  topics ← ewrap "creating topics for filter logs query"
    (elift (MakeTopics (routerABI "TimeoutPacket") sourceClientID sequence));
  logs ← ewrap "filtering for timeout logs" (FilterLogs (evm_routerAddress client) topics);
  match logs with
  | [] => efail (Sentinel ErrTxNotFound)
  | [log] =>
      timeoutPacket ← ewrap "parsing timeout packet"
        (elift (ParseTimeoutPacket (evm_ics26Router client) log));
      let raw := TimeoutPacket_Raw timeoutPacket in
      header ← ewrap "getting block header at height"
        (HeaderByNumber (Some (int64 (Log_BlockNumber raw))));
      signer ← evm_signer_or_empty (Log_TxHash raw)
        "found timeout tx but could not determine the tx's signer, ignoring error and continuing";
      header ← ederef header;
      mret (Some (mkBridgeTx (Hash_String (Log_TxHash raw)) (header_time header) signer))
  | _ => efail (ErrorNew "expected to receive 1 log for timeout")
  end.

(** ** Submitting transactions *)

Definition adjustGasFeeCap (gasFeeCap : option Z)
    : outcome (option Z) :=
  match gasFeeCap with
  | None => Ret None
  | Some z =>
      match evm_gasFeeCapMultiplier client with
      | None => Ret (Some z)
      | Some m => MulFloat z m
      end
  end.

Definition adjustGasTipCap (gasTipCap : option Z)
    : outcome (option Z) :=
  match gasTipCap with
  | None => Ret None
  | Some z =>
      match evm_gasTipCapMultiplier client with
      | None => Ret (Some z)
      | Some m => MulFloat z m
      end
  end.

Definition newTx (bz : bytes) (address : string) : Ext X EthTransaction :=
  let to := HexToAddress address in
  head ← ewrap "getting latest block header" (HeaderByNumber None);
  gasTipCap ← ewrap "getting suggested gas price for chain" SuggestGasTipCap;
  head ← ederef head;
  baseFee ← ederef (Header_BaseFee head);
  let gasFeeCap := gasTipCap + baseFee * 2 in
  code ← ewrap "getting pending code at for address" (PendingCodeAt to);
  match code with
  | [] => efail (ErrorNew "code no length response when getting pending code for address")
  | _ =>
      gasLimit ← ewrap "estimating gas to deliver msg"
        (EstimateGas (evm_signerAddress client) to bz);
      nonce ← ewrap "getting pending nonce for address" (PendingNonceAt (evm_signerAddress client));
      feeCap ← elift (adjustGasFeeCap (Some gasFeeCap));
      tipCap ← elift (adjustGasTipCap (Some gasTipCap));
      mret (NewTx (mkDynamicFeeTx to nonce feeCap tipCap gasLimit bz))
  end.

Definition signAndSubmitData (bz : bytes) (address : string) : Ext X Hash :=
  tx ← ewrap "creating tx to sign and submit" (newTx bz address);
  signedTx ← ewrap "signing tx with address"
    (EthereumSignerToBindSignerFn (evm_signer client) (evm_chainID client)
       (evm_signerAddress client) tx);
  _ ← ewrap "sending signed transaction" (SendTransaction signedTx);
  mret (EthTransaction_Hash signedTx).

(** The deferred function of [DeliverTx] when its [err] is nil. *)
Definition evm_note_submission : Ext X unit :=
  t ← enow;
  state ← eget (evm_self client);
  eset (evm_self client) (with_lastSubmissionTime t state).

(** A cancelled context returns before [err] is set, and a panic unwinds
    through the deferred function, so both record a submission. *)
Definition evm_DeliverTx (bz : bytes) (address : string) : Ext X (option BridgeTx) :=
  state ← eget (evm_self client);
  d ← euntil (time_Add (evm_lastSubmissionTime state) (evm_txSubmissionDelay client));
  w ← eattempt (ewait d);
  match w with
  | inr err => evm_note_submission ≫= λ _, efail err
  | inl _ =>
      r ← eoutcome (signAndSubmitData bz address);
      match r with
      | Fail err => efail (Errorf "signing and submitting data" err)
      | Panic => evm_note_submission ≫= λ _, epanic
      | Ret hash =>
          now ← enow;
          evm_note_submission ≫= λ _,
          mret (Some (mkBridgeTx (Hash_String hash) now
            (Address_String (evm_signerAddress client))))
      end
  end.

(** ** Reading transactions *)

(** [client.txOnce.Do(hash, ...)]. *)
Definition evm_receipt_once (hash : string) : Ext X (option Receipt) :=
  Do (lens_compose (evm_self client) evm_tx_field) hash (TransactionReceipt (HexToHash hash)).

(** The loop over the logs of [PacketWriteAckStatus]. *)
Fixpoint write_ack_in_logs (router : Contract) (event_ID : Hash) (sequence : Z) (sourceClientID destClientID : string)
    (logs : list (option Log)) : outcome db.Ibcv2WriteAckStatus :=
  match logs with
  | [] => Fail (Sentinel ErrWriteAckNotFoundForPacket)
  | None :: logs' => write_ack_in_logs router event_ID sequence sourceClientID destClientID logs'
  | Some log :: logs' =>
      match Log_Topics log with
      | [] => write_ack_in_logs router event_ID sequence sourceClientID destClientID logs'
      | topic :: _ =>
          if negb (bool_decide (event_ID = topic))
          then write_ack_in_logs router event_ID sequence sourceClientID destClientID logs'
          else
            match ParseWriteAcknowledgement router log with
            | Fail err => Fail (Errorf "parsing write packet event from log" err)
            | Panic => Panic
            | Ret writeAck =>
                let packet := WriteAck_Packet writeAck in
                if bool_decide (Packet_Sequence packet = sequence)
                   && bool_decide (Packet_SourceClient packet = sourceClientID)
                   && bool_decide (Packet_DestClient packet = destClientID)
                then
                  if bool_decide (WriteAck_Acknowledgements writeAck = [ErrorAcknowledgement])
                  then Ret db.Ibcv2WriteAckStatusERROR
                  else Ret db.Ibcv2WriteAckStatusSUCCESS
                else write_ack_in_logs router event_ID sequence sourceClientID destClientID logs'
            end
      end
  end.

Definition evm_PacketWriteAckStatus (hash : string) (sequence : Z)
    (sourceClientID destClientID : string) : Ext X db.Ibcv2WriteAckStatus :=
  abi ← ewrap "getting ics26 router abi" (elift (GetAbi ics26_router));
  r ← eattempt (evm_receipt_once hash);
  match r with
  | inr err =>
      if is_not_found err then efail (Sentinel ErrTxNotFound)
      else efail (Errorf "getting transaction receipt" err)
  | inl receipt =>
      receipt ← ederef receipt;
      elift (write_ack_in_logs (evm_ics26Router client) (abi "WriteAcknowledgement") sequence
        sourceClientID destClientID (Receipt_Logs receipt))
  end.

(** The loop over the logs of [SendPacketsFromTx]. *)
Fixpoint send_packets_in_logs (router : Contract) (event_ID : Hash) (logs : list (option Log))
    : outcome (list PacketInfo) :=
  match logs with
  | [] => Ret []
  | None :: logs' => send_packets_in_logs router event_ID logs'
  | Some log :: logs' =>
      match Log_Topics log with
      | [] => send_packets_in_logs router event_ID logs'
      | topic :: _ =>
          if negb (bool_decide (event_ID = topic)) then send_packets_in_logs router event_ID logs'
          else
            match ParseSendPacket router log with
            | Fail err => Fail (Errorf "parsing send packet event" err)
            | Panic => Panic
            | Ret sendPacket =>
                let packet := SendPacket_Packet sendPacket in
                match send_packets_in_logs router event_ID logs' with
                | Ret packets =>
                    Ret (mkPacketInfo (Packet_Sequence packet) (Packet_SourceClient packet)
                      (Packet_DestClient packet)
                      (time_Unix (int64 (Packet_TimeoutTimestamp packet))) zero_time :: packets)
                | r => r
                end
            end
      end
  end.

(** [packet.Timestamp = t]. *)
Definition set_packet_Timestamp (t : Time) (p : PacketInfo) : PacketInfo :=
  mkPacketInfo (Sequence p) (SourceClient p) (DestinationClient p) (TimeoutTimestamp p) t.

Definition evm_SendPacketsFromTx (sourceChainID txHash : string) : Ext X (list PacketInfo) :=
  abi ← ewrap "getting contract ics26RouterABI for ics_26 router" (elift (GetAbi ics26_router));
  receipt ← ewrap "getting transaction receipt" (TransactionReceipt (HexToHash txHash));
  receipt ← ederef receipt;
  packets ← elift (send_packets_in_logs (evm_ics26Router client) (abi "SendPacket") (Receipt_Logs receipt));
  match packets with
  | [] => mret []
  | _ =>
      header ← ewrap "getting block header for height" (HeaderByNumber (Receipt_BlockNumber receipt));
      header ← ederef header;
      mret (map (set_packet_Timestamp (header_time header)) packets)
  end.

Definition evm_ShouldRetryTx (txHash : string) (expiry : Duration) (sentTs : Time) : Ext X bool :=
  r ← eattempt (evm_receipt_once txHash);
  match r with
  | inr err =>
      if is_not_found err then
        header ← ewrap "getting latest block header" (HeaderByNumber None);
        header ← ederef header;
        let headerTs := header_time header in
        let expiresAt := time_Add sentTs expiry in
        if Before expiresAt headerTs then mret true else efail (Sentinel ErrTxNotFound)
      else efail (Errorf "could not get transaction receipt for tx" err)
  | inl receipt =>
      receipt ← ederef receipt;
      mret (negb (bool_decide (Receipt_Status receipt = 1)))
  end.

(** ** Waiting and finality *)

Definition evm_WaitForChain_tick (now : Time) : Ext X (option unit) :=
  latest ← ewrap "getting latest block header" (HeaderByNumber None);
  latest ← ederef latest;
  if After (header_time latest) now then mret (Some tt)
  else
    d ← esince now;
    (if bool_decide (d > Second * 30)
     then elog Warn "latest header time is behind current time, waiting... (already been waiting for >30s)"
     else elog Debug "latest header time is behind current time, waiting...") ≫= λ _,
    mret None.

Definition evm_WaitForChain (ticks : nat) : Ext X unit :=
  now ← enow;
  eloop ticks Millisecond Second (evm_WaitForChain_tick now).

Definition evm_IsTxFinalized (txHash : string) (offset : option Z) : Ext X bool :=
  r ← eattempt (TransactionReceipt (HexToHash txHash));
  match r with
  | inr err =>
      if is_not_found err then efail (Sentinel ErrTxNotFound)
      else efail (Errorf "getting receipt for tx" err)
  | inl receipt =>
      match offset with
      | None =>
          finalizedHeader ← ewrap "getting finalized block height"
            (HeaderByNumber (Some FinalizedBlockNumber));
          receipt ← ederef receipt;
          number ← ederef (Receipt_BlockNumber receipt);
          finalizedHeader ← ederef finalizedHeader;
          mret (bool_decide (int64 number ≤ Header_Number finalizedHeader))
      | Some offset =>
          latestHeader ← ewrap "getting latest block height" (HeaderByNumber None);
          receipt ← ederef receipt;
          number ← ederef (Receipt_BlockNumber receipt);
          latestHeader ← ederef latestHeader;
          let txBlockNumber := uint64 number in
          let latestBlockNumber := uint64 (Header_Number latestHeader) in
          mret (bool_decide (txBlockNumber ≤ latestBlockNumber)
                && bool_decide (offset ≤ uint64 (latestBlockNumber - txBlockNumber)))
      end
  end.

(** [None]: not enough blocks yet. *)
Definition evm_finalized_header (offset : option Z) : Ext X (option (option Header)) :=
  match offset with
  | None =>
      header ← ewrap "getting finalized block header" (HeaderByNumber (Some FinalizedBlockNumber));
      mret (Some header)
  | Some offset =>
      latestHeader ← ewrap "getting latest block height" (HeaderByNumber None);
      latestHeader ← ederef latestHeader;
      if bool_decide (uint64 (Header_Number latestHeader) < offset) then mret None
      else
        let finalizedHeight := uint64 (uint64 (Header_Number latestHeader) - offset) in
        header ← ewrap "getting block header at height"
          (HeaderByNumber (Some (int64 finalizedHeight)));
        mret (Some header)
  end.

Definition evm_IsTimestampFinalized (timestamp : Time) (offset : option Z) : Ext X bool :=
  r ← evm_finalized_header offset;
  match r with
  | None => mret false
  | Some header =>
      header ← ederef header;
      mret (negb (Before (header_time header) timestamp))
  end.

(** ** The other methods *)

Definition evm_LatestOnChainTimestamp : Ext X Time :=
  Do (lens_compose (evm_self client) evm_time_field) "key"
    (header ← ewrap "getting latest header on chain" (HeaderByNumber None);
     header ← ederef header;
     mret (header_time header)).

Definition evm_SignerGasTokenBalance : Ext X (option Z) :=
  BalanceAt (evm_signerAddress client).

Definition evm_TxFee (txHash : string) : Ext X (option Z) :=
  receipt ← ewrap "getting transaction receipt for tx hash" (evm_receipt_once txHash);
  receipt ← ederef receipt;
  price ← ederef (Receipt_EffectiveGasPrice receipt);
  mret (Some (price * Receipt_GasUsed receipt)).

Definition evm_TimestampAtHeight (height : Z) : Ext X Time :=
  header ← ewrap "getting block header at height" (HeaderByNumber (Some (int64 height)));
  header ← ederef header;
  mret (header_time header).

Definition evm_ClientState (clientID : string) : Ext X ClientState :=
  addr ← ewrap "getting client" (Router_GetClient (evm_ics26Router client) clientID);
  if bool_decide (addr = replicate 20 0) then efail (ErrorNew "could not find client")
  else
    lightClient ← ewrap "creating new instance of sp1 ics07 tendermint contract"
      (elift (NewContract sp1_ics07_tendermint addr));
    decodedState ← ewrap "getting tendermint client state" (LightClient_ClientState lightClient);
    mret (mkClientState None (Some (mkTendermintClientState
      (int64 (lc_TrustingPeriod decodedState * Second))
      (RevisionHeight (lc_LatestHeight decodedState))))).

(** An error of the node starts the next tick before the timeout is looked
    at. *)
Definition evm_WaitForTx_tick (hash : string) (start : Time) : Ext X (option unit) :=
  r ← eattempt (TransactionReceipt (HexToHash hash));
  match r with
  | inr _ => mret None
  | inl (Some _) => mret (Some tt)
  | inl None =>
      d ← esince start;
      if bool_decide (d > Minute)
      then efail (ErrorNew "timeout after waiting 1m0s for transaction receipt")
      else mret None
  end.

Definition evm_WaitForTx (ticks : nat) (hash : string) : Ext X unit :=
  start ← enow;
  eloop ticks (Second * 3) (Second * 3) (evm_WaitForTx_tick hash start).

(** [t.Unix()]. *)
Definition Unix (t : Time) : Z := t `div` Second.

Definition evm_SendTransfer (ticks : nat) (clientID denom receiver : string) (amount : Z)
    (memo : string) : Ext X string :=
  let signerFn := EthereumSignerToBindSignerFn (evm_signer client) (evm_chainID client) in
  let opts := mkTransactOpts (evm_signerAddress client) signerFn in
  let token := HexToAddress denom in
  erc20Contract ← ewrap "creating erc20 contract for denom" (elift (NewContract erc20 token));
  currentApproval ← ewrap "getting current allowance for ics20 transfer"
    (Allowance erc20Contract (evm_signerAddress client) (evm_transferAddress client));
  currentApproval ← ederef currentApproval;
  (if bool_decide (currentApproval < amount) then
     tx ← ewrap "approving to be spent from wallet by ics20 transfer"
       (Approve erc20Contract opts (evm_transferAddress client) amount);
     ewrap "waiting for receipt of erc20 approval tx"
       (evm_WaitForTx ticks (Hash_String (EthTransaction_Hash tx)))
   else mret tt) ≫= λ _,
  now ← enow;
  let msg := mkSendTransferMsg token amount receiver clientID "transfer"
    (uint64 (Unix (time_Add now (12 * 60 * Minute)))) memo in
  tx ← ewrap "sending transfer"
    (ICS20_SendTransfer (evm_ics20Transfer client) opts msg);
  let hash := Hash_String (EthTransaction_Hash tx) in
  _ ← ewrap "waiting for receipt of send transfer tx" (evm_WaitForTx ticks hash);
  mret hash.

Definition evm_GetTransactionSender (hash : string) : Ext X string :=
  evm_txSigner (HexToHash hash).

(** ** The interface *)

(** [EVMBridgeClient] as a [BridgeClient], with contexts that are cancelled
    after [ticks] ticks at the latest. *)
Definition evm_bridge_client (ticks : nat) : BridgeClient X :=
  mkBridgeClient X evm_IsPacketReceived evm_IsPacketCommitted evm_FindRecvTx evm_FindAckTx
    evm_FindTimeoutTx evm_DeliverTx evm_PacketWriteAckStatus evm_SendPacketsFromTx
    evm_ShouldRetryTx (evm_WaitForChain ticks) evm_IsTxFinalized evm_IsTimestampFinalized
    config.ChainType_EVM evm_LatestOnChainTimestamp evm_TimestampAtHeight
    evm_SignerGasTokenBalance evm_TxFee (evm_SendTransfer ticks) evm_ClientState
    (evm_WaitForTx ticks) evm_GetTransactionSender.
End client.
