(* ===== verification/CosmosClient.v ===== *)
(** * The bridge client of Cosmos chains

    [CosmosBridgeClient] of [shared/bridges/ibcv2/cosmos_bridge_client.go], one
    definition per method. The CometBFT RPC node, the gRPC services of the
    chain are [CosmosNode]; the Cosmos SDK is [CosmosSDK]; acknowledgements and
    client states are decoded by the generated code of [PacketCodec.v]. As for EVM chains, the fields that change live in the external
    state. *)
From stdpp Require Import prelude strings list gmap pretty.
From Stdlib Require Import ZArith.
From S2P Require Import Prelude Go ProtoWire PacketCodec.
From S2P Require Import Config Db Transfer World Client Float Once Signing EvmClient.
Open Scope Z_scope.

(** ** What the node returns *)

(** [abci.Event] with its attributes, as keys and values. *)
Record Event := mkEvent {
  Event_Type : string;
  Event_Attributes : list (string * string);
}.

(** [coretypes.ResultTx]. *)
Record ResultTx := mkResultTx {
  ResultTx_Hash : bytes;
  ResultTx_Height : Z;
  ResultTx_Code : Z;
  ResultTx_Events : list Event;
  ResultTx_Tx : bytes;
}.

(** [coretypes.ResultTxSearch]. *)
Record ResultTxSearch := mkResultTxSearch {
  Search_TotalCount : Z;
  Search_Txs : list ResultTx;
}.

(** [coretypes.ResultBroadcastTx]. *)
Record ResultBroadcastTx := mkResultBroadcastTx {
  Broadcast_Code : Z;
  Broadcast_Log : string;
  Broadcast_Hash : bytes;
}.

(** [auth_types.BaseAccount]. *)
Record BaseAccount := mkBaseAccount {
  AccountNumber : Z;
  Account_Sequence : Z;
}.

(** What [txSigner] looks at in a message. *)
Inductive MsgView :=
  | MsgRecvPacket (Signer : string)
  | MsgAcknowledgement (Signer : string)
  | MsgTimeout (Signer : string)
  | OtherMsg.

(** [tm_Header] gives the time of the header, [None] for a nil header. *)
Class CosmosNode (X : Type) `{!CosmosSDK} := mkCosmosNode {
  AnyMsg : Type;
  TxSearch : string → Ext X ResultTxSearch;
  tm_Tx : bytes → Ext X (option ResultTx);
  tm_Header : option Z → Ext X (option Time);
  BroadcastTxSync : bytes → Ext X ResultBroadcastTx;
  PacketReceipt : string → Z → Ext X bool;
  PacketCommitment : string → Z → Ext X unit;
  AccountInfo : string → Ext X (option BaseAccount);
  (** [GasUsed] of [Simulate]'s gas info. *)
  Simulate : bytes → Ext X (option Z);
  Balance : string → string → Ext X (option Z);
  (** The type URL and the value of the client state. *)
  QueryClientState : string → Ext X (option (string * option bytes));
  ConvertAndEncode : string → bytes → outcome string;
  UnmarshalTxBody : bytes → outcome (list AnyMsg);
  UnpackAny : AnyMsg → outcome SdkMsg;
  MsgTypeURL : SdkMsg → string;
  MsgUpdateClient_URL : string;
  msg_view : SdkMsg → MsgView;
  GetMsgs : SdkTx → list SdkMsg;
  (** [tx.(sdk.FeeTx)] and [GetFee().AmountOf]. *)
  FeeTx : SdkTx → option (string → Z);
  UnmarshalWasmClientState : bytes → outcome WasmClientState;
  HexBytes_String : bytes → string;
}.

Definition attributeKeyPacketSourceClient : string := "packet_source_client".
Definition attributeKeyPacketDestClient : string := "packet_dest_client".
Definition attributeKeyPacketSequence : string := "packet_sequence".
Definition attributeKeyPacketTimeoutTimestamp : string := "packet_timeout_timestamp".
Definition eventTypeRecvPacket : string := "recv_packet".
Definition eventTypeAckPacket : string := "acknowledge_packet".
Definition eventTypeTimeoutPacket : string := "timeout_packet".
Definition eventTypeWriteAck : string := "write_acknowledgement".
Definition eventTypeSendPacket : string := "send_packet".

(** ** The object *)

(** The fields [DeliverTx] and the caches change. *)
Record CosmosState := mkCosmosState {
  cosmos_txOnce : OnceWithKey (option ResultTx);
  cosmos_lastSubmissionTime : Time;
  cosmos_latestTimestampOnce : OnceWithKey Time;
}.

(** The fields that are set once; [cosmos_self] is where the others are. *)
Record CosmosBridgeClient {X : Type} `{!Geth} `{!CosmosSDK} := mkCosmosBridgeClient {
  cosmos_self : Lens X CosmosState;
  cosmos_chainID : string;
  cosmos_signer : Signer X;
  cosmos_prefix : string;
  cosmos_gasPrice : config.float64;
  cosmos_feeDenom : string;
  cosmos_feeAmount : Z;
  cosmos_txConfig : TxConfig;
  cosmos_txSubmissionDelay : Duration;
}.
Arguments CosmosBridgeClient X {_ _}.
Arguments mkCosmosBridgeClient X {_ _}.

(** ** Text *)

(** [strconv.Atoi] on 64 bits. *)
Definition Atoi (s : string) : option Z :=
  match SetString s with
  | Some z => if bool_decide (- 2 ^ 63 ≤ z < 2 ^ 63) then Some z else None
  | None => None
  end.

(** [strconv.Itoa]. *)
Definition Itoa (z : Z) : string := pretty z.

Definition hex_error : error := ErrorNew "encoding/hex: invalid byte or odd length hex string".

(** [hex.DecodeString] with its error. *)
Definition hex_decode (s : string) : outcome bytes :=
  match DecodeString s with Some bz => Ret bz | None => Fail hex_error end.

(** [fmt.Sprintf("%s.%s='%s'", ...)] and [fmt.Sprintf("%s.%s=%d", ...)]. *)
Definition term_string (event key value : string) : string :=
  event +:+ "." +:+ key +:+ "='" +:+ value +:+ "'".
Definition term_int (event key : string) (value : Z) : string :=
  event +:+ "." +:+ key +:+ "=" +:+ pretty value.

(** [strings.Join(terms, " AND ")]. *)
Fixpoint join_and (terms : list string) : string :=
  match terms with
  | [] => ""
  | [t] => t
  | t :: terms' => t +:+ " AND " +:+ join_and terms'
  end.

(** The code of [status.FromError(err)]. *)
Fixpoint status_code (e : error) : option grpc_code :=
  match e with
  | StatusError c _ => Some c
  | Errorf _ e' => status_code e'
  | _ => None
  end.

Section client.
Context {X : Type} `{!Geth} `{!CosmosSDK} `{!Runtime X} `{!CosmosNode X}.

Definition with_cosmos_lastSubmissionTime (t : Time) (c : CosmosState) : CosmosState :=
  mkCosmosState (cosmos_txOnce c) t (cosmos_latestTimestampOnce c).

Definition cosmos_tx_field : Lens CosmosState (OnceWithKey (option ResultTx)) :=
  mkLens cosmos_txOnce
    (λ o c, mkCosmosState o (cosmos_lastSubmissionTime c) (cosmos_latestTimestampOnce c)).
Definition cosmos_time_field : Lens CosmosState (OnceWithKey Time) :=
  mkLens cosmos_latestTimestampOnce
    (λ o c, mkCosmosState (cosmos_txOnce c) (cosmos_lastSubmissionTime c) o).

(** The new object is put at [self]. [txConfig] stands for [tx.NewTxConfig] on
    the registry of [init]. *)
Definition NewCosmosBridgeClient (self : Lens X CosmosState) (chainID : string)
    (signer : Signer X) (prefix : string) (gasPrice : config.float64) (feeDenom : string)
    (feeAmount : Z) (txConfig : TxConfig) : Ext X (CosmosBridgeClient X) :=
  eset self (mkCosmosState (NewOnceWithKey Minute (5 * Second)) zero_time
    (NewOnceWithKey (6 * Second) (200 * Millisecond))) ≫= λ _,
  mret (mkCosmosBridgeClient X self chainID signer prefix gasPrice feeDenom feeAmount txConfig
    (8 * Second)).

Context (client : CosmosBridgeClient X).

(** ** Packets *)

Definition cosmos_IsPacketReceived (destinationClientID : string) (sequence : Z) : Ext X bool :=
  ewrap "querying for packet receipt" (PacketReceipt destinationClientID sequence).

Definition cosmos_IsPacketCommitted (sourceClientID : string) (sequence : Z) : Ext X bool :=
  r ← eattempt (PacketCommitment sourceClientID sequence);
  match r with
  | inl _ => mret true
  | inr err =>
      if bool_decide (status_code err = Some NotFound) then mret false
      else efail (Errorf "querying for packet commitment" err)
  end.

(** The loop of [txSigner]. *)
Fixpoint signer_of_msgs (msgs : list SdkMsg) : outcome string :=
  match msgs with
  | [] => Fail (ErrorNew "expected recv packet, ack packet, or timeout packet msg but found none")
  | msg :: msgs' =>
      match msg_view msg with
      | MsgRecvPacket s | MsgAcknowledgement s | MsgTimeout s => Ret s
      | OtherMsg => signer_of_msgs msgs'
      end
  end.

Definition cosmos_txSigner (result : ResultTx) : Ext X string :=
  decoded ← ewrap "decoding tx result"
    (elift (TxDecoder (cosmos_txConfig client) (ResultTx_Tx result)));
  elift (signer_of_msgs (GetMsgs decoded)).

(** The signer of a transaction that was found, left empty when it cannot be
    determined. *)
Definition cosmos_signer_or_empty (result : ResultTx) (msg : string) : Ext X string :=
  r ← eattempt (cosmos_txSigner result);
  match r with
  | inl signer => mret signer
  | inr _ => elog Error msg ≫= λ _, mret ""
  end.

Definition cosmos_FindRecvTx (sourceClientID destClientID : string) (sequence : Z)
    (timeoutTimestamp : Time) : Ext X (option BridgeTx) :=
  let query := join_and [
    term_string eventTypeRecvPacket attributeKeyPacketSourceClient sourceClientID;
    term_string eventTypeRecvPacket attributeKeyPacketDestClient destClientID;
    term_int eventTypeRecvPacket attributeKeyPacketSequence sequence;
    term_int eventTypeRecvPacket attributeKeyPacketTimeoutTimestamp (Unix timeoutTimestamp)] in
  searchResult ← ewrap "searching for recv tx" (TxSearch query);
  if bool_decide (Search_TotalCount searchResult = 0) then efail (Sentinel ErrTxNotFound)
  else if negb (bool_decide (Search_TotalCount searchResult = 1))
  then efail (ErrorNew "expected only 1 tx")
  else
    recvTx ← ederef (head (Search_Txs searchResult));
    header ← ewrap "fetching block header at recv tx height"
      (tm_Header (Some (ResultTx_Height recvTx)));
    match header with
    | None => efail (ErrorNew "fetched block header at recv tx height without err but header was nil")
    | Some t =>
        signer ← cosmos_signer_or_empty recvTx
          "found recv tx but could not determine the tx's signer, ignoring error and continuing";
        mret (Some (mkBridgeTx (HexBytes_String (ResultTx_Hash recvTx)) t signer))
    end.

Definition cosmos_FindAckTx (sourceClientID destClientID : string) (sequence : Z)
    : Ext X (option BridgeTx) :=
  let query := join_and [
    term_string eventTypeAckPacket attributeKeyPacketSourceClient sourceClientID;
    term_string eventTypeAckPacket attributeKeyPacketDestClient destClientID;
    term_int eventTypeAckPacket attributeKeyPacketSequence sequence] in
  searchResult ← ewrap "searching for ack tx" (TxSearch query);
  if bool_decide (Search_TotalCount searchResult = 0) then efail (Sentinel ErrTxNotFound)
  else if negb (bool_decide (Search_TotalCount searchResult = 1))
  then efail (ErrorNew "expected only 1 tx")
  else
    ackTx ← ederef (head (Search_Txs searchResult));
    header ← ewrap "fetching block header at ack tx height"
      (tm_Header (Some (ResultTx_Height ackTx)));
    match header with
    | None => efail (ErrorNew "fetched block header at ack tx height without err but header was nil")
    | Some t =>
        signer ← cosmos_signer_or_empty ackTx
          "found ack tx but could not determine the tx's signer, ignoring error and continuing";
        mret (Some (mkBridgeTx (HexBytes_String (ResultTx_Hash ackTx)) t signer))
    end.

Definition cosmos_FindTimeoutTx (sourceClientID destClientID : string) (sequence : Z)
    : Ext X (option BridgeTx) :=
  let query := join_and [
    term_string eventTypeTimeoutPacket attributeKeyPacketSourceClient sourceClientID;
    term_string eventTypeTimeoutPacket attributeKeyPacketDestClient destClientID;
    term_int eventTypeTimeoutPacket attributeKeyPacketSequence sequence] in
  searchResult ← ewrap "searching for timeout tx" (TxSearch query);
  if bool_decide (Search_TotalCount searchResult = 0) then efail (Sentinel ErrTxNotFound)
  else if negb (bool_decide (Search_TotalCount searchResult = 1))
  then efail (ErrorNew "expected only 1 tx")
  else
    timeoutTx ← ederef (head (Search_Txs searchResult));
    header ← ewrap "fetching block header at timeout tx height"
      (tm_Header (Some (ResultTx_Height timeoutTx)));
    match header with
    | None =>
        efail (ErrorNew "fetched block header at timeout tx height without err but header was nil")
    | Some t =>
        signer ← cosmos_signer_or_empty timeoutTx
          "found timeout tx but could not determine the tx's signer, ignoring error and continuing";
        mret (Some (mkBridgeTx (HexBytes_String (ResultTx_Hash timeoutTx)) t signer))
    end.

(** ** Submitting transactions *)

(** The signer's address in bech32. The address is asked for again to print
    the error. *)
Definition bech32_address : Ext X string :=
  address ← signer_Address (cosmos_signer client);
  match ConvertAndEncode (cosmos_prefix client) address with
  | Ret s => mret s
  | Panic => epanic
  | Fail err =>
      _ ← signer_Address (cosmos_signer client);
      efail (Errorf "converting and encoding signer address to bech32" err)
  end.

(** [getTxFee]: a coin of the fee denom. *)
Definition getTxFee (gasLimit : Z) : outcome (string * Z) :=
  if bool_decide (cosmos_feeDenom client = "") then Fail (ErrorNew "fee denom not set for chain")
  else if float_positive (cosmos_gasPrice client) && bool_decide (0 < cosmos_feeAmount client)
  then Fail (ErrorNew "gas price and fee amount cannot both be set for chain")
  else if float_positive (cosmos_gasPrice client) then
    match mul_to_int 64 (int64 gasLimit) (cosmos_gasPrice client) with
    | Ret (Some feeAmount) => Ret (cosmos_feeDenom client, feeAmount + 1)
    | Ret None => Panic
    | Fail e => Fail e
    | Panic => Panic
    end
  else if bool_decide (0 < cosmos_feeAmount client)
  then Ret (cosmos_feeDenom client, cosmos_feeAmount client)
  else Ret (cosmos_feeDenom client, 0).

(** The [Tx] of a signed transaction, asserted to be a Cosmos one. *)
Definition signed_tx (tx : Transaction) : Ext X SdkTx :=
  match tx with CosmosTx t => mret (ct_Tx t) | _ => epanic end.

Definition getEstimatedGasLimit (txBuilder : TxBuilder)
    (accountInfo : BaseAccount) : Ext X Z :=
  let unsignedTx := NewCosmosTransaction (GetTx txBuilder) (AccountNumber accountInfo)
    (Account_Sequence accountInfo) (cosmos_txConfig client) in
  signedTx ← ewrap "signing tx"
    (Sign (cosmos_signer client) (cosmos_chainID client) (CosmosTx unsignedTx));
  tx ← signed_tx signedTx;
  signedTxBytes ← ewrap "encoding signed tx" (elift (TxEncoder (cosmos_txConfig client) tx));
  res ← ewrap "simulating tx to get estimated gas usage" (Simulate signedTxBytes);
  match res with
  | None => efail (ErrorNew "got nil gas info after simulating tx")
  | Some gasUsed => mret (ceil_three_halves gasUsed)
  end.

Definition signAndSubmitMessages (msgs : list SdkMsg) : Ext X bytes :=
  bech32Address ← bech32_address;
  account ← ewrap "getting account info for cosmos signer" (AccountInfo bech32Address);
  match account with
  | None => efail (ErrorNew "got no info for cosmos signer account")
  | Some accountInfo =>
      txBuilder ← ewrap "setting message in tx"
        (elift (SetMsgs msgs (NewTxBuilder (cosmos_txConfig client))));
      gasLimit ← ewrap "getting estimated gas limit for tx"
        (getEstimatedGasLimit txBuilder accountInfo);
      let txBuilder := SetGasLimit gasLimit txBuilder in
      txBuilder ←
        (if bool_decide (cosmos_feeDenom client = "") then mret txBuilder
         else
           fee ← ewrap "getting tx fee" (elift (getTxFee gasLimit));
           mret (SetFeeAmount [fee] txBuilder));
      let unsignedTx := NewCosmosTransaction (GetTx txBuilder) (AccountNumber accountInfo)
        (Account_Sequence accountInfo) (cosmos_txConfig client) in
      signedTx ← ewrap "signing tx"
        (Sign (cosmos_signer client) (cosmos_chainID client) (CosmosTx unsignedTx));
      tx ← signed_tx signedTx;
      signedTxBytes ← ewrap "encoding signed tx" (elift (TxEncoder (cosmos_txConfig client) tx));
      result ← ewrap "broadcasting tx synchronously from signer" (BroadcastTxSync signedTxBytes);
      if bool_decide (Broadcast_Code result = 0) then mret (Broadcast_Hash result)
      else efail (ErrorNew "broadcasting cosmos tx from signer returned error code")
  end.

Definition is_update_client (msg : SdkMsg) : bool :=
  bool_decide (MsgTypeURL msg = MsgUpdateClient_URL).

(** Unpacking the messages of the transaction body. *)
Fixpoint unpack_msgs (msgs : list AnyMsg) : outcome (list SdkMsg) :=
  match msgs with
  | [] => Ret []
  | msg :: msgs' =>
      match UnpackAny msg with
      | Fail err => Fail (Errorf "unpacking msg into sdk.Msg" err)
      | Panic => Panic
      | Ret sdkMsg =>
          match unpack_msgs msgs' with
          | Ret rest => Ret (sdkMsg :: rest)
          | r => r
          end
      end
  end.

(** The loop that submits client updates one by one and collects the other
    messages. *)
Fixpoint submit_updates (msgs : list SdkMsg) : Ext X (list SdkMsg) :=
  match msgs with
  | [] => mret []
  | msg :: msgs' =>
      if negb (is_update_client msg) then
        rest ← submit_updates msgs';
        mret (msg :: rest)
      else
        _ ← ewrap "submitting individual update client message" (signAndSubmitMessages [msg]);
        elog Info "submitted individual client update, sleeping to submit next tx" ≫= λ _,
        esleep (cosmos_txSubmissionDelay client) ≫= λ _,
        submit_updates msgs'
  end.

Definition signAndSubmit (bz : bytes) : Ext X bytes :=
  messages ← ewrap "unmarshaling tx bytes" (elift (UnmarshalTxBody bz));
  match messages with
  | [] => efail (ErrorNew "no messages to relay")
  | _ =>
      msgs ← elift (unpack_msgs messages);
      msgs ←
        (if bool_decide (1 < length (filter (λ m, is_update_client m) msgs))%nat then
           elog Warn "found several update client messages tx, submitting them on chain individually"
             ≫= λ _,
           rest ← submit_updates msgs;
           elog Info "submitted all individual client updates" ≫= λ _,
           mret rest
         else mret msgs);
      signAndSubmitMessages msgs
  end.

(** The deferred function of [DeliverTx] when its [err] is nil. *)
Definition cosmos_note_submission : Ext X unit :=
  t ← enow;
  state ← eget (cosmos_self client);
  eset (cosmos_self client) (with_cosmos_lastSubmissionTime t state).

Definition cosmos_DeliverTx (bz : bytes) (_address : string) : Ext X (option BridgeTx) :=
  state ← eget (cosmos_self client);
  d ← euntil (time_Add (cosmos_lastSubmissionTime state) (cosmos_txSubmissionDelay client));
  w ← eattempt (ewait d);
  match w with
  | inr err => cosmos_note_submission ≫= λ _, efail err
  | inl _ =>
      r ← eoutcome
        (bech32Address ← bech32_address;
         hash ← ewrap "signing and submitting recv tx" (signAndSubmit bz);
         mret (bech32Address, hash));
      match r with
      | Fail err => efail err
      | Panic => cosmos_note_submission ≫= λ _, epanic
      | Ret (bech32Address, hash) =>
          now ← enow;
          cosmos_note_submission ≫= λ _,
          mret (Some (mkBridgeTx (HexBytes_String hash) now bech32Address))
      end
  end.

(** ** Reading transactions *)

(** [client.txOnce.Do(hash, ...)]. *)
Definition cosmos_tx_once (hash : string) (hashBytes : bytes) : Ext X (option ResultTx) :=
  Do (lens_compose (cosmos_self client) cosmos_tx_field) hash (tm_Tx hashBytes).

(** Some attribute with the key has the value. *)
Definition attribute_matches (key value : string) (e : Event) : bool :=
  existsb (λ '(k, v), bool_decide (k = key) && bool_decide (v = value)) (Event_Attributes e).

Fixpoint ack_status_of_attributes (attributes : list (string * string))
    : outcome db.Ibcv2WriteAckStatus :=
  match attributes with
  | [] => Ret db.Ibcv2WriteAckStatusUNKNOWN
  | (key, value) :: attributes' =>
      if negb (bool_decide (key = "encoded_acknowledgement_hex"))
      then ack_status_of_attributes attributes'
      else
        match hex_decode value with
        | Fail err => Fail (Errorf2 "" (Sentinel ErrWriteAckDecoding) err)
        | Panic => Panic
        | Ret protoAckBytes =>
            match proto_Unmarshal (T := channel.Acknowledgement) protoAckBytes with
            | Fail err => Fail (Errorf2 "" (Sentinel ErrWriteAckDecoding) err)
            | Panic => Panic
            | Ret ack =>
                if bool_decide (channel.AppAcknowledgements ack = [ErrorAcknowledgement])
                then Ret db.Ibcv2WriteAckStatusERROR
                else Ret db.Ibcv2WriteAckStatusSUCCESS
            end
        end
  end.

Definition parseWriteAckStatusForPacket (writeAckEvent : Event)
    : outcome db.Ibcv2WriteAckStatus :=
  ack_status_of_attributes (Event_Attributes writeAckEvent).

(** The loop over the events of [PacketWriteAckStatus]. *)
Fixpoint write_ack_in_events (sequence : Z) (sourceClientID destClientID : string)
    (events : list Event) : outcome db.Ibcv2WriteAckStatus :=
  match events with
  | [] => Fail (Sentinel ErrWriteAckNotFoundForPacket)
  | event :: events' =>
      if negb (bool_decide (Event_Type event = eventTypeWriteAck))
      then write_ack_in_events sequence sourceClientID destClientID events'
      else if attribute_matches attributeKeyPacketSequence (Itoa (int64 sequence)) event
           && attribute_matches attributeKeyPacketSourceClient sourceClientID event
           && attribute_matches attributeKeyPacketDestClient destClientID event
      then parseWriteAckStatusForPacket event
      else write_ack_in_events sequence sourceClientID destClientID events'
  end.

Definition cosmos_PacketWriteAckStatus (hash : string) (sequence : Z)
    (sourceClientID destClientID : string) : Ext X db.Ibcv2WriteAckStatus :=
  hashBytes ← ewrap "hex decoding tx hash string" (elift (hex_decode hash));
  r ← eattempt (cosmos_tx_once hash hashBytes);
  match r with
  | inr err =>
      if is_not_found err then efail (Sentinel ErrTxNotFound)
      else efail (Errorf "getting tx's result" err)
  | inl txResult =>
      txResult ← ederef txResult;
      elift (write_ack_in_events sequence sourceClientID destClientID (ResultTx_Events txResult))
  end.

(** One attribute of a [send_packet] event. *)
Definition set_attribute (packet : PacketInfo) (attribute : string * string)
    : outcome PacketInfo :=
  let '(key, value) := attribute in
  if bool_decide (key = attributeKeyPacketSequence) then
    match Atoi value with
    | None => Fail (ErrorNew "converting packet sequence to int")
    | Some sequence => Ret (mkPacketInfo (uint64 sequence) (SourceClient packet)
        (DestinationClient packet) (TimeoutTimestamp packet) (PacketInfo_Timestamp packet))
    end
  else if bool_decide (key = attributeKeyPacketSourceClient) then
    Ret (mkPacketInfo (Sequence packet) value (DestinationClient packet)
      (TimeoutTimestamp packet) (PacketInfo_Timestamp packet))
  else if bool_decide (key = attributeKeyPacketDestClient) then
    Ret (mkPacketInfo (Sequence packet) (SourceClient packet) value
      (TimeoutTimestamp packet) (PacketInfo_Timestamp packet))
  else if bool_decide (key = attributeKeyPacketTimeoutTimestamp) then
    match Atoi value with
    | None => Fail (ErrorNew "converting attribute timeout ts to int")
    | Some unixts => Ret (mkPacketInfo (Sequence packet) (SourceClient packet)
        (DestinationClient packet) (time_Unix unixts) (PacketInfo_Timestamp packet))
    end
  else Ret packet.

Fixpoint packet_of_attributes (packet : PacketInfo) (attributes : list (string * string))
    : outcome PacketInfo :=
  match attributes with
  | [] => Ret packet
  | attribute :: attributes' =>
      match set_attribute packet attribute with
      | Ret packet' => packet_of_attributes packet' attributes'
      | r => r
      end
  end.

(** [var packet PacketInfo]. *)
Definition zero_packet : PacketInfo := mkPacketInfo 0 "" "" zero_time zero_time.

(** The loop over the events of [SendPacketsFromTx]. *)
Fixpoint send_packets_in_events (events : list Event) : outcome (list PacketInfo) :=
  match events with
  | [] => Ret []
  | event :: events' =>
      if negb (bool_decide (Event_Type event = eventTypeSendPacket))
      then send_packets_in_events events'
      else
        match packet_of_attributes zero_packet (Event_Attributes event) with
        | Fail e => Fail e
        | Panic => Panic
        | Ret packet =>
            if bool_decide (SourceClient packet = "") || bool_decide (DestinationClient packet = "")
            then send_packets_in_events events'
            else
              match send_packets_in_events events' with
              | Ret packets => Ret (packet :: packets)
              | r => r
              end
        end
  end.

Definition cosmos_SendPacketsFromTx (sourceChainID txHash : string) : Ext X (list PacketInfo) :=
  hashBytes ← ewrap "hex decoding tx hash" (elift (hex_decode txHash));
  txResult ← ewrap "getting tx result" (tm_Tx hashBytes);
  txResult ← ederef txResult;
  packets ← elift (send_packets_in_events (ResultTx_Events txResult));
  match packets with
  | [] => mret []
  | _ =>
      header ← ewrap "getting header for height" (tm_Header (Some (ResultTx_Height txResult)));
      match header with
      | None => efail (ErrorNew "got nil header")
      | Some t => mret (map (set_packet_Timestamp t) packets)
      end
  end.

Definition cosmos_ShouldRetryTx (txHash : string) (expiry : Duration) (sentTs : Time)
    : Ext X bool :=
  txHashBytes ← ewrap "decoding hex tx hash to bytes" (elift (hex_decode txHash));
  r ← eattempt (cosmos_tx_once txHash txHashBytes);
  match r with
  | inr err =>
      if is_not_found err then
        latestHeader ← ewrap "getting latest block header" (tm_Header None);
        match latestHeader with
        | None =>
            efail (ErrorNew "fetched block header at latest height without err but header was nil")
        | Some headerTs =>
            let expiresAt := time_Add sentTs expiry in
            if Before expiresAt headerTs then mret true else efail (Sentinel ErrTxNotFound)
        end
      else efail (Errorf "fetching tx on chain" err)
  | inl resp =>
      resp ← ederef resp;
      mret (negb (bool_decide (ResultTx_Code resp = 0)))
  end.

(** ** Waiting and finality *)

Definition cosmos_WaitForChain_tick (now : Time) : Ext X (option unit) :=
  latest ← ewrap "getting latest block header" (tm_Header None);
  match latest with
  | None => efail (ErrorNew "latest header was nil")
  | Some t =>
      if After t now then mret (Some tt)
      else
        d ← esince now;
        (if bool_decide (d > Second * 30)
         then elog Warn "latest header time is behind current time, waiting... (already been waiting for >30s)"
         else elog Debug "latest header time is behind current time, waiting...") ≫= λ _,
        mret None
  end.

Definition cosmos_WaitForChain (ticks : nat) : Ext X unit :=
  now ← enow;
  eloop ticks Millisecond Second (cosmos_WaitForChain_tick now).

Definition cosmos_IsTxFinalized (txHash : string) (offset : option Z) : Ext X bool := mret true.

Definition cosmos_IsTimestampFinalized (timestamp : Time) (offset : option Z) : Ext X bool :=
  header ← ewrap "getting latest header" (tm_Header None);
  match header with
  | None => efail (ErrorNew "got nil header when fetching latest header")
  | Some t => mret (After t timestamp)
  end.

(** ** The other methods *)

Definition cosmos_LatestOnChainTimestamp : Ext X Time :=
  Do (lens_compose (cosmos_self client) cosmos_time_field) "key"
    (header ← ewrap "getting latest header" (tm_Header None);
     match header with
     | None => efail (ErrorNew "got nil header when fetching latest header")
     | Some t => mret t
     end).

Definition cosmos_SignerGasTokenBalance : Ext X (option Z) :=
  bech32Address ← bech32_address;
  balance ← ewrap "getting balance for signer" (Balance bech32Address (cosmos_feeDenom client));
  match balance with
  | None => efail (ErrorNew "got nil balance for signer")
  | Some amount => mret (Some amount)
  end.

(** [fee == sdk_math.ZeroInt()] compares two pointers to distinct integers, so
    it is false also for a zero fee. *)
Definition is_ZeroInt (fee : Z) : bool := false.

Definition cosmos_TxFee (txHash : string) : Ext X (option Z) :=
  hashBytes ← ewrap "hex decoding tx hash string" (elift (hex_decode txHash));
  result ← ewrap "getting results for ts hash" (cosmos_tx_once txHash hashBytes);
  result ← ederef result;
  tx ← ewrap "decoding tx result"
    (elift (TxDecoder (cosmos_txConfig client) (ResultTx_Tx result)));
  match FeeTx tx with
  | None => efail (ErrorNew "could not convert decoded tx to sdk.FeeTx")
  | Some amount_of =>
      let fee := amount_of (cosmos_feeDenom client) in
      if is_ZeroInt fee then efail (ErrorNew "zero fee amount found for denom in tx result auth info")
      else mret (Some fee)
  end.

(** [panic("unimplemented")]. *)
Definition cosmos_SendTransfer (clientID denom receiver : string) (amount : Z) (memo : string)
    : Ext X string := epanic.

Definition cosmos_TimestampAtHeight (height : Z) : Ext X Time :=
  header ← ewrap "fetching block header at height" (tm_Header (Some (int64 height)));
  match header with
  | None => efail (ErrorNew "fetched block header at height without err but header was nil")
  | Some t => mret t
  end.

Definition cosmos_ClientState (clientID : string) : Ext X ClientState :=
  state ← ewrap "querying for state of client" (QueryClientState clientID);
  match state with
  | None => efail (ErrorNew "got nil client state")
  | Some (_, None) => efail (ErrorNew "got nil client state value")
  | Some (typeURL, Some value) =>
      if bool_decide (typeURL = "/ibc.lightclients.wasm.v1.ClientState") then
        fullstate ← ewrap "proto decoding full wasm client state"
          (elift (proto_Unmarshal (T := wasm.ClientState) value));
        wasm ← ewrap "json decoding wasm client state data"
          (elift (UnmarshalWasmClientState (wasm.Data fullstate)));
        mret (mkClientState (Some wasm) None)
      else efail (ErrorNew "unsupported client state type url")
  end.

Definition cosmos_WaitForTx_tick (hashBytes : bytes) (start : Time) : Ext X (option unit) :=
  r ← eattempt (tm_Tx hashBytes);
  match r with
  | inr err =>
      if is_not_found err then mret None else efail (Errorf "getting tx result" err)
  | inl (Some _) => mret (Some tt)
  | inl None =>
      d ← esince start;
      if bool_decide (d > Minute)
      then efail (ErrorNew "timeout after waiting 1m0s for transaction result")
      else mret None
  end.

Definition cosmos_WaitForTx (ticks : nat) (hash : string) : Ext X unit :=
  hashBytes ← ewrap "hex decoding tx hash string" (elift (hex_decode hash));
  start ← enow;
  eloop ticks (Second * 3) (Second * 3) (cosmos_WaitForTx_tick hashBytes start).

Definition cosmos_GetTransactionSender (hash : string) : Ext X string :=
  efail (ErrorNew "GetTransactionSender not implemented").

(** ** The interface *)

(** [CosmosBridgeClient] as a [BridgeClient], with contexts that are cancelled
    after [ticks] ticks at the latest. *)
Definition cosmos_bridge_client (ticks : nat) : BridgeClient X :=
  mkBridgeClient X cosmos_IsPacketReceived cosmos_IsPacketCommitted cosmos_FindRecvTx
    cosmos_FindAckTx cosmos_FindTimeoutTx cosmos_DeliverTx cosmos_PacketWriteAckStatus
    cosmos_SendPacketsFromTx cosmos_ShouldRetryTx (cosmos_WaitForChain ticks)
    cosmos_IsTxFinalized cosmos_IsTimestampFinalized config.ChainType_COSMOS
    cosmos_LatestOnChainTimestamp cosmos_TimestampAtHeight cosmos_SignerGasTokenBalance
    cosmos_TxFee cosmos_SendTransfer cosmos_ClientState (cosmos_WaitForTx ticks)
    cosmos_GetTransactionSender.
End client.
