(* ===== verification/ClientLaws.v ===== *)
(** * What the bridge clients promise

    [RetryContract] is what [ShouldRetryTx] promises to the retry processors, as
    an abstract specification over a lookup of transactions and a clock of the
    chain; both clients implement it. The rest are the lemmas about the
    clients' own code: commitment paths, loops on a ticker, submissions, fees. *)
From stdpp Require Import prelude strings list gmap.
From Stdlib Require Import ZArith.
From S2P Require Import Prelude Go ProtoWire PacketCodec Config Db Transfer World Client Float Once OnceLaws Signing.
From S2P Require Import Bindings EvmClient CosmosClient.
Open Scope Z_scope.

(** ** The objects of the clients *)

#[global] Instance evm_tx_field_laws : LensLaws evm_tx_field.
Proof. by split; intros; destruct x. Qed.
#[global] Instance evm_time_field_laws : LensLaws evm_time_field.
Proof. by split; intros; destruct x. Qed.
#[global] Instance cosmos_tx_field_laws : LensLaws cosmos_tx_field.
Proof. by split; intros; destruct x. Qed.
#[global] Instance cosmos_time_field_laws : LensLaws cosmos_time_field.
Proof. by split; intros; destruct x. Qed.

(** Equal programs, call by call. *)
Lemma ebind_ext {X A B} (m : Ext X A) (k k' : A → Ext X B) x :
  (∀ a x', m x = (Ret a, x') → k a x' = k' a x') → (m ≫= k) x = (m ≫= k') x.
Proof. unfold mbind, Ext_bind. destruct (m x) as [[]?]; eauto. Qed.

Lemma ebind_assoc {X A B C} (m : Ext X A) (k : A → Ext X B) (k' : B → Ext X C) x :
  ((m ≫= k) ≫= k') x = (m ≫= λ a, k a ≫= k') x.
Proof. unfold mbind, Ext_bind. by destruct (m x) as [[]?]. Qed.

(** ** Retrying *)

(** What a chain says of a transaction; [TxUnknown] when it could not be
    asked. *)
Inductive tx_status :=
  | TxSucceeded
  | TxFailed
  | TxMissing
  | TxUnknown (e : error).

(** The decision, for a transaction sent at [sentTs]: retry what failed and what
    is missing after [expiry] of the chain's own time. *)
Definition retry_decision {X} (lookup : Ext X tx_status) (chain_time : Ext X Time)
    (expiry : Duration) (sentTs : Time) : Ext X bool :=
  s ← lookup;
  match s with
  | TxSucceeded => mret false
  | TxFailed => mret true
  | TxUnknown e => efail e
  | TxMissing =>
      t ← chain_time;
      if Before (time_Add sentTs expiry) t then mret true else efail (Sentinel ErrTxNotFound)
  end.

Class RetryContract {X : Type} (c : BridgeClient X) := mkRetryContract {
  rc_lookup : string → Ext X tx_status;
  rc_time : Ext X Time;
  rc_decides txHash expiry sentTs x :
    ShouldRetryTx c txHash expiry sentTs x =
    retry_decision (rc_lookup txHash) rc_time expiry sentTs x;
}.

Section contract.
Context {X : Type} (c : BridgeClient X) `{!RetryContract c}.

(** A retry is due only for a transaction that failed or expired. *)
Lemma retry_due txHash expiry sentTs x x' :
  ShouldRetryTx c txHash expiry sentTs x = (Ret true, x') →
  ∃ s x1, rc_lookup txHash x = (Ret s, x1) ∧
    (s = TxFailed ∨
     s = TxMissing ∧ ∃ t, rc_time x1 = (Ret t, x') ∧ time_Add sentTs expiry < t).
Proof.
  rewrite rc_decides. intros (s & x1 & Hs & H)%ebind_inv. exists s, x1. split; [done|].
  destruct s; [done|by left| |done]. right. split; [done|].
  apply ebind_inv in H as (t & x2 & Ht & H). exists t.
  unfold Before, mret, Ext_ret, efail in H. case_bool_decide; simplify_eq. done.
Qed.

(** A transaction that succeeded is left alone. *)
Lemma retry_succeeded txHash expiry sentTs x x1 :
  rc_lookup txHash x = (Ret TxSucceeded, x1) →
  ShouldRetryTx c txHash expiry sentTs x = (Ret false, x1).
Proof.
  intros H. rewrite rc_decides. unfold retry_decision. by erewrite ebind_Ret by done.
Qed.
End contract.

Section evm.
Context {X : Type} `{!Geth} `{!CosmosSDK} `{!Runtime X} `{!EVMNode X}.
Context (client : EVMBridgeClient X).

Definition evm_lookup (txHash : string) : Ext X tx_status :=
  r ← eattempt (evm_receipt_once client txHash);
  match r with
  | inr err =>
      mret (if is_not_found err then TxMissing
            else TxUnknown (Errorf "could not get transaction receipt for tx" err))
  | inl receipt =>
      receipt ← ederef receipt;
      mret (if bool_decide (Receipt_Status receipt = 1) then TxSucceeded else TxFailed)
  end.

Definition evm_chain_time : Ext X Time :=
  header ← ewrap "getting latest block header" (HeaderByNumber None);
  header ← ederef header;
  mret (header_time header).

Lemma evm_retry_decides txHash expiry sentTs x :
  evm_ShouldRetryTx client txHash expiry sentTs x =
  retry_decision (evm_lookup txHash) evm_chain_time expiry sentTs x.
Proof.
  unfold evm_ShouldRetryTx, retry_decision, evm_lookup, evm_chain_time. rewrite ebind_assoc.
  apply ebind_ext. intros [[receipt|]|err] x1 _; simpl.
  - unfold mbind, Ext_bind, mret, Ext_ret. by case_bool_decide.
  - done.
  - destruct (is_not_found err); [|done].
    unfold mbind, Ext_bind, mret, Ext_ret, ewrap, ederef, epanic, efail.
    destruct (HeaderByNumber None x1) as [[[h|]|e|] x2]; done.
Qed.

#[global] Instance evm_RetryContract ticks : RetryContract (evm_bridge_client client ticks) :=
  mkRetryContract X (evm_bridge_client client ticks) evm_lookup evm_chain_time evm_retry_decides.
End evm.

Section cosmos.
Context {X : Type} `{!Geth} `{!CosmosSDK} `{!Runtime X} `{!CosmosNode X}.
Context (client : CosmosBridgeClient X).

Definition cosmos_lookup (txHash : string) : Ext X tx_status :=
  match hex_decode txHash with
  | Fail err => mret (TxUnknown (Errorf "decoding hex tx hash to bytes" err))
  | Panic => epanic
  | Ret txHashBytes =>
      r ← eattempt (cosmos_tx_once client txHash txHashBytes);
      match r with
      | inr err =>
          mret (if is_not_found err then TxMissing
                else TxUnknown (Errorf "fetching tx on chain" err))
      | inl resp =>
          resp ← ederef resp;
          mret (if bool_decide (ResultTx_Code resp = 0) then TxSucceeded else TxFailed)
      end
  end.

Definition cosmos_chain_time : Ext X Time :=
  latestHeader ← ewrap "getting latest block header" (tm_Header None);
  match latestHeader with
  | None => efail (ErrorNew "fetched block header at latest height without err but header was nil")
  | Some headerTs => mret headerTs
  end.

Lemma cosmos_retry_decides txHash expiry sentTs x :
  cosmos_ShouldRetryTx client txHash expiry sentTs x =
  retry_decision (cosmos_lookup txHash) cosmos_chain_time expiry sentTs x.
Proof.
  unfold cosmos_ShouldRetryTx, retry_decision, cosmos_lookup, cosmos_chain_time.
  destruct (hex_decode txHash) as [bz|e|]; [|done..]. rewrite ebind_assoc.
  erewrite ebind_Ret by done.
  apply ebind_ext. intros [[resp|]|err] x1 _; simpl.
  - unfold mbind, Ext_bind, mret, Ext_ret. by case_bool_decide.
  - done.
  - destruct (is_not_found err); [|done].
    unfold mbind, Ext_bind, mret, Ext_ret, ewrap, efail.
    destruct (tm_Header None x1) as [[[h|]|e|] x2]; done.
Qed.

#[global] Instance cosmos_RetryContract ticks : RetryContract (cosmos_bridge_client client ticks) :=
  mkRetryContract X (cosmos_bridge_client client ticks) cosmos_lookup cosmos_chain_time cosmos_retry_decides.
End cosmos.

(** ** Commitment paths *)

(** Reading a big-endian number back. *)
Fixpoint of_big_endian (acc : Z) (bz : bytes) : Z :=
  match bz with
  | [] => acc
  | b :: bz' => of_big_endian (acc * 2 ^ 8 + b) bz'
  end.

Lemma length_big_endian n z : length (big_endian n z) = n.
Proof. induction n; simpl; auto. Qed.

Lemma big_endian_acc n : ∀ z acc,
  of_big_endian acc (big_endian n z) = acc * 2 ^ (8 * Z.of_nat n) + z mod 2 ^ (8 * Z.of_nat n).
Proof.
  induction n as [|n IH]; intros z acc.
  - simpl. rewrite Z.mod_1_r. lia.
  - cbn [big_endian of_big_endian]. rewrite IH, Z.shiftr_div_pow2 by lia.
    set (k := 8 * Z.of_nat n).
    replace (8 * Z.of_nat (S n)) with (k + 8) by (unfold k; lia).
    rewrite Z.pow_add_r by (unfold k; lia).
    assert (0 < 2 ^ k) by (apply Z.pow_pos_nonneg; unfold k; lia).
    rewrite (Z.rem_mul_r z (2 ^ k) (2 ^ 8)) by lia. lia.
Qed.

Lemma Uint64ToBigEndian_roundtrip s :
  is_uint64 s → of_big_endian 0 (Uint64ToBigEndian s) = s.
Proof.
  intros Hs. unfold Uint64ToBigEndian. rewrite big_endian_acc.
  rewrite Z.mul_0_l, Z.add_0_l. apply Z.mod_small, Hs.
Qed.

Definition path (clientID : string) (kind sequence : Z) : bytes :=
  bytes_of_string clientID ++ [kind] ++ Uint64ToBigEndian sequence.

Lemma commitment_path_eq clientID kind sequence :
  commitment_path clientID kind sequence = Ret (path clientID kind sequence).
Proof. unfold commitment_path, path. cbn [encodePacked]. by rewrite app_nil_r. Qed.

(** The last nine bytes of a path are the kind and the sequence, the others the
    client. *)
Lemma path_inj c c' k k' s s' :
  is_uint64 s → is_uint64 s' → path c k s = path c' k' s' → c = c' ∧ k = k' ∧ s = s'.
Proof.
  intros Hs Hs' H. unfold path in H. apply app_inj_2 in H as [Hc H]; [|by simpl].
  simplify_eq/=. apply bytes_of_string_inj in Hc as ->. split_and!; [done..|].
  rewrite <- (Uint64ToBigEndian_roundtrip s), <- (Uint64ToBigEndian_roundtrip s') by done.
  unfold Uint64ToBigEndian. cbn [big_endian]. congruence.
Qed.

(** ** Loops on a ticker *)

Section loops.
Context {X A : Type} `{!Runtime X}.

(** A loop whose every tick either returns or lowers a rank returns, and the
    number of ticks allowed after that does not matter. *)
Lemma eloop_rank (body : Ext X (option A)) (a : A) (P : X → Prop) (rank : X → nat) d0 d1 :
  (∀ d y, d = d0 ∨ d = d1 → P y → ∃ y1, rt_wait d y = (None, y1) ∧
    ∃ y2, body y1 = (Ret (Some a), y2) ∨
          (body y1 = (Ret None, y2) ∧ P y2 ∧ (rank y2 < rank y)%nat)) →
  ∀ n x d, d = d0 ∨ d = d1 → P x → (rank x < n)%nat →
  ∃ x', ∀ ticks, (rank x < ticks)%nat → eloop ticks d d1 body x = (Ret a, x').
Proof.
  intros Hstep. induction n as [|n IH]; intros x d Hd HP Hn; [lia|].
  destruct (Hstep d x Hd HP) as (x1 & Hw & x2 & [Hb|(Hb & HP' & Hr)]).
  - exists x2. intros [|ticks] Ht; [lia|]. by rewrite (eloop_step _ _ _ _ _ x1), Hb.
  - destruct (IH x2 d1) as [x' Hx']; [by right|done|lia|]. exists x'. intros [|ticks] Ht; [lia|].
    rewrite (eloop_step _ _ _ _ _ x1), Hb by done. apply Hx'. lia.
Qed.

(** A loop none of whose ticks returns is ended by its context alone. *)
Lemma eloop_stuck (body : Ext X (option A)) :
  (∀ d y, ∃ y1 y2, rt_wait d y = (None, y1) ∧ body y1 = (Ret None, y2)) →
  ∀ ticks d d' x, (eloop ticks d d' body x).1 = Fail (Sentinel ContextCanceled).
Proof.
  intros Hstep. induction ticks as [|n IH]; intros d d' x; [done|].
  destruct (Hstep d x) as (x1 & x2 & Hw & Hb). by rewrite (eloop_step _ _ _ _ _ x1), Hb.
Qed.
End loops.

(** ** The clock *)

(** Readings of the clock do not go back and a timer does not fire early. *)
Class Clock {X} `{!Runtime X} (clock : X → Time) : Prop := mkClock {
  clock_Now x : clock x ≤ read1 x ≤ clock (after1 x);
  clock_wait d x x' : rt_wait d x = (None, x') → clock x + d ≤ clock x';
}.

Lemma euntil_bound `{Clock X clock} t x :
  t - clock x ≤ 2 ^ 63 - 1 →
  ∃ d, euntil t x = (Ret d, after1 x) ∧ t ≤ clock (after1 x) + d.
Proof.
  intros Ht. pose proof (clock_Now x). exists (time_Sub t (read1 x)). split.
  - unfold euntil. by erewrite ebind_Ret by apply enow_run.
  - unfold time_Sub. lia.
Qed.

(** ** Write acknowledgements on EVM chains *)

Section write_ack.
Context {X : Type} `{!Geth} `{!EVMNode X} (router : Contract).
Implicit Types (log : Log) (ack : ContractWriteAcknowledgement).

(** [log] is the event [id]. *)
Definition is_event (id : Hash) (l : option Log) : bool :=
  match l with
  | Some log => match Log_Topics log with [] => false | topic :: _ => bool_decide (id = topic) end
  | None => false
  end.

(** [ack] acknowledges the packet. *)
Definition acks_packet (sequence : Z) (source dest : string) ack : bool :=
  let packet := WriteAck_Packet ack in
  bool_decide (Packet_Sequence packet = sequence)
  && bool_decide (Packet_SourceClient packet = source)
  && bool_decide (Packet_DestClient packet = dest).

Definition ack_status ack : db.Ibcv2WriteAckStatus :=
  if bool_decide (WriteAck_Acknowledgements ack = [ErrorAcknowledgement])
  then db.Ibcv2WriteAckStatusERROR else db.Ibcv2WriteAckStatusSUCCESS.

(** A log the loop passes over. *)
Definition passed (id : Hash) (sequence : Z) (source dest : string) (l : option Log) : Prop :=
  is_event id l = true →
  ∃ log ack, l = Some log ∧ ParseWriteAcknowledgement router log = Ret ack ∧
    acks_packet sequence source dest ack = false.

(** One turn of the loop. *)
Lemma write_ack_turn id s a b l logs :
  write_ack_in_logs router id s a b (l :: logs) =
    if is_event id l then
      match l with
      | None => write_ack_in_logs router id s a b logs
      | Some log =>
          match ParseWriteAcknowledgement router log with
          | Fail err => Fail (Errorf "parsing write packet event from log" err)
          | Panic => Panic
          | Ret ack =>
              if acks_packet s a b ack then Ret (ack_status ack)
              else write_ack_in_logs router id s a b logs
          end
      end
    else write_ack_in_logs router id s a b logs.
Proof.
  destruct l as [log|]; [|done]. simpl. destruct (Log_Topics log) as [|topic ts]; [done|].
  case_bool_decide; simpl; [|done]. destruct (ParseWriteAcknowledgement router log); [|done..].
  unfold acks_packet, ack_status. destruct (_ && _); [|done]. by case_bool_decide.
Qed.

Lemma write_ack_passed id s a b logs logs' :
  Forall (passed id s a b) logs →
  write_ack_in_logs router id s a b (logs ++ logs') = write_ack_in_logs router id s a b logs'.
Proof.
  induction 1 as [|l logs Hl _ IH]; [done|]. cbn [app]. rewrite write_ack_turn.
  destruct (is_event id l) eqn:E; [|done]. destruct (Hl E) as (log & ack & -> & -> & ->). done.
Qed.

(** The status is that of the first acknowledgement of the packet. *)
Lemma write_ack_first id s a b logs st :
  write_ack_in_logs router id s a b logs = Ret st ↔
  ∃ pre log ack post, logs = pre ++ Some log :: post ∧ Forall (passed id s a b) pre ∧
    is_event id (Some log) = true ∧ ParseWriteAcknowledgement router log = Ret ack ∧
    acks_packet s a b ack = true ∧ st = ack_status ack.
Proof.
  split.
  - induction logs as [|l logs IH]; [done|]. rewrite write_ack_turn.
    destruct (is_event id l) eqn:E.
    + destruct l as [log|]; [|done].
      destruct (ParseWriteAcknowledgement router log) as [ack| |] eqn:Hp; [|done..].
      destruct (acks_packet s a b ack) eqn:Ha.
      * intros [= <-]. by exists [], log, ack, logs.
      * intros (pre & log' & ack' & post & -> & Hpre & ?)%IH.
        exists (Some log :: pre), log', ack', post. split; [done|]. split; [|done].
        constructor; [|done]. intros _. eauto.
    + intros (pre & log' & ack' & post & -> & Hpre & ?)%IH.
      exists (l :: pre), log', ack', post. split; [done|]. split; [|done].
      constructor; [|done]. intros ?. congruence.
  - intros (pre & log & ack & post & -> & Hpre & He & Hp & Ha & ->).
    rewrite write_ack_passed, write_ack_turn by done. by rewrite He, Hp, Ha.
Qed.
End write_ack.

(** ** Submissions on Cosmos chains *)

Section submit.
Context {X : Type} `{!Geth} `{!CosmosSDK} `{!Runtime X} `{!CosmosNode X}.
Context (client : CosmosBridgeClient X).
Implicit Types msgs : list SdkMsg.

(** Logging and sleeping. *)
Inductive pause : X → X → Prop :=
  | pause_refl x : pause x x
  | pause_log l m x y : pause (rt_Log l m x) y → pause x y
  | pause_sleep d x y : pause (rt_Sleep d x) y → pause x y.

(** Batches of messages submitted one after the other; the hash is that of the
    last transaction. *)
Inductive submitted : list (list SdkMsg) → bytes → X → X → Prop :=
  | submitted_last b h x y x' :
      pause x y → signAndSubmitMessages client b y = (Ret h, x') → submitted [b] h x x'
  | submitted_more b h1 bs h x y x1 x' :
      pause x y → signAndSubmitMessages client b y = (Ret h1, x1) → submitted bs h x1 x' →
      submitted (b :: bs) h x x'.

Definition updates msgs : list SdkMsg := filter (λ m, is_update_client m) msgs.
Definition others msgs : list SdkMsg := filter (λ m, ¬ is_update_client m) msgs.

(** The batches of a transaction body. *)
Definition batches msgs : list (list SdkMsg) :=
  if bool_decide (1 < length (updates msgs))%nat
  then map (λ u, [u]) (updates msgs) ++ [others msgs] else [msgs].

Lemma submitted_pause x y bs h x' : pause x y → submitted bs h y x' → submitted bs h x x'.
Proof.
  assert (Htrans : ∀ x y z, pause x y → pause y z → pause x z).
  { induction 1; intros; [done|by eapply pause_log; auto|by eapply pause_sleep; auto]. }
  intros Hxy Hs. destruct Hs as [b h y z x' Hp Hb|b h1 bs h y z x1 x' Hp Hb Hs].
  - eapply submitted_last; [by eapply Htrans|done].
  - eapply submitted_more; [by eapply Htrans|done..].
Qed.

Lemma submit_updates_run msgs : ∀ x rest x' h b x2,
  submit_updates client msgs x = (Ret rest, x') → submitted [b] h x' x2 →
  rest = others msgs ∧ submitted (map (λ u, [u]) (updates msgs) ++ [b]) h x x2.
Proof.
  induction msgs as [|m msgs IH]; intros x rest x' h b x2 Hs Hl; simpl in Hs.
  { unfold mret, Ext_ret in Hs. by simplify_eq. }
  unfold others, updates. rewrite !filter_cons.
  destruct (is_update_client m) eqn:Hm; simpl in Hs.
  - apply ebind_inv in Hs as (h1 & x1 & Hs1%ewrap_Ret & Hs).
    apply ebind_inv in Hs as ([] & x3 & Hlog & Hs). apply ebind_inv in Hs as ([] & x4 & Hsl & Hs).
    unfold elog in Hlog. unfold esleep in Hsl. simplify_eq.
    destruct (IH _ _ _ _ _ _ Hs Hl) as [-> Hr]. rewrite decide_False by (intros []; done).
    split; [done|]. rewrite decide_True by done. cbn [map app].
    eapply submitted_more; [apply pause_refl|done|].
    eapply submitted_pause; [|exact Hr]. eapply pause_log, pause_sleep, pause_refl.
  - apply ebind_inv in Hs as (rest' & x1 & Hs & Hr). unfold mret, Ext_ret in Hr. simplify_eq.
    destruct (IH _ _ _ _ _ _ Hs Hl) as [-> Hr]. rewrite decide_True by (intros []; done).
    split; [done|]. by rewrite decide_False by (intros []; done).
Qed.

Lemma signAndSubmit_run bz x h x' :
  signAndSubmit client bz x = (Ret h, x') →
  ∃ anys msgs, UnmarshalTxBody bz = Ret anys ∧ unpack_msgs anys = Ret msgs ∧
    submitted (batches msgs) h x x'.
Proof.
  intros Hsub. apply ebind_inv in Hsub as (anys & x1 & Ha%ewrap_Ret & Hsub).
  unfold elift in Ha. injection Ha as Ha <-.
  assert (∃ msgs, unpack_msgs anys = Ret msgs ∧ submitted (batches msgs) h x x') as (msgs & ? & ?);
    [|by eauto 10].
  destruct anys as [|any anys']; [done|]. revert Hsub. set (anys := any :: anys'). intros Hsub.
  apply ebind_inv in Hsub as (msgs & x2 & Hm & Hsub). unfold elift in Hm. injection Hm as Hm <-.
  exists msgs. split; [done|]. apply ebind_inv in Hsub as (rest & x3 & Hr & Hsub).
  unfold batches. fold (updates msgs) in Hr.
  case_bool_decide as Hn.
  - apply ebind_inv in Hr as ([] & x4 & Hlog & Hr). apply ebind_inv in Hr as (rest' & x5 & Hu & Hr).
    apply ebind_inv in Hr as ([] & x6 & Hlog' & Hr). unfold elog, mret, Ext_ret in *. simplify_eq.
    eapply submit_updates_run in Hu as [-> Hs].
    2:{ eapply submitted_last; [eapply pause_log, pause_refl|exact Hsub]. }
    eapply submitted_pause; [eapply pause_log, pause_refl|exact Hs].
  - unfold mret, Ext_ret in Hr. simplify_eq. eapply submitted_last; [apply pause_refl|done].
Qed.

Lemma batches_perm msgs : concat (batches msgs) ≡ₚ msgs.
Proof.
  unfold batches. case_bool_decide; simpl; [|by rewrite app_nil_r].
  rewrite concat_app. simpl. rewrite app_nil_r.
  assert (∀ l : list SdkMsg, concat (map (λ u, [u]) l) = l) as ->
    by (induction l; simpl; congruence).
  unfold updates, others. clear. induction msgs as [|m msgs IH]; [done|].
  rewrite !filter_cons. destruct (is_update_client m) eqn:Hm.
  - rewrite decide_True by done. rewrite decide_False by (intros []; done). simpl. by rewrite IH.
  - rewrite decide_False by (intros []; done). rewrite decide_True by (intros []; done).
    by rewrite <- Permutation_middle, IH.
Qed.

Lemma batches_small msgs : Forall (λ b, (length (updates b) ≤ 1)%nat) (batches msgs).
Proof.
  unfold batches. case_bool_decide; [|constructor; [lia|constructor]].
  apply Forall_app. split.
  - apply Forall_map, Forall_forall. intros u _. unfold updates. rewrite filter_cons.
    case_decide; simpl; lia.
  - constructor; [|constructor]. unfold updates, others.
    rewrite list_filter_filter. cut (length (filter (λ m, is_update_client m ∧ ¬ is_update_client m) msgs) = 0)%nat;
      [lia|].
    clear. induction msgs as [|m msgs IH]; [done|]. rewrite filter_cons, decide_False; [done|tauto].
Qed.
End submit.

(** ** Fees, packets and acknowledgements on Cosmos chains *)

(** The product of a positive float and an amount of gas is below an integer:
    [gas * m * 2 ^ e < fee]. *)
Definition product_below (gas m e fee : Z) : Prop :=
  if 0 <=? e then gas * m * 2 ^ e < fee else gas * m < fee * 2 ^ (- e).

Lemma mul_to_int_covers gas f m e :
  float64_class f = FFinite m e → 0 < m → 0 ≤ gas →
  (if 0 <=? e then gas * m < 2 ^ 64 else gas * m < 2 ^ 64 * 2 ^ (- e)) →
  ∃ y, mul_to_int 64 gas f = Ret (Some y) ∧ 0 ≤ y ∧ product_below gas m e (y + 1).
Proof.
  intros Hf Hm Hg Hb. unfold mul_to_int. rewrite Hf. eexists. split; [done|].
  unfold product_below, truncate. destruct (Z.eq_dec gas 0) as [->|Hg0].
  { change (round 64 (0 * m)) with 0. case_match; [lia|].
    assert (0 < 2 ^ (- e)) by (apply Z.pow_pos_nonneg; lia). rewrite Z.quot_0_l by lia. lia. }
  unfold round. rewrite Z.sgn_pos, Z.abs_eq, Z.mul_1_l by nia. set (p := gas * m) in *.
  assert (0 < p) by nia.
  destruct (Z.leb_spec 0 e) as [He|He].
  - rewrite round_magnitude_small by lia.
    assert (0 < 2 ^ e) by (apply Z.pow_pos_nonneg; lia). nia.
  - set (k := 2 ^ (- e)) in *. assert (Hk : 0 < k) by (apply Z.pow_pos_nonneg; lia).
    assert (Hq : p / k * k ≤ round_magnitude 64 p).
    { unfold k. apply round_magnitude_above; [lia..| | |lia].
      - split; [apply Z.div_pos; lia|]. apply Z.div_lt_upper_bound; [lia|]. fold k. lia.
      - fold k. pose proof (Z.mul_div_le p k). lia. }
    rewrite Z.quot_div_nonneg by (pose proof (Z.div_pos p k); nia).
    assert (p / k ≤ round_magnitude 64 p / k) by (apply Z.div_le_lower_bound; lia).
    pose proof (Z.div_pos p k). pose proof (Z.mul_succ_div_gt p k). nia.
Qed.

Section cosmos_events.
Context {X : Type} `{!CosmosSDK} `{!CosmosNode X}.

(** A packet as the API takes it. *)
Definition packet_typed (p : PacketInfo) : Prop :=
  is_uint64 (Sequence p) ∧ SourceClient p ≠ "" ∧ DestinationClient p ≠ "".

(** The time of a block put into all packets of a transaction. *)
Lemma stamped_typed t (P : PacketInfo → Prop) packets :
  (∀ p, P p → P (set_packet_Timestamp t p)) → Forall P packets →
  Forall P (map (set_packet_Timestamp t) packets) ∧
  ∃ t', Forall (λ p, PacketInfo_Timestamp p = t') (map (set_packet_Timestamp t) packets).
Proof.
  intros HP Hps. split.
  - apply Forall_map. eapply Forall_impl; [exact Hps|exact HP].
  - exists t. by apply Forall_map, Forall_forall.
Qed.

Lemma set_attribute_typed p kv p' :
  is_uint64 (Sequence p) → set_attribute p kv = Ret p' → is_uint64 (Sequence p').
Proof.
  destruct kv as [key value]. unfold set_attribute. intros Hp.
  repeat case_bool_decide; repeat (destruct (Atoi value); [|done]); intros; simplify_eq/=;
    auto using uint64_range.
Qed.

Lemma packet_of_attributes_typed attrs : ∀ p p',
  is_uint64 (Sequence p) → packet_of_attributes p attrs = Ret p' → is_uint64 (Sequence p').
Proof.
  induction attrs as [|kv attrs IH]; simpl; intros p p' Hp He; simplify_eq; [done|].
  destruct (set_attribute p kv) eqn:Hs; [|done..]. eauto using set_attribute_typed.
Qed.

Lemma send_packets_typed events : ∀ packets,
  send_packets_in_events events = Ret packets → Forall packet_typed packets.
Proof.
  induction events as [|e events IH]; simpl; intros packets He; simplify_eq; [constructor|].
  case_bool_decide; simpl in He; [|auto].
  destruct (packet_of_attributes zero_packet (Event_Attributes e)) as [p| |] eqn:Hp; [|done..].
  apply packet_of_attributes_typed in Hp; [|unfold is_uint64; simpl; lia].
  destruct (bool_decide (SourceClient p = "") || bool_decide (DestinationClient p = "")) eqn:Hc;
    [auto|].
  apply orb_false_iff in Hc as [?%bool_decide_eq_false ?%bool_decide_eq_false].
  destruct (send_packets_in_events events); simplify_eq. constructor; [done|auto].
Qed.

Lemma send_logs_typed `{!Geth} `{!EVMNode X} router event_ID logs :
  (∀ log ev, ParseSendPacket router log = Ret ev →
     is_uint64 (Packet_Sequence (SendPacket_Packet ev))) → ∀ packets,
  send_packets_in_logs router event_ID logs = Ret packets → Forall (λ p, is_uint64 (Sequence p)) packets.
Proof.
  intros Hparse. induction logs as [|[log|] logs IH]; simpl; intros packets Hl; simplify_eq;
    [constructor| |auto].
  destruct (Log_Topics log) as [|topic topics]; [auto|].
  case_bool_decide; simpl in Hl; [|auto].
  destruct (ParseSendPacket router log) as [p| |] eqn:Hp; [|done..].
  destruct (send_packets_in_logs router event_ID logs); simplify_eq. constructor; [|auto].
  by eapply Hparse.
Qed.

(** The event that acknowledges the packet. *)
Definition is_write_ack (sequence : Z) (source dest : string) (e : Event) : bool :=
  bool_decide (Event_Type e = eventTypeWriteAck)
  && (attribute_matches attributeKeyPacketSequence (Itoa (int64 sequence)) e
      && attribute_matches attributeKeyPacketSourceClient source e
      && attribute_matches attributeKeyPacketDestClient dest e).

Lemma write_ack_in_events_find s a b events :
  write_ack_in_events s a b events =
    match List.find (is_write_ack s a b) events with
    | Some e => parseWriteAckStatusForPacket e
    | None => Fail (Sentinel ErrWriteAckNotFoundForPacket)
    end.
Proof.
  induction events as [|e events IH]; simpl; [done|]. unfold is_write_ack at 1.
  case_bool_decide; simpl; [|done]. by destruct (_ && _).
Qed.

(** ** Acknowledgements in events *)

(** The first attribute with the key. *)
Definition first_attribute (key : string) (attributes : list (string * string)) : option string :=
  snd <$> List.find (λ '(k, _), bool_decide (k = key)) attributes.

(** The status of a list of app acknowledgements. *)
Definition status_of_acks (acks : list bytes) : db.Ibcv2WriteAckStatus :=
  if bool_decide (acks = [ErrorAcknowledgement])
  then db.Ibcv2WriteAckStatusERROR else db.Ibcv2WriteAckStatusSUCCESS.

Lemma parse_ack_first e value bz :
  first_attribute "encoded_acknowledgement_hex" (Event_Attributes e) = Some value →
  hex_decode value = Ret bz →
  parseWriteAckStatusForPacket e =
    match proto_Unmarshal (T := channel.Acknowledgement) bz with
    | Ret ack => Ret (status_of_acks (channel.AppAcknowledgements ack))
    | Fail err => Fail (Errorf2 "" (Sentinel ErrWriteAckDecoding) err)
    | Panic => Panic
    end.
Proof.
  intros Hf Hh. unfold parseWriteAckStatusForPacket, status_of_acks.
  destruct e as [ty attrs]. simpl in *. unfold first_attribute in Hf.
  induction attrs as [|[k v] attrs IH]; [done|]. simpl in *.
  destruct (bool_decide (k = "encoded_acknowledgement_hex")); simpl in *; [|by apply IH].
  injection Hf as ->. rewrite Hh. destruct (proto_Unmarshal (T := channel.Acknowledgement) bz) as [ack| |]; try done.
  by case_bool_decide.
Qed.
End cosmos_events.

(** Hexadecimal, as chains write it into events. *)
Definition hex_char (d : Z) : Ascii.ascii :=
  Ascii.ascii_of_nat (Z.to_nat (if d <? 10 then d + 48 else d + 87)).

Fixpoint hex_string (bs : bytes) : string :=
  match bs with
  | [] => EmptyString
  | b :: bs' => String (hex_char (b / 16)) (String (hex_char (b mod 16)) (hex_string bs'))
  end.

Lemma hex_digit_char d : 0 ≤ d < 16 → hex_digit (hex_char d) = Some d.
Proof.
  intros Hd. assert (d ∈ seqZ 0 16) as Hin by (apply elem_of_seqZ; lia).
  clear Hd. revert d Hin. apply (Forall_forall (λ d, hex_digit (hex_char d) = Some d)).
  repeat constructor.
Qed.

Lemma hex_decode_string bs : Forall is_byte bs → hex_decode (hex_string bs) = Ret bs.
Proof.
  intros Hb. unfold hex_decode. assert (DecodeString (hex_string bs) = Some bs) as ->; [|done].
  induction Hb as [|b bs Hb _ IH]; [done|]. unfold is_byte in Hb. cbn [hex_string DecodeString].
  rewrite !hex_digit_char, IH by (Z.div_mod_to_equations; lia). do 2 f_equal.
  Z.div_mod_to_equations. lia.
Qed.
