(* ===== verification/ClientDemo.v ===== *)
(** * A concrete run time for the clients

    A clock, the state of one client of each kind, a log, and nodes that answer
    from tables. Blocks come every twelve seconds. The clients run in it; the
    theorems about them are applied to it. *)
From stdpp Require Import prelude strings list gmap.
From Stdlib Require Import ZArith.
From S2P Require Import Prelude Go Config Db Transfer World Client Float Once OnceLaws Signing.
From S2P Require Import Bindings EvmClient CosmosClient ClientLaws.
Open Scope Z_scope.

Module sim.

Record Sim := mkSim {
  clock : Time;
  evm_state : EVMState;
  cosmos_state : CosmosState;
  log : list (level * string);
}.

Definition set_clock (t : Time) (x : Sim) : Sim := mkSim t (evm_state x) (cosmos_state x) (log x).

#[global] Instance runtime : Runtime Sim :=
  mkRuntime Sim
    (λ x, (clock x, set_clock (clock x + 1) x))
    (λ d x, set_clock (clock x + Z.max 0 d) x)
    (λ d x, (None, set_clock (clock x + Z.max 0 d) x))
    (λ l m x, mkSim (clock x) (evm_state x) (cosmos_state x) (log x ++ [(l, m)])).

Definition evm_lens : Lens Sim EVMState :=
  mkLens evm_state (λ s x, mkSim (clock x) s (cosmos_state x) (log x)).
Definition cosmos_lens : Lens Sim CosmosState :=
  mkLens cosmos_state (λ s x, mkSim (clock x) (evm_state x) s (log x)).

#[global] Instance evm_lens_laws : LensLaws evm_lens.
Proof. by split; intros; destruct x. Qed.
#[global] Instance cosmos_lens_laws : LensLaws cosmos_lens.
Proof. by split; intros; destruct x. Qed.
#[global] Instance evm_keeps : RuntimeKeeps evm_lens.
Proof. by split. Qed.
#[global] Instance cosmos_keeps : RuntimeKeeps cosmos_lens.
Proof. by split. Qed.
#[global] Instance sim_clock : Clock clock.
Proof. split; [intros x; unfold read1, after1; simpl; lia|]. intros d x x' [= <-]. simpl. lia. Qed.

(** A field of an object of the simulation. *)
#[global] Instance compose_keeps {T} (m : Lens EVMState T) : RuntimeKeeps (lens_compose evm_lens m).
Proof. by split. Qed.
#[global] Instance compose_keeps' {T} (m : Lens CosmosState T) :
  RuntimeKeeps (lens_compose cosmos_lens m).
Proof. by split. Qed.

(** ** Libraries *)

Definition address1 : Address := replicate 20 1.

#[global] Instance geth : Geth :=
  mkGeth DynamicFeeTx unit (λ t, t) Data (λ t, Ret (Data t)) (λ _, Ret "{}")
    (λ t _ _, Ret t) (λ _ t, Ret (Data t)) (λ _ t _, Ret t) (λ _ _, Ret [])
    (λ _ _, Ret address1) (λ _, address1) (λ _, Ret address1) (λ _, Ret tt)
    bytes_of_string (λ _, "0xhash") bytes_of_string (λ _, "0x01") (λ bz, bz) (-3).

(** A transaction is its messages with their gas limit; a message is a text. *)
Definition sdk_tx : Type := list string * Z.

#[global] Instance sdk : CosmosSDK :=
  mkCosmosSDK sdk_tx string sdk_tx unit unit
    (λ _, ([], 0)) (λ _ t, Ret t) (λ _, 1) (λ _ _, Ret [7]) (λ _ _, Ret (["recv"], 0))
    (λ _ _, Ret "{}") (λ m b, Ret (m, b.2)) (λ g b, (b.1, g)) (λ _ b, b) (λ _ b, Ret b)
    (λ b, b) (λ _ _ _ _, Ret []) (λ _ d _ _ _ s, Ret (mkSignatureV2 [] 1 None s))
    (λ _, []) (λ _, Ret (replicate 20 1)) (λ _, Ret tt) tt.

(** ** Nodes *)

Definition ret {A} (a : A) : Ext Sim A := λ x, (Ret a, x).

(** The block of an instant: one every twelve seconds. *)
Definition block_header (t : Time) (base_fee : option Z) : Header :=
  let n := t / Second / 12 in mkHeader n (12 * n) base_fee.

(** The answers to the calls of the contracts, and the conversion of them. *)
Definition answer (md : MetaData) (method : string) : list interface :=
  match md with
  | ics26_router =>
      if bool_decide (method = "getClient") then [Any GoAddress address1]
      else if bool_decide (method = "getCommitment") then [Any GoBytes32 unwritten] else []
  | erc20 => if bool_decide (method = "allowance") then [Any GoBigInt (Some 5)] else []
  | sp1_ics07_tendermint =>
      if bool_decide (method = "clientState") then
        [Any GoString "cosmos"; AnyStruct [Any GoUint8 1; Any GoUint8 3];
         AnyStruct [Any GoUint64 0; Any GoUint64 7];
         Any GoUint32 100; Any GoUint32 200; Any GoBool false; Any GoUint8 0]
      else []
  | ics20_transfer => []
  end.

Definition convert (t : go_type) (v : interface) : outcome (go_value t) :=
  match t, v with
  | GoTrustThreshold, AnyStruct [Any GoUint8 n; Any GoUint8 d] => Ret (mkTrustThreshold n d)
  | GoHeight, AnyStruct [Any GoUint64 n; Any GoUint64 h] => Ret (mkClientHeight n h)
  | GoString, Any GoString s => Ret s
  | GoBytes32, Any GoBytes32 h => Ret h
  | GoAddress, Any GoAddress a => Ret a
  | GoBigInt, Any GoBigInt z => Ret z
  | GoUint32, Any GoUint32 z => Ret z
  | GoUint64, Any GoUint64 z => Ret z
  | GoUint8, Any GoUint8 z => Ret z
  | GoBool, Any GoBool b => Ret b
  | _, _ => Panic
  end.

Definition demo_packet : IICS26RouterMsgsPacket := mkRouterPacket 4 "a" "b" 100 [].

Definition demo_event (e : event_type) (l : Log) : event_struct e :=
  match e with
  | SendPacket => mkContractSendPacket [] (Some 4) demo_packet l
  | WriteAcknowledgement => mkContractWriteAcknowledgement [] (Some 4) demo_packet [Log_Data l] l
  | AckPacket => mkContractAckPacket [] (Some 4) demo_packet [] l
  | TimeoutPacket => mkContractTimeoutPacket [] (Some 4) demo_packet l
  end.

Definition demo_contract (md : MetaData) : Contract :=
  let bound := mkBoundContract address1 md in mkContract bound bound bound.

Section evm.
Context (receipt : Hash → outcome (option Receipt)) (base_fee : option Z) (logs : list Log).

Definition latest (x : Sim) : Header := block_header (clock x) base_fee.

Instance evm_node : EVMNode Sim :=
  mkEVMNode Sim _
    (λ n x, (Ret (Some match n with
                       | Some z => if z <? 0 then mkHeader 1 12 base_fee
                                   else mkHeader z (12 * z) base_fee
                       | None => latest x end), x))
    (λ h x, (receipt h, x))
    (λ h x, (Fail (ErrorNew "not found"), x))
    (λ _, ret (Some 1000))
    (ret 3)
    (λ _, ret [1])
    (λ _ _ _, ret 21000)
    (λ _, ret 0)
    (λ _, ret tt)
    (λ _ _, ret logs)
    (λ h _ _, Ret [[h]])
    (λ _, Ret bytes_of_string)
    (λ c method _, ret (answer (bc_abi c) method))
    (λ _ _ _ _, ret (mkDynamicFeeTx address1 0 None None 0 []))
    (λ e _ _ l, (demo_event e l, None))
    (λ _ _ _, ret (map ALog logs ++ [AnErr None]))
    (λ _ _ _, ret (map ALog logs))
    convert.
End evm.

Definition evm_client : EVMBridgeClient Sim :=
  mkEVMBridgeClient Sim evm_lens "1" (demo_contract ics26_router) address1
    (demo_contract ics20_transfer) address1 (NewLocalEthereumSigner tt) address1
    (2 * Second) None None.

Section cosmos.
Context (tx : bytes → outcome (option ResultTx)) (body : list string).

Instance cosmos_node : CosmosNode Sim :=
  mkCosmosNode Sim _ string
    (λ _, ret (mkResultTxSearch 0 []))
    (λ h x, (tx h, x))
    (λ _ x, (Ret (Some (clock x)), x))
    (λ _, ret (mkResultBroadcastTx 0 "" [9]))
    (λ _ _, ret true)
    (λ _ _, ret tt)
    (λ _, ret (Some (mkBaseAccount 1 2)))
    (λ _, ret (Some 100))
    (λ _ _, ret (Some 5))
    (λ _, ret (Some ("/ibc.lightclients.wasm.v1.ClientState", Some [10; 1; 7; 26; 0])))
    (λ _ _, Ret "cosmos1")
    (λ _, Ret body)
    Ret
    (λ m, m)
    "update"
    (λ m, if bool_decide (m = "recv") then MsgRecvPacket "cosmos1" else OtherMsg)
    fst
    (λ _, Some (λ _, 0))
    (λ _, Ret (mkWasmClientState 3))
    (λ _, "AB").
End cosmos.

(** 0.025 in IEEE 754. *)
Definition price_0_025 : config.float64 := config.mkfloat64 4582862980812216730.

Definition cosmos_client : CosmosBridgeClient Sim :=
  mkCosmosBridgeClient Sim cosmos_lens "cosmos-1" (NewLocalCosmosSigner tt) "cosmos" price_0_025
    "uatom" 0 tt (8 * Second).

(** One hundred seconds after the epoch, with objects as they are made. *)
Definition start : Sim :=
  mkSim (100 * Second)
    (mkEVMState zero_time (NewOnceWithKey Minute (5 * Second))
      (NewOnceWithKey (12 * Second) (200 * Millisecond)))
    (mkCosmosState (NewOnceWithKey Minute (5 * Second)) zero_time
      (NewOnceWithKey (6 * Second) (200 * Millisecond)))
    [].
End sim.
