(* ===== verification/ClientSpecs.v ===== *)
(** * The bridge clients, as claims

    What the pipeline may rely on when its chains are reached through
    [EVMBridgeClient] and [CosmosBridgeClient], with each theorem applied to
    the concrete run time of [ClientDemo.v]. *)
From stdpp Require Import prelude strings list gmap.
From Stdlib Require Import ZArith.
From S2P Require Import Prelude Go ProtoWire PacketCodec.
From S2P Require Import Config Db Transfer World Wp TransferMetrics Processors Client.
From S2P Require Import Float Once OnceLaws Signing Bindings EvmClient CosmosClient ClientLaws ClientDemo.
From S2P Require Import Demo.
Open Scope Z_scope.

(** ** Retrying *)

Section retry.
Context {X : Type} `{!Geth} `{!CosmosSDK} `{!Runtime X} `{!EVMNode X} `{!CosmosNode X}.

(** C28: both clients refine one abstract decision for [ShouldRetryTx]: retry
    what the chain says failed, retry what it does not know after [expiry] of
    its own time, and otherwise say that the transaction may still come. *)
Theorem ShouldRetryTx_refines (evm : EVMBridgeClient X) (cosmos : CosmosBridgeClient X) ticks
    txHash expiry sentTs x :
  ShouldRetryTx (evm_bridge_client evm ticks) txHash expiry sentTs x =
    retry_decision (evm_lookup evm txHash) evm_chain_time expiry sentTs x ∧
  ShouldRetryTx (cosmos_bridge_client cosmos ticks) txHash expiry sentTs x =
    retry_decision (cosmos_lookup cosmos txHash) cosmos_chain_time expiry sentTs x.
Proof. split; [apply evm_retry_decides|apply cosmos_retry_decides]. Qed.
End retry.

(** When a transaction sent at [sentTs] is due for a retry. *)
Definition retry_is_due {X} (c : BridgeClient X) `{!RetryContract c} (txHash : string)
    (expiry : Duration) (sentTs : Time) (x : X) : Prop :=
  ∃ s x1, rc_lookup txHash x = (Ret s, x1) ∧
    (s = TxFailed ∨
     s = TxMissing ∧ ∃ t x2, rc_time x1 = (Ret t, x2) ∧ time_Add sentTs expiry < t).

Section processors.
Context {X : Type} {E : Env X}.

Lemma retry_true_due (c : BridgeClient X) `{!RetryContract c} txHash expiry sentTs x x' :
  ShouldRetryTx c txHash expiry sentTs x = (Ret true, x') → retry_is_due c txHash expiry sentTs x.
Proof.
  intros Hx. destruct (retry_due c _ _ _ _ _ Hx) as (s & x1 & Hs & [->|(-> & t & ? & ?)]);
    eexists _, x1; naive_solver.
Qed.

(** The part the three retry processors share: without a retry the database is
    not touched. *)
Lemma retry_check (c : BridgeClient X) `{!RetryContract c} msg hash expiry time (l : loc)
    (k : bool → M X loc) x d h mt lg :
  k false = mret l →
  wp (wrap msg (ext (ShouldRetryTx c hash expiry time)) ≫= k)
    (λ _ w', w_db w' ≠ d → retry_is_due c hash expiry time x) (mkWorld x d h mt lg).
Proof.
  intros Hk. apply wp_bind, wp_wrap, wp_ext. intros [[]|e|] x' Hx'; simpl; [| |done..].
  - unfold wp. intros _. by eapply retry_true_due.
  - rewrite Hk. apply wp_ret. done.
Qed.

Ltac run_retry c Hl Hc Hhash Htime :=
  wp_step; eapply wp_load; [exact Hl|]; simpl; unfold GetClient; rewrite Hc;
  apply wp_bind, wp_wrap, wp_ret; simpl; rewrite Hhash, Htime; by eapply (retry_check c).

(** C27: a transaction is forgotten only when a retry is due. Whatever the
    client, as long as it keeps the contract of [ShouldRetryTx]: if one of the
    three retry processors changes the database, the chain had said that the
    transaction failed, or that it does not know it two minutes of chain time
    after it was sent. *)
Theorem retry_only_when_due pr pa pt l t (c : BridgeClient X) `{!RetryContract c} hash time w :
  w_heap w !! l = Some t →
  (env_clients !! retry_recv_destinationChainID pr = Some c →
   RecvTxHash t = Some hash → RecvTxTime t = Some time →
   w_db (RetryRecvPacketProcessor_Process pr l w).2 ≠ w_db w →
   retry_is_due c hash (2 * Minute) time (w_ext w)) ∧
  (env_clients !! retry_ack_sourceChainID pa = Some c →
   AckTxHash t = Some hash → AckTxTime t = Some time →
   w_db (RetryAckPacketProcessor_Process pa l w).2 ≠ w_db w →
   retry_is_due c hash (2 * Minute) time (w_ext w)) ∧
  (env_clients !! retry_timeout_sourceChainID pt = Some c →
   TimeoutTxHash t = Some hash → TimeoutTxTime t = Some time →
   w_db (RetryTimeoutPacketProcessor_Process pt l w).2 ≠ w_db w →
   retry_is_due c hash (2 * Minute) time (w_ext w)).
Proof.
  intros Hl. destruct w as [x d h mt lg]; simpl in *. split_and!; intros Hc Hhash Htime.
  - apply (wp_run (RetryRecvPacketProcessor_Process pr l)
      (λ _ w', w_db w' ≠ d → retry_is_due c hash (2 * Minute) time x) (mkWorld x d h mt lg)
      _ _ (surjective_pairing _)).
    unfold RetryRecvPacketProcessor_Process, GetRecvTxHash, GetRecvTxTime.
    run_retry c Hl Hc Hhash Htime.
  - apply (wp_run (RetryAckPacketProcessor_Process pa l)
      (λ _ w', w_db w' ≠ d → retry_is_due c hash (2 * Minute) time x) (mkWorld x d h mt lg)
      _ _ (surjective_pairing _)).
    unfold RetryAckPacketProcessor_Process, GetAckTxHash, GetAckTxTime.
    run_retry c Hl Hc Hhash Htime.
  - apply (wp_run (RetryTimeoutPacketProcessor_Process pt l)
      (λ _ w', w_db w' ≠ d → retry_is_due c hash (2 * Minute) time x) (mkWorld x d h mt lg)
      _ _ (surjective_pairing _)).
    unfold RetryTimeoutPacketProcessor_Process, GetTimeoutTxHash, GetTimeoutTxTime.
    run_retry c Hl Hc Hhash Htime.
Qed.
End processors.

(** ** Reading transactions *)

Section read.
Context {X : Type} `{!Geth} `{!CosmosSDK} `{!Runtime X} `{!EVMNode X} `{!CosmosNode X}.

(** C32: the write acknowledgement status of a packet on an EVM chain is that of
    the first write acknowledgement event of the packet in the receipt: ERROR
    if its only acknowledgement is the universal error acknowledgement and
    SUCCESS otherwise. Logs that are nil, have no topics, belong to another
    event or acknowledge another packet are passed over, and without an event
    for the packet there is no status. *)
Theorem PacketWriteAckStatus_first (client : EVMBridgeClient X) hash s a b x receipt x1 abi st :
  GetAbi ics26_router = Ret abi → evm_receipt_once client hash x = (Ret (Some receipt), x1) →
  evm_PacketWriteAckStatus client hash s a b x = (Ret st, x1) ↔
  ∃ pre log ack post,
    Receipt_Logs receipt = pre ++ Some log :: post ∧
    Forall (passed (evm_ics26Router client) (abi "WriteAcknowledgement") s a b) pre ∧
    is_event (abi "WriteAcknowledgement") (Some log) = true ∧
    ParseWriteAcknowledgement (evm_ics26Router client) log = Ret ack ∧ acks_packet s a b ack = true ∧
    st = ack_status ack.
Proof.
  intros Habi Hr. rewrite <- write_ack_first. unfold evm_PacketWriteAckStatus.
  erewrite ebind_Ret by (apply ewrap_Ret; unfold elift; by rewrite Habi).
  erewrite ebind_Ret by (unfold eattempt; by rewrite Hr). simpl.
  unfold mbind, Ext_bind, mret, Ext_ret, elift. split; [by intros [= ->]|by intros ->].
Qed.

(** The two clients read the same thing. A packet's status on a Cosmos chain
    is that of the first write acknowledgement event with its sequence and
    clients, whatever the other events of the transaction are. *)
Theorem cosmos_write_ack_first (client : CosmosBridgeClient X) hash s a b x bz tx x1 :
  hex_decode hash = Ret bz → cosmos_tx_once client hash bz x = (Ret (Some tx), x1) →
  cosmos_PacketWriteAckStatus client hash s a b x =
    (match List.find (is_write_ack s a b) (ResultTx_Events tx) with
     | Some e => parseWriteAckStatusForPacket e
     | None => Fail (Sentinel ErrWriteAckNotFoundForPacket)
     end, x1).
Proof.
  intros Hh Ht. unfold cosmos_PacketWriteAckStatus.
  erewrite ebind_Ret by (apply ewrap_Ret; unfold elift; by rewrite Hh).
  erewrite ebind_Ret by (unfold eattempt; by rewrite Ht). simpl.
  unfold mbind, Ext_bind, mret, Ext_ret, elift. by rewrite write_ack_in_events_find.
Qed.

(** C33: the bytes of an acknowledgement, written into the packet's event in
    hexadecimal, are decoded by the generated code. On every sequence of bytes
    [Unmarshal] ends without a panic; when it accepts them, which it does for
    the encoding of an acknowledgement and also for one with unknown fields
    around it, the status is an error exactly when the only element is the
    universal error acknowledgement; when it does not, the call fails with
    [ErrWriteAckDecoding] around its error. *)
Theorem cosmos_write_ack_decodes (client : CosmosBridgeClient X) hash s a b x bz tx x1 e dAtA :
  hex_decode hash = Ret bz → cosmos_tx_once client hash bz x = (Ret (Some tx), x1) →
  List.find (is_write_ack s a b) (ResultTx_Events tx) = Some e →
  first_attribute "encoded_acknowledgement_hex" (Event_Attributes e) = Some (hex_string dAtA) →
  Forall is_byte dAtA → fits dAtA →
  ∃ r, cosmos_PacketWriteAckStatus client hash s a b x = (r, x1) ∧
    match proto_Unmarshal (T := channel.Acknowledgement) dAtA with
    | Ret ack => r = Ret (if bool_decide (channel.AppAcknowledgements ack = [ErrorAcknowledgement])
                          then db.Ibcv2WriteAckStatusERROR else db.Ibcv2WriteAckStatusSUCCESS)
    | Fail err => r = Fail (Errorf2 "" (Sentinel ErrWriteAckDecoding) err)
    | Panic => False
    end ∧
    ∀ ack, proto_valid ack → dAtA = wire ack →
      proto_Unmarshal (T := channel.Acknowledgement) dAtA = Ret ack.
Proof.
  intros Hh Ht Hfind Hattr Hb Hf. eexists. split_and!.
  - rewrite (cosmos_write_ack_first client hash s a b x bz tx x1 Hh Ht), Hfind.
    by rewrite (parse_ack_first e _ dAtA Hattr (hex_decode_string dAtA Hb)).
  - pose proof (Unmarshal_lands (T := channel.Acknowledgement) dAtA proto_zero Hf) as Hl.
    unfold proto_Unmarshal. by destruct (Unmarshal dAtA _).
  - intros ack Hv ->. by apply Unmarshal_wire.
Qed.

(** The packets [SendPacketsFromTx] finds are well typed. On a Cosmos chain
    the sequence is a [uint64] and both clients are named; on an EVM chain the
    sequence is the [uint64] of the contract's event. On both, all packets have
    one time, that of the block of the transaction. *)
Theorem SendPacketsFromTx_typed (client : EVMBridgeClient X) chain hash x packets x' :
  (cosmos_SendPacketsFromTx chain hash x = (Ret packets, x') →
   Forall packet_typed packets ∧ ∃ t, Forall (λ p, PacketInfo_Timestamp p = t) packets) ∧
  ((∀ log ev, ParseSendPacket (evm_ics26Router client) log = Ret ev →
      is_uint64 (Packet_Sequence (SendPacket_Packet ev))) →
   evm_SendPacketsFromTx client chain hash x = (Ret packets, x') →
   Forall (λ p, is_uint64 (Sequence p)) packets ∧
   ∃ t, Forall (λ p, PacketInfo_Timestamp p = t) packets).
Proof.
  split.
  - intros (bz & x1 & _ & Hrun)%ebind_inv.
    apply ebind_inv in Hrun as ([tx|] & x2 & _ & Hrun); [|done].
    simpl in Hrun. apply ebind_inv in Hrun as (tx' & x3 & _ & Hrun).
    apply ebind_inv in Hrun as (ps & x4 & Hps & Hrun). unfold elift in Hps. injection Hps as Hps <-.
    apply send_packets_typed in Hps. destruct ps as [|p ps].
    { unfold mret, Ext_ret in Hrun. simplify_eq. split; [constructor|]. by exists 0; constructor. }
    apply ebind_inv in Hrun as ([t|] & x5 & _ & Hrun); [|done].
    unfold mret, Ext_ret in Hrun. injection Hrun as <- <-.
    apply (stamped_typed t packet_typed (p :: ps)); [by intros []|done].
  - intros Hparse (abi & x1 & _ & Hrun)%ebind_inv. apply ebind_inv in Hrun as (r & x2 & _ & Hrun).
    apply ebind_inv in Hrun as (receipt & x3 & _ & Hrun).
    apply ebind_inv in Hrun as (ps & x4 & Hps & Hrun). unfold elift in Hps. injection Hps as Hps <-.
    apply send_logs_typed in Hps; [|done]. destruct ps as [|p ps].
    { unfold mret, Ext_ret in Hrun. simplify_eq. split; [constructor|]. by exists 0; constructor. }
    apply ebind_inv in Hrun as (h & x5 & _ & Hrun). apply ebind_inv in Hrun as (h' & x6 & _ & Hrun).
    unfold mret, Ext_ret in Hrun. injection Hrun as <- <-.
    apply (stamped_typed (header_time h') _ (p :: ps)); [by intros []|done].
Qed.

(** ** Commitments *)

(** The parts of a commitment path. *)
Definition parse_path (bz : bytes) : bytes * option Z * Z :=
  let n := (length bz - 9)%nat in
  (take n bz, bz !! n, of_big_endian 0 (drop (S n) bz)).

(** A commitment path can be read back: its last eight bytes are the
    sequence, the byte before is the kind of commitment (1 for a packet, 2 for
    a receipt) and the rest is the client. So no two packets, and no packet
    commitment and receipt, share a storage slot. *)
Theorem commitment_path_roundtrip clientID kind sequence :
  is_uint64 sequence →
  ∃ bz, commitment_path clientID kind sequence = Ret bz ∧
    parse_path bz = (bytes_of_string clientID, Some kind, sequence) ∧
    ∀ clientID' kind' sequence', is_uint64 sequence' →
      commitment_path clientID' kind' sequence' = Ret bz →
      clientID' = clientID ∧ kind' = kind ∧ sequence' = sequence.
Proof.
  intros Hs. exists (path clientID kind sequence). split; [apply commitment_path_eq|]. split.
  - unfold parse_path.
    assert (length (path clientID kind sequence) - 9 = length (bytes_of_string clientID))%nat as ->.
    { unfold path. rewrite !length_app. unfold Uint64ToBigEndian. rewrite length_big_endian.
      simpl. lia. }
    unfold path. f_equal; [f_equal|].
    + apply take_app_length.
    + by apply list_lookup_middle.
    + rewrite <- (Uint64ToBigEndian_roundtrip sequence) at 2 by done. f_equal.
      rewrite app_assoc. apply drop_app_length'. rewrite length_app. simpl. lia.
  - intros c k s Hs' Hc. rewrite commitment_path_eq in Hc. injection Hc as Hc.
    by apply path_inj in Hc.
Qed.
End read.

(** ** Waiting *)

Section wait.
Context {X : Type} `{!Geth} `{!CosmosSDK} `{!Runtime X} `{!EVMNode X} `{!CosmosNode X}.

(** A tick that reads the time of the chain. *)
Definition reads_time (chain_time : Ext X Time) (tick : Time → Ext X (option unit)) : Prop :=
  ∀ now y t y', chain_time y = (Ret t, y') → ∃ l m,
    tick now y = if After t now then (Ret (Some tt), y') else (Ret None, rt_Log l m (after1 y')).

(** The log line of a tick that found the chain behind. *)
Lemma lagging_log {A} now y (warn debug : string) : ∃ l m,
  (d ← esince now;
   (if bool_decide (d > Second * 30) then elog Warn warn else elog Debug debug) ≫= λ _,
   mret (@None A)) y = (Ret None, rt_Log l m (after1 y)).
Proof.
  unfold esince. rewrite ebind_assoc. erewrite ebind_Ret by apply enow_run.
  erewrite ebind_Ret by done. case_bool_decide; by do 2 eexists.
Qed.

Lemma evm_tick_reads : reads_time evm_chain_time evm_WaitForChain_tick.
Proof.
  intros now y t y' Ht. apply ebind_inv in Ht as (h & y1 & Hh & Ht).
  apply ebind_inv in Ht as (h' & y2 & Hh' & Ht). unfold mret, Ext_ret in Ht. simplify_eq.
  unfold evm_WaitForChain_tick. erewrite ebind_Ret by exact Hh. erewrite ebind_Ret by exact Hh'.
  destruct (After _ _); [by exists Debug, ""|]. apply lagging_log.
Qed.

Lemma cosmos_tick_reads : reads_time cosmos_chain_time cosmos_WaitForChain_tick.
Proof.
  intros now y t y' Ht. apply ebind_inv in Ht as ([h|] & y1 & Hh & Ht); [|done].
  unfold mret, Ext_ret in Ht. simplify_eq.
  unfold cosmos_WaitForChain_tick. erewrite ebind_Ret by exact Hh. cbv beta iota.
  destruct (After _ _); [by exists Debug, ""|]. apply lagging_log.
Qed.

(** The chain goes on: at every tick from [x] on the node answers, and the
    latest block is past the instant of the call or closer to it than before
    ([rank]). *)
Definition goes_on (chain_time : Ext X Time) (P : X → Prop) (rank : X → nat) (x : X) : Prop :=
  P (after1 x) ∧
  ∀ d y, d = Millisecond ∨ d = Second → P y → ∃ y1 t y2,
    rt_wait d y = (None, y1) ∧ chain_time y1 = (Ret t, y2) ∧
    (read1 x < t ∨
     ∀ l m, P (rt_Log l m (after1 y2)) ∧ (rank (rt_Log l m (after1 y2)) < rank y)%nat).

Lemma wait_terminates chain_time tick P rank x :
  reads_time chain_time tick → goes_on chain_time P rank x →
  ∃ x', ∀ ticks, (rank (after1 x) < ticks)%nat →
    eloop ticks Millisecond Second (tick (read1 x)) (after1 x) = (Ret tt, x').
Proof.
  intros Htick [HP Hlive].
  apply (eloop_rank (tick (read1 x)) tt P rank Millisecond Second)
    with (n := S (rank (after1 x))); [|by left|done|lia].
  intros d y Hd Hy. destruct (Hlive d y Hd Hy) as (y1 & t & y2 & Hw & Ht & Hr).
  exists y1. split; [done|]. destruct (Htick (read1 x) _ _ _ Ht) as (l & m & ->). unfold After.
  case_bool_decide as Hlt; [by eexists; left|]. destruct Hr as [?|Hr]; [done|].
  eexists. right. split; [done|]. apply Hr.
Qed.

(** [WaitForChain] terminates when the chain goes on: on both kinds of chain
    the call returns without an error, after a number of ticks that the rank
    bounds. *)
Theorem WaitForChain_terminates (P : X → Prop) (rank : X → nat) x :
  (goes_on evm_chain_time P rank x →
   ∃ x', ∀ ticks, (rank (after1 x) < ticks)%nat → evm_WaitForChain ticks x = (Ret tt, x')) ∧
  (goes_on cosmos_chain_time P rank x →
   ∃ x', ∀ ticks, (rank (after1 x) < ticks)%nat → cosmos_WaitForChain ticks x = (Ret tt, x')).
Proof.
  split; intros Hgo; [destruct (wait_terminates _ _ _ _ _ evm_tick_reads Hgo) as [x' Hx']
                     |destruct (wait_terminates _ _ _ _ _ cosmos_tick_reads Hgo) as [x' Hx']];
    exists x'; intros ticks Ht; [unfold evm_WaitForChain|unfold cosmos_WaitForChain];
    (erewrite ebind_Ret by apply enow_run); by apply Hx'.
Qed.

(** The one minute timeout of [WaitForTx] does not end it when the node
    answers with an error: as long as the node does not know the transaction,
    which both nodes report as an error, only the context ends the call,
    however long ago it began. *)
Theorem WaitForTx_no_timeout hash bz e :
  (∀ d (y : X), ∃ y1, rt_wait d y = (None, y1)) →
  (∀ y : X, ∃ y', TransactionReceipt (HexToHash hash) y = (Fail (ErrorNew "not found"), y')) →
  hex_decode hash = Ret bz → is_not_found e = true →
  (∀ y : X, ∃ y', tm_Tx bz y = (Fail e, y')) →
  ∀ ticks (x : X),
    (evm_WaitForTx ticks hash x).1 = Fail (Sentinel ContextCanceled) ∧
    (cosmos_WaitForTx ticks hash x).1 = Fail (Sentinel ContextCanceled).
Proof.
  intros Hw Hr Hbz He Ht ticks x. split.
  - unfold evm_WaitForTx. erewrite ebind_Ret by apply enow_run. apply eloop_stuck.
    intros d y. destruct (Hw d y) as [y1 Hy1]. destruct (Hr y1) as [y2 Hy2].
    exists y1, y2. split; [done|]. unfold evm_WaitForTx_tick.
    by erewrite ebind_Ret by (unfold eattempt; by rewrite Hy2).
  - unfold cosmos_WaitForTx. erewrite ebind_Ret by (apply ewrap_Ret; unfold elift; by rewrite Hbz).
    erewrite ebind_Ret by apply enow_run. apply eloop_stuck.
    intros d y. destruct (Hw d y) as [y1 Hy1]. destruct (Ht y1) as [y2 Hy2].
    exists y1, y2. split; [done|]. unfold cosmos_WaitForTx_tick.
    erewrite ebind_Ret by (unfold eattempt; by rewrite Hy2). cbv beta iota. by rewrite He.
Qed.

(** ** Submitting *)

Context (clock : X → Time) `{!Clock clock}.

(** The shape of [DeliverTx]: wait until [delay] after the last submission, send,
    and record the instant. *)
Definition deliver_with {S A} (self : Lens X S) (last : S → Time) (note : Time → S → S)
    (delay : Duration) (send : Ext X A) (tx : A → Time → BridgeTx) : Ext X (option BridgeTx) :=
  let note_submission := t ← enow; state ← eget self; eset self (note t state) in
  state ← eget self;
  d ← euntil (time_Add (last state) delay);
  w ← eattempt (ewait d);
  match w with
  | inr err => note_submission ≫= λ _, efail err
  | inl _ =>
      r ← eoutcome send;
      match r with
      | Fail err => efail err
      | Panic => note_submission ≫= λ _, epanic
      | Ret a => now ← enow; note_submission ≫= λ _, mret (Some (tx a now))
      end
  end.

(** A delivery is spaced: [send] starts only when [delay] has passed since the
    last submission, unless the context ends first; when it succeeds, an
    instant after it is recorded as the last submission, and when it fails
    nothing is recorded. *)
Definition spaced {S A} (self : Lens X S) (last : S → Time) (delay : Duration) (send : Ext X A)
    (tx : A → Time → BridgeTx) (deliver : Ext X (option BridgeTx)) : Prop :=
  ∀ x o x', last (lget self x) + delay - clock x ≤ 2 ^ 63 - 1 → deliver x = (o, x') →
  (∃ d e x1, rt_wait d (after1 x) = (Some e, x1) ∧ o = Fail e) ∨
  ∃ x1 r x2, last (lget self x) + delay ≤ clock x1 ∧ send x1 = (r, x2) ∧
    match r with
    | Fail e => o = Fail e ∧ x' = x2
    | Panic => o = Panic
    | Ret a => ∃ t, o = Ret (Some (tx a t)) ∧ clock x2 ≤ t ≤ last (lget self x')
    end.

Lemma deliver_with_spaced {S A} (self : Lens X S) `{!LensLaws self} last note delay
    (send : Ext X A) tx :
  (∀ t s, last (note t s) = t) →
  spaced self last delay send tx (deliver_with self last note delay send tx).
Proof.
  intros Hnote x o x' Hb Hrun. unfold deliver_with in Hrun. erewrite ebind_Ret in Hrun by done.
  destruct (euntil_bound (last (lget self x) + delay) x Hb) as (d & Hd & Hlast).
  erewrite ebind_Ret in Hrun by exact Hd. unfold ewait, eattempt in Hrun.
  unfold mbind at 1, Ext_bind at 1 in Hrun.
  destruct (rt_wait d (after1 x)) as [[e|] x1] eqn:Hw; simpl in Hrun.
  { left. exists d, e, x1. split; [done|]. unfold mbind, Ext_bind, enow, eget, eset, efail in Hrun.
    destruct (rt_Now x1). by simplify_eq. }
  right. exists x1. destruct (send x1) as [r x2] eqn:Hs.
  exists r, x2. split; [pose proof (clock_wait _ _ _ Hw); lia|]. split; [done|].
  erewrite ebind_Ret in Hrun by (unfold eoutcome; by rewrite Hs).
  destruct r as [a|e|]; simpl in Hrun.
  - erewrite ebind_Ret in Hrun by apply enow_run. rewrite ebind_assoc in Hrun.
    erewrite ebind_Ret in Hrun by apply enow_run.
    unfold mbind, Ext_bind, eget, eset, mret, Ext_ret in Hrun. injection Hrun as <- <-.
    exists (read1 x2). split; [done|]. rewrite lget_lset, Hnote.
    pose proof (clock_Now x2). pose proof (clock_Now (after1 x2)). lia.
  - unfold efail in Hrun. by simplify_eq.
  - unfold mbind, Ext_bind, enow, eget, eset, epanic in Hrun. destruct (rt_Now x2). by simplify_eq.
Qed.

Definition evm_send (client : EVMBridgeClient X) bz address : Ext X Hash :=
  ewrap "signing and submitting data" (signAndSubmitData client bz address).

Definition cosmos_send (client : CosmosBridgeClient X) bz : Ext X (string * bytes) :=
  bech32Address ← bech32_address client;
  hash ← ewrap "signing and submitting recv tx" (signAndSubmit client bz);
  mret (bech32Address, hash).

Lemma evm_DeliverTx_shape (client : EVMBridgeClient X) bz address x :
  evm_DeliverTx client bz address x =
  deliver_with (evm_self client) evm_lastSubmissionTime with_lastSubmissionTime
    (evm_txSubmissionDelay client) (evm_send client bz address)
    (λ hash t, mkBridgeTx (Hash_String hash) t (Address_String (evm_signerAddress client))) x.
Proof.
  unfold evm_DeliverTx, deliver_with. apply ebind_ext. intros state x1 _.
  apply ebind_ext. intros d x2 _. apply ebind_ext. intros [u|e] x3 _; [|done].
  unfold evm_send, eoutcome, ewrap, mbind, Ext_bind. by destruct (signAndSubmitData _ _ _ x3) as [[]].
Qed.

(** C29: submissions of a client are spaced, on EVM and on Cosmos chains. *)
Theorem DeliverTx_spaced (evm : EVMBridgeClient X) `{!LensLaws (evm_self evm)}
    (cosmos : CosmosBridgeClient X) `{!LensLaws (cosmos_self cosmos)} bz address :
  spaced (evm_self evm) evm_lastSubmissionTime (evm_txSubmissionDelay evm)
    (evm_send evm bz address)
    (λ hash t, mkBridgeTx (Hash_String hash) t (Address_String (evm_signerAddress evm)))
    (evm_DeliverTx evm bz address) ∧
  spaced (cosmos_self cosmos) cosmos_lastSubmissionTime (cosmos_txSubmissionDelay cosmos)
    (cosmos_send cosmos bz)
    (λ '(addr, hash) t, mkBridgeTx (HexBytes_String hash) t addr)
    (cosmos_DeliverTx cosmos bz address).
Proof.
  split.
  - intros x o x' Hb Hrun. rewrite evm_DeliverTx_shape in Hrun.
    by apply (deliver_with_spaced (evm_self evm)) in Hrun.
  - intros x o x' Hb Hrun.
    apply (deliver_with_spaced (cosmos_self cosmos) cosmos_lastSubmissionTime
      with_cosmos_lastSubmissionTime (cosmos_txSubmissionDelay cosmos) (cosmos_send cosmos bz));
      [done..|].
    rewrite <- Hrun. unfold deliver_with, cosmos_DeliverTx. apply ebind_ext. intros state x1 _.
    apply ebind_ext. intros d x2 _. apply ebind_ext. intros [u|e] x3 _; [|done].
    apply ebind_ext. by intros [[addr hash]| |] x4 _.
Qed.
End wait.

(** ** Finality *)

Section finality.
Context {X : Type} `{!Geth} `{!CosmosSDK} `{!Runtime X} `{!EVMNode X} `{!CosmosNode X}.

(** With a finality offset an EVM transaction is final exactly when the
    latest block is [offset] blocks past its own; the subtraction on [uint64]
    never wraps around, also when the node is behind the transaction. *)
Theorem IsTxFinalized_offset hash offset x receipt number x1 h x2 :
  is_uint64 number → is_uint64 (Header_Number h) → is_uint64 offset →
  TransactionReceipt (HexToHash hash) x = (Ret (Some receipt), x1) →
  Receipt_BlockNumber receipt = Some number →
  HeaderByNumber None x1 = (Ret (Some h), x2) →
  evm_IsTxFinalized hash (Some offset) x =
    (Ret (bool_decide (number + offset ≤ Header_Number h)), x2).
Proof.
  intros Hn Hh Ho Hr Hnum Hhead. unfold evm_IsTxFinalized.
  erewrite ebind_Ret by (unfold eattempt; by rewrite Hr). cbv beta iota.
  erewrite ebind_Ret by (by apply ewrap_Ret). erewrite ebind_Ret by done.
  rewrite Hnum. do 2 erewrite ebind_Ret by done. rewrite (uint64_id number), (uint64_id (Header_Number h)) by done.
  unfold mret, Ext_ret. do 2 f_equal. unfold is_uint64 in *.
  case_bool_decide as Hle; simpl.
  - rewrite uint64_id by (unfold is_uint64; lia). by apply bool_decide_ext; lia.
  - symmetry. apply bool_decide_eq_false. lia.
Qed.

(** The time of the block that is final under an offset. *)
Definition final_time (offset : Z) (x : X) (t : Time) (x' : X) : Prop :=
  ∃ h x1 h', HeaderByNumber None x = (Ret (Some h), x1) ∧ is_uint64 (Header_Number h) ∧
    offset ≤ Header_Number h < 2 ^ 63 ∧
    HeaderByNumber (Some (Header_Number h - offset)) x1 = (Ret (Some h'), x') ∧
    header_time h' = t.

(** The two clients disagree about a timestamp that is exactly that of the
    final block: the EVM client calls it final, as the interface says, the
    Cosmos client does not. *)
Theorem IsTimestampFinalized_boundary offset (x x1 : X) t (y y1 : X) :
  0 ≤ offset → final_time offset x t x1 → tm_Header None y = (Ret (Some t), y1) →
  evm_IsTimestampFinalized t (Some offset) x = (Ret true, x1) ∧
  cosmos_IsTimestampFinalized t (Some offset) y = (Ret false, y1) ∧
  (∀ t', t' < t → evm_IsTimestampFinalized t' (Some offset) x = (Ret true, x1) ∧
                  cosmos_IsTimestampFinalized t' (Some offset) y = (Ret true, y1)) ∧
  (∀ t', t < t' → evm_IsTimestampFinalized t' (Some offset) x = (Ret false, x1) ∧
                  cosmos_IsTimestampFinalized t' (Some offset) y = (Ret false, y1)).
Proof.
  intros Ho (h & x2 & h' & Hh & Hu & Hlt & Hh' & Ht) Hy.
  assert (Hevm : ∀ u, evm_IsTimestampFinalized u (Some offset) x = (Ret (negb (Before t u)), x1)).
  { intros u. unfold evm_IsTimestampFinalized, evm_finalized_header. rewrite ebind_assoc.
    erewrite ebind_Ret by (by apply ewrap_Ret). rewrite ebind_assoc. erewrite ebind_Ret by done.
    rewrite (uint64_id (Header_Number h)) by done. rewrite bool_decide_false by lia.
    rewrite uint64_id by (unfold is_uint64; lia).
    assert (int64 (Header_Number h - offset) = Header_Number h - offset) as ->.
    { unfold int64. rewrite Z.mod_small; lia. }
    rewrite ebind_assoc. erewrite ebind_Ret by (by apply ewrap_Ret).
    erewrite ebind_Ret by done. simpl. unfold mbind, Ext_bind, mret, Ext_ret. by rewrite Ht. }
  assert (Hcosmos : ∀ u, cosmos_IsTimestampFinalized u (Some offset) y = (Ret (After t u), y1)).
  { intros u. unfold cosmos_IsTimestampFinalized. by erewrite ebind_Ret by (by apply ewrap_Ret). }
  unfold Before, After in *. split_and!; intros; rewrite ?Hevm, ?Hcosmos.
  - by rewrite bool_decide_false by lia.
  - by rewrite bool_decide_false by lia.
  - by rewrite bool_decide_false, bool_decide_true by lia.
  - by rewrite bool_decide_true, bool_decide_false by lia.
Qed.
End finality.

(** ** Fees and batches *)

Section submit.
Context {X : Type} `{!Geth} `{!CosmosSDK} `{!Runtime X} `{!EVMNode X} `{!CosmosNode X}.

(** C37: a transaction body is submitted in batches of at most one client update
    each. Every message is submitted exactly once, the batches before the last
    are single client updates, and the hash returned is that of the last batch. *)
Theorem signAndSubmit_batches (client : CosmosBridgeClient X) bz x h x' :
  signAndSubmit client bz x = (Ret h, x') →
  ∃ anys msgs bs b,
    UnmarshalTxBody bz = Ret anys ∧ unpack_msgs anys = Ret msgs ∧
    submitted client (bs ++ [b]) h x x' ∧
    concat (bs ++ [b]) ≡ₚ msgs ∧
    Forall (λ b, (length (updates b) ≤ 1)%nat) (bs ++ [b]) ∧
    Forall (λ b, ∃ u, b = [u] ∧ is_update_client u) bs.
Proof.
  intros (anys & msgs & Ha & Hm & Hs)%signAndSubmit_run. exists anys, msgs.
  pose proof (batches_perm msgs) as Hp. pose proof (batches_small msgs) as Hb.
  unfold batches in *. case_bool_decide.
  - exists (map (λ u, [u]) (updates msgs)), (others msgs). split_and!; [done..|].
    apply Forall_map, Forall_forall. intros u [Hu _]%list_elem_of_filter. eauto.
  - exists [], msgs. by split_and!.
Qed.

(** C38: the fee of a Cosmos transaction always covers its gas: with a positive
    gas price and no fixed amount, the fee is an amount of the fee denom that is
    strictly more than gas limit times gas price (as long as that product is
    below 2^64). *)
Theorem getTxFee_covers (client : CosmosBridgeClient X) gasLimit m e :
  cosmos_feeDenom client ≠ "" → cosmos_feeAmount client = 0 →
  float64_class (cosmos_gasPrice client) = FFinite m e → 0 < m → 0 ≤ gasLimit < 2 ^ 63 →
  (if 0 <=? e then gasLimit * m < 2 ^ 64 else gasLimit * m < 2 ^ 64 * 2 ^ (- e)) →
  ∃ fee, getTxFee client gasLimit = Ret (cosmos_feeDenom client, fee) ∧ 0 < fee ∧
    product_below gasLimit m e fee.
Proof.
  intros Hd Ha Hf Hm Hg Hb. unfold getTxFee. rewrite bool_decide_false by done.
  assert (float_positive (cosmos_gasPrice client) = true) as ->.
  { unfold float_positive. rewrite Hf. by apply Z.ltb_lt. }
  rewrite Ha, bool_decide_false by lia. cbn [andb].
  assert (int64 gasLimit = gasLimit) as ->. { unfold int64. rewrite Z.mod_small; lia. }
  destruct (mul_to_int_covers gasLimit (cosmos_gasPrice client) m e) as (y & Hy & H0y & Hc);
    [exact Hf|exact Hm|lia|exact Hb|].
  rewrite Hy. exists (y + 1). split; [done|]. split; [lia|exact Hc].
Qed.

(** A gas fee cap multiplier of at least one never lowers the fee cap of an
    EVM transaction, whatever the rounding; without one the cap is tip plus
    twice the base fee; and on a chain without a base fee building the
    transaction panics. *)
Theorem newTx_fee_cap (client : EVMBridgeClient X) bz address x h x1 tip x2 :
  HeaderByNumber None x = (Ret (Some h), x1) → SuggestGasTipCap x1 = (Ret tip, x2) →
  match Header_BaseFee h with
  | None => newTx client bz address x = (Panic, x2)
  | Some base =>
      0 ≤ tip → 0 ≤ base →
      match evm_gasFeeCapMultiplier client with
      | None => adjustGasFeeCap client (Some (tip + base * 2)) = Ret (Some (tip + base * 2))
      | Some f => ∀ m e, float64_class f = FFinite m e → at_least_one m e →
          ∃ cap, adjustGasFeeCap client (Some (tip + base * 2)) = Ret (Some cap) ∧
            tip + base * 2 ≤ cap
      end ∧
      ∀ tx x', newTx client bz address x = (Ret tx, x') →
        ∃ nonce feeCap tipCap gas,
          tx = NewTx (mkDynamicFeeTx (HexToAddress address) nonce feeCap tipCap gas bz) ∧
          adjustGasFeeCap client (Some (tip + base * 2)) = Ret feeCap ∧
          adjustGasTipCap client (Some tip) = Ret tipCap
  end.
Proof.
  intros Hh Ht. destruct (Header_BaseFee h) as [base|] eqn:Hbase.
  - intros Htip Hb0. split.
    + unfold adjustGasFeeCap. destruct (evm_gasFeeCapMultiplier client) as [f|]; [|done].
      intros m e Hf Hm. apply (MulFloat_ge _ f m e); [done..|lia].
    + intros tx x' Hrun. unfold newTx in Hrun.
      erewrite ebind_Ret in Hrun by (by apply ewrap_Ret).
      erewrite ebind_Ret in Hrun by (by apply ewrap_Ret).
      erewrite ebind_Ret in Hrun by done. rewrite Hbase in Hrun. erewrite ebind_Ret in Hrun by done.
      apply ebind_inv in Hrun as ([|c code] & x3 & _ & Hrun); [done|].
      apply ebind_inv in Hrun as (gas & x4 & _ & Hrun).
      apply ebind_inv in Hrun as (nonce & x5 & _ & Hrun).
      apply ebind_inv in Hrun as (feeCap & x6 & Hfee & Hrun).
      apply ebind_inv in Hrun as (tipCap & x7 & Htc & Hrun).
      unfold elift, mret, Ext_ret in *. injection Hfee as Hfee <-. injection Htc as Htc <-.
      injection Hrun as <- <-. by exists nonce, feeCap, tipCap, gas.
  - unfold newTx. erewrite ebind_Ret by (by apply ewrap_Ret).
    erewrite ebind_Ret by (by apply ewrap_Ret). erewrite ebind_Ret by done.
    by rewrite Hbase.
Qed.

(** A client for an EVM chain is only made with an address of twenty bytes,
    and starts with empty caches and no submission. *)
Theorem NewEVMBridgeClient_typed self `{!LensLaws self} chainID router transfer signer f t x
    client (x' : X) :
  NewEVMBridgeClient self chainID router transfer signer f t x = (Ret client, x') →
  length (evm_signerAddress client) = AddressLength ∧
  evm_self client = self ∧
  once_wf (evm_txOnce (lget self x')) ∧ once_wf (evm_latestTimestampOnce (lget self x')) ∧
  evm_lastSubmissionTime (lget self x') = zero_time.
Proof.
  intros (u1 & x1 & _ & Hrun)%ebind_inv. apply ebind_inv in Hrun as (u2 & x2 & _ & Hrun).
  apply ebind_inv in Hrun as (addr & x3 & _ & Hrun).
  case_bool_decide as Hl; [|done]. simpl in Hrun.
  unfold mbind, Ext_bind, eset, mret, Ext_ret in Hrun. injection Hrun as <- <-. simpl.
  rewrite lget_lset. simpl. split_and!; try done; apply once_wf_new.
Qed.
(** A query of a commitment whose call was answered [q] says whether there is
    one. *)
Definition says_committed {A} (q : outcome (list interface) * A) (r : outcome bool * A) : Prop :=
  r.2 = q.2 ∧
  match q.1 with
  | Ret out => ∃ h, only GoBytes32 out = Ret h ∧ r.1 = Ret (negb (bool_decide (h = unwritten)))
  | Fail err => ∃ msg, r.1 = Fail (Errorf msg err)
  | Panic => r.1 = Panic
  end.

Lemma commitment_query router (msg msg' : string) id kind seq x :
  answers_by_abi → bc_abi (ContractCaller router) = ics26_router →
  says_committed
    (Call (ContractCaller router) "getCommitment" [Any GoBytes32 (Keccak256Hash (path id kind seq))] x)
    ((calldata ← ewrap msg (elift (commitment_path id kind seq));
      commitment ← ewrap msg' (GetCommitment router (Keccak256Hash calldata));
      mret (negb (bool_decide (commitment = unwritten)))) x).
Proof.
  intros Habi Hmd. rewrite commitment_path_eq.
  pose proof (call_one GoBytes32 (ContractCaller router) "getCommitment"
    [Any GoBytes32 (Keccak256Hash (path id kind seq))] Habi) as Hc.
  rewrite Hmd in Hc. specialize (Hc eq_refl x).
  erewrite ebind_Ret by reflexivity. fold (GetCommitment router (Keccak256Hash (path id kind seq))) in Hc.
  unfold says_committed, mbind, Ext_bind, ewrap.
  destruct (Call _ _ _ x) as [[out|err|] x']; [destruct Hc as (h & Hh & ->)|rewrite Hc..]; simpl; eauto.
Qed.

(** C34: a client of an EVM chain asks the router it was made for: whether a
    packet was received or is committed is what the contract answers to
    [getCommitment] for the hash of the packet's path, with kind 2 or 1, and
    nothing else changes. The error of a call is the error of the query, and
    as long as the node answers by the ABI no query panics. *)
Theorem commitment_queries self chainID router transfer signer f t x0 client (x1 : X) id seq x :
  answers_by_abi → NewEVMBridgeClient self chainID router transfer signer f t x0 = (Ret client, x1) →
  let ask kind := Call (mkBoundContract (HexToAddress router) ics26_router) "getCommitment"
                    [Any GoBytes32 (Keccak256Hash (path id kind seq))] x in
  says_committed (ask 2) (evm_IsPacketReceived client id seq x) ∧
  says_committed (ask 1) (evm_IsPacketCommitted client id seq x).
Proof.
  intros Habi (c & y1 & Hnew & Hrun)%ebind_inv. apply ebind_inv in Hrun as (c2 & y2 & _ & Hrun).
  apply ebind_inv in Hrun as (addr & y3 & _ & Hrun).
  case_bool_decide; [|done]. simpl in Hrun.
  unfold mbind, Ext_bind, eset, mret, Ext_ret in Hrun. injection Hrun as <- <-.
  apply ewrap_Ret in Hnew. unfold elift, NewContract, bindContract in Hnew.
  destruct (GetAbi ics26_router); simplify_eq.
  split; by apply (commitment_query
    (mkContract (mkBoundContract (HexToAddress router) ics26_router) _ _)).
Qed.
End submit.

(** ** Caches *)

Section once.
Context {X T : Type} `{!Runtime X} (l : Lens X (OnceWithKey T)).
Context `{!LensLaws l} `{!RuntimeKeeps l}.

(** A call of [Do] that finds no live entry runs its action and returns what
    it returned. Up to the deadline of that outcome (one for values, another
    for errors, both counted from the start of the call) every call for the
    key returns the same outcome without running its action; from the deadline
    on the next call runs its own. *)
Theorem Do_window key action x r x1 :
  once_wf (lget l x) → keeps l action → stale key (lget l x) x →
  action (start_state l key x) = (r, x1) → r ≠ Panic →
  let D := deadline (start_entry l key x) r in
  ∃ x', Do l key action x = (r, x') ∧
    ∀ y, lget l y = lget l x' →
      (read1 y < D → read2 y < D → ∃ y', ∀ action', Do l key action' y = (r, y')) ∧
      (D ≤ read1 y → D ≤ read2 y → ∀ action' r' y1,
         keeps l action' → action' (start_state l key y) = (r', y1) → r' ≠ Panic →
         ∃ y', Do l key action' y = (r', y')).
Proof.
  intros Hw Hk Hs Ha Hr D. destruct (Do_runs_gen l key action x r x1) as (x' & Hdo & Hw' & He); [done..|].
  exists x'. split; [done|]. intros y Hy. rewrite <- Hy in *.
  set (e := mkOnceWithTimeout _ _ _ _) in He.
  assert (Hset : settled e r) by done.
  assert (HD : deadline e r = D) by (unfold D; by destruct r).
  split.
  - intros H1 H2. destruct (Do_reuses_gen l key e r y) as (y' & Hy' & _); [done..| |by exists y'].
    rewrite (timed_out_settled e r), HD by done. unfold Before.
    destruct r; by rewrite bool_decide_true by lia.
  - intros H1 H2 action' r' y1 Hk' Ha' Hr'.
    destruct (Do_runs_gen l key action' y r' y1) as (y' & Hy' & _); [done|done| |done..|by exists y'].
    unfold stale. rewrite He, (timed_out_settled e r), HD by done. unfold Before.
    destruct r; by rewrite bool_decide_false by lia.
Qed.

(** Entries are never removed. [delete] is called with the object instead of
    its key, so after any sequence of calls the map has an entry for every key
    it ever had and for every key that was asked for. *)
Theorem Do_never_frees calls x :
  once_wf (lget l x) → Forall (λ c, keeps l c.2) calls →
  dom (onces (lget l x)) ∪ list_to_set (map (inl ∘ fst) calls)
    ⊆ dom (onces (lget l (Do_all l calls x))).
Proof. intros. by apply Do_all_grows. Qed.
End once.

(** ** The theorems at work *)

Section witnesses.
Import sim.

Definition failed_receipt : Receipt := mkReceipt 0 (Some 5) 100 (Some 2) [].
Definition demo_log : Log := mkLog [bytes_of_string "WriteAcknowledgement"] [1] 3 [9].
Definition ok_receipt : Receipt := mkReceipt 1 (Some 5) 100 (Some 2) [None; Some demo_log].

Definition evm_failed := evm_node (λ _, Ret (Some failed_receipt)) (Some 7) [].
Definition evm_ok := evm_node (λ _, Ret (Some ok_receipt)) (Some 7) [].
Definition evm_missing := evm_node (λ _, Fail (ErrorNew "not found")) (Some 7) [].

Definition send_event : Event :=
  mkEvent "send_packet" [("packet_sequence", "4"); ("packet_source_client", "a");
    ("packet_dest_client", "b"); ("packet_timeout_timestamp", "99")].
Definition ack_event : Event :=
  mkEvent "write_acknowledgement" [("packet_sequence", "4"); ("packet_source_client", "a");
    ("packet_dest_client", "b"); ("encoded_acknowledgement_hex", "0a0101")].
Definition demo_tx : ResultTx := mkResultTx [1] 6 0 [send_event; ack_event] [].
Definition cosmos_ok := cosmos_node (λ _, Ret (Some demo_tx)) ["update"; "recv"; "update"].
Definition cosmos_missing := cosmos_node (λ _, Fail (ErrorNew "tx not found")) [].

(** A world of the pipeline over the simulated chains. *)
Definition sim_env : Env Sim :=
  mkEnv Sim {["chain-b" := evm_bridge_client (EVMNode0 := evm_failed) evm_client 5]}
    (λ _, ret (mkRelayByTxResponse [] "")) None (config.NewConfigReader demo.conf)
    rt_Now (λ x, (None, x)) clock (λ x, (true, x)).

Definition sim_world : World Sim :=
  mkWorld start (demo.database demo.row_recv) {[1%positive := NewIBCV2Transfer demo.row_recv]} [] [].

Lemma retry_only_when_due_witness :
  retry_is_due (evm_bridge_client (EVMNode0 := evm_failed) evm_client 5) "0xbeef" (2 * Minute) 3
    start.
Proof.
  apply (proj1 (retry_only_when_due (E := sim_env) (mkRetryRecvPacketProcessor "chain-b")
    (mkRetryAckPacketProcessor "") (mkRetryTimeoutPacketProcessor "") 1%positive
    (NewIBCV2Transfer demo.row_recv) (evm_bridge_client (EVMNode0 := evm_failed) evm_client 5)
    "0xbeef" 3 sim_world eq_refl)); [done..|].
  intros Heq. apply (f_equal db.ibcv2_transfers) in Heq. vm_compute in Heq. discriminate.
Defined.

Lemma PacketWriteAckStatus_first_witness :
  (evm_PacketWriteAckStatus (EVMNode0 := evm_ok) evm_client "0x1" 4 "a" "b" start).1 =
  Ret db.Ibcv2WriteAckStatusSUCCESS.
Proof.
  assert (Ho : (evm_receipt_once (EVMNode0 := evm_ok) evm_client "0x1" start).1 =
    Ret (Some ok_receipt)) by (vm_compute; reflexivity).
  destruct (evm_receipt_once (EVMNode0 := evm_ok) evm_client "0x1" start) as [o x1] eqn:E.
  simpl in Ho. subst o.
  erewrite (proj2 (PacketWriteAckStatus_first (EVMNode0 := evm_ok) evm_client "0x1" 4 "a" "b" start
    ok_receipt x1 bytes_of_string db.Ibcv2WriteAckStatusSUCCESS eq_refl E)); [done|].
  exists [None], demo_log, (mkContractWriteAcknowledgement [] (Some 4) demo_packet [[1]] demo_log), [].
  split; [done|]. split; [by repeat constructor|]. split_and!; reflexivity.
Defined.

Lemma cosmos_write_ack_first_witness :
  (cosmos_PacketWriteAckStatus (CosmosNode0 := cosmos_ok) cosmos_client "ab" 4 "a" "b" start).1 =
  Ret db.Ibcv2WriteAckStatusSUCCESS.
Proof.
  assert (Ho : (cosmos_tx_once (CosmosNode0 := cosmos_ok) cosmos_client "ab" [171] start).1 =
    Ret (Some demo_tx)) by (vm_compute; reflexivity).
  destruct (cosmos_tx_once (CosmosNode0 := cosmos_ok) cosmos_client "ab" [171] start)
    as [o x1] eqn:E. simpl in Ho. subst o.
  rewrite (cosmos_write_ack_first (CosmosNode0 := cosmos_ok) cosmos_client "ab" 4 "a" "b" start
    [171] demo_tx x1 eq_refl E). reflexivity.
Defined.

Lemma cosmos_write_ack_decodes_witness :
  (cosmos_PacketWriteAckStatus (CosmosNode0 := cosmos_ok) cosmos_client "ab" 4 "a" "b" start).1 =
  Ret (status_of_acks [[1]]).
Proof.
  assert (Ho : (cosmos_tx_once (CosmosNode0 := cosmos_ok) cosmos_client "ab" [171] start).1 =
    Ret (Some demo_tx)) by (vm_compute; reflexivity).
  destruct (cosmos_tx_once (CosmosNode0 := cosmos_ok) cosmos_client "ab" [171] start)
    as [o x1] eqn:E. simpl in Ho. subst o.
  destruct (cosmos_write_ack_decodes (CosmosNode0 := cosmos_ok) cosmos_client "ab" 4 "a" "b" start
    [171] demo_tx x1 ack_event [10; 1; 1] eq_refl E) as (r & -> & Hr & Hw);
    [reflexivity|reflexivity|repeat constructor; done|reflexivity|].
  rewrite (Hw (channel.mkAcknowledgement [[1]])) in Hr; [|repeat constructor; done|reflexivity].
  exact Hr.
Defined.

Lemma SendPacketsFromTx_typed_witness :
  Forall packet_typed [mkPacketInfo 4 "a" "b" (99 * Second) (100 * Second)].
Proof.
  exact (proj1 (proj1 (SendPacketsFromTx_typed (EVMNode0 := evm_ok) (CosmosNode0 := cosmos_ok) evm_client
    "chain" "ab" start _ start) eq_refl)).
Defined.

Lemma commitment_path_roundtrip_witness :
  ∃ bz, commitment_path "a" 2 4 = Ret bz ∧ parse_path bz = (bytes_of_string "a", Some 2, 4).
Proof.
  destruct (commitment_path_roundtrip "a" 2 4) as (bz & H1 & H2 & _); [by split|eauto].
Defined.

(** How far, in milliseconds, the clock is from the block at 120 seconds. *)
Definition sim_rank (y : Sim) : nat := Z.to_nat ((200 * Second - clock y) / Millisecond).

Lemma WaitForChain_terminates_witness :
  ∃ x', ∀ ticks, (sim_rank (after1 start) < ticks)%nat →
    evm_WaitForChain (EVMNode0 := evm_ok) ticks start = (Ret tt, x').
Proof.
  apply (proj1 (WaitForChain_terminates (EVMNode0 := evm_ok) (CosmosNode0 := cosmos_ok)
    (λ y, 0 ≤ clock y < 200 * Second) sim_rank start)). split; [vm_compute; by split|].
  intros d y Hd Hy. eexists _, _, _. split; [reflexivity|]. split; [reflexivity|].
  set (t := clock y + Z.max 0 d).
  assert (Ht : 0 ≤ t < 201 * Second) by (unfold t, Second, Millisecond in *; lia).
  change (read1 start) with (100 * Second).
  destruct (Z.le_gt_cases (108 * Second) t) as [Hlt|Hlt].
  - left. unfold header_time. simpl. fold t. unfold time_Unix.
    assert (9 ≤ t / Second / 12 < 17) as Hb.
    { unfold Second in *. split; [apply Z.div_le_lower_bound; [lia|]; apply Z.div_le_lower_bound; lia|].
      apply Z.div_lt_upper_bound; [lia|]. apply Z.div_lt_upper_bound; lia. }
    assert (int64 (12 * (t / Second / 12)) = 12 * (t / Second / 12)) as Hi.
    { unfold int64. rewrite Z.mod_small; lia. }
    rewrite Hi. unfold Second in *. lia.
  - right. intros lv msg. unfold sim_rank. simpl. fold t. unfold Second, Millisecond in *.
    split; [lia|]. apply Z2Nat.inj_lt; [apply Z.div_pos; lia..|].
    apply Z.div_lt_upper_bound; [lia|].
    pose proof (Z.mul_succ_div_gt (200 * 1000000000 - clock y) 1000000). lia.
Defined.

Lemma WaitForTx_no_timeout_witness :
  (evm_WaitForTx (EVMNode0 := evm_missing) 1000 "ab" start).1 = Fail (Sentinel ContextCanceled).
Proof.
  refine (proj1 (WaitForTx_no_timeout (EVMNode0 := evm_missing) (CosmosNode0 := cosmos_missing)
    "ab" [171] (ErrorNew "tx not found") _ _ eq_refl eq_refl _ 1000 start)); eauto.
Defined.

Lemma DeliverTx_spaced_witness :
  (∃ x1, zero_time + 2 * Second ≤ clock x1 ∧
     (signAndSubmitData (EVMNode0 := evm_ok) evm_client [1] "x" x1).1 = Ret [1]) ∧
  ∃ x1, zero_time + 8 * Second ≤ clock x1 ∧
    (cosmos_send (CosmosNode0 := cosmos_ok) cosmos_client [1] x1).1 = Ret ("cosmos1", [9]).
Proof.
  destruct (DeliverTx_spaced (EVMNode0 := evm_ok) (CosmosNode0 := cosmos_ok) clock evm_client
    cosmos_client [1] "x") as [Hevm Hcosmos]. split.
  - destruct (Hevm start _ _ ltac:(vm_compute; discriminate) (surjective_pairing _))
      as [(d & e & x1 & H & _)|(x1 & r & x2 & Hlt & Hr & _)]; [done|].
    exists x1. split; [exact Hlt|]. reflexivity.
  - destruct (Hcosmos start _ _ ltac:(vm_compute; discriminate) (surjective_pairing _))
      as [(d & e & x1 & H & _)|(x1 & r & x2 & Hlt & Hr & _)]; [done|].
    exists x1. split; [exact Hlt|]. reflexivity.
Defined.

Lemma IsTxFinalized_offset_witness :
  (evm_IsTxFinalized (EVMNode0 := evm_ok) "ab" (Some 3) start).1 = Ret true.
Proof.
  rewrite (IsTxFinalized_offset (EVMNode0 := evm_ok) "ab" 3 start ok_receipt 5 start
    (latest (Some 7) start) start); reflexivity || done || by split.
Defined.

Lemma IsTimestampFinalized_boundary_witness :
  evm_IsTimestampFinalized (EVMNode0 := evm_ok) (84 * Second) (Some 1) start = (Ret true, start) ∧
  cosmos_IsTimestampFinalized (CosmosNode0 := cosmos_ok) (84 * Second) (Some 1)
    (set_clock (84 * Second) start) = (Ret false, set_clock (84 * Second) start).
Proof.
  destruct (IsTimestampFinalized_boundary (EVMNode0 := evm_ok) (CosmosNode0 := cosmos_ok)
    1 start start (84 * Second) (set_clock (84 * Second) start) (set_clock (84 * Second) start))
    as (H1 & H2 & _); [lia| |done|done].
  exists (latest (Some 7) start), start, (mkHeader 7 84 (Some 7)).
  split; [done|]. split; [by split|]. split; [vm_compute; by split|]. split; reflexivity.
Defined.

Lemma signAndSubmit_batches_witness :
  ∃ bs b, concat (bs ++ [b]) ≡ₚ ["update"; "recv"; "update"] ∧
    submitted (CosmosNode0 := cosmos_ok) cosmos_client (bs ++ [b]) [9] start
      (signAndSubmit (CosmosNode0 := cosmos_ok) cosmos_client [1] start).2.
Proof.
  destruct (signAndSubmit_batches (CosmosNode0 := cosmos_ok) cosmos_client [1] start [9]
    (signAndSubmit (CosmosNode0 := cosmos_ok) cosmos_client [1] start).2)
    as (anys & msgs & bs & b & Ha & Hm & Hs & Hp & _); [vm_compute; reflexivity|].
  exists bs, b. split; [|exact Hs]. injection Ha as <-. injection Hm as <-. exact Hp.
Defined.

Lemma getTxFee_covers_witness :
  ∃ fee, getTxFee cosmos_client 100000 = Ret ("uatom", fee) ∧ 0 < fee ∧
    product_below 100000 7205759403792794 (-58) fee.
Proof. by apply (getTxFee_covers cosmos_client 100000 7205759403792794 (-58)). Defined.

Lemma newTx_fee_cap_witness :
  (newTx (EVMNode0 := evm_node (λ _, Ret None) None []) evm_client [] "x" start).1 = Panic.
Proof.
  by rewrite (newTx_fee_cap (EVMNode0 := evm_node (λ _, Ret None) None []) evm_client [] "x" start
    (latest None start) start 3 start eq_refl eq_refl).
Defined.

Lemma NewEVMBridgeClient_typed_witness : length (evm_signerAddress evm_client) = AddressLength.
Proof.
  exact (proj1 (NewEVMBridgeClient_typed (EVMNode0 := evm_ok) evm_lens "1" "r" "t"
    (NewLocalEthereumSigner tt) None None start _ _ eq_refl)).
Defined.

Lemma demo_answers_by_abi : answers_by_abi (EVMNode0 := evm_ok).
Proof.
  intros contract method args x x' out [= <- _]. unfold answer, outputs.
  destruct (bc_abi contract); repeat case_bool_decide; subst; try done; repeat constructor; eauto.
Qed.

Lemma commitment_queries_witness :
  (evm_IsPacketCommitted (EVMNode0 := evm_ok) evm_client "client-0" 4 start).1 = Ret false.
Proof.
  destruct (commitment_queries (EVMNode0 := evm_ok) evm_lens "1" "r" "t" (evm_signer evm_client)
    None None start _ _ "client-0" 4 start demo_answers_by_abi eq_refl) as [_ [_ (h & Hh & Hr)]].
  simpl in Hh. injection Hh as <-. exact Hr.
Defined.

Definition tx_lens : Lens Sim (OnceWithKey (option Receipt)) :=
  lens_compose evm_lens evm_tx_field.

Lemma Do_window_witness :
  ∃ x', Do tx_lens "ab" (ret (Some ok_receipt)) start = (Ret (Some ok_receipt), x').
Proof.
  destruct (Do_window tx_lens "ab" (ret (Some ok_receipt)) start (Ret (Some ok_receipt))
    (start_state tx_lens "ab" start)) as (x' & H & _);
    [apply once_wf_new|done|reflexivity|reflexivity|done|by exists x'].
Defined.

Lemma Do_never_frees_witness :
  {[inl "ab"; inl "cd"]} ⊆
  dom (onces (lget tx_lens (Do_all tx_lens [("ab", ret None); ("cd", ret None)] start))).
Proof.
  pose proof (Do_never_frees tx_lens [("ab", ret None); ("cd", ret None)] start) as H.
  etransitivity; [|apply H; [apply once_wf_new|by repeat constructor]].
  simpl. set_solver.
Defined.
End witnesses.
