(* ===== verification/SignerLaws.v ===== *)
(** * In whose name the EVM client submits

    [SignsAs] is what the EVM client relies on of a signer: a transaction it
    has signed has the signer's address as its sender and is otherwise the one
    it was given. The local signer and the signer behind the signer service
    keep it ([local_signs_as], [remote_signs_as]), the first by what go-ethereum
    documents of signatures ([GethLaws]), the second if the service signs with
    the key it gives out for the wallet ([HonestWallet]).

    - [submits_as_signer]: what the client sends is then a transaction of its
      own address, with the nonce the node has given for that address.
    - [console_asks]: the console signer signs only what was confirmed. *)
From stdpp Require Import prelude strings list.
From Stdlib Require Import ZArith.
From S2P Require Import Prelude Go Config Db Transfer World Client Float Once Signing Bindings EvmClient.
From S2P Require Import ClientDemo.
Open Scope Z_scope.

(** What is signed of a transaction, and the sender of a signed one. *)
Class GethLaws `{!Geth} := mkGethLaws {
  tx_data : EthTransaction → DynamicFeeTx;
  NewTx_data d : tx_data (NewTx d) = d;
  SignTx_data t c k t' : SignTx t c k = Ret t' → tx_data t' = tx_data t;
  SignTx_sender t c k t' : SignTx t c k = Ret t' → Sender c t' = Ret (PubkeyToAddress k);
  WithSignature_data c t sig t' : WithSignature c t sig = Ret t' → tx_data t' = tx_data t;
  (** The sender is the address of the key [Ecrecover] finds. *)
  WithSignature_sender c t h sig pub t' :
    CancunSigner_Hash (Some c) t = Ret h → Ecrecover h sig = Ret pub →
    WithSignature (Some c) t sig = Ret t' → Sender c t' = UnmarshalPubkey_Address pub;
}.

Section signers.
Context {X : Type} `{!Geth} `{!CosmosSDK} `{!Runtime X} `{!EVMNode X} `{!GethLaws}.

(** ** The contract of a signer *)

Class SignsAs (signer : Signer X) (chainID : string) (address : Address) : Prop := {
  signs_as tx x tx' x' : Sign signer chainID tx x = (Ret tx', x') →
    ∃ t t' c, tx = EthTx t ∧ tx' = EthTx t' ∧ SetString chainID = Some c ∧
      Sender c t' = Ret address ∧ tx_data t' = tx_data t;
  (** An address that is not twenty bytes long is no address. *)
  address_as x a x' : signer_Address signer x = (Ret a, x') → length a = AddressLength → a = address;
}.

#[global] Instance local_signs_as k chainID :
  SignsAs (NewLocalEthereumSigner k) chainID (PubkeyToAddress k).
Proof.
  split; [|by intros x a x' [= <- _] _].
  intros [|t|t] x tx' x' Hs; simpl in Hs; try done.
  destruct (SetString chainID) as [c|] eqn:Hc; [|done].
  apply ebind_inv in Hs as (t' & x1 & Ht' & Hs). unfold elift in Ht'. injection Ht' as Ht' <-.
  injection Hs as <- _. exists t, t', c. eauto 10 using SignTx_sender, SignTx_data.
Qed.

(** The service signs for a wallet with the key it gives out for it. *)
Class HonestWallet `{!SignerService X} (wallet : string) (pub : bytes) : Prop := {
  wallet_key x b x' : sc_GetWallet wallet PubKeyType_Ethereum x = (Ret b, x') → b = pub;
  wallet_signs chainID c t bz h x resp x' :
    EthTransaction_MarshalBinary t = Ret bz →
    sc_Sign wallet (EvmPayload chainID bz) x = (Ret resp, x') →
    SetString chainID = Some c → CancunSigner_Hash (Some c) t = Ret h →
    ∀ pub', Ecrecover h (resp_Evm_R resp ++ (resp_Evm_S resp ++ resp_Evm_V resp)) = Ret pub' →
      pub' = pub;
}.

(** The wallet's service does the rest of what [SignsAs] asks. *)
Lemma remote_signs_as `{!SignerService X} wallet pub chainID c address :
  HonestWallet wallet pub → SetString chainID = Some c → UnmarshalPubkey_Address pub = Ret address →
  SignsAs (NewRemoteEVMSigner wallet chainID) chainID address.
Proof.
  intros Hw Hc Hpub. split.
  - intros [|t|t] x tx' x' Hs; simpl in Hs; try done.
    apply ebind_inv in Hs as (t' & x1 & Hs & Hret). injection Hret as <- _. apply ewrap_Ret in Hs.
    apply ebind_inv in Hs as (bz & y1 & Hbz%ewrap_Ret & Hs). injection Hbz as Hbz <-.
    apply ebind_inv in Hs as (resp & y2 & Hresp%ewrap_Ret & Hs).
    apply ebind_inv in Hs as (h & y3 & Hh & Hs). injection Hh as Hh <-.
    apply ebind_inv in Hs as (pub' & y4 & Hpub'%ewrap_Ret & Hs). injection Hpub' as Hpub' <-.
    apply ewrap_Ret in Hs. injection Hs as Hs _. rewrite Hc in Hh, Hs.
    assert (pub' = pub) as -> by (by eapply wallet_signs).
    exists t, t', c. split_and!; [done..| |by eapply WithSignature_data].
    rewrite <- Hpub. by eapply WithSignature_sender.
  - intros x a x' Ha Hl. simpl in Ha. apply ebind_inv in Ha as (r & y1 & Hr & Ha).
    unfold eattempt, SignerManager_GetWallet in Hr.
    destruct (sc_GetWallet _ _ x) as [[b|e|] y] eqn:Hg; simplify_eq;
      [|by injection Ha as <- _].
    assert (b = pub) as -> by (by eapply wallet_key).
    unfold mbind, Ext_bind, eattempt, elift in Ha. rewrite Hpub in Ha. by injection Ha as <- _.
Qed.

(** ** The client *)

(** The adapter keeps the contract. *)
Lemma bind_signer_as signer chainID address from t x t' x' :
  SignsAs signer chainID address →
  EthereumSignerToBindSignerFn signer chainID from t x = (Ret t', x') →
  ∃ c, SetString chainID = Some c ∧ Sender c t' = Ret address ∧ tx_data t' = tx_data t.
Proof.
  intros Hs (tx' & x1 & Hsign & Hrun)%ebind_inv.
  destruct (signs_as _ _ _ _ Hsign) as (t0 & t1 & c & [= <-] & -> & Hc & Hsend & Hdata).
  injection Hrun as <- _. by exists c.
Qed.

(** A new transaction calls what it is told to call, with the nonce of the
    address of the client. *)
Lemma newTx_data (client : EVMBridgeClient X) bz address x t x' :
  newTx client bz address x = (Ret t, x') →
  To (tx_data t) = HexToAddress address ∧ Data (tx_data t) = bz ∧
  ∃ y y', PendingNonceAt (evm_signerAddress client) y = (Ret (Nonce (tx_data t)), y').
Proof.
  intros (head & x1 & _ & Hrun)%ebind_inv. apply ebind_inv in Hrun as (tip & x2 & _ & Hrun).
  apply ebind_inv in Hrun as (hd & x3 & _ & Hrun). apply ebind_inv in Hrun as (base & x4 & _ & Hrun).
  apply ebind_inv in Hrun as (code & x5 & _ & Hrun). destruct code as [|b code]; [done|].
  apply ebind_inv in Hrun as (gas & x6 & _ & Hrun).
  apply ebind_inv in Hrun as (nonce & x7 & Hnonce%ewrap_Ret & Hrun).
  apply ebind_inv in Hrun as (feeCap & x8 & _ & Hrun). apply ebind_inv in Hrun as (tipCap & x9 & _ & Hrun).
  injection Hrun as <- _. rewrite NewTx_data. eauto.
Qed.

(** C30: a client of an EVM chain submits in its own name: with a signer that
    keeps its contract, as the local and the remote one do, the transaction it
    has sent is signed by the address the client was made with, carries the
    nonce the node has given for just that address, and calls the given
    contract with the given bytes. *)
Theorem submits_as_signer (signer : Signer X) address self chainID router transfer f g x0 client x1
    bz to x hash x' :
  SignsAs signer chainID address →
  NewEVMBridgeClient self chainID router transfer signer f g x0 = (Ret client, x1) →
  signAndSubmitData client bz to x = (Ret hash, x') →
  evm_signerAddress client = address ∧
  ∃ t c y, SendTransaction t y = (Ret tt, x') ∧ hash = EthTransaction_Hash t ∧
    SetString chainID = Some c ∧ Sender c t = Ret address ∧
    To (tx_data t) = HexToAddress to ∧ Data (tx_data t) = bz ∧
    ∃ z z', PendingNonceAt address z = (Ret (Nonce (tx_data t)), z').
Proof.
  intros Hs (u1 & y1 & _ & Hnew)%ebind_inv Hrun. apply ebind_inv in Hnew as (u2 & y2 & _ & Hnew).
  apply ebind_inv in Hnew as (addr & y3 & Haddr & Hnew). case_bool_decide as Hl; [|done]. simpl in Hnew.
  unfold mbind, Ext_bind, eset, mret, Ext_ret in Hnew. injection Hnew as <- <-.
  pose proof (address_as _ _ _ Haddr Hl) as ->. split; [done|].
  apply ebind_inv in Hrun as (t & z1 & Ht%ewrap_Ret & Hrun).
  apply ebind_inv in Hrun as (t' & z2 & Ht'%ewrap_Ret & Hrun).
  apply ebind_inv in Hrun as ([] & z3 & Hsend%ewrap_Ret & Hrun). injection Hrun as <- <-.
  simpl in Ht'. destruct (bind_signer_as _ _ _ _ _ _ _ _ Hs Ht') as (c & Hc & Hsender & Hdata).
  destruct (newTx_data _ _ _ _ _ _ Ht) as (Hto & Hbz & Hnonce). exists t', c, z2. rewrite Hdata.
  by split_and!.
Qed.

(** ** The console signer *)

Section console.
Context (ReadString : Ext X string) (TrimSpace : string → string).

(** The signer that is asked for is only called when the answer was yes, and
    its result is handed on unchanged. *)
Lemma console_asks lines signer chainID tx x tx' x' :
  ConsoleSigner_Sign ReadString TrimSpace lines signer chainID tx x = (Ret (Some tx'), x') →
  ∃ y, promptYesNo ReadString TrimSpace lines x = (Ret (Some true), y) ∧
    Sign signer chainID tx y = (Ret tx', x').
Proof.
  intros (json & x1 & Hj & Hrun)%ebind_inv. injection Hj as _ <-.
  apply ebind_inv in Hrun as ([[]|] & y & Hy & Hrun); [|done..].
  apply ebind_inv in Hrun as (t & x2 & Hsign & Hrun). injection Hrun as -> <-. by exists y.
Qed.
End console.
End signers.

(** ** An example *)

Import sim.

#[local, program] Instance demo_laws : GethLaws := {| tx_data := λ t : DynamicFeeTx, t |}.
Next Obligation. done. Qed.
Next Obligation. by intros t c k t' [= <-]. Qed.
Next Obligation. done. Qed.
Next Obligation. by intros c t sig t' [= <-]. Qed.
Next Obligation. done. Qed.

Definition demo_chain : EVMNode Sim := evm_node (λ _, Ret None) (Some 7) [].

Definition demo_key : @EthPrivateKey geth := tt.

Lemma submits_as_signer_witness :
  ∃ t : DynamicFeeTx, Sender 1 t = Ret address1 ∧ To t = bytes_of_string "x" ∧ Data t = [1].
Proof.
  destruct (submits_as_signer (EVMNode0 := demo_chain) (NewLocalEthereumSigner demo_key) address1 evm_lens
    "1" "r" "t" None None start _ _ [1] "x" start [1] _ (local_signs_as demo_key "1") eq_refl eq_refl)
    as (_ & t & c & y & _ & _ & Hc & Hs & Hto & Hdata & _).
  injection Hc as <-. by exists t.
Defined.

(** A service whose one key every signature leads to. *)
#[local] Instance demo_service : SignerService Sim :=
  mkSignerService Sim (λ _ _, ret (mkSignResponse [] [1] [2] [3])) (λ _ _, ret []).

Lemma remote_example : SignsAs (NewRemoteEVMSigner "wallet" "1") "1" address1.
Proof.
  apply (remote_signs_as "wallet" [] "1" 1); [|done..]. split.
  - by intros x b x' [= <- _].
  - by intros chainID c t bz h x resp x' _ _ _ _ pub' [= <-].
Qed.
