(* ===== verification/Metrics.v ===== *)
(** * The metrics backend

    [shared/metrics/metrics.go]: the Prometheus vectors the relayer registers,
    the methods that write to them, the values taken from the context and the
    gRPC interceptors.

    - [vector]: the vectors of [NewPromMetrics], kind, name, buckets and label
      names (the help texts are left out).
    - [call]: the methods of the [Metrics] interface as values;
      [PromMetrics_samples] is what they hand to the Prometheus library: the
      vector, the labels and the operation.
    - [Library]: that library, a parameter; [LibraryLaws] is when its
      documentation promises that it does not panic.

    A counter only ever gets ones added: what is added is an integer. Gauges and
    observations are [float64] values as in [Float.v]. *)
From stdpp Require Import prelude strings list gmap pretty.
From Stdlib Require Import ZArith.
From S2P Require Import Prelude Go Config Db Transfer World Client Float Signing EvmClient.
From S2P Require Import CosmosClient.
Open Scope Z_scope.

Module prom.

(** ** Labels *)

Definition requestStatusCodeLabel : string := "status_code".
Definition methodLabel : string := "method".
Definition chainIDLabel : string := "chain_id".
Definition clientIDLabel : string := "client_id".
Definition counterpartyChainIDLabel : string := "counterparty_chain_id".
Definition gasBalanceLevelLabel : string := "gas_balance_level".
Definition sourceChainIDLabel : string := "source_chain_id".
Definition destinationChainIDLabel : string := "destination_chain_id".
Definition statusLabel : string := "status".
Definition codeLabel : string := "code".
Definition successLabel : string := "success".
Definition providerLabel : string := "provider".
Definition chainNameLabel : string := "chain_name".
Definition sourceChainNameLabel : string := "source_chain_name".
Definition destinationChainNameLabel : string := "destination_chain_name".
Definition chainEnvironmentLabel : string := "chain_environment".
Definition gasTokenSymbolLabel : string := "gas_token_symbol".
Definition sourceChannelLabel : string := "source_channel".
Definition relayTypelLabel : string := "relay_type".
Definition bridgeTypeLabel : string := "bridge_type".
Definition sourceClientIDLabel : string := "source_client_id".
Definition destinationClientIDLabel : string := "destination_client_id".

(** ** Vectors *)

Inductive kind :=
  | Counter
  | Gauge
  | Histogram (Buckets : list Z).

Record Vec := mkVec {
  vec_kind : kind;
  Namespace : string;
  Name : string;
  Labels : list string;
}.

(** The fields of [PromMetrics]. *)
Inductive metric :=
  | totalRequests
  | totalRelayRequests
  | latencyPerRelayerAPIRequest
  | gasBalance
  | gasBalanceState
  | latencyPerNodeDependencyRequest
  | totalRelayerLoops
  | latencyPerRelayerLoop
  | latencyPerAttestationAPIRequest
  | totalAttestationAPIRequests
  | latencyPerAttestationConfirmation
  | totalTransactionSubmitted
  | totalTransactionRetryAttempts
  | totalTransactionsConfirmed
  | totalUnprofitableRelays
  | receiveTransactionGasCost
  | totalUntrackedTransactions
  | latencyPerRelay
  | transferMonitorChainHeightIncreaseCounter
  | totalNobleForwardingRetryAttempts
  | totalNobleForwardingRequestsAbandoned
  | totalNobleForwardingRequests
  | totalExcessiveRelayLatencyObservations
  | totalRelaysCompleted
  | totalExternalRequests
  | latencyPerExternalRequest
  | totalClientsNeedsUpdated
  | totalClientsUpdated
  | totalUnrelayedTransferWithAttestationObservations.

Definition all_metrics : list metric :=
  [totalRequests;
   totalRelayRequests;
   latencyPerRelayerAPIRequest;
   gasBalance;
   gasBalanceState;
   latencyPerNodeDependencyRequest;
   totalRelayerLoops;
   latencyPerRelayerLoop;
   latencyPerAttestationAPIRequest;
   totalAttestationAPIRequests;
   latencyPerAttestationConfirmation;
   totalTransactionSubmitted;
   totalTransactionRetryAttempts;
   totalTransactionsConfirmed;
   totalUnprofitableRelays;
   receiveTransactionGasCost;
   totalUntrackedTransactions;
   latencyPerRelay;
   transferMonitorChainHeightIncreaseCounter;
   totalNobleForwardingRetryAttempts;
   totalNobleForwardingRequestsAbandoned;
   totalNobleForwardingRequests;
   totalExcessiveRelayLatencyObservations;
   totalRelaysCompleted;
   totalExternalRequests;
   latencyPerExternalRequest;
   totalClientsNeedsUpdated;
   totalClientsUpdated;
   totalUnrelayedTransferWithAttestationObservations].

(** [NewPromMetrics]: the options of each vector. *)
Definition vector (m : metric) : Vec :=
  match m with
  | totalRequests => mkVec Counter "relayerapi" "total_request_counter"
      [methodLabel; requestStatusCodeLabel]
  | totalRelayRequests => mkVec Counter "relayerapi" "total_relay_requests_per_bridge"
      [bridgeTypeLabel; requestStatusCodeLabel]
  | latencyPerRelayerAPIRequest => mkVec (Histogram [5; 10; 25; 50; 75; 100; 150; 200; 300; 500;
        750; 1000; 1500; 3000; 5000; 10000; 20000]) "relayerapi" "latency_per_relayer_api_request"
      [methodLabel]
  | gasBalance => mkVec Gauge "relayerapi" "gas_balance_gauge"
      [chainIDLabel; chainNameLabel; gasTokenSymbolLabel; chainEnvironmentLabel; bridgeTypeLabel]
  | gasBalanceState => mkVec Gauge "relayerapi" "gas_balance_state_gauge"
      [chainIDLabel; chainNameLabel; chainEnvironmentLabel; bridgeTypeLabel]
  | latencyPerNodeDependencyRequest => mkVec (Histogram [5; 10; 25; 50; 75; 100; 150; 200; 300;
        500; 750; 1000; 1500; 3000; 5000; 10000; 20000]) "relayerapi"
        "latency_per_node_dependency_request"
      [chainIDLabel; chainNameLabel; chainEnvironmentLabel; methodLabel]
  | totalRelayerLoops => mkVec Counter "relayerapi" "total_relayer_loops_counter"
      []
  | latencyPerRelayerLoop => mkVec (Histogram [5; 10; 25; 50; 75; 100; 150; 200; 300; 500; 750;
        1000; 1500; 3000; 5000; 10000; 20000]) "relayerapi" "latency_per_relayer_loop"
      []
  | latencyPerAttestationAPIRequest => mkVec (Histogram [5; 10; 25; 50; 75; 100; 150; 200; 300;
        500; 750; 1000; 1500; 3000; 5000; 10000; 20000]) "relayerapi"
        "latency_per_attestation_api_request"
      []
  | totalAttestationAPIRequests => mkVec Counter "relayerapi"
        "total_attestation_api_requests_counter"
      [requestStatusCodeLabel]
  | latencyPerAttestationConfirmation => mkVec (Histogram [30; 60; 300; 600; 900; 1200; 1500; 1800;
        2400; 3000; 3600]) "relayerapi" "latency_per_attestation_confirmation"
      [sourceChainIDLabel; destinationChainIDLabel; sourceChainNameLabel;
        destinationChainNameLabel; chainEnvironmentLabel]
  | totalTransactionSubmitted => mkVec Counter "relayerapi" "total_transactions_submitted_counter"
      [successLabel; sourceChainIDLabel; destinationChainIDLabel; sourceChainNameLabel;
        destinationChainNameLabel; chainEnvironmentLabel]
  | totalTransactionRetryAttempts => mkVec Counter "relayerapi"
        "total_transaction_retry_attempts_counter"
      [sourceChainIDLabel; destinationChainIDLabel; sourceChainNameLabel;
        destinationChainNameLabel; chainEnvironmentLabel; relayTypelLabel]
  | totalTransactionsConfirmed => mkVec Counter "relayerapi"
        "total_transactions_confirmed_counter"
      [successLabel; sourceChainIDLabel; destinationChainIDLabel; sourceChainNameLabel;
        destinationChainNameLabel; chainEnvironmentLabel]
  | totalUnprofitableRelays => mkVec Counter "relayerapi" "total_unprofitable_relays_counter"
      [sourceChainNameLabel; destinationChainNameLabel; chainEnvironmentLabel]
  | receiveTransactionGasCost => mkVec Gauge "relayerapi" "receive_transaction_gas_cost_gauge"
      [sourceChainIDLabel; destinationChainIDLabel; sourceChainNameLabel;
        destinationChainNameLabel; chainEnvironmentLabel]
  | totalUntrackedTransactions => mkVec Counter "relayerapi" "total_untracked_transfer_counter"
      [chainIDLabel; chainNameLabel; chainEnvironmentLabel]
  | latencyPerRelay => mkVec (Histogram [1000; 2000; 3000; 4000; 5000; 10000; 15000; 20000; 25000;
        30000; 45000; 60000; 90000; 120000; 150000; 180000; 210000; 240000; 270000; 300000; 600000;
        900000; 1200000; 1500000; 1800000; 1920000; 2100000; 2250000; 2400000; 2700000; 3000000;
        3300000; 3600000]) "relayerapi" "latency_per_relay"
      [sourceChainIDLabel; destinationChainIDLabel; sourceChainNameLabel;
        destinationChainNameLabel; chainEnvironmentLabel; relayTypelLabel]
  | transferMonitorChainHeightIncreaseCounter => mkVec Counter "relayerapi"
        "transfer_monitor_chain_height_increase_counter"
      [chainIDLabel; chainNameLabel; chainEnvironmentLabel]
  | totalNobleForwardingRetryAttempts => mkVec Counter "relayerapi"
        "total_noble_forwarding_retry_attempts_counter"
      [sourceChannelLabel; chainEnvironmentLabel]
  | totalNobleForwardingRequestsAbandoned => mkVec Counter "relayerapi"
        "total_noble_forwarding_requests_abandoned"
      [sourceChannelLabel; chainEnvironmentLabel]
  | totalNobleForwardingRequests => mkVec Counter "relayerapi" "total_noble_forwarding_requests"
      [sourceChannelLabel; chainEnvironmentLabel]
  | totalExcessiveRelayLatencyObservations => mkVec Counter "relayerapi"
        "total_excessive_relay_latency_observations"
      [sourceChainNameLabel; destinationChainNameLabel; chainEnvironmentLabel; relayTypelLabel]
  | totalRelaysCompleted => mkVec Counter "relayerapi" "total_relays_completed"
      [sourceChainIDLabel; sourceClientIDLabel; destinationChainIDLabel; destinationClientIDLabel;
        relayTypelLabel]
  | totalExternalRequests => mkVec Counter "relayerapi" "total_external_requests"
      [sourceChainIDLabel; sourceClientIDLabel; destinationChainIDLabel; destinationClientIDLabel;
        methodLabel; statusLabel; codeLabel; providerLabel; bridgeTypeLabel]
  | latencyPerExternalRequest => mkVec (Histogram [50; 100; 200; 300; 500; 750; 1000; 1500; 3000;
        5000; 10000; 15000; 20000; 25000; 30000; 35000; 40000; 45000; 50000; 55000; 60000; 65000;
        70000; 75000; 80000; 85000; 90000; 95000; 100000]) "relayerapi"
        "latency_per_external_request"
      [sourceChainIDLabel; sourceClientIDLabel; destinationChainIDLabel; destinationClientIDLabel;
        methodLabel; providerLabel; bridgeTypeLabel]
  | totalClientsNeedsUpdated => mkVec Counter "relayerapi" "total_clients_needs_updated"
      [chainIDLabel; clientIDLabel; counterpartyChainIDLabel]
  | totalClientsUpdated => mkVec Counter "relayerapi" "total_clients_updated"
      [chainIDLabel; clientIDLabel; counterpartyChainIDLabel]
  | totalUnrelayedTransferWithAttestationObservations => mkVec Counter "relayerapi"
        "total_unrelayed_transfer_with_attestation_observations"
      [sourceChainNameLabel; destinationChainNameLabel; chainEnvironmentLabel]
  end.

(** ** Samples *)

Inductive op :=
  | Add (n : Z)
  | Set_to (v : dyadic)
  | Observe (v : dyadic).

#[global] Instance metric_eq_dec : EqDecision metric.
Proof. solve_decision. Defined.
#[global] Instance op_eq_dec : EqDecision op.
Proof. solve_decision. Defined.

(** [m.metric.With(label, value, ...)] and the operation on it. *)
Record sample := mkSample {
  s_metric : metric;
  s_With : list (string * string);
  s_op : op;
}.

(** The name a vector is exported under. *)
Definition fqName (v : Vec) : string := Namespace v +:+ "_" +:+ Name v.

(** ** The Prometheus library

    [NewCounterFrom] and the like, which create a vector and register it, and
    [With(...)] followed by [Add], [Set] or [Observe]. *)

Class Library (R : Type) := mkLibrary {
  lib_New : Vec → R → outcome R;
  lib_With : Vec → list (string * string) → op → R → outcome R;
}.

Fixpoint increasing (l : list Z) : bool :=
  match l with
  | a :: (b :: _) as l' => (a <? b) && increasing l'
  | _ => true
  end.

(** Distinct label names, and buckets in increasing order. *)
Definition well_declared (v : Vec) : Prop :=
  NoDup (Labels v) ∧ match vec_kind v with Histogram b => increasing b = true | _ => True end.

(** An operation the vector has; a counter does not decrease. *)
Definition accepts (v : Vec) (o : op) : Prop :=
  match vec_kind v, o with
  | Counter, Add n => 0 ≤ n
  | Gauge, Set_to _ | Histogram _, Observe _ => True
  | _, _ => False
  end.

(** When the library does not panic: registering a well-declared vector under a
    name that is not taken, and writing to a registered vector with the labels
    it was declared with, whose values are valid UTF-8. *)
Class LibraryLaws (R : Type) `{!Library R} := {
  lib_names : R → list string;
  lib_utf8 : string → Prop;
  lib_New_ok v r : well_declared v → fqName v ∉ lib_names r →
    ∃ r', lib_New v r = Ret r' ∧ lib_names r' ≡ₚ fqName v :: lib_names r;
  lib_With_ok v ls o r : fqName v ∈ lib_names r → ls.*1 ≡ₚ Labels v →
    Forall lib_utf8 ls.*2 → accepts v o →
    ∃ r', lib_With v ls o r = Ret r' ∧ lib_names r' ≡ₚ lib_names r;
}.

Section library.
Context {R : Type} `{!Library R}.

Fixpoint register_all (ms : list metric) (r : R) : outcome R :=
  match ms with
  | [] => Ret r
  | m :: ms' =>
      match lib_New (vector m) r with
      | Ret r' => register_all ms' r'
      | Fail e => Fail e
      | Panic => Panic
      end
  end.

Definition NewPromMetrics : R → outcome R := register_all all_metrics.

Fixpoint emit_all (ss : list sample) (r : R) : outcome R :=
  match ss with
  | [] => Ret r
  | s :: ss' =>
      match lib_With (vector (s_metric s)) (s_With s) (s_op s) r with
      | Ret r' => emit_all ss' r'
      | Fail e => Fail e
      | Panic => Panic
      end
  end.
End library.

(** ** The context *)

(** The values [ContextWith...] stores; each has a key of its own type. *)
Record MetricsContext := mkMetricsContext {
  ctx_sourceChainID : option string;
  ctx_destinationChainID : option string;
  ctx_sourceClientID : option string;
  ctx_destinationClientID : option string;
  ctx_bridgeType : option string;
}.

Definition SourceChainIDFromContext (ctx : MetricsContext) : string :=
  default "" (ctx_sourceChainID ctx).
Definition SourceClientIDFromContext (ctx : MetricsContext) : string :=
  default "" (ctx_sourceClientID ctx).
Definition DestinationChainIDFromContext (ctx : MetricsContext) : string :=
  default "" (ctx_destinationChainID ctx).
Definition DestinationClientIDFromContext (ctx : MetricsContext) : string :=
  default "" (ctx_destinationClientID ctx).
Definition BridgeTypeFromContext (ctx : MetricsContext) : string :=
  default "" (ctx_bridgeType ctx).

(** ** The methods *)

Definition SuccessStatus : string := "success".
Definition FailureStatus : string := "failure".

Definition relay_type_string (t : metrics.RelayType) : string :=
  match t with
  | metrics.IBCV2SendToRecvRelayType => "ibcv2_send_to_recv"
  | metrics.IBCV2SendToTimeoutRelayType => "ibcv2_send_to_timeout"
  | metrics.IBCV2RecvToAckRelayType => "ibcv2_recv_to_ack"
  end.

(** [float64(d.Milliseconds())]. *)
Definition milliseconds (d : Duration) : dyadic := fl_of_Z (Z.quot d Millisecond).

(** [d.Seconds()]: the seconds and the fraction are converted apart. *)
Definition seconds (d : Duration) : dyadic :=
  fl_add (fl_of_Z (Z.quot d Second)) (fl_div (fl_of_Z (Z.rem d Second)) (fl_of_Z Second)).

(** [fmt.Sprint] of an unsigned number and of a bool. *)
Definition sprint (z : Z) : string := pretty z.
Definition sprint_bool (b : bool) : string := if b then "true" else "false".

(** The level of a gas balance: 0 is fine, 1 a warning, 2 critical. *)
Definition gas_level (balance warningThreshold criticalThreshold : Z) : Z :=
  if balance <? criticalThreshold then 2
  else if balance <? warningThreshold then 1
  else 0.

Definition SetGasBalance (chainID chainName gasTokenSymbol chainEnvironment : string)
    (balance warningThreshold criticalThreshold gasTokenDecimals : Z) (bridgeType : string)
    : list sample :=
  let gasTokenAmount := fl_div (fl_of_Z balance) (Pow10 gasTokenDecimals) in
  let level := gas_level balance warningThreshold criticalThreshold in
  [mkSample gasBalanceState
     [(chainIDLabel, chainID); (chainNameLabel, chainName);
      (chainEnvironmentLabel, chainEnvironment); (bridgeTypeLabel, bridgeType)]
     (Set_to (fl_of_Z level));
   mkSample gasBalance
     [(chainIDLabel, chainID); (chainNameLabel, chainName); (gasTokenSymbolLabel, gasTokenSymbol);
      (chainEnvironmentLabel, chainEnvironment); (bridgeTypeLabel, bridgeType)]
     (Set_to gasTokenAmount)].

Definition addExternalRequest (ctx : MetricsContext) (method status code provider bridgeType : string)
    : sample :=
  mkSample totalExternalRequests
    [(methodLabel, method); (statusLabel, status); (codeLabel, code); (providerLabel, provider);
     (bridgeTypeLabel, bridgeType); (sourceChainIDLabel, SourceChainIDFromContext ctx);
     (destinationChainIDLabel, DestinationChainIDFromContext ctx);
     (sourceClientIDLabel, SourceClientIDFromContext ctx);
     (destinationClientIDLabel, DestinationClientIDFromContext ctx)] (Add 1).

Definition ExternalRequestLatency (ctx : MetricsContext) (method provider : string)
    (latency : Duration) : sample :=
  mkSample latencyPerExternalRequest
    [(methodLabel, method); (providerLabel, provider);
     (bridgeTypeLabel, BridgeTypeFromContext ctx);
     (sourceChainIDLabel, SourceChainIDFromContext ctx);
     (destinationChainIDLabel, DestinationChainIDFromContext ctx);
     (sourceClientIDLabel, SourceClientIDFromContext ctx);
     (destinationClientIDLabel, DestinationClientIDFromContext ctx)]
    (Observe (milliseconds latency)).

(** A route and the environment, as five methods label it. *)
Record Route := mkRoute {
  route_sourceChainID : string;
  route_destinationChainID : string;
  route_sourceChainName : string;
  route_destinationChainName : string;
  route_chainEnvironment : string;
}.

Definition route_labels (r : Route) : list (string * string) :=
  [(sourceChainIDLabel, route_sourceChainID r); (destinationChainIDLabel, route_destinationChainID r);
   (sourceChainNameLabel, route_sourceChainName r);
   (destinationChainNameLabel, route_destinationChainName r);
   (chainEnvironmentLabel, route_chainEnvironment r)].

(** The methods of [PromMetrics] with their arguments; the methods of the
    pipeline are those of [metrics.event]. *)
Inductive call :=
  | Event (e : metrics.event)
  | AddRequest (method : string) (statusCode : Z)
  | AddRelayerAPIRequestLatency (method : string) (duration : Duration)
  | AddSuccessfulExternalRequest (method code provider : string)
  | AddFailedExternalRequest (method code provider : string)
  | RecordExternalRequestLatency (method provider : string) (latency : Duration)
  | NodeDependencyLatency (chainID chainName chainEnvironment method : string) (latency : Duration)
  | AddRelayerLoop
  | RelayerLoopLatency (latency : Duration)
  | AttestationAPILatency (latency : Duration)
  | AddAttestationAPIRequest (statusCode : Z)
  | AttestationConfirmationLatency (route : Route) (latency : Duration)
  | AddTransactionSubmitted (success : bool) (route : Route)
  | AddTransactionConfirmed (success : bool) (route : Route)
  | AddUnprofitableRelay (sourceChainName destinationChainName chainEnvironment : string)
  | SetReceiveTransactionGasCost (route : Route) (gasCost : Z)
  | AddUntrackedTransfer (chainID chainName chainEnvironment : string)
  | AddNobleForwardingRetryAttempt (sourceChannel chainEnvironment : string)
  | AddNobleForwardingRequestAbandoned (sourceChannel chainEnvironment : string)
  | AddNobleForwardingRequest (sourceChannel chainEnvironment : string)
  | AddTransferMonitorChainHeightIncrease (chainID chainName chainEnvironment : string)
  | AddClientNeedsUpated (chainID clientID counterpartyChainID : string)
  | AddClientUpdated (chainID clientID counterpartyChainID : string)
  | AddUnrelayedTransferWithAttestationObservation (sourceChainName destinationChainName
      chainEnvironment : string).

(** The methods the pipeline calls. *)
Definition event_samples (e : metrics.event) : list sample :=
  match e with
  | metrics.AddTransactionRetryAttempt sc dc sn dn env t =>
      [mkSample totalTransactionRetryAttempts
         [(sourceChainIDLabel, sc); (destinationChainIDLabel, dc); (sourceChainNameLabel, sn);
          (destinationChainNameLabel, dn); (chainEnvironmentLabel, env);
          (relayTypelLabel, relay_type_string t)] (Add 1)]
  | metrics.AddExcessiveRelayLatencyObservation sn dn env t =>
      [mkSample totalExcessiveRelayLatencyObservations
         [(sourceChainNameLabel, sn); (destinationChainNameLabel, dn);
          (chainEnvironmentLabel, env); (relayTypelLabel, relay_type_string t)] (Add 1)]
  | metrics.RelayLatency sc dc sn dn env t latency =>
      [mkSample latencyPerRelay
         [(sourceChainIDLabel, sc); (destinationChainIDLabel, dc); (sourceChainNameLabel, sn);
          (destinationChainNameLabel, dn); (chainEnvironmentLabel, env);
          (relayTypelLabel, relay_type_string t)] (Observe (milliseconds latency))]
  | metrics.AddRelayCompleted sc sl dc dl t =>
      [mkSample totalRelaysCompleted
         [(sourceChainIDLabel, sc); (sourceClientIDLabel, sl); (destinationChainIDLabel, dc);
          (destinationClientIDLabel, dl); (relayTypelLabel, relay_type_string t)] (Add 1)]
  | metrics.AddRelayRequest bridgeType statusCode =>
      [mkSample totalRelayRequests
         [(bridgeTypeLabel, bridgeType); (requestStatusCodeLabel, sprint statusCode)] (Add 1)]
  | metrics.SetGasBalance chainID chainName sym env b w c d bridgeType =>
      SetGasBalance chainID chainName sym env b w c d bridgeType
  end.

Definition PromMetrics_samples (ctx : MetricsContext) (c : call) : list sample :=
  match c with
  | Event e => event_samples e
  | AddRequest method statusCode =>
      [mkSample totalRequests
         [(methodLabel, method); (requestStatusCodeLabel, sprint statusCode)] (Add 1)]
  | AddRelayerAPIRequestLatency method duration =>
      [mkSample latencyPerRelayerAPIRequest [(methodLabel, method)] (Observe (milliseconds duration))]
  | AddSuccessfulExternalRequest method code provider =>
      [addExternalRequest ctx method SuccessStatus code provider (BridgeTypeFromContext ctx)]
  | AddFailedExternalRequest method code provider =>
      [addExternalRequest ctx method FailureStatus code provider (BridgeTypeFromContext ctx)]
  | RecordExternalRequestLatency method provider latency =>
      [ExternalRequestLatency ctx method provider latency]
  | NodeDependencyLatency chainID chainName env method latency =>
      [mkSample latencyPerNodeDependencyRequest
         [(chainIDLabel, chainID); (chainNameLabel, chainName); (chainEnvironmentLabel, env);
          (methodLabel, method)] (Observe (milliseconds latency))]
  | AddRelayerLoop => [mkSample totalRelayerLoops [] (Add 1)]
  | RelayerLoopLatency latency =>
      [mkSample latencyPerRelayerLoop [] (Observe (milliseconds latency))]
  | AttestationAPILatency latency =>
      [mkSample latencyPerAttestationAPIRequest [] (Observe (milliseconds latency))]
  | AddAttestationAPIRequest statusCode =>
      [mkSample totalAttestationAPIRequests [(requestStatusCodeLabel, sprint statusCode)] (Add 1)]
  | AttestationConfirmationLatency route latency =>
      [mkSample latencyPerAttestationConfirmation (route_labels route) (Observe (seconds latency))]
  | AddTransactionSubmitted success route =>
      [mkSample totalTransactionSubmitted ((successLabel, sprint_bool success) :: route_labels route)
         (Add 1)]
  | AddTransactionConfirmed success route =>
      [mkSample totalTransactionsConfirmed ((successLabel, sprint_bool success) :: route_labels route)
         (Add 1)]
  | AddUnprofitableRelay sn dn env =>
      [mkSample totalUnprofitableRelays
         [(sourceChainNameLabel, sn); (destinationChainNameLabel, dn); (chainEnvironmentLabel, env)]
         (Add 1)]
  | SetReceiveTransactionGasCost route gasCost =>
      [mkSample receiveTransactionGasCost (route_labels route) (Set_to (fl_of_Z gasCost))]
  | AddUntrackedTransfer chainID chainName env =>
      [mkSample totalUntrackedTransactions
         [(chainIDLabel, chainID); (chainNameLabel, chainName); (chainEnvironmentLabel, env)] (Add 1)]
  | AddNobleForwardingRetryAttempt sourceChannel env =>
      [mkSample totalNobleForwardingRetryAttempts
         [(sourceChannelLabel, sourceChannel); (chainEnvironmentLabel, env)] (Add 1)]
  | AddNobleForwardingRequestAbandoned sourceChannel env =>
      [mkSample totalNobleForwardingRequestsAbandoned
         [(sourceChannelLabel, sourceChannel); (chainEnvironmentLabel, env)] (Add 1)]
  | AddNobleForwardingRequest sourceChannel env =>
      [mkSample totalNobleForwardingRequests
         [(sourceChannelLabel, sourceChannel); (chainEnvironmentLabel, env)] (Add 1)]
  | AddTransferMonitorChainHeightIncrease chainID chainName env =>
      [mkSample transferMonitorChainHeightIncreaseCounter
         [(chainIDLabel, chainID); (chainNameLabel, chainName); (chainEnvironmentLabel, env)] (Add 1)]
  | AddClientNeedsUpated chainID clientID counterparty =>
      [mkSample totalClientsNeedsUpdated
         [(chainIDLabel, chainID); (clientIDLabel, clientID);
          (counterpartyChainIDLabel, counterparty)] (Add 1)]
  | AddClientUpdated chainID clientID counterparty =>
      [mkSample totalClientsUpdated
         [(chainIDLabel, chainID); (clientIDLabel, clientID);
          (counterpartyChainIDLabel, counterparty)] (Add 1)]
  | AddUnrelayedTransferWithAttestationObservation sn dn env =>
      [mkSample totalUnrelayedTransferWithAttestationObservations
         [(sourceChainNameLabel, sn); (destinationChainNameLabel, dn); (chainEnvironmentLabel, env)]
         (Add 1)]
  end.

(** A sequence of method calls, each under its context, and what they hand to
    the library. *)
Definition samples_of (cs : list (MetricsContext * call)) : list sample :=
  cs ≫= λ '(ctx, c), PromMetrics_samples ctx c.

Definition PromMetrics_run {R} `{!Library R} (cs : list (MetricsContext * call)) (r : R)
    : outcome R := emit_all (samples_of cs) r.

(** ** Facts *)

(** The declared labels, each once, and an operation of the vector, which for a
    counter is the addition of one. *)
Definition fits (s : sample) : Prop :=
  (s_With s).*1 ≡ₚ Labels (vector (s_metric s)) ∧
  match vec_kind (vector (s_metric s)), s_op s with
  | Counter, Add n => n = 1
  | Gauge, Set_to _ | Histogram _, Observe _ => True
  | _, _ => False
  end.

(** A permutation of label names, checked by computation. *)
Lemma permutation_by_nodup (l k : list string) :
  bool_decide (NoDup l) && bool_decide (NoDup k) &&
    forallb (λ x, bool_decide (x ∈ k)) l && forallb (λ x, bool_decide (x ∈ l)) k = true →
  l ≡ₚ k.
Proof.
  rewrite !andb_true_iff, !bool_decide_eq_true, !forallb_forall.
  intros [[[Hl Hk] Hlk] Hkl]. apply NoDup_Permutation; [done..|].
  intros x. split; intros Hx%list_elem_of_In; [apply Hlk in Hx|apply Hkl in Hx];
    by apply bool_decide_eq_true in Hx.
Qed.

Lemma PromMetrics_samples_fit ctx c : Forall fits (PromMetrics_samples ctx c).
Proof.
  destruct c as [[] | | | | | | | | | | | | | | | | | | | | | | |];
    repeat constructor; apply permutation_by_nodup; vm_compute; reflexivity.
Qed.

Lemma fits_accepted s : fits s → accepts (vector (s_metric s)) (s_op s).
Proof.
  intros [_ Hk]. unfold accepts. destruct (vec_kind _), (s_op s); try done. subst. lia.
Qed.

Lemma vector_declared m : well_declared (vector m).
Proof. destruct m; (split; [apply (bool_decide_eq_true_1 _); by vm_compute|done]). Qed.

Lemma names_distinct : NoDup (fqName ∘ vector <$> all_metrics).
Proof. apply (bool_decide_eq_true_1 _). by vm_compute. Qed.

Lemma all_metrics_all m : m ∈ all_metrics.
Proof. apply (bool_decide_eq_true_1 _). by destruct m; vm_compute. Qed.

Section library_laws.
Context {R : Type} `{!Library R, !LibraryLaws R}.

Lemma register_all_ok ms : ∀ r,
  NoDup (fqName ∘ vector <$> ms) → (∀ m, m ∈ ms → fqName (vector m) ∉ lib_names r) →
  ∃ r', register_all ms r = Ret r' ∧ ∀ m, m ∈ ms → fqName (vector m) ∈ lib_names r'.
Proof.
  assert (∀ ms (r r' : R) n, register_all ms r = Ret r' → NoDup (fqName ∘ vector <$> ms) →
    (∀ m, m ∈ ms → fqName (vector m) ∉ lib_names r) → n ∈ lib_names r → n ∈ lib_names r') as Hkeep.
  { clear ms. induction ms as [|m ms IH]; simpl; intros r r' n; [by intros [= ->]|].
    intros Hr [Hm Hnd]%NoDup_cons Hfree Hn.
    destruct (lib_New_ok (vector m) r) as (r1 & Hr1 & Hn1); [apply vector_declared|apply Hfree; by left|].
    rewrite Hr1 in Hr. eapply IH; [done|done| |rewrite Hn1; by right].
    intros m' Hm'. rewrite Hn1, not_elem_of_cons. split; [|apply Hfree; by right].
    intros Heq. apply Hm. rewrite list_elem_of_fmap. eauto. }
  induction ms as [|m ms IH]; simpl; intros r; [intros; exists r; set_solver|].
  intros [Hm Hnd]%NoDup_cons Hfree.
  destruct (lib_New_ok (vector m) r) as (r1 & -> & Hn1); [apply vector_declared|apply Hfree; by left|].
  assert (∀ m', m' ∈ ms → fqName (vector m') ∉ lib_names r1) as Hfree1.
  { intros m' Hm'. rewrite Hn1, not_elem_of_cons. split; [|apply Hfree; by right].
    intros Heq. apply Hm. rewrite list_elem_of_fmap. eauto. }
  destruct (IH r1 Hnd Hfree1) as (r' & Hr' & Hin). exists r'. split; [done|].
  intros m' [-> |Hm']%elem_of_cons; [|by apply Hin].
  eapply Hkeep; [done|done|done|]. rewrite Hn1. by left.
Qed.

Lemma emit_all_ok ss : ∀ r,
  (∀ m, fqName (vector m) ∈ lib_names r) → Forall fits ss →
  Forall (λ s, Forall lib_utf8 (s_With s).*2) ss → ∃ r', emit_all ss r = Ret r'.
Proof.
  induction ss as [|s ss IH]; simpl; intros r Hn Hf Hu; [by eexists|].
  apply Forall_cons in Hf as [Hs Hf], Hu as [Hus Hu].
  destruct (lib_With_ok (vector (s_metric s)) (s_With s) (s_op s) r (Hn _) (proj1 Hs) Hus
    (fits_accepted s Hs)) as (r1 & -> & Hn1).
  apply IH; [|done|done]. intros m. by rewrite Hn1.
Qed.

End library_laws.

(** ** The theorem applied

    A library that keeps the names and the writes, and panics on everything the
    documentation of Prometheus mentions. *)

Module reference.
Record Registry := mkRegistry {
  names : list string;
  writes : list (string * list (string * string) * op);
}.

Definition ascii_only (s : string) : bool :=
  forallb (λ a, Nat.ltb (Ascii.nat_of_ascii a) 128) (String.list_ascii_of_string s).

#[global] Instance accepts_dec v o : Decision (accepts v o).
Proof. unfold accepts. destruct (vec_kind v), o; apply _. Defined.
#[global] Instance well_declared_dec v : Decision (well_declared v).
Proof. unfold well_declared. destruct (vec_kind v); apply _. Defined.

#[global] Instance library : Library Registry :=
  mkLibrary Registry
    (λ v r, if bool_decide (well_declared v ∧ fqName v ∉ names r)
            then Ret (mkRegistry (fqName v :: names r) (writes r)) else Panic)
    (λ v ls o r, if bool_decide (fqName v ∈ names r ∧ ls.*1 ≡ₚ Labels v ∧
                   Forall (λ s, ascii_only s = true) ls.*2 ∧ accepts v o)
                 then Ret (mkRegistry (names r) (writes r ++ [(fqName v, ls, o)])) else Panic).

#[global] Instance laws : LibraryLaws Registry.
Proof.
  refine {| lib_names := names; lib_utf8 := λ s, ascii_only s = true |}.
  - intros v r Hv Hn. eexists. simpl. by rewrite bool_decide_true.
  - intros v ls o r Hn Hl Hu Ha. eexists. simpl. by rewrite bool_decide_true.
Defined.

Definition empty : Registry := mkRegistry [] [].

Definition calls : list (MetricsContext * call) :=
  [(mkMetricsContext (Some "chain-a") None None None (Some "ibcv2"),
    AddFailedExternalRequest "eth_call" "-1" "node");
   (mkMetricsContext None None None None None,
    Event (metrics.AddRelayCompleted "chain-a" "client-a" "chain-b" "client-b"
      metrics.IBCV2SendToRecvRelayType))].
End reference.


End prom.
