(* ===== verification/GasMonitor.v ===== *)
(** * The gas monitor

    [gasmonitor/gasmonitor.go]: once a minute the balance of the relayer's
    signer on every chain is read and reported with its alert thresholds.
    [GasMonitor_chains] is the list of chains [Start] makes, [GasMonitor_tick]
    one turn of its loop, and [GasMonitor_Start] the loop, given what its
    [select] receives. *)
From stdpp Require Import prelude strings list gmap.
From Stdlib Require Import ZArith.
From S2P Require Import Prelude Go Config Db Transfer World Float Metrics Demo.
Open Scope Z_scope.

#[local] Existing Instances M_ret M_bind.

Section monitor.
Context {X : Type} {E : Env X}.

(** The chains of [Start]: EVM first, then Cosmos, then SVM. *)
Definition GasMonitor_chains : M X (list config.ChainConfig) :=
  evmChains ← wrap "error getting EVM chains"
    (lift_outcome (config.GetAllChainConfigsOfType env_config config.ChainType_EVM));
  cosmosChains ← wrap "error getting cosmos chains"
    (lift_outcome (config.GetAllChainConfigsOfType env_config config.ChainType_COSMOS));
  svmChains ← wrap "error getting svm chains"
    (lift_outcome (config.GetAllChainConfigsOfType env_config config.ChainType_SVM));
  mret (evmChains ++ cosmosChains ++ svmChains).

Definition low_balance : level * string := (Error, "low balance on ibcv2 signer").

(** The thresholds of [GetSignerGasAlertThresholds] are not nil when its error
    is; the balance may be. *)
Definition monitorIBCV2GasBalances (chain : config.ChainConfig) (chainID : string) : M X unit :=
  r ← attempt (lift_outcome
        (config.GetSignerGasAlertThresholds env_config chainID config.BridgeType_IBCV2));
  match r with
  | inr err =>
      if errors_Is err ErrNoSignerForBridge then mret tt
      else fail (Errorf "getting ibcv2 signer gas alert thresholds on chain" err)
  | inl (warningThreshold, criticalThreshold) =>
      chainClient ← wrap "getting ibcv2 client for chain" (GetClient chainID);
      balance ← wrap "getting gas token balance for eurkea signer on chain"
        (ext (SignerGasTokenBalance chainClient));
      match balance with
      | None => fail (ErrorNew "gas balance or alert thresholds are nil for chain")
      | Some balance =>
          (if balance <? criticalThreshold then logger low_balance.1 low_balance.2 else mret tt)
            ≫= λ _,
          record (metrics.SetGasBalance chainID (config.ChainName chain)
            (config.GasTokenSymbol chain) (config.Environment chain) balance warningThreshold
            criticalThreshold (config.GasTokenDecimals chain) metrics.IBCV2BridgeType)
      end
  end.

Definition monitor_failed : level * string := (Error, "failed to monitor ibcv2 gas balance").

(** One turn of the loop over the chains. *)
Definition monitor_chain (chain : config.ChainConfig) : M X unit :=
  r ← attempt (monitorIBCV2GasBalances chain (config.ChainID chain));
  match r with
  | inl _ => mret tt
  | inr err =>
      if negb (errors_Is err ErrNoSignerForBridge)
      then logger monitor_failed.1 monitor_failed.2
      else mret tt
  end.

Definition GasMonitor_tick (chains : list config.ChainConfig) : M X unit :=
  forM chains monitor_chain.

(** What [select] receives: a tick of the ticker, which is never stopped, or
    the end of the context. *)
Inductive wake := Tick | Done.

(** [None] while the loop waits. *)
Fixpoint monitor_loop (chains : list config.ChainConfig) (wakes : list wake) : M X (option unit) :=
  match wakes with
  | [] => mret None
  | Done :: _ => mret (Some tt)
  | Tick :: wakes' => GasMonitor_tick chains ≫= λ _, monitor_loop chains wakes'
  end.

Definition GasMonitor_Start (wakes : list wake) : M X (option unit) :=
  logger Info "Starting gas monitor" ≫= λ _,
  chains ← GasMonitor_chains;
  monitor_loop chains wakes.

(** ** What a tick reports *)

(** The report of one chain, and the lines logged for it: none without
    thresholds, a failure without a client or a balance. *)
Definition observe (chain : config.ChainConfig) (x : X)
    : list metrics.event * list (level * string) * X :=
  let id := config.ChainID chain in
  match config.GetSignerGasAlertThresholds env_config id config.BridgeType_IBCV2 with
  | Ret (w, c) =>
      match env_clients !! id with
      | None => ([], [monitor_failed], x)
      | Some client =>
          match SignerGasTokenBalance client x with
          | (Ret (Some b), x') =>
              ([metrics.SetGasBalance id (config.ChainName chain) (config.GasTokenSymbol chain)
                  (config.Environment chain) b w c (config.GasTokenDecimals chain)
                  metrics.IBCV2BridgeType],
               (if b <? c then [low_balance] else []), x')
          | (Fail e, x') =>
              ([], if errors_Is e ErrNoSignerForBridge then [] else [monitor_failed], x')
          | (_, x') => ([], [monitor_failed], x')
          end
      end
  | Fail e => ([], if errors_Is e ErrNoSignerForBridge then [] else [monitor_failed], x)
  | Panic => ([], [], x)
  end.

Fixpoint observe_all (chains : list config.ChainConfig) (x : X)
    : list metrics.event * list (level * string) * X :=
  match chains with
  | [] => ([], [], x)
  | chain :: chains' =>
      let '(ev, lg, x1) := observe chain x in
      let '(ev', lg', x2) := observe_all chains' x1 in
      (ev ++ ev', lg ++ lg', x2)
  end.

(** Reading a balance does not panic. *)
Definition balances_safe : Prop :=
  ∀ id client x, env_clients !! id = Some client → (SignerGasTokenBalance client x).1 ≠ Panic.

Lemma GetSignerGasAlertThresholds_safe r id b :
  config.GetSignerGasAlertThresholds r id b ≠ Panic.
Proof.
  unfold config.GetSignerGasAlertThresholds, config.GetChainConfig.
  repeat case_match; naive_solver.
Qed.

Lemma monitor_chain_observes chain x d h mt lg :
  balances_safe →
  let '(ev, lines, x') := observe chain x in
  monitor_chain chain (mkWorld x d h mt lg) =
    (Ret tt, mkWorld x' d h (mt ++ ev) (lg ++ lines)).
Proof.
  intros Hsafe. unfold observe, monitor_chain, monitorIBCV2GasBalances, GetClient.
  pose proof (GetSignerGasAlertThresholds_safe env_config (config.ChainID chain)
    config.BridgeType_IBCV2) as Hth.
  unfold mbind, M_bind, attempt, wrap, lift_outcome, mret, M_ret, fail.
  destruct (config.GetSignerGasAlertThresholds _ _ _) as [[w c]|e|]; [| |done].
  - destruct (env_clients !! config.ChainID chain) as [client|] eqn:Hc; simpl;
      [|by rewrite app_nil_r].
    specialize (Hsafe _ _ x Hc).
    destruct (SignerGasTokenBalance client x) as [[[b|]|e|] x'] eqn:Hb; simpl in *; rewrite ?Hb; simpl.
    + destruct (b <? c); simpl; by rewrite ?app_nil_r.
    + by rewrite app_nil_r.
    + destruct (errors_Is e ErrNoSignerForBridge); simpl; by rewrite ?app_nil_r.
    + done.
  - destruct (errors_Is e ErrNoSignerForBridge) eqn:He; simpl; rewrite ?He; simpl;
      by rewrite ?app_nil_r.
Qed.

Lemma tick_observes chains : balances_safe → ∀ x d h mt lg,
  let '(ev, lines, x') := observe_all chains x in
  GasMonitor_tick chains (mkWorld x d h mt lg) =
    (Ret tt, mkWorld x' d h (mt ++ ev) (lg ++ lines)).
Proof.
  intros Hsafe. unfold GasMonitor_tick.
  induction chains as [|chain chains IH]; intros x d h mt lg; simpl; [by rewrite !app_nil_r|].
  pose proof (monitor_chain_observes chain x d h mt lg Hsafe) as H1.
  destruct (observe chain x) as [[ev lines] x1].
  specialize (IH x1 d h (mt ++ ev) (lg ++ lines)).
  destruct (observe_all chains x1) as [[ev' lines'] x2].
  unfold mbind at 1, M_bind at 1. rewrite H1. by rewrite IH, !app_assoc.
Qed.

(** The report exports a critical level. *)
Definition critical (e : metrics.event) : bool :=
  existsb (λ s, bool_decide (prom.s_metric s = prom.gasBalanceState ∧
                             prom.s_op s = prom.Set_to (2, 0))) (prom.event_samples e).

Definition reported (e : metrics.event) : option string :=
  match e with
  | metrics.SetGasBalance id _ _ _ _ _ _ _ _ => Some id
  | _ => None
  end.

Lemma critical_SetGasBalance id name sym env b w c d t :
  critical (metrics.SetGasBalance id name sym env b w c d t) = (b <? c).
Proof.
  unfold critical. simpl. unfold prom.gas_level. destruct (b <? c); [done|].
  destruct (b <? w); vm_compute; done.
Qed.

Lemma observe_lines chain x :
  let '(ev, lines, _) := observe chain x in
  length (filter (λ e, critical e = true) ev) = length (filter (λ l, l = low_balance) lines) ∧
  omap reported ev `sublist_of` [config.ChainID chain].
Proof.
  assert (Hf : filter (λ l, l = low_balance) [monitor_failed] = []) by done.
  assert (Hl : filter (λ l, l = low_balance) [low_balance] = [low_balance]) by done.
  unfold observe.
  repeat (case_match; simplify_eq);
    rewrite ?Hf; simpl; (split; [|first [by apply sublist_nil_l|done]]); try done;
    rewrite ?filter_cons, critical_SetGasBalance.
  all: match goal with H : (?b <? ?c) = _ |- _ => rewrite H end; done.
Qed.

Lemma observe_all_lines chains : ∀ x,
  let '(ev, lines, _) := observe_all chains x in
  length (filter (λ e, critical e = true) ev) = length (filter (λ l, l = low_balance) lines) ∧
  omap reported ev `sublist_of` (config.ChainID <$> chains).
Proof.
  induction chains as [|chain chains IH]; intros x; simpl; [done|].
  pose proof (observe_lines chain x) as H1. destruct (observe chain x) as [[ev lines] x1].
  specialize (IH x1). destruct (observe_all chains x1) as [[ev' lines'] x2].
  destruct H1 as [Hc Hs], IH as [Hc' Hs']. split.
  - rewrite !filter_app, !length_app. lia.
  - rewrite omap_app. exact (sublist_app _ _ _ _ Hs Hs').
Qed.

(** The reports of [n] ticks. *)
Fixpoint observe_ticks (n : nat) (chains : list config.ChainConfig) (x : X)
    : list (list metrics.event * list (level * string)) * X :=
  match n with
  | O => ([], x)
  | S n' =>
      let '(ev, lines, x1) := observe_all chains x in
      let '(rest, x2) := observe_ticks n' chains x1 in
      ((ev, lines) :: rest, x2)
  end.

Lemma loop_observes chains wakes : balances_safe → ∀ n x d h mt lg,
  let '(reports, x') := observe_ticks n chains x in
  monitor_loop chains (replicate n Tick ++ Done :: wakes) (mkWorld x d h mt lg) =
    (Ret (Some tt), mkWorld x' d h (mt ++ concat (reports.*1)) (lg ++ concat (reports.*2))).
Proof.
  intros Hsafe. induction n as [|n IH]; intros x d h mt lg; simpl; [by rewrite !app_nil_r|].
  pose proof (tick_observes chains Hsafe x d h mt lg) as Ht.
  destruct (observe_all chains x) as [[ev lines] x1].
  specialize (IH x1 d h (mt ++ ev) (lg ++ lines)).
  destruct (observe_ticks n chains x1) as [reports x2].
  unfold mbind at 1, M_bind at 1. rewrite Ht, IH. simpl. by rewrite <- !app_assoc.
Qed.

(** One tick reports each chain at most once, in the order of the list, and
    logs a low balance exactly as often as it exports the critical level. *)
Definition faithful (chains : list config.ChainConfig)
    (report : list metrics.event * list (level * string)) : Prop :=
  omap reported report.1 `sublist_of` (config.ChainID <$> chains) ∧
  length (filter (λ e, critical e = true) report.1) =
    length (filter (λ l, l = low_balance) report.2).

Lemma ticks_faithful chains n : ∀ x, Forall (faithful chains) (observe_ticks n chains x).1.
Proof.
  induction n as [|n IH]; intros x; simpl; [constructor|].
  pose proof (observe_all_lines chains x) as Hl. destruct (observe_all chains x) as [[ev lines] x1].
  specialize (IH x1). destruct (observe_ticks n chains x1) as [reports x2]. simpl in *.
  constructor; [by destruct Hl|done].
Qed.

(** The gas monitor runs until the context is cancelled, and then returns
    without an error, when reading a balance does not panic: on every tick a
    chain that fails costs a log line and none of the other chains. It leaves
    the rows and the transfers alone. Each tick reports each EVM, Cosmos and
    Solana chain of the configuration at most once and in this order, as
    [observe] says from the thresholds, the client and the balance of that
    moment; and it logs a low balance exactly as often as it exports the critical
    level. *)
Theorem gas_Start_reports n wakes x d h mt lg :
  balances_safe →
  let of_type ty := filter (λ c, config.ChainConfig_Type c = ty)
                      (config.all_chains (config.reader_config env_config)) in
  let chains := of_type config.ChainType_EVM ++ of_type config.ChainType_COSMOS ++
                of_type config.ChainType_SVM in
  ∃ reports x', observe_ticks n chains x = (reports, x') ∧
    GasMonitor_Start (replicate n Tick ++ Done :: wakes) (mkWorld x d h mt lg) =
      (Ret (Some tt), mkWorld x' d h (mt ++ concat (reports.*1))
        ((lg ++ [(Info, "Starting gas monitor")]) ++ concat (reports.*2))) ∧
    Forall (faithful chains) reports.
Proof.
  intros Hsafe of_type chains.
  pose proof (loop_observes chains wakes Hsafe n x d h mt (lg ++ [(Info, "Starting gas monitor")]))
    as Hl.
  pose proof (ticks_faithful chains n x) as Hf.
  destruct (observe_ticks n chains x) as [reports x'] eqn:Ho. by exists reports, x'.
Qed.
End monitor.

(** ** The theorem applied *)

(** [chain-b] of the demonstration with thresholds of 100 and 50: the balance
    of its signer is 0. [chain-a] has no thresholds and [chain-x] no client. *)
Module gas_demo.
Definition with_thresholds (c : config.ChainConfig) : config.ChainConfig :=
  config.mkChainConfig (config.ChainName c) (config.ChainID c) (config.ChainConfig_Type c)
    (config.Environment c) (config.Cosmos c) (config.EVM c) (config.SVM c)
    (config.GasTokenSymbol c) (config.GasTokenCoingeckoID c) (config.GasTokenDecimals c)
    {[config.BridgeType_IBCV2 := config.mkSignerGasAlertThresholdsConfig "100" "50"]}
    (config.IBCV2 c) (config.SupportedBridges c).

Definition chain_b := with_thresholds demo.chain_b.
Definition chain_x := with_thresholds (demo.chain "chain-x" config.ChainType_EVM ∅).

Definition conf : config.Config :=
  config.mkConfig (config.Postgres demo.conf)
    [("x", chain_x); ("a", demo.chain_a); ("b", chain_b)]
    (config.Metrics demo.conf) (config.RelayerAPI demo.conf) (config.Coingecko demo.conf)
    (config.IBCV2ProofAPI demo.conf) (config.Signing demo.conf).

#[local] Instance gas_env : Env Z :=
  mkEnv Z (@env_clients Z (demo.env demo.good)) (@env_RelayByTx Z (demo.env demo.good)) None
    (config.NewConfigReader conf) (λ x, (x, x + 1)) (λ x, (None, x)) (λ x, x) (λ x, (true, x)).

Lemma safe : balances_safe.
Proof.
  intros id client x Hc. simpl in Hc.
  apply lookup_insert_Some in Hc as [[_ <-]|[_ Hc]]; [done|].
  apply lookup_singleton_Some in Hc as [_ <-]. done.
Qed.
End gas_demo.

Lemma gas_Start_reports_witness :
  @balances_safe Z gas_demo.gas_env ∧
  ∃ w, @GasMonitor_Start Z gas_demo.gas_env [Tick; Tick; Done] demo.empty_world = (Ret (Some tt), w) ∧
       omap reported (w_metrics w) = ["chain-b"; "chain-b"] ∧
       w_log w = [(Info, "Starting gas monitor"); monitor_failed; low_balance; monitor_failed;
                  low_balance].
Proof.
  split; [exact gas_demo.safe|].
  destruct (gas_Start_reports (E := gas_demo.gas_env) 2 [] 0 (db.mkDatabase [] 1 [] 1) ∅ [] []
    gas_demo.safe) as (reports & x' & Ho & Ht & _).
  vm_compute in Ho. injection Ho as <- <-. eexists. split; [exact Ht|]. by vm_compute.
Defined.
