(* ===== verification/Transport.v ===== *)
(** * Metrics around calls

    [shared/metrics/http_transport.go] and [http_transport_config.go]: the HTTP
    round tripper that counts and times every request of the RPC clients, and
    the gRPC interceptors of [shared/metrics/metrics.go].

    To find the JSON-RPC method the round tripper reads the body and puts a
    copy in its place: a [Body] is the bytes a reader still gives, the error it
    ends with, if it does not end with [io.EOF], and whether its [Close] reaches
    what it was read from. The copy is a buffer under [io.NopCloser]. The JSON
    decoder is a parameter. Metrics go to the [Sink] of the context. *)
From stdpp Require Import prelude strings list gmap pretty.
From Stdlib Require Import ZArith.
From S2P Require Import Prelude Go Config Db Transfer World Client Float Signing EvmClient.
From S2P Require Import CosmosClient Metrics.
Open Scope Z_scope.

Module transport.

(** ** Requests and responses *)

Record Body := mkBody {
  content : bytes;
  read_error : option error;
  closes : bool;
}.

Record Request := mkRequest {
  URL_Hostname : string;
  URL_Path : string;
  Request_Body : option Body;
}.

Record Response := mkResponse {
  StatusCode : Z;
  Response_Body : option Body;
}.

(** [io.ReadAll] through a [TeeReader], and the buffer that replaces the body:
    [io.NopCloser(&buf)], so that the [Close] of the body that was read can no
    longer be called through the request or the response. *)
Definition bodyBytes (b : Body) : outcome bytes * Body :=
  (match read_error b with Some e => Fail e | None => Ret (content b) end,
   mkBody (content b) None false).

Definition with_request_body (b : Body) (r : Request) : Request :=
  mkRequest (URL_Hostname r) (URL_Path r) (Some b).

Definition with_response_body (b : Body) (r : Response) : Response :=
  mkResponse (StatusCode r) (Some b).

(** What [json.Unmarshal] finds in the structures of the file: the [jsonrpc]
    and [method] fields, the [Method] field, and the code of the [Error]
    field; [None] when it fails. *)
Class Json := mkJson {
  unmarshal_jsonRPCRequest : bytes → option (string * string);
  unmarshal_jsonRPCBody : bytes → option string;
  unmarshal_jsonRPCResponse : bytes → option (option Z);
}.

(** The metrics of the context: [metrics.FromContext(ctx)]. *)
Class Sink (X : Type) := sink : prom.call → X → X.

(** [http.StatusText]. *)
Definition StatusText (code : Z) : string :=
  default "" (list_to_map (M := gmap Z string)
    [(100, "Continue"); (101, "Switching Protocols"); (102, "Processing"); (103, "Early Hints");
     (200, "OK"); (201, "Created"); (202, "Accepted"); (203, "Non-Authoritative Information");
     (204, "No Content"); (205, "Reset Content"); (206, "Partial Content"); (207, "Multi-Status");
     (208, "Already Reported"); (226, "IM Used"); (300, "Multiple Choices");
     (301, "Moved Permanently"); (302, "Found"); (303, "See Other"); (304, "Not Modified");
     (305, "Use Proxy"); (307, "Temporary Redirect"); (308, "Permanent Redirect");
     (400, "Bad Request"); (401, "Unauthorized"); (402, "Payment Required"); (403, "Forbidden");
     (404, "Not Found"); (405, "Method Not Allowed"); (406, "Not Acceptable");
     (407, "Proxy Authentication Required"); (408, "Request Timeout"); (409, "Conflict");
     (410, "Gone"); (411, "Length Required"); (412, "Precondition Failed");
     (413, "Request Entity Too Large"); (414, "Request URI Too Long");
     (415, "Unsupported Media Type"); (416, "Requested Range Not Satisfiable");
     (417, "Expectation Failed"); (418, "I'm a teapot"); (421, "Misdirected Request");
     (422, "Unprocessable Entity"); (423, "Locked"); (424, "Failed Dependency");
     (425, "Too Early"); (426, "Upgrade Required"); (428, "Precondition Required");
     (429, "Too Many Requests"); (431, "Request Header Fields Too Large");
     (451, "Unavailable For Legal Reasons"); (500, "Internal Server Error");
     (501, "Not Implemented"); (502, "Bad Gateway"); (503, "Service Unavailable");
     (504, "Gateway Timeout"); (505, "HTTP Version Not Supported");
     (506, "Variant Also Negotiates"); (507, "Insufficient Storage"); (508, "Loop Detected");
     (510, "Not Extended"); (511, "Network Authentication Required")] !! code).

(** ** Method names *)

Definition DefaultHTTPMethodExtractor (request : Request) : string := URL_Path request.

Definition slash : Ascii.ascii := Ascii.ascii_of_nat 47.

(** [strings.LastIndex(s, "/")] and what comes before it. *)
Fixpoint before_last_slash (s : string) : option string :=
  match s with
  | EmptyString => None
  | String a s' =>
      match before_last_slash s' with
      | Some p => Some (String a p)
      | None => if bool_decide (a = slash) then Some EmptyString else None
      end
  end.

Definition AllButLastPathHTTPMethodExtractor (request : Request) : string :=
  match before_last_slash (URL_Path request) with
  | None => URL_Path request
  | Some p => p
  end.

Section transport.
Context {X : Type} `{!Runtime X} {decoder : Json} `{!Sink X}.
Context (HTTPMethodExtractor : Request → string).
(** [t.internal.RoundTrip]; a nil response comes with an error. *)
Context (internal : Request → Ext X (option Response)).

Definition emit_call (c : prom.call) : Ext X unit := λ x, (Ret tt, sink c x).

(** The value, and the request with its body put back. *)
Definition isJSONRPCRequest (request : Request) : bool * Request :=
  match Request_Body request with
  | None => (false, request)
  | Some b =>
      let '(r, b') := bodyBytes b in
      (match r with
       | Ret bytes =>
           match unmarshal_jsonRPCRequest bytes with
           | None => false
           | Some (JSONRPC, Method) =>
               bool_decide (JSONRPC = "2.0") && negb (bool_decide (Method = ""))
           end
       | _ => false
       end, with_request_body b' request)
  end.

Definition getJSONRPCMethodFromRequest (request : Request) : string * Request :=
  match Request_Body request with
  | None => ("", request)
  | Some b =>
      let '(r, b') := bodyBytes b in
      (match r with
       | Ret bytes =>
           match unmarshal_jsonRPCBody bytes with
           | None => "error: failed to unmarshal request body"
           | Some Method => Method
           end
       | _ => "error: failed to read request body"
       end, with_request_body b' request)
  end.

Definition getJSONRPCCodeFromResponse (response : Response) : string * Response :=
  match Response_Body response with
  | None => ("", response)
  | Some b =>
      let '(r, b') := bodyBytes b in
      (match r with
       | Ret bytes =>
           match unmarshal_jsonRPCResponse bytes with
           | None => "error: failed to unmarshal response body"
           | Some None => StatusText (StatusCode response)
           | Some (Some Code) => Itoa Code
           end
       | _ => "error: failed to read response body"
       end, with_response_body b' response)
  end.

Definition isExternalError (err : error) : bool := negb (errors_Is err ContextCanceled).

(** The call under its metrics; [code_of] reads the response. The deferred
    latency comes last, also after a panic. *)
Definition timed (method provider : string) (code_of : Response → string * Response)
    (call : Ext X (option Response)) : Ext X (option Response) :=
  start ← enow;
  r ← eoutcome call;
  result ←
    match r with
    | Panic => mret Panic
    | Fail err =>
        emit_call
          (if isExternalError err then prom.AddFailedExternalRequest method "-1" provider
           else prom.AddSuccessfulExternalRequest method "-1" provider) ≫= λ _,
        mret (Fail err)
    | Ret None =>
        emit_call (prom.AddSuccessfulExternalRequest method "" provider) ≫= λ _, mret (Ret None)
    | Ret (Some response) =>
        let '(code, response') := code_of response in
        emit_call (prom.AddSuccessfulExternalRequest method code provider) ≫= λ _,
        mret (Ret (Some response'))
    end;
  latency ← esince start;
  emit_call (prom.RecordExternalRequestLatency method provider latency) ≫= λ _,
  elift result.

Definition JSONRPCRoundTrip (request : Request) : Ext X (option Response) :=
  let '(jsonRPCMethod, request) := getJSONRPCMethodFromRequest request in
  timed jsonRPCMethod (URL_Hostname request) getJSONRPCCodeFromResponse (internal request).

Definition HTTPRoundTrip (request : Request) : Ext X (option Response) :=
  timed (HTTPMethodExtractor request) (URL_Hostname request)
    (λ response, (Itoa (StatusCode response), response)) (internal request).

Definition RoundTrip (request : Request) : Ext X (option Response) :=
  let '(json, request) := isJSONRPCRequest request in
  if json then JSONRPCRoundTrip request else HTTPRoundTrip request.

(** ** gRPC *)

(** [uint32(status.Code(err))] and [status.Code(err).String()]; an error that
    is no status is [Unknown]. *)
Definition status_Code {A} (o : outcome A) : Z :=
  match o with
  | Fail e => match status_code e with Some c => grpc_code_num c | None => 2 end
  | _ => 0
  end.

Definition status_Code_String {A} (o : outcome A) : string :=
  match o with
  | Fail e =>
      match status_code e with
      | Some OK => "OK"
      | Some InvalidArgument => "InvalidArgument"
      | Some NotFound => "NotFound"
      | Some Internal => "Internal"
      | None => "Unknown"
      end
  | _ => "OK"
  end.

(** A handler that panics leaves [err] nil for the deferred calls. *)
Definition UnaryServerInterceptor {A} (FullMethod : string) (handler : Ext X A) : Ext X A :=
  start ← enow;
  r ← eoutcome handler;
  emit_call (prom.AddRequest FullMethod (uint32 (status_Code r))) ≫= λ _,
  latency ← esince start;
  emit_call (prom.AddRelayerAPIRequestLatency FullMethod latency) ≫= λ _,
  elift r.

Definition UnaryClientInterceptor (method target : string) (invoker : Ext X unit) : Ext X unit :=
  start ← enow;
  r ← eoutcome invoker;
  latency ← esince start;
  emit_call (prom.RecordExternalRequestLatency method target latency) ≫= λ _,
  emit_call
    match r with
    | Fail _ => prom.AddFailedExternalRequest method (status_Code_String r) target
    | _ => prom.AddSuccessfulExternalRequest method (status_Code_String r) target
    end ≫= λ _,
  elift r.

(** ** Transparency *)

(** What reading a body gives. *)
Definition reads (b : Body) : bytes * option error := (content b, read_error b).

(** A body that reads to its end. *)
Definition readable (b : option Body) : Prop :=
  match b with Some b => read_error b = None | None => True end.

(** The buffer that replaces a body: the bytes up to where reading ended, no
    error, and no [Close]. *)
Definition drained (b : option Body) : option Body :=
  (λ b, mkBody (content b) None false) <$> b.

Lemma drained_readable b : readable b → reads <$> drained b = reads <$> b.
Proof. destruct b as [[c [e|] cl]|]; naive_solver. Qed.

Lemma isJSONRPCRequest_request request :
  (isJSONRPCRequest request).2 =
    mkRequest (URL_Hostname request) (URL_Path request) (drained (Request_Body request)).
Proof. by destruct request as [h p [[c [e|] cl]|]]. Qed.

Lemma getJSONRPCMethod_request request :
  (getJSONRPCMethodFromRequest request).2 =
    mkRequest (URL_Hostname request) (URL_Path request) (drained (Request_Body request)).
Proof. by destruct request as [h p [[c [e|] cl]|]]. Qed.

Lemma drained_idem b : drained (drained b) = drained b.
Proof. by destruct b. Qed.

(** What the round tripper hands on. *)
Definition forwarded (request : Request) : Request :=
  mkRequest (URL_Hostname request) (URL_Path request) (drained (Request_Body request)).

(** A response with the same status, and the same body or the buffer that
    replaces it. *)
Definition handed_back (r r' : Response) : Prop :=
  StatusCode r' = StatusCode r ∧
  (Response_Body r' = Response_Body r ∨ Response_Body r' = drained (Response_Body r)).

Lemma RoundTrip_timed request :
  ∃ method code_of,
    RoundTrip request = timed method (URL_Hostname request) code_of (internal (forwarded request)) ∧
    ∀ response, handed_back response (code_of response).2.
Proof.
  assert (Hjson : ∀ response, handed_back response (getJSONRPCCodeFromResponse response).2).
  { intros [code [[c [e|] cl]|]]; split; simpl; auto. }
  unfold RoundTrip. pose proof (isJSONRPCRequest_request request) as Hreq.
  destruct (isJSONRPCRequest request) as [json req1]. simpl in Hreq. subst req1. destruct json.
  - unfold JSONRPCRoundTrip. pose proof (getJSONRPCMethod_request (forwarded request)) as Hm.
    unfold forwarded in *. simpl in Hm. rewrite drained_idem in Hm.
    destruct (getJSONRPCMethodFromRequest _) as [method req2]. simpl in Hm. subst req2.
    eexists _, _. split; [reflexivity|]. done.
  - unfold HTTPRoundTrip. eexists _, (λ response, (Itoa (StatusCode response), response)).
    split; [reflexivity|]. intros response. by split; [|left].
Qed.

(** The two metrics of a call: whether it failed, and its latency. *)
Definition counted (method provider : string) (c : prom.call) : Prop :=
  match c with
  | prom.AddSuccessfulExternalRequest m _ p | prom.AddFailedExternalRequest m _ p =>
      m = method ∧ p = provider
  | _ => False
  end.

(** The outcome the caller gets for that of the inner round tripper. *)
Definition similar (r r' : option Response) : Prop :=
  match r, r' with
  | None, None => True
  | Some r, Some r' => handed_back r r'
  | _, _ => False
  end.

Definition similar_outcome (o o' : outcome (option Response)) : Prop :=
  match o, o' with
  | Ret r, Ret r' => similar r r'
  | Fail e, Fail e' => e = e'
  | Panic, Panic => True
  | _, _ => False
  end.

Lemma timed_spec method provider code_of call x :
  (∀ response, handed_back response (code_of response).2) →
  let x1 := (rt_Now x).2 in
  let '(o, x2) := call x1 in
  ∃ o' counts latency, similar_outcome o o' ∧
    (counts = [] ∧ o = Panic ∨ ∃ c, counts = [c] ∧ counted method provider c) ∧
    timed method provider code_of call x =
      (o', sink (prom.RecordExternalRequestLatency method provider latency)
             (rt_Now (foldl (λ x c, sink c x) x2 counts)).2).
Proof.
  intros Hcode. cbv zeta. unfold timed, enow, esince, emit_call, eoutcome, elift, mbind, Ext_bind, mret, Ext_ret.
  destruct (rt_Now x) as [start x1]. simpl. destruct (call x1) as [o x2].
  destruct o as [[response|]|e|]; unfold enow; simpl.
  - destruct (code_of response) as [code response'] eqn:Hr. specialize (Hcode response).
    rewrite Hr in Hcode. simpl in Hcode.
    exists (Ret (Some response')), [prom.AddSuccessfulExternalRequest method code provider],
      (time_Sub (rt_Now (sink (prom.AddSuccessfulExternalRequest method code provider) x2)).1 start).
    split; [exact Hcode|]. split; [right; by eexists|].
    simpl. by destruct (rt_Now _).
  - exists (Ret None), [prom.AddSuccessfulExternalRequest method "" provider],
      (time_Sub (rt_Now (sink (prom.AddSuccessfulExternalRequest method "" provider) x2)).1 start).
    split; [done|]. split; [right; by eexists|]. simpl. by destruct (rt_Now _).
  - set (c := if isExternalError e then prom.AddFailedExternalRequest method "-1" provider
           else prom.AddSuccessfulExternalRequest method "-1" provider).
    exists (Fail e), [c], (time_Sub (rt_Now (sink c x2)).1 start).
    split; [done|]. split.
    + right. exists c. split; [done|]. subst c. by case_match.
    + simpl. by destruct (rt_Now _).
  - exists Panic, [], (time_Sub (rt_Now x2).1 start). split; [done|]. split; [by left|]. simpl. by destruct (rt_Now _).
Qed.

(** C40: what the metrics round tripper does around the inner one. The inner
    round tripper is called once, with the host and the path of the request and
    a body which, if the caller's body reads to its end, gives the same bytes,
    though it was read once or twice to find the method; the caller gets the
    inner error back, or a response with the inner status whose body, if it reads
    to its end, gives the same bytes; and the call records one latency and,
    unless it panics, one success or failure, under the host of the request.
    The body the inner round tripper gets is never the caller's own: closing it
    does nothing. *)
Theorem RoundTrip_transparent request x :
  (readable (Request_Body request) →
     reads <$> Request_Body (forwarded request) = reads <$> Request_Body request) ∧
  (∀ b, Request_Body (forwarded request) = Some b → closes b = false) ∧
  let x1 := (rt_Now x).2 in
  let '(o, x2) := internal (forwarded request) x1 in
  ∃ method o' counts latency, similar_outcome o o' ∧
    (∀ r r', o = Ret (Some r) → o' = Ret (Some r') → readable (Response_Body r) →
       reads <$> Response_Body r' = reads <$> Response_Body r) ∧
    (counts = [] ∧ o = Panic ∨ ∃ c, counts = [c] ∧ counted method (URL_Hostname request) c) ∧
    RoundTrip request x =
      (o', sink (prom.RecordExternalRequestLatency method (URL_Hostname request) latency)
             (rt_Now (foldl (λ x c, sink c x) x2 counts)).2).
Proof.
  destruct (RoundTrip_timed request) as (method & code_of & Hrun & Hcode).
  split; [apply drained_readable|]. split.
  { unfold forwarded. simpl. destruct (Request_Body request); simpl; [|done]. by intros ? [= <-]. }
  cbv zeta.
  pose proof (timed_spec method (URL_Hostname request) code_of (internal (forwarded request)) x Hcode)
    as Ht. cbv zeta in Ht. destruct (internal _ _) as [o x2].
  destruct Ht as (o' & counts & latency & Hs & ? & Ht). exists method, o', counts, latency.
  split_and!; [done| |done|by rewrite Hrun].
  intros r r' -> -> Hr. destruct Hs as [_ [-> | ->]]; [done|by apply drained_readable].
Qed.

(** A body whose reading fails is sent cut: the inner round tripper gets a
    request with the bytes read so far and no error, so a request the caller
    would have seen fail goes out with half a body. *)
Theorem RoundTrip_truncates host path c e cl x :
  ∃ method code_of, RoundTrip (mkRequest host path (Some (mkBody c (Some e) cl))) x =
    timed method host code_of (internal (mkRequest host path (Some (mkBody c None false)))) x.
Proof.
  destruct (RoundTrip_timed (mkRequest host path (Some (mkBody c (Some e) cl))))
    as (method & code_of & -> & _). by exists method, code_of.
Qed.
End transport.

(** ** The theorem applied *)

Module trace.
(** A clock and the metrics recorded so far. *)
Definition T : Type := Time * list prom.call.

#[global] Instance runtime : Runtime T :=
  mkRuntime T (λ x, (x.1, (x.1 + 1, x.2))) (λ d x, (x.1 + d, x.2))
    (λ d x, (None, (x.1 + d, x.2))) (λ _ _ x, x).

#[global] Instance trace_sink : Sink T := λ c x, (x.1, x.2 ++ [c]).

(** The decoder finds a call of [eth_call] in the body [[1]] and the error
    code -32000 in the body [[2]]. *)
Instance json : Json :=
  mkJson (λ b, if bool_decide (b = [1]) then Some ("2.0", "eth_call") else None)
    (λ b, if bool_decide (b = [1]) then Some "eth_call" else None)
    (λ b, Some (if bool_decide (b = [2]) then Some (-32000) else None)).

Definition request : Request := mkRequest "node" "/" (Some (mkBody [1] None true)).

Definition server (r : Request) : Ext T (option Response) := λ x,
  (Ret (Some (mkResponse 200 (Some (mkBody [2] None true)))), (x.1 + Second, x.2)).
End trace.
End transport.

Lemma RoundTrip_transparent_witness :
  ∃ o x, transport.RoundTrip (decoder := transport.trace.json) transport.DefaultHTTPMethodExtractor
           transport.trace.server transport.trace.request (0, []) = (o, x) ∧
    transport.similar_outcome
      (Ret (Some (transport.mkResponse 200 (Some (transport.mkBody [2] None true))))) o ∧
    x.2 = [prom.AddSuccessfulExternalRequest "eth_call" "-32000" "node";
           prom.RecordExternalRequestLatency "eth_call" "node" (Second + 1)].
Proof.
  pose proof (transport.RoundTrip_transparent (decoder := transport.trace.json)
    transport.DefaultHTTPMethodExtractor transport.trace.server transport.trace.request (0, []))
    as (_ & _ & method & o' & counts & latency & Hs & _ & _ & Hr).
  match type of Hr with ?run = _ =>
    assert (Hc : run = (run.1, (Second + 2,
      [prom.AddSuccessfulExternalRequest "eth_call" "-32000" "node";
       prom.RecordExternalRequestLatency "eth_call" "node" (Second + 1)])))
      by (vm_compute; reflexivity)
  end.
  eexists o', _. split; [|split; [exact Hs|]].
  - rewrite Hc. apply (f_equal fst) in Hr. apply (f_equal2 pair); [exact Hr|reflexivity].
  - reflexivity.
Defined.
