(* ===== verification/Queue.v ===== *)
(** * The message queue

    [shared/messagequeue/messagequeue.go], a queue on a Redis stream with a
    consumer group, and [shared/messagequeue/transactionqueue/queue.go], the
    queue of transactions on top of it. Redis is a parameter: one function per
    command of the client, [None] being the error [redis.Nil]. *)
From stdpp Require Import prelude strings list gmap pretty.
From Stdlib Require Import ZArith.
From S2P Require Import Prelude Go Config Db Transfer World Client.
Open Scope Z_scope.

Module queue.

(** [redis.XMessage]; the values Redis gives back are strings. *)
Record XMessage := mkXMessage {
  ID : string;
  Values : gmap string string;
}.

Record XStream := mkXStream {
  Stream : string;
  Messages : list XMessage;
}.

Record XReadGroupArgs := mkXReadGroupArgs {
  XRead_Group : string;
  XRead_Consumer : string;
  XRead_Streams : list string;
  XRead_Block : Duration;
  XRead_Count : Z;
}.

Record XAutoClaimArgs := mkXAutoClaimArgs {
  XClaim_Stream : string;
  XClaim_Group : string;
  XClaim_Consumer : string;
  XClaim_MinIdle : Duration;
  XClaim_Start : string;
  XClaim_Count : Z;
}.

Class Redis (X : Type) := mkRedis {
  XGroupCreateMkStream : string → string → string → Ext X string;
  XAdd : string → gmap string string → Ext X string;
  XReadGroup : XReadGroupArgs → Ext X (option (list XStream));
  XAutoClaim : XAutoClaimArgs → Ext X (list XMessage);
  XAck : string → string → list string → Ext X Z;
}.

Record MessageQueue := mkMessageQueue {
  stream : string;
  group : string;
  consumer : string;
}.

Record Transaction := mkTransaction {
  ChainID : string;
  TxHash : string;
  Transaction_ID : string;
}.

Record consumerTransactionQueueImpl := mkConsumer {
  timeout : Duration;
  messageQueue : MessageQueue;
}.

Section queue.
Context {X : Type} `{!Runtime X} `{!Redis X}.

Definition NewMsgQueue (stream group consumer : string) : Ext X MessageQueue :=
  r ← eattempt (XGroupCreateMkStream stream group "$");
  match r with
  | inr err =>
      if bool_decide (error_string err = "BUSYGROUP Consumer Group name already exists")
      then mret (mkMessageQueue stream group consumer)
      else efail err
  | inl _ => mret (mkMessageQueue stream group consumer)
  end.

(** [lmt.Logger(ctx).Error(msg, ...); return ..., err]. *)
Definition logged {A} (msg : string) (m : Ext X A) : Ext X A :=
  r ← eattempt m;
  match r with
  | inr err => elog Error msg ≫= λ _, efail err
  | inl a => mret a
  end.

Definition MessageQueue_Push (mq : MessageQueue) (values : gmap string string) : Ext X string :=
  logged "Unable to push message to queue" (XAdd (stream mq) values).

Definition MessageQueue_Claim (mq : MessageQueue) (count : Z) (timeout : Duration) : Ext X XStream :=
  result ← logged "Unable to claim message from queue"
    (XAutoClaim (mkXAutoClaimArgs (stream mq) (group mq) (consumer mq) timeout "0" count));
  mret (mkXStream (stream mq) result).

(** [redis.Nil] from [XReadGroup] ends the call with no messages. *)
Definition MessageQueue_Pop (mq : MessageQueue) (count : Z) (timeout : Duration)
    : Ext X (list XMessage) :=
  claimResult ← MessageQueue_Claim mq count timeout;
  let messages := Messages claimResult in
  if bool_decide (count ≤ Z.of_nat (length messages)) then mret messages
  else
    readResult ← logged "Unable to read message from queue"
      (XReadGroup (mkXReadGroupArgs (group mq) (consumer mq) [stream mq; ">"] (5 * Second)
         (count - Z.of_nat (length messages))));
    match readResult with
    | None => mret []
    | Some [] => epanic
    | Some (s :: _) => mret (messages ++ Messages s)
    end.

Definition MessageQueue_Ack (mq : MessageQueue) (ids : list string) : Ext X unit :=
  _ ← logged "Unable to ack message in queue" (XAck (stream mq) (group mq) ids);
  mret tt.

(** ** Transactions *)

Definition NewConsumerTransactionQueue (consumerID : string) (timeout : Duration)
    : Ext X consumerTransactionQueueImpl :=
  mq ← NewMsgQueue "transactions" "transactions-group" consumerID;
  mret (mkConsumer timeout mq).

Definition NewProducerTransactionQueue : Ext X MessageQueue :=
  NewMsgQueue "transactions" "transactions-group" "producer".

(** The type assertions panic on a message without the field. *)
Definition transaction_of (message : XMessage) : outcome Transaction :=
  match Values message !! "chain_id", Values message !! "tx_hash" with
  | Some chain, Some hash => Ret (mkTransaction chain hash (ID message))
  | _, _ => Panic
  end.

Definition add_transaction (transactions : list Transaction) (message : XMessage)
    : Ext X (list Transaction) :=
  transaction ← elift (transaction_of message);
  mret (transactions ++ [transaction]).

Definition consumer_Pop (t : consumerTransactionQueueImpl) (count : Z) : Ext X (list Transaction) :=
  messages ← MessageQueue_Pop (messageQueue t) (int64 count) (timeout t);
  efold add_transaction messages [].

Definition consumer_Ack (t : consumerTransactionQueueImpl) (transaction : Transaction) : Ext X unit :=
  MessageQueue_Ack (messageQueue t) [Transaction_ID transaction].

Definition transaction_values (txHash chainID : string) : gmap string string :=
  {["tx_hash" := txHash; "chain_id" := chainID]}.

Definition producer_Push (mq : MessageQueue) (txHash chainID : string) : Ext X unit :=
  _ ← MessageQueue_Push mq (transaction_values txHash chainID);
  mret tt.

(** ** What a pop returns *)

(** The documented answers of the two reading commands: at most [COUNT]
    messages, and a reply names the one stream that was asked for. *)
Definition redis_bounds : Prop :=
  (∀ args x ms x', XAutoClaim args x = (Ret ms, x') →
     Z.of_nat (length ms) ≤ Z.max 0 (XClaim_Count args)) ∧
  (∀ args x ss x', XReadGroup args x = (Ret (Some ss), x') →
     ∃ s, ss = [s] ∧ Z.of_nat (length (Messages s)) ≤ XRead_Count args).

Lemma logged_inv {A} msg (m : Ext X A) x a x' : logged msg m x = (Ret a, x') → m x = (Ret a, x').
Proof.
  unfold logged, eattempt, mbind, Ext_bind, efail, elog, mret, Ext_ret.
  destruct (m x) as [[]]; naive_solver.
Qed.

Lemma efold_transactions ms : ∀ acc x ts x',
  efold add_transaction ms acc x = (Ret ts, x') →
  x' = x ∧ ∃ ts', ts = acc ++ ts' ∧ Forall2 (λ m t, transaction_of m = Ret t) ms ts'.
Proof.
  induction ms as [|m ms IH]; intros acc x ts x' Hrun; simpl in Hrun.
  { unfold mret, Ext_ret in Hrun. simplify_eq. split; [done|]. exists []. by rewrite app_nil_r. }
  apply ebind_inv in Hrun as (acc1 & x1 & H1 & Hrun).
  apply ebind_inv in H1 as (t & x2 & Ht & H1). unfold elift, mret, Ext_ret in Ht, H1. simplify_eq.
  apply IH in Hrun as (-> & ts' & -> & Hts). split; [done|].
  exists (t :: ts'). rewrite <- app_assoc. split; [done|]. by constructor.
Qed.

(** What the consumer of the transaction queue gets is what the commands of
    Redis gave: the messages claimed from consumers that were idle too long,
    then the new ones, decoded in order and never more than asked for. But
    when there are no new messages the claimed ones are left out, though they
    now count as delivered to this consumer: unless the claim alone fills the
    request, an idle message is returned only together with a new one. *)
Theorem consumer_Pop_spec t count x ts x' :
  redis_bounds → 0 ≤ count < 2 ^ 63 → consumer_Pop t count x = (Ret ts, x') →
  Z.of_nat (length ts) ≤ count ∧
  ∃ claimed x1, XAutoClaim (mkXAutoClaimArgs (stream (messageQueue t)) (group (messageQueue t))
      (consumer (messageQueue t)) (timeout t) "0" count) x = (Ret claimed, x1) ∧
    (count ≤ Z.of_nat (length claimed) ∧ Forall2 (λ m t, transaction_of m = Ret t) claimed ts ∨
     Z.of_nat (length claimed) < count ∧
     ∃ read, XReadGroup (mkXReadGroupArgs (group (messageQueue t)) (consumer (messageQueue t))
         [stream (messageQueue t); ">"] (5 * Second) (count - Z.of_nat (length claimed))) x1
         = (Ret read, x') ∧
       match read with
       | None => ts = []
       | Some ss => Forall2 (λ m t, transaction_of m = Ret t) (claimed ++ (ss ≫= Messages)) ts
       end).
Proof.
  intros [Hclaim Hread] Hc (ms & x1 & Hpop & Hts)%ebind_inv.
  apply efold_transactions in Hts as (-> & ts' & -> & Hts).
  assert (Hi : int64 count = count) by (unfold int64; rewrite Z.mod_small; lia). rewrite Hi in Hpop.
  apply ebind_inv in Hpop as (st & x2 & Hcl & Hpop).
  apply ebind_inv in Hcl as (claimed & x3 & Hcl%logged_inv & Hst).
  unfold mret, Ext_ret in Hst. simplify_eq. simpl in Hpop.
  pose proof (Hclaim _ _ _ _ Hcl) as Hn. simpl in Hn.
  case_bool_decide as Hle.
  - unfold mret, Ext_ret in Hpop. simplify_eq. apply Forall2_length in Hts as Hlen.
    split; [simpl; lia|]. eexists ms, _. split; [done|]. by left.
  - apply ebind_inv in Hpop as (read & x4 & Hr%logged_inv & Hpop).
    destruct read as [ss|].
    + destruct (Hread _ _ _ _ Hr) as (s & -> & Hs). simpl in Hs.
      unfold mret, Ext_ret in Hpop. simplify_eq. apply Forall2_length in Hts as Hlen.
      rewrite length_app in Hlen. split; [simpl; lia|]. eexists claimed, _. split; [done|]. right.
      split; [lia|]. exists (Some [s]). split; [done|]. simpl. by rewrite app_nil_r.
    + unfold mret, Ext_ret in Hpop. simplify_eq. inversion Hts. subst. split; [simpl; lia|].
      eexists claimed, _. split; [done|]. right. split; [lia|]. by exists None.
Qed.

End queue.

(** ** A stream in memory *)

Module memory.
(** A message with the consumer it was delivered to and when; the clock. *)
Record Entry := mkEntry {
  message : XMessage;
  delivered : option (string * Time);
}.

Definition T : Type := Time * list Entry.

#[global] Instance runtime : Runtime T :=
  mkRuntime T (λ x, (x.1, x)) (λ d x, (x.1 + d, x.2)) (λ d x, (None, (x.1 + d, x.2)))
    (λ _ _ x, x).

(** Delivers the first [n] entries that [p] accepts to [c]. *)
Fixpoint take_entries (n : nat) (p : Entry → bool) (c : string) (now : Time) (l : list Entry)
    : list XMessage * list Entry :=
  match n, l with
  | S n', e :: l' =>
      if p e then
        let '(ms, l'') := take_entries n' p c now l' in
        (message e :: ms, mkEntry (message e) (Some (c, now)) :: l'')
      else let '(ms, l'') := take_entries n p c now l' in (ms, e :: l'')
  | _, _ => ([], l)
  end.

Definition idle (now : Time) (d : Duration) (e : Entry) : bool :=
  match delivered e with Some (_, t) => bool_decide (d ≤ now - t) | None => false end.

Definition fresh (e : Entry) : bool := match delivered e with None => true | Some _ => false end.

#[global] Instance memory_redis : Redis T :=
  mkRedis T
    (λ _ _ _ x, (Ret "OK", x))
    (λ _ values x, let id := pretty (length x.2) in
       (Ret id, (x.1, x.2 ++ [mkEntry (mkXMessage id values) None])))
    (λ args x,
       let '(ms, l) := take_entries (Z.to_nat (XRead_Count args)) fresh (XRead_Consumer args) x.1 x.2 in
       match ms with
       | [] => (Ret None, (x.1 + XRead_Block args, l))
       | _ => (Ret (Some [mkXStream "transactions" ms]), (x.1, l))
       end)
    (λ args x,
       let '(ms, l) := take_entries (Z.to_nat (XClaim_Count args)) (idle x.1 (XClaim_MinIdle args))
         (XClaim_Consumer args) x.1 x.2 in (Ret ms, (x.1, l)))
    (λ _ _ ids x, (Ret (Z.of_nat (length ids)),
       (x.1, filter (λ e, ID (message e) ∉ ids) x.2))).

Lemma take_entries_length p c now l : ∀ n, (length (take_entries n p c now l).1 ≤ n)%nat.
Proof.
  induction l as [|e l IH]; intros [|n]; simpl; try lia. destruct (p e).
  - specialize (IH n). destruct (take_entries n p c now l). simpl in *. lia.
  - specialize (IH (S n)). by destruct (take_entries (S n) p c now l).
Qed.

Lemma memory_bounds : redis_bounds (X := T).
Proof.
  split.
  - intros args x ms x'. unfold XAutoClaim. simpl.
    pose proof (take_entries_length (idle x.1 (XClaim_MinIdle args)) (XClaim_Consumer args) x.1 x.2
      (Z.to_nat (XClaim_Count args))) as Hl.
    destruct (take_entries _ _ _ _ _). simpl in *. intros [= <- _]. lia.
  - intros args x ss x'. unfold XReadGroup. simpl.
    pose proof (take_entries_length fresh (XRead_Consumer args) x.1 x.2
      (Z.to_nat (XRead_Count args))) as Hl.
    destruct (take_entries _ _ _ _ _) as [[|m ms] l]; simpl in *; intros [= <- _].
    eexists. split; [done|]. simpl. lia.
Qed.

Definition consumer_b : consumerTransactionQueueImpl :=
  mkConsumer (10 * Second) (mkMessageQueue "transactions" "transactions-group" "b").

(** A transaction that another consumer took a minute ago, and no new one. *)
Definition abandoned : T :=
  (Minute, [mkEntry (mkXMessage "1-0" (transaction_values "0xaa" "chain-a")) (Some ("a", 0))]).
End memory.
End queue.

(** The abandoned transaction is claimed and not returned, and five seconds
    later it is no longer idle. *)
Lemma consumer_Pop_spec_witness :
  queue.redis_bounds (X := queue.memory.T) ∧
  ∃ x', queue.consumer_Pop queue.memory.consumer_b 10 queue.memory.abandoned = (Ret [], x') ∧
    Z.of_nat (length (@nil queue.Transaction)) ≤ 10 ∧
    queue.memory.delivered <$> x'.2 = [Some ("b", Minute)].
Proof.
  split; [exact queue.memory.memory_bounds|].
  assert (Hrun : ∃ x', queue.consumer_Pop queue.memory.consumer_b 10 queue.memory.abandoned
    = (Ret [], x') ∧ queue.memory.delivered <$> x'.2 = [Some ("b", Minute)]).
  { eexists. split; [vm_compute; reflexivity|reflexivity]. }
  destruct Hrun as (x' & Hrun & Hd). exists x'. split; [exact Hrun|].
  destruct (queue.consumer_Pop_spec queue.memory.consumer_b 10 queue.memory.abandoned [] x'
    queue.memory.memory_bounds ltac:(lia) Hrun) as [Hle _].
  by split.
Defined.
