(* ===== verification/Price.v ===== *)
(** * Prices

    [shared/clients/coingecko] and [shared/clients/utils]: the cache in front of
    the Coingecko API, the API client, and the rate limited HTTP client under
    it. The cache lives in the external state. HTTP, JSON and the limiter of
    [golang.org/x/time/rate] are parameters. *)
From stdpp Require Import prelude strings list gmap.
From Stdlib Require Import ZArith.
From S2P Require Import Prelude Go Config Db Transfer World Client Float OnceLaws Signing.
From S2P Require Import CosmosClient ClientLaws ClientDemo.
Open Scope Z_scope.

(** ** The cache *)

Record PriceResponse := mkPriceResponse {
  price : config.float64;
  lastUpdated : Time;
}.

(** [strings.ReplaceAll(s, "/", "//")]. *)
Fixpoint double_slashes (s : string) : string :=
  match s with
  | EmptyString => EmptyString
  | String a s' =>
      if bool_decide (a = Ascii.ascii_of_nat 47)
      then String a (String a (double_slashes s'))
      else String a (double_slashes s')
  end.

Definition cacheKey (coingeckoID currency : string) : string :=
  double_slashes coingeckoID +:+ "/" +:+ double_slashes currency.

Definition PriceClient (X : Type) : Type := string → string → Ext X config.float64.

Section cache.
Context {X : Type} `{!Runtime X}.

(** [cached] is where the cache is; [cacheRefreshInterval] is fixed. *)
Context (internalClient : PriceClient X) (cached : Lens X (gmap string PriceResponse))
  (cacheRefreshInterval : Duration).

Definition CachedPriceClient_GetSimplePrice (coingeckoID currency : string)
    : Ext X config.float64 :=
  let key := cacheKey coingeckoID currency in
  cache ← eget cached;
  fresh ←
    match cache !! key with
    | None => mret None
    | Some priceResponse =>
        d ← esince (lastUpdated priceResponse);
        if bool_decide (d > cacheRefreshInterval) then mret None
        else mret (Some (price priceResponse))
    end;
  match fresh with
  | Some p => mret p
  | None =>
      p ← internalClient coingeckoID currency;
      now ← enow;
      cache ← eget cached;
      eset cached (<[key := mkPriceResponse p now]> cache) ≫= λ _,
      mret p
  end.

(** [LegacyDec.Float64] of an integer amount, and [pgtype.Numeric.ScanScientific]
    of a number of millionths printed with six decimals. *)
Context (Dec_Float64 : Z → outcome dyadic) (ScanScientific : Z → outcome db.Numeric).

(** The value of a finite price; an infinite or undefined one prints as text
    that [ScanScientific] refuses. *)
Definition price_value (p : config.float64) : option dyadic :=
  match float64_class p with FFinite m e => Some (m, e) | _ => None end.

Definition CachedPriceClient_GetCoinUsdValue (coingeckoID : string) (decimals : Z)
    (amount : option Z) : Ext X db.Numeric :=
  coingeckoPrice ← ewrap "getting coingecko price of coin in usd"
    (CachedPriceClient_GetSimplePrice coingeckoID "usd");
  amount ← ederef amount;
  amountFloat ← ewrap "invalid amount to float64 conversion" (elift (Dec_Float64 amount));
  match price_value coingeckoPrice with
  | None => efail (Errorf "scanning usd amount into pg numeric" (ErrorNew "is not a number"))
  | Some p =>
      let usdAmount := fl_mul (fl_div amountFloat (Pow10 decimals)) p in
      ewrap "scanning usd amount into pg numeric" (elift (ScanScientific (millionths usdAmount)))
  end.
End cache.

(** [NoOpPriceClient]. *)
Definition float_0 : config.float64 := config.mkfloat64 0.
Definition NoOpPriceClient_GetSimplePrice {X} : PriceClient X := λ _ _, mret float_0.
Definition NoOpPriceClient_GetCoinUsdValue {X} (coingeckoID : string) (decimals : Z)
    (amount : option Z) : Ext X db.Numeric := mret db.NumericNull.

(** ** HTTP *)

Record Request := mkRequest {
  Request_URL : string;
  Request_Query : list (string * string);
}.

Record Response := mkResponse {
  StatusCode : Z;
  retry_after : string;
  (** What [io.ReadAll] of the body gives. *)
  Body : outcome bytes;
}.

Definition StatusOK : Z := 200.
Definition StatusTooManyRequests : Z := 429.

Section http.
Context {X : Type} `{!Runtime X}.
Context (http_Do : Request → Ext X Response) (limiter_Wait : Ext X unit).

(** [RateLimitedHTTPClient.Do]. When the context ends during the pause the
    request is still sent again. *)
Definition RateLimitedHTTPClient_Do (req : Request) : Ext X Response :=
  limiter_Wait ≫= λ _,
  res ← http_Do req;
  if bool_decide (StatusCode res = StatusTooManyRequests) then
    match Atoi (retry_after res) with
    | None => mret res
    | Some retryAfter =>
        eattempt (ewait (int64 (retryAfter * Second))) ≫= λ _,
        http_Do req
    end
  else mret res.
End http.

(** [DefaultRateLimitedHTTPClient]: the interval between requests and the burst
    of the limiter. *)
Definition DefaultRateLimiter (requestsPerMinute : Z) : Duration * Z :=
  let requestsPerMinute := if bool_decide (requestsPerMinute = 0) then 10 else requestsPerMinute in
  (Z.quot Minute requestsPerMinute, Z.quot requestsPerMinute 2).

(** ** The Coingecko API *)

Section coingecko.
Context {X : Type}.
Context (http_Do : Request → Ext X Response).
(** [json.Unmarshal] into a map with the [usd] field of each coin, zero where
    the coin has none, and into the current prices of a history. *)
Context (unmarshal_prices : bytes → outcome (gmap string config.float64)).
Context (unmarshal_history : bytes → outcome (gmap string config.float64)).
Context (format_date : Time → string).
(** [http.NewRequestWithContext] fails on a URL that does not parse. *)
Context (parse_url : string → outcome unit).

Record CoingeckoClient := mkCoingeckoClient { baseURL : string; apiKey : string }.

Definition with_api_key (c : CoingeckoClient) (query : list (string * string))
    : list (string * string) :=
  if bool_decide (apiKey c = "") then query else query ++ [("x_cg_pro_api_key", apiKey c)].

Definition CoingeckoClient_GetSimplePrice (c : CoingeckoClient) : PriceClient X :=
  λ coingeckoID currency,
    elift (parse_url (baseURL c +:+ "/simple/price")) ≫= λ _,
    res ← http_Do (mkRequest (baseURL c +:+ "/simple/price")
      (with_api_key c [("ids", coingeckoID); ("vs_currencies", currency)]));
    if negb (bool_decide (StatusCode res = StatusOK))
    then efail (ErrorNew "error requesting resource from server")
    else
      jsonBytes ← elift (Body res);
      prices ← elift (unmarshal_prices jsonBytes);
      match prices !! coingeckoID with
      | None => efail (ErrorNew "failed to return price for coingeckoId")
      | Some p => mret p
      end.

Definition CoingeckoClient_GetHistoricalPrice (c : CoingeckoClient) (coingeckoID currency : string)
    (date : Time) : Ext X config.float64 :=
  elift (parse_url (baseURL c +:+ "/coins/" +:+ coingeckoID +:+ "/history")) ≫= λ _,
  res ← http_Do (mkRequest (baseURL c +:+ "/coins/" +:+ coingeckoID +:+ "/history")
    (with_api_key c [("date", format_date date)]));
  if negb (bool_decide (StatusCode res = StatusOK))
  then efail (ErrorNew "error requesting resource from server")
  else
    jsonBytes ← elift (Body res);
    prices ← elift (unmarshal_history jsonBytes);
    match prices !! currency with
    | None => efail (ErrorNew "failed to return price for coingeckoId")
    | Some p => mret p
    end.
End coingecko.

(** ** What the cache promises *)

Section laws.
Context {X : Type} `{!Runtime X} (cached : Lens X (gmap string PriceResponse)).
Context `{!LensLaws cached} `{!RuntimeKeeps cached}.

Lemma GetSimplePrice_miss internal interval id cur x p x0 :
  keeps cached (internal id cur) → lget cached x !! cacheKey id cur = None →
  internal id cur x = (Ret p, x0) →
  ∃ x1, CachedPriceClient_GetSimplePrice internal cached interval id cur x = (Ret p, x1) ∧
    lget cached x1 = <[cacheKey id cur := mkPriceResponse p (read1 x0)]> (lget cached x).
Proof.
  intros Hk Hm Hi. unfold CachedPriceClient_GetSimplePrice.
  erewrite ebind_Ret by done. rewrite Hm. erewrite ebind_Ret by done.
  cbv beta iota. erewrite ebind_Ret by done. erewrite ebind_Ret by apply enow_run.
  unfold mbind, Ext_bind, eget, eset, mret, Ext_ret. eexists. split; [done|].
  rewrite lget_lset. f_equal. unfold after1. rewrite (keeps_Now cached).
  pose proof (Hk x) as Hkx. by rewrite Hi in Hkx.
Qed.

Lemma GetSimplePrice_hit internal interval id cur y r :
  lget cached y !! cacheKey id cur = Some r →
  CachedPriceClient_GetSimplePrice internal cached interval id cur y =
    if bool_decide (time_Sub (read1 y) (lastUpdated r) > interval)
    then (p ← internal id cur;
          now ← enow;
          cache ← eget cached;
          eset cached (<[cacheKey id cur := mkPriceResponse p now]> cache) ≫= λ _, mret p) (after1 y)
    else (Ret (price r), after1 y).
Proof.
  intros Hr. unfold CachedPriceClient_GetSimplePrice. erewrite ebind_Ret by done. rewrite Hr.
  rewrite ebind_assoc. unfold esince. rewrite ebind_assoc. erewrite ebind_Ret by apply enow_run.
  erewrite ebind_Ret by done. by case_bool_decide.
Qed.

(** The price of a coin is asked for once per refresh interval: after a call
    that fetched it, calls up to the interval later return the same price
    without a request, whatever the API would say; a later call asks again,
    and when that request fails the call fails, although an older price is
    in the cache. *)
Theorem GetSimplePrice_cached internal interval id cur x p x0 :
  keeps cached (internal id cur) → lget cached x !! cacheKey id cur = None →
  internal id cur x = (Ret p, x0) →
  ∃ x1, CachedPriceClient_GetSimplePrice internal cached interval id cur x = (Ret p, x1) ∧
    ∀ y, lget cached y = lget cached x1 →
      (time_Sub (read1 y) (read1 x0) ≤ interval → ∀ internal',
         CachedPriceClient_GetSimplePrice internal' cached interval id cur y = (Ret p, after1 y)) ∧
      (interval < time_Sub (read1 y) (read1 x0) → ∀ internal' e y',
         internal' id cur (after1 y) = (Fail e, y') →
         CachedPriceClient_GetSimplePrice internal' cached interval id cur y = (Fail e, y')).
Proof.
  intros Hk Hm Hi. destruct (GetSimplePrice_miss internal interval id cur x p x0) as (x1 & Hx1 & Hc);
    [done..|].
  exists x1. split; [done|]. intros y Hy.
  assert (Hr : lget cached y !! cacheKey id cur = Some (mkPriceResponse p (read1 x0))).
  { rewrite Hy, Hc. apply lookup_insert_eq. }
  split.
  - intros Ht internal'. rewrite (GetSimplePrice_hit _ _ _ _ _ _ Hr). simpl.
    by rewrite bool_decide_false by lia.
  - intros Ht internal' e y' He. rewrite (GetSimplePrice_hit _ _ _ _ _ _ Hr). simpl.
    rewrite bool_decide_true by lia. by erewrite ebind_Fail by done.
Qed.
End laws.

(** ** Keys of the cache *)

Fixpoint has_slash (s : string) : bool :=
  match s with
  | EmptyString => false
  | String a s' => bool_decide (a = Ascii.ascii_of_nat 47) || has_slash s'
  end.

Lemma double_slashes_id s : has_slash s = false → double_slashes s = s.
Proof.
  induction s as [|a s IH]; simpl; [done|]. case_bool_decide; simpl; [done|]. intros. by rewrite IH.
Qed.

(** Two texts around the first slash. *)
Lemma slash_split s t s' t' :
  has_slash s = false → has_slash s' = false →
  s +:+ "/" +:+ t = s' +:+ "/" +:+ t' → s = s' ∧ t = t'.
Proof.
  revert s'. induction s as [|a s IH]; intros [|a' s'] Hs Hs' Heq; simpl in *.
  - by injection Heq.
  - injection Heq as <- _. by rewrite bool_decide_true in Hs'.
  - injection Heq as -> _. by rewrite bool_decide_true in Hs.
  - injection Heq as -> Heq. apply orb_false_iff in Hs as [_ Hs], Hs' as [_ Hs'].
    destruct (IH s' Hs Hs' Heq) as [-> ->]. done.
Qed.

(** The cache confuses no two coins and currencies without a slash. Doubling
    slashes does not extend that to the others: the coin [a/] in the currency
    [b] and the coin [a] in the currency [/b] share a key. *)
Theorem cacheKey_injective id cur id' cur' :
  (has_slash id = false → has_slash id' = false → has_slash cur = false → has_slash cur' = false →
   cacheKey id cur = cacheKey id' cur' → id = id' ∧ cur = cur') ∧
  cacheKey "a/" "b" = cacheKey "a" "/b".
Proof.
  split; [|done]. intros H1 H2 H3 H4. unfold cacheKey.
  rewrite !double_slashes_id by done. by apply slash_split.
Qed.

(** A limit of one request per minute lets no request through: the limiter
    made for it has a burst of zero. Every other positive limit has room for a
    request. *)
Theorem DefaultRateLimiter_burst n :
  0 ≤ n → (DefaultRateLimiter n).2 = 0 ↔ n = 1.
Proof.
  intros Hn. unfold DefaultRateLimiter. case_bool_decide; simpl.
  - subst. split; [done|lia].
  - rewrite Z.quot_div_nonneg by lia. split; [|by intros ->].
    intros Hq. pose proof (Z.mod_pos_bound n 2). pose proof (Z.div_mod n 2). lia.
Qed.

(** ** A cache at work *)

Section demo.
(** A clock and a cache. *)
Definition shop : Type := Time * gmap string PriceResponse.

Instance shop_runtime : Runtime shop :=
  mkRuntime shop (λ x, (x.1, (x.1 + 1, x.2))) (λ d x, (x.1 + d, x.2))
    (λ d x, (None, (x.1 + d, x.2))) (λ _ _ x, x).

Definition shop_cache : Lens shop (gmap string PriceResponse) := mkLens snd (λ c x, (x.1, c)).

Instance shop_laws : LensLaws shop_cache.
Proof. by split; intros; destruct x. Qed.
Instance shop_keeps : RuntimeKeeps shop_cache.
Proof. by split. Qed.

(** 2.5 in IEEE 754. *)
Definition price_2_5 : config.float64 := config.mkfloat64 4612811918334230528.

Lemma GetSimplePrice_cached_witness :
  ∃ x1, CachedPriceClient_GetSimplePrice (λ _ _, mret price_2_5) shop_cache Minute "atom" "usd"
    (0, ∅) = (Ret price_2_5, x1).
Proof.
  destruct (GetSimplePrice_cached shop_cache (λ _ _, mret price_2_5) Minute "atom" "usd" (0, ∅)
    price_2_5 (0, ∅)) as (x1 & H & _); [done..|by exists x1].
Defined.

Lemma DefaultRateLimiter_burst_witness : (DefaultRateLimiter 1).2 = 0.
Proof. by apply (DefaultRateLimiter_burst 1). Defined.

(** 1.5 tokens of 18 decimals at 2.5 dollars are 3.75 dollars. *)
Example usd_value :
  (CachedPriceClient_GetCoinUsdValue (λ _ _, mret price_2_5) shop_cache Minute
     (λ z, Ret (fl_of_Z z)) (λ n, Ret (db.mkNumeric (Some n) (-6) true)) "eth" 18
     (Some (15 * 10 ^ 17)) (0, ∅)).1 = Ret (db.mkNumeric (Some 3750000) (-6) true).
Proof. vm_compute. reflexivity. Qed.
End demo.
