(* ===== verification/ClientManager.v ===== *)
(** * The client manager

    [relayer/ibcv2/client_manager.go]: one bridge client per configured chain,
    with its signer and its connections.

    Dialing is a parameter: it gives the node of a chain. [evm_slot] and
    [cosmos_slot] say where in the external state the object of a new client is
    put. *)
From stdpp Require Import prelude strings list gmap.
From Stdlib Require Import ZArith.
From S2P Require Import Prelude Go Config Db Transfer World Client Float Once Signing Bindings EvmClient.
From S2P Require Import CosmosClient ClientLaws ClientDemo.
Open Scope Z_scope.

(** ** Connections *)

Class Net (X : Type) `{!Geth} `{!CosmosSDK} := mkNet {
  TmRPC : Type;
  GrpcConn : Type;
  LookupEnv : string → option string;
  (** [ethereumrpc.DialOptions], the authorization header and
      [ethclient.NewClient]. *)
  dial_eth : string → option string → Ext X (EVMNode X);
  (** [rpcclienthttp.NewWithClient] and [grpc.NewClient]. *)
  dial_comet : string → option string → outcome TmRPC;
  dial_grpc : string → bool → outcome GrpcConn;
  cosmos_node_of : TmRPC → GrpcConn → CosmosNode X;
  (** [tx.NewTxConfig] on the registry of the bridge client. *)
  bridge_txConfig : TxConfig;
  evm_slot : string → Lens X EVMState;
  cosmos_slot : string → Lens X CosmosState;
}.

(** The dynamic types of a [BridgeClient] value. *)
Inductive AnyClient {X : Type} `{!Geth} `{!CosmosSDK} :=
  | EVMClient (node : EVMNode X) (c : EVMBridgeClient X)
  | CosmosClient (node : CosmosNode X) (c : CosmosBridgeClient X).
Arguments AnyClient X {_ _}.

Section manager.
Context {X : Type} `{!Geth} `{!CosmosSDK} `{!Runtime X} `{!SignerService X} `{!Net X}.
Context (reader : config.configReader).

(** Calling a method of a client. *)
Definition as_bridge_client (ticks : nat) (c : AnyClient X) : BridgeClient X :=
  match c with
  | EVMClient node c => evm_bridge_client (EVMNode0 := node) c ticks
  | CosmosClient node c => cosmos_bridge_client (CosmosNode0 := node) c ticks
  end.

(** ** Signers *)

(** [remote] says that a signer service is configured. *)
Definition createEthSigner (chainID : string) (keys : gmap string string) (remote : bool)
    (signerWalletID : string) : Ext X (Signer X) :=
  if remote then
    elog Info "Using remote signer for EVM chain" ≫= λ _,
    mret (NewRemoteEVMSigner signerWalletID chainID)
  else
    elog Info "Remote signing not configured - using local signer for EVM chain" ≫= λ _,
    match keys !! chainID with
    | None => efail (ErrorNew "private key not found for chain")
    | Some privateKeyStr =>
        privateKey ← ewrap "converting hex private key to ecdsa"
          (elift (HexToECDSA (TrimPrefix privateKeyStr "0x")));
        mret (NewLocalEthereumSigner privateKey)
    end.

(** [privateKeyStr[:2]] panics on a shorter key. *)
Definition createCosmosSigner (chainID : string) (keys : gmap string string) (remote : bool)
    (signerWalletID : string) : Ext X (Signer X) :=
  if remote then
    elog Info "Using remote signer for Cosmos chain" ≫= λ _,
    mret (NewRemoteCosmosSigner signerWalletID chainID DefaultTxConfig)
  else
    elog Info "Remote Signing not configured - using local signer for Cosmos chain" ≫= λ _,
    match keys !! chainID with
    | None => efail (ErrorNew "private key not found for chain")
    | Some privateKeyStr =>
        if bool_decide (String.length privateKeyStr < 2)%nat then epanic
        else
          let privateKeyStr :=
            if bool_decide (String.substring 0 2 privateKeyStr = "0x")
            then String.substring 2 (String.length privateKeyStr - 2) privateKeyStr
            else privateKeyStr in
          privateKeyBytes ← ewrap "hex decoding private key bytes to string"
            (elift (hex_decode privateKeyStr));
          privateKey ← ewrap "unmarshaling private key bytes to amino"
            (elift (UnmarshalAmino privateKeyBytes));
          mret (NewLocalCosmosSigner privateKey)
    end.

(** ** Connections of a chain *)

Definition createEthClient (chainID : string) : Ext X (EVMNode X) :=
  rpc ← elift (config.GetRPCEndpoint reader chainID);
  basicAuth ← elift (config.GetBasicAuth LookupEnv reader chainID);
  dial_eth rpc basicAuth.

Definition createCosmosRPC (chainID : string) : Ext X TmRPC :=
  rpc ← ewrap "getting rpc endpoint for chain" (elift (config.GetRPCEndpoint reader chainID));
  basicAuth ← ewrap "getting basic auth for chain"
    (elift (config.GetBasicAuth LookupEnv reader chainID));
  ewrap "creating tmrpc client for chain" (elift (dial_comet rpc basicAuth)).

Definition createCosmosGRPC (chainID : string) : Ext X GrpcConn :=
  endpoint ← ewrap "getting grpc endpoint for chain"
    (elift (config.GetGRPCEndpoint reader chainID));
  ewrap "creating grpc client" (elift (dial_grpc endpoint.1 endpoint.2)).

(** ** The manager *)

Definition create_evm (keys : gmap string string) (remote : bool) (signerEVMWalletID : string)
    (chain : config.ChainConfig) : Ext X (AnyClient X) :=
  let chainID := config.ChainID chain in
  signer ← ewrap "creating eth signer for chain"
    (createEthSigner chainID keys remote signerEVMWalletID);
  node ← ewrap "creating eth client for chain" (createEthClient chainID);
  evm ← ederef (config.EVM chain);
  bridge ← ewrap "creating evm bridge client for chain"
    (NewEVMBridgeClient (EVMNode0 := node) (evm_slot chainID) chainID
      (config.ICS26RouterAddress (config.Contracts evm))
      (config.ICS20TransferAddress (config.Contracts evm)) signer
      (config.GasFeeCapMultiplier evm) (config.GasTipCapMultiplier evm));
  mret (EVMClient node bridge).

Definition create_cosmos (keys : gmap string string) (remote : bool)
    (signerCosmosWalletID : string) (chain : config.ChainConfig) : Ext X (AnyClient X) :=
  let chainID := config.ChainID chain in
  cosmos ← ederef (config.Cosmos chain);
  let gasPrice := config.GasPrice cosmos in
  let feeDenom := config.IBCV2TxFeeDenom cosmos in
  let feeAmount := config.IBCV2TxFeeAmount cosmos in
  if (float_positive gasPrice || bool_decide (0 < feeAmount)) && bool_decide (feeDenom = "") then
    efail (ErrorNew "ibcv2 gas price or ibcv2 fee amount cannot be specified without setting ibcv2 fee denom")
  else if negb (bool_decide (feeDenom = "")) && (float_zero gasPrice && bool_decide (feeAmount = 0)) then
    efail (ErrorNew "ibcv2 gas price and ibcv2 fee amount cannot be unset when a ibcv2 fee denom is set")
  else if float_positive gasPrice && bool_decide (0 < feeAmount) then
    efail (ErrorNew "ibcv2 fee denom and ibcv2 gas price cannot both be set")
  else
    signer ← ewrap "creating cosmos signer for chain"
      (createCosmosSigner chainID keys remote signerCosmosWalletID);
    rpc ← ewrap "creating cosmos rpc client for chain" (createCosmosRPC chainID);
    conn ← ewrap "creating cosmos grpc connection for chain" (createCosmosGRPC chainID);
    bridge ← NewCosmosBridgeClient (cosmos_slot chainID) chainID signer
      (config.AddressPrefix cosmos) gasPrice feeDenom feeAmount bridge_txConfig;
    mret (CosmosClient (cosmos_node_of rpc conn) bridge).

Fixpoint create_clients (keys : gmap string string) (remote : bool)
    (signerCosmosWalletID signerEVMWalletID : string) (chains : list config.ChainConfig)
    (clients : gmap string (AnyClient X)) : Ext X (gmap string (AnyClient X)) :=
  match chains with
  | [] => mret clients
  | chain :: chains' =>
      clients' ←
        (if bool_decide (config.ChainConfig_Type chain = config.ChainType_EVM) then
           bridge ← create_evm keys remote signerEVMWalletID chain;
           mret (<[config.ChainID chain := bridge]> clients)
         else if bool_decide (config.ChainConfig_Type chain = config.ChainType_COSMOS) then
           bridge ← create_cosmos keys remote signerCosmosWalletID chain;
           mret (<[config.ChainID chain := bridge]> clients)
         else mret clients);
      create_clients keys remote signerCosmosWalletID signerEVMWalletID chains' clients'
  end.

(** The wallets of the signer service are looked up before any chain is. *)
Definition check_wallets (signerCosmosWalletID signerEVMWalletID : string)
    (chains : list config.ChainConfig) : Ext X unit :=
  let has_type t := existsb (λ c, bool_decide (config.ChainConfig_Type c = t)) chains in
  (if has_type config.ChainType_COSMOS && negb (bool_decide (signerCosmosWalletID = "")) then
     _ ← ewrap "remote signer health check failed for wallet"
       (SignerManager_GetWallet signerCosmosWalletID PubKeyType_Cosmos); mret tt
   else mret tt) ≫= λ _,
  (if has_type config.ChainType_EVM && negb (bool_decide (signerEVMWalletID = "")) then
     _ ← ewrap "remote signer health check failed for wallet"
       (SignerManager_GetWallet signerEVMWalletID PubKeyType_Ethereum); mret tt
   else mret tt) ≫= λ _,
  elog Info "Successfully connected to remote signer service".

Definition NewClientManagerFromConfig (keys : gmap string string) (remote : bool)
    (signerCosmosWalletID signerEVMWalletID : string) (chains : list config.ChainConfig)
    : Ext X (gmap string (AnyClient X)) :=
  (if remote then check_wallets signerCosmosWalletID signerEVMWalletID chains else mret tt) ≫= λ _,
  create_clients keys remote signerCosmosWalletID signerEVMWalletID chains ∅.
End manager.

(** ** What the manager holds *)

Section laws.
Context {X : Type} `{!Geth} `{!CosmosSDK} `{!Runtime X} `{!SignerService X} `{!Net X}.
Context (reader : config.configReader).
Implicit Types chain : config.ChainConfig.

(** The chains that get a client. *)
Definition supported chain : Prop :=
  config.ChainConfig_Type chain = config.ChainType_EVM ∨
  config.ChainConfig_Type chain = config.ChainType_COSMOS.

#[global] Instance supported_dec chain : Decision (supported chain).
Proof. unfold supported. apply _. Defined.

(** Fees are configured in a way [getTxFee] accepts. *)
Definition fees_ok (c : CosmosBridgeClient X) : Prop :=
  (cosmos_feeDenom c = "" → float_positive (cosmos_gasPrice c) = false ∧ ¬ 0 < cosmos_feeAmount c) ∧
  ¬ (float_positive (cosmos_gasPrice c) = true ∧ 0 < cosmos_feeAmount c).

Definition made_for chain (c : AnyClient X) : Prop :=
  match c with
  | EVMClient _ b =>
      config.ChainConfig_Type chain = config.ChainType_EVM ∧
      evm_chainID b = config.ChainID chain ∧ evm_self b = evm_slot (config.ChainID chain) ∧
      length (evm_signerAddress b) = AddressLength
  | CosmosClient _ b =>
      config.ChainConfig_Type chain = config.ChainType_COSMOS ∧
      cosmos_chainID b = config.ChainID chain ∧
      cosmos_self b = cosmos_slot (config.ChainID chain) ∧ fees_ok b
  end.

Lemma NewEVMBridgeClient_fields (node : EVMNode X) self chainID r t signer f g x b x' :
  NewEVMBridgeClient (EVMNode0 := node) self chainID r t signer f g x = (Ret b, x') →
  evm_self b = self ∧ evm_chainID b = chainID ∧ length (evm_signerAddress b) = AddressLength.
Proof.
  intros (u1 & x1 & _ & Hrun)%ebind_inv. apply ebind_inv in Hrun as (u2 & x2 & _ & Hrun).
  apply ebind_inv in Hrun as (addr & x3 & _ & Hrun). case_bool_decide as Hl; [|done]. simpl in Hrun.
  unfold mbind, Ext_bind, eset, mret, Ext_ret in Hrun. by injection Hrun as <- _.
Qed.

Lemma create_evm_made keys remote wallet chain x c x' :
  config.ChainConfig_Type chain = config.ChainType_EVM →
  create_evm reader keys remote wallet chain x = (Ret c, x') → made_for chain c.
Proof.
  intros Ht (signer & x1 & _ & Hrun)%ebind_inv. apply ebind_inv in Hrun as (node & x2 & _ & Hrun).
  apply ebind_inv in Hrun as (evm & x3 & _ & Hrun). apply ebind_inv in Hrun as (b & x4 & Hb & Hrun).
  apply ewrap_Ret in Hb. apply NewEVMBridgeClient_fields in Hb as (? & ? & ?).
  unfold mret, Ext_ret in Hrun. by injection Hrun as <- _.
Qed.

Lemma create_cosmos_made keys remote wallet chain x c x' :
  config.ChainConfig_Type chain = config.ChainType_COSMOS →
  create_cosmos reader keys remote wallet chain x = (Ret c, x') → made_for chain c.
Proof.
  intros Ht (cosmos & x1 & _ & Hrun)%ebind_inv.
  cbv zeta in Hrun.
  case_match eqn:H1; [done|]. case_match eqn:H2; [done|]. case_match eqn:H3; [done|].
  apply ebind_inv in Hrun as (signer & x2 & _ & Hrun).
  apply ebind_inv in Hrun as (rpc & x3 & _ & Hrun).
  apply ebind_inv in Hrun as (conn & x4 & _ & Hrun).
  unfold NewCosmosBridgeClient, mbind, Ext_bind, eset, mret, Ext_ret in Hrun.
  injection Hrun as <- _. split_and!; try done. split; simpl.
  - intros Hd. rewrite (bool_decide_true _ Hd), andb_true_r in H1.
    apply orb_false_iff in H1 as [? ?%bool_decide_eq_false]. done.
  - intros [Hp Ha]. by rewrite Hp, bool_decide_true in H3.
Qed.

(** One turn of the loop over the chains. *)
Lemma create_clients_inv keys remote wc we chains : ∀ m x m' x',
  create_clients reader keys remote wc we chains m x = (Ret m', x') →
  dom m' = dom m ∪ list_to_set (config.ChainID <$> filter supported chains) ∧
  ∀ id c, m' !! id = Some c → m !! id = Some c ∨
    ∃ chain, chain ∈ chains ∧ config.ChainID chain = id ∧ made_for chain c.
Proof.
  induction chains as [|chain chains IH]; intros m x m' x' Hrun; simpl in Hrun.
  { unfold mret, Ext_ret in Hrun. simplify_eq. split; [set_solver|auto]. }
  apply ebind_inv in Hrun as (m1 & x1 & Hm1 & Hrun). apply IH in Hrun as [Hdom Hin].
  assert (Hone : (dom m1 = dom m ∪ (if decide (supported chain) then {[config.ChainID chain]} else ∅)) ∧
    ∀ id c, m1 !! id = Some c → m !! id = Some c ∨ (config.ChainID chain = id ∧ made_for chain c)).
  { assert (Hins : ∀ c, supported chain → made_for chain c → m1 = <[config.ChainID chain := c]> m →
      (dom m1 = dom m ∪ (if decide (supported chain) then {[config.ChainID chain]} else ∅)) ∧
      ∀ id c, m1 !! id = Some c → m !! id = Some c ∨ (config.ChainID chain = id ∧ made_for chain c)).
    { intros c Hs Hc ->. rewrite decide_True by done. split; [rewrite dom_insert_L; set_solver|].
      intros id c' [[<- <-]|[_ ?]]%lookup_insert_Some; auto. }
    case_bool_decide as H1; [|case_bool_decide as H2].
    - apply ebind_inv in Hm1 as (c & x2 & Hc & Hm1). apply create_evm_made in Hc; [|done].
      unfold mret, Ext_ret in Hm1. simplify_eq. apply (Hins c); [by left|done..].
    - apply ebind_inv in Hm1 as (c & x2 & Hc & Hm1). apply create_cosmos_made in Hc; [|done].
      unfold mret, Ext_ret in Hm1. simplify_eq. apply (Hins c); [by right|done..].
    - unfold mret, Ext_ret in Hm1. simplify_eq.
      rewrite decide_False by (unfold supported; naive_solver). split; [set_solver|auto]. }
  destruct Hone as [Hd1 Hin1]. split.
  - rewrite Hdom, Hd1, filter_cons. case_decide; rewrite ?fmap_cons; simpl; set_solver.
  - intros id c [Hc|(chain' & ? & ? & ?)]%Hin.
    + apply Hin1 in Hc as [?|[? ?]]; [by left|]. right. exists chain. split_and!; [by left|done..].
    + right. exists chain'. split_and!; [by right|done..].
Qed.

(** The client manager has a client for exactly the EVM and Cosmos chains of
    the configuration, under its chain ID, and every client was made for its
    chain: it has the chain's type and ID and its own place for state, an EVM
    client has a twenty byte signer address, and a Cosmos client has fee
    settings with which [getTxFee] does not fail. *)
Theorem NewClientManager_complete keys remote wc we chains x m x' ticks :
  NewClientManagerFromConfig reader keys remote wc we chains x = (Ret m, x') →
  dom m = list_to_set (config.ChainID <$> filter supported chains) ∧
  ∀ id c, m !! id = Some c →
    ∃ chain, chain ∈ chains ∧ config.ChainID chain = id ∧ made_for chain c ∧
      client_ChainType (as_bridge_client ticks c) = config.ChainConfig_Type chain ∧
      match c with
      | EVMClient _ _ => True
      | CosmosClient _ b => cosmos_feeDenom b ≠ "" → ∀ gas e, getTxFee b gas ≠ Fail e
      end.
Proof.
  intros (u & x1 & _ & Hrun)%ebind_inv. apply create_clients_inv in Hrun as [Hd Hin].
  split; [rewrite Hd; set_solver|]. intros id c Hc.
  destruct (Hin id c Hc) as [?|(chain & Hch & Hid & Hm)]; [by rewrite lookup_empty in *|].
  exists chain. split_and!; [done..| |].
  - destruct c; destruct Hm as [-> _]; done.
  - destruct c as [|node b]; [done|]. destruct Hm as (_ & _ & _ & _ & Hf). intros Hdn gas e.
    unfold getTxFee. rewrite bool_decide_false by done.
    destruct (float_positive (cosmos_gasPrice b)) eqn:Hp; cbn [andb].
    + rewrite bool_decide_false by naive_solver.
      generalize (int64 gas). intros z. unfold mul_to_int.
      destruct (float64_class _); [discriminate| |discriminate]. destruct (z =? 0); discriminate.
    + case_bool_decide; discriminate.
Qed.

(** A local Cosmos key of fewer than two characters, an empty one for
    example, makes the start of the relayer panic instead of fail. *)
Theorem createCosmosSigner_short_key chainID keys key wallet x :
  keys !! chainID = Some key → (String.length key < 2)%nat →
  (createCosmosSigner chainID keys false wallet x).1 = Panic.
Proof.
  intros Hk Hl. unfold createCosmosSigner. erewrite ebind_Ret by done. rewrite Hk.
  by rewrite bool_decide_true.
Qed.
End laws.

(** ** The theorems applied *)

Module manager_demo.
#[global] Instance signers : SignerService sim.Sim :=
  mkSignerService sim.Sim (λ _ _, sim.ret (mkSignResponse [] [] [] [])) (λ _ _, sim.ret [2]).

(** Every address can be dialed, and nothing needs a password. *)
#[global] Instance net : Net sim.Sim :=
  mkNet sim.Sim _ _ unit unit (λ _, None)
    (λ _ _, sim.ret (sim.evm_node (λ _, Ret None) (Some 7) []))
    (λ _ _, Ret tt) (λ _ _, Ret tt)
    (λ _ _, sim.cosmos_node (λ _, Ret None) []) tt
    (λ _, sim.evm_lens) (λ _, sim.cosmos_lens).

Definition chain (id : string) (type : config.ChainType) : config.ChainConfig :=
  config.mkChainConfig id id type config.ChainEnvironment_TESTNET
    (Some (config.mkCosmosConfig sim.price_0_025 "uatom" 0 "http://rpc" "" "grpc:9090" false "cosmos"))
    (Some (config.mkEVMConfig "http://eth" "" (config.mkEVMContractConfig "0x26" "0x20") None None))
    None "TKN" None 6 ∅ None [].

Definition chains : list config.ChainConfig :=
  [chain "cosmos-1" config.ChainType_COSMOS; chain "1" config.ChainType_EVM;
   chain "sol" config.ChainType_SVM].

Definition reader : config.configReader :=
  config.NewConfigReader
    (config.mkConfig (config.mkPostgresConfig "localhost" "5432" "relayer" false)
      ((λ c, (config.ChainID c, c)) <$> chains)
      (config.mkMetricsConfig "") (config.mkRelayerAPIConfig "")
      (config.mkCoingeckoConfig "" 0 "" 0) (config.mkIBCV2ProofAPIConfig "" false)
      (config.mkSigningConfig "" "" "" "" "")).

Definition keys : gmap string string := {["cosmos-1" := "0xab"; "1" := "0xcd"]}.
End manager_demo.

Lemma NewClientManager_complete_witness : ∃ m x',
  NewClientManagerFromConfig
    manager_demo.reader manager_demo.keys false "" "" manager_demo.chains sim.start = (Ret m, x') ∧
  dom m = {["cosmos-1"; "1"]}.
Proof.
  match goal with |- ∃ m x', ?run = _ ∧ _ =>
    assert (Hrun : ∃ m x', run = (Ret m, x'));
      [destruct run as [[m|e|] x'] eqn:Hr; [by exists m, x'|exfalso..];
       apply (f_equal (λ r, match r.1 with Ret _ => true | _ => false end)) in Hr;
       vm_compute in Hr; discriminate Hr|]
  end.
  destruct Hrun as (m & x' & Hrun). exists m, x'. split; [exact Hrun|].
  destruct (NewClientManager_complete
    manager_demo.reader manager_demo.keys false "" ""
    manager_demo.chains sim.start m x' 3 Hrun) as [Hd _].
  rewrite Hd. by vm_compute.
Defined.

Lemma createCosmosSigner_short_key_witness :
  ({["cosmos-1" := ""]} : gmap string string) !! "cosmos-1" = Some "" ∧
  (createCosmosSigner (X := sim.Sim) "cosmos-1" {["cosmos-1" := ""]} false "" sim.start).1 = Panic.
Proof.
  split; [done|].
  apply (createCosmosSigner_short_key "cosmos-1" {["cosmos-1" := ""]} "" "" sim.start); [done|].
  simpl. lia.
Defined.
