(* ===== verification/Models.v ===== *)
(** * The enumerated columns

    The [Scan] and [Value] methods of [db/gen/db/models.go]: how the three
    enumerated types and their nullable forms pass between the program and the
    driver. [Db.v] has the enumerations as inductive types and a nullable column
    as an [option]; [columns_roundtrip] says that nothing is lost on the way. *)
From stdpp Require Import prelude strings list gmap.
From Stdlib Require Import ZArith.
From S2P Require Import Prelude Go Db.

(** What the driver hands to [Scan] and gets from [Value]: [nil], bytes, a
    string, or a value of another type. *)
Inductive driver_value := VNil | VBytes (s : string) | VString (s : string) | VOther.

(** [Scan] of an enumerated type: the value it writes, or its error. *)
Definition scan_enum (typename : string) (src : driver_value) : outcome string :=
  match src with
  | VBytes s | VString s => Ret s
  | VNil | VOther => Fail (ErrorNew ("unsupported scan type for " +:+ typename))
  end.

Definition BridgeType_Scan : driver_value → outcome string := scan_enum "BridgeType".
Definition Ibcv2RelayStatus_Scan : driver_value → outcome string := scan_enum "Ibcv2RelayStatus".
Definition Ibcv2WriteAckStatus_Scan : driver_value → outcome string :=
  scan_enum "Ibcv2WriteAckStatus".

(** [NullBridgeType], [NullIbcv2RelayStatus] and [NullIbcv2WriteAckStatus]. *)
Record Null := mkNull { null_value : string; Valid : bool }.

(** [Scan] of a nullable type: the error, if any, and the object afterwards. *)
Definition scan_null (scan : driver_value → outcome string) (ns : Null) (value : driver_value)
    : outcome unit * Null :=
  match value with
  | VNil => (Ret tt, mkNull "" false)
  | _ =>
      match scan value with
      | Ret s => (Ret tt, mkNull s true)
      | Fail e => (Fail e, mkNull (null_value ns) true)
      | Panic => (Panic, mkNull (null_value ns) true)
      end
  end.

Definition NullBridgeType_Scan : Null → driver_value → outcome unit * Null :=
  scan_null BridgeType_Scan.
Definition NullIbcv2RelayStatus_Scan : Null → driver_value → outcome unit * Null :=
  scan_null Ibcv2RelayStatus_Scan.
Definition NullIbcv2WriteAckStatus_Scan : Null → driver_value → outcome unit * Null :=
  scan_null Ibcv2WriteAckStatus_Scan.

(** [Value] of a nullable type. *)
Definition Null_Value (ns : Null) : driver_value :=
  if Valid ns then VString (null_value ns) else VNil.

(** ** The columns of [Db.v] *)

Definition Ibcv2WriteAckStatus_string (s : db.Ibcv2WriteAckStatus) : string :=
  match s with
  | db.Ibcv2WriteAckStatusSUCCESS => "SUCCESS"
  | db.Ibcv2WriteAckStatusERROR => "ERROR"
  | db.Ibcv2WriteAckStatusUNKNOWN => "UNKNOWN"
  end.

(** A nullable column of [Db.v] as the program has it. *)
Definition null_of (o : option db.Ibcv2WriteAckStatus) : Null :=
  match o with
  | Some s => mkNull (Ibcv2WriteAckStatus_string s) true
  | None => mkNull "" false
  end.

#[global] Instance Ibcv2RelayStatus_string_inj : Inj eq eq db.Ibcv2RelayStatus_string.
Proof. intros s s'. destruct s, s'; vm_compute; congruence. Qed.

#[global] Instance null_of_inj : Inj eq eq null_of.
Proof. intros [[]|] [[]|]; vm_compute; congruence. Qed.

(** The columns come back as they were written. A status written as its
    string and read as a string or as bytes is that status, and no two statuses
    have the same string; a nullable status written with [Value] is read back as
    it was by [Scan], whatever the object held before, and different values are
    different in the table. A value of another type is an error, which leaves
    the object marked as valid. *)
Theorem columns_roundtrip :
  (∀ s s' src, src = VString (db.Ibcv2RelayStatus_string s) ∨
               src = VBytes (db.Ibcv2RelayStatus_string s) →
     Ibcv2RelayStatus_Scan src = Ret (db.Ibcv2RelayStatus_string s') ↔ s = s') ∧
  (∀ o ns, NullIbcv2WriteAckStatus_Scan ns (Null_Value (null_of o)) = (Ret tt, null_of o)) ∧
  (∀ o o', Null_Value (null_of o) = Null_Value (null_of o') → o = o') ∧
  (∀ ns, (NullIbcv2WriteAckStatus_Scan ns VOther).2 = mkNull (null_value ns) true).
Proof.
  split_and!.
  - intros s s' src [-> | ->]; unfold Ibcv2RelayStatus_Scan; simpl; naive_solver.
  - by intros [[]|] ns.
  - intros [[]|] [[]|]; vm_compute; congruence.
  - done.
Qed.
