(* ===== verification/Server.v ===== *)
(** * The API server and the migrations

    [relayerapi/services/health/service.go], [relayerapi/server/grpcserver.go],
    the interceptor of [shared/config/config.go] and [db/migrate.go].

    The health server of the gRPC library, the pool and the migration library
    are parameters.

    - [health_endpoint]: what [/health] answers.
    - [Migrate_prefix]: migrations run in order up to the first that fails, and
      every one that was opened is closed. *)
From stdpp Require Import prelude strings list gmap.
From Stdlib Require Import ZArith.
From S2P Require Import Prelude Go Config Db Transfer World Client.
Open Scope Z_scope.

(** ** The health check *)

(** [HealthCheckResponse_ServingStatus]. *)
Inductive ServingStatus := UNKNOWN | SERVING | NOT_SERVING | SERVICE_UNKNOWN.

#[global] Instance ServingStatus_eq_dec : EqDecision ServingStatus.
Proof. solve_decision. Defined.

Section health.
Context {X : Type}.

(** [health.Server.Check] for the empty service name, and [pool.Ping]. *)
Context (Server_Check : Ext X ServingStatus) (Ping : Ext X unit).

Definition HealthService_Check : Ext X ServingStatus :=
  response ← Server_Check;
  if negb (bool_decide (response = SERVING)) then mret response
  else Ping ≫= λ _, mret SERVING.

(** The status and the body of an HTTP answer. *)
Record Answer := mkAnswer { answer_status : Z; answer_body : string }.

Definition StatusOK : Z := 200.
Definition StatusInternalServerError : Z := 500.
Definition StatusServiceUnavailable : Z := 503.

(** The handler of [/health]. An error of writing the body is logged only. *)
Definition health_handler : Ext X Answer :=
  r ← eattempt HealthService_Check;
  match r with
  | inr _ => mret (mkAnswer StatusInternalServerError "")
  | inl res =>
      if bool_decide (res = SERVING) then mret (mkAnswer StatusOK "OK")
      else mret (mkAnswer StatusServiceUnavailable "Service Unavailable")
  end.

(** [/health] answers 200 exactly when the gRPC server says that it is
    serving and the database answers a ping; it answers 503 when the server says
    anything else, and then does not ask the database; and 500 when the server or
    the database gives an error. *)
Theorem health_endpoint x :
  let '(status, x1) := Server_Check x in
  health_handler x =
    match status with
    | Ret SERVING =>
        let '(ping, x2) := Ping x1 in
        match ping with
        | Ret _ => (Ret (mkAnswer 200 "OK"), x2)
        | Fail _ => (Ret (mkAnswer 500 ""), x2)
        | Panic => (Panic, x2)
        end
    | Ret _ => (Ret (mkAnswer 503 "Service Unavailable"), x1)
    | Fail _ => (Ret (mkAnswer 500 ""), x1)
    | Panic => (Panic, x1)
    end.
Proof.
  unfold health_handler, HealthService_Check, eattempt, mbind, Ext_bind, mret, Ext_ret.
  destruct (Server_Check x) as [[st|e|] x1]; [|done..].
  destruct st; simpl; [done| |done|done]. by destruct (Ping x1) as [[[]|e|] x2].
Qed.
End health.

(** ** The server *)

(** [config.UnaryServerInterceptor]: the handler gets a context with the
    reader, whatever the context of the call had. *)
Definition UnaryServerInterceptor {X Req Resp : Type} (configReader : config.configReader)
    (handler : option config.configReader → Req → Ext X Resp) (ctx : option config.configReader)
    (req : Req) : Ext X Resp :=
  handler (Some configReader) req.

(** How [Start] ends: the process exits when the address cannot be listened
    to; otherwise [Start] returns when the multiplexer does, whatever it and the
    two servers return. *)
Inductive start_end := StartFatal (msg : string) (err : error) | StartReturns.

Definition RelayerGRPCServer_Start (listen : outcome unit) (mux_Serve : option error) : start_end :=
  match listen with
  | Fail err => StartFatal "failed to create relayer gRPC server" err
  | _ => StartReturns
  end.

(** ** Migrations *)

(** What [m.Up()] returns; [NoChange] is [migrate.ErrNoChange]. *)
Inductive up_result := UpOk | NoChange | UpError (e : error).

Section migrate.
Context {X Migration Conn Driver Source Instance' : Type}.
Context (sql_Open : string → outcome unit) (sqldb_Conn : Ext X Conn).
Context (WithConnection : Conn → Ext X Driver) (iofs_New : Migration → outcome Source).
Context (NewWithInstance : Source → Driver → outcome Instance').
Context (Up : Instance' → X → up_result * X).
(** The errors of closing the source and the database. *)
Context (Close : Instance' → X → (option error * option error) * X).

Definition close_result (r : option error * option error) : outcome unit :=
  match r with
  | (Some srcErr, _) => Fail (Errorf "failed to close migration source" srcErr)
  | (None, Some dbErr) => Fail (Errorf "failed to close migration database" dbErr)
  | (None, None) => Ret tt
  end.

Definition up_and_close (m : Instance') : Ext X unit := λ x,
  match Up m x with
  | (UpError err, x1) =>
      let '(_, x2) := Close m x1 in (Fail (Errorf "failed to run migration" err), x2)
  | (_, x1) => let '(r, x2) := Close m x1 in (close_result r, x2)
  end.

Definition runMigration (migration : Migration) : Ext X unit :=
  conn ← sqldb_Conn;
  driver ← ewrap "failed to create db migrate driver" (WithConnection conn);
  src ← ewrap "failed to create migration source" (elift (iofs_New migration));
  m ← ewrap "failed to create migration instance" (elift (NewWithInstance src driver));
  up_and_close m.

Fixpoint run_migrations (migrations : list Migration) : Ext X unit :=
  match migrations with
  | [] => mret tt
  | migration :: migrations' => runMigration migration ≫= λ _, run_migrations migrations'
  end.

Definition Migrate (dsn : string) (migrations : list Migration) : Ext X unit :=
  ewrap "failed to create sql db" (elift (sql_Open dsn)) ≫= λ _,
  run_migrations migrations.

(** When migrating fails, the database could not be opened, or the
    migrations before some one of the list have all succeeded and that one
    failed with the error returned, those after it not having been started; when
    it succeeds all have. *)
Theorem Migrate_prefix dsn migrations x o x' :
  Migrate dsn migrations x = (o, x') →
  match o with
  | Ret _ => run_migrations migrations x = (Ret tt, x')
  | Fail e =>
      (∃ e', sql_Open dsn = Fail e' ∧ e = Errorf "failed to create sql db" e' ∧ x' = x) ∨
      ∃ done m rest x1, migrations = done ++ m :: rest ∧
        run_migrations done x = (Ret tt, x1) ∧ runMigration m x1 = (Fail e, x')
  | Panic => True
  end.
Proof.
  unfold Migrate, ewrap, elift, mbind at 1, Ext_bind at 1.
  destruct (sql_Open dsn) as [[]|e'|]; [|intros [= <- <-]; left; by eexists|by intros [= <- <-]].
  revert x. induction migrations as [|m ms IH]; intros x Hrun; simpl in *.
  { by injection Hrun as <- <-. }
  unfold mbind, Ext_bind in *. destruct (runMigration m x) as [[[]|e|] x1] eqn:Hm.
  - specialize (IH x1 Hrun). destruct o as [[]|e|]; [done| |done]. right.
    destruct IH as [(e' & ? & _)|(done' & m' & rest & x2 & -> & Hd & Hm')]; [done|].
    exists (m :: done'), m', rest, x2. split_and!; [done| |done]. simpl.
    unfold mbind, Ext_bind. by rewrite Hm.
  - injection Hrun as <- <-. right. by exists [], m, ms, x.
  - by injection Hrun as <- <-.
Qed.
End migrate.
