(* ===== verification/Solana.v ===== *)
(** * The rest of the signing package

    What [Signing.v] leaves out because the relaying path does not use it:
    [SignSolanaTransaction] of [signer_service/signer_manager.go],
    [local_solana_signer.go], [evm/evm_transaction.go], and the JSON decoding
    of [CosmosTransaction] in [types.go].

    - [SignSolana_appends]: signing through the service adds one signature to
      those of the transaction and changes nothing else; a failure leaves it
      alone.
    - [Cosmos_Unmarshal_roundtrip]: both forms of a Cosmos transaction are read
      back as it was. *)
From stdpp Require Import prelude strings list gmap.
From Stdlib Require Import ZArith.
From S2P Require Import Prelude Go Config Db Transfer World Client Float Once Signing.
Open Scope Z_scope.

Section solana.
Context {X : Type} `{!SignerService X}.

(** The Solana library: the message of a transaction, its encoding, and what
    a signature and a key are made from. *)
Context {Message Signature SolanaKey : Type}.

(** [solana.Transaction]. *)
Record SolanaTransaction := mkSolanaTransaction {
  sol_Signatures : list Signature;
  sol_Message : Message;
}.

Context (ToBase64 : SolanaTransaction → outcome string) (SignatureFromBytes : bytes → Signature).
Context (PrivateKeyFromBase58 : string → outcome SolanaKey) (PublicKey_Bytes : SolanaKey → bytes).
(** [GetSolanaSignature().GetSignature()] of the response. *)
Context (resp_Solana : SignResponse → bytes).

(** The transaction is the caller's object: it comes back as it is afterwards,
    also when signing fails. *)
Definition SignSolanaTransaction (signerWalletID : string) (tx : SolanaTransaction) (x : X)
    : outcome unit * SolanaTransaction * X :=
  match ToBase64 tx with
  | Panic => (Panic, tx, x)
  | Fail e =>
      (Fail (Errorf "failed to convert solana transaction to base64 while signing" e), tx, x)
  | Ret base64Tx =>
      match sc_Sign signerWalletID (SolanaPayload base64Tx) x with
      | (Panic, x') => (Panic, tx, x')
      | (Fail e, x') => (Fail (Errorf "failed to sign transaction" e), tx, x')
      | (Ret signResp, x') =>
          (Ret tt, mkSolanaTransaction
             (sol_Signatures tx ++ [SignatureFromBytes (resp_Solana signResp)]) (sol_Message tx), x')
      end
  end.

Record LocalSolanaSigner := mkLocalSolanaSigner { sol_privateKey : SolanaKey }.

Definition NewLocalSolanaSigner (privateKeyBase58 : string) : outcome LocalSolanaSigner :=
  match PrivateKeyFromBase58 privateKeyBase58 with
  | Ret privateKey => Ret (mkLocalSolanaSigner privateKey)
  | Fail e => Fail (Errorf "failed to parse private key" e)
  | Panic => Panic
  end.

Definition GetPrivateKey (s : LocalSolanaSigner) : SolanaKey := sol_privateKey s.
Definition LocalSolanaSigner_Address (s : LocalSolanaSigner) : bytes :=
  PublicKey_Bytes (sol_privateKey s).

(** Signing through the service adds exactly the service's signature for the
    encoded transaction at the end, or leaves the transaction as it was. *)
Theorem SignSolana_appends wallet tx x :
  let '(o, tx', x') := SignSolanaTransaction wallet tx x in
  sol_Message tx' = sol_Message tx ∧
  match o with
  | Ret _ => ∃ payload resp, ToBase64 tx = Ret payload ∧
      sc_Sign wallet (SolanaPayload payload) x = (Ret resp, x') ∧
      sol_Signatures tx' = sol_Signatures tx ++ [SignatureFromBytes (resp_Solana resp)]
  | _ => tx' = tx
  end.
Proof.
  unfold SignSolanaTransaction. destruct (ToBase64 tx) as [p|e|]; [|done..].
  destruct (sc_Sign wallet (SolanaPayload p) x) as [[resp|e|] x'] eqn:Hs; [|done..].
  split; [done|]. by exists p, resp.
Qed.
End solana.

(** ** [evm_transaction.go] *)

Section evm_transaction.
Context `{!Geth}.

Record EVMTransaction := mkEVMTransaction { raw : EthTransaction }.

Definition EVMTransaction_Raw (tx : EVMTransaction) : EthTransaction := raw tx.
Definition EVMTransaction_Bytes (tx : EVMTransaction) : outcome bytes :=
  EthTransaction_MarshalBinary (raw tx).
Definition EVMTransaction_Marshal (tx : EVMTransaction) : outcome bytes :=
  EthTransaction_MarshalBinary (raw tx).
End evm_transaction.

(** ** The JSON form of [CosmosTransaction] *)

Section unmarshal.
Context `{!CosmosSDK} (TxJSONDecoder : TxConfig → string → outcome SdkTx).

(** The object after decoding; like [CosmosTransaction_UnmarshalBinary], what
    an error leaves in it is not used. *)
Definition CosmosTransaction_UnmarshalJSON (t : CosmosTransaction) (data : string)
    : outcome CosmosTransaction :=
  match TxJSONDecoder (ct_TxConfig t) data with
  | Ret tx => Ret (mkCosmosTransaction tx (ct_AccountNumber t) (ct_Sequence t) (ct_TxConfig t))
  | Fail e => Fail e
  | Panic => Panic
  end.

(** The two forms of a transaction decode to the transaction they were made
    from when the codecs of the SDK do, and the account number, the sequence and
    the configuration, which neither form contains, are those of the receiver. *)
Lemma Cosmos_Unmarshal_roundtrip `{!Geth} t t' data bz :
  (∀ c tx s, TxJSONEncoder c tx = Ret s → TxJSONDecoder c s = Ret tx) →
  (∀ c tx b, TxEncoder c tx = Ret b → TxDecoder c b = Ret tx) →
  ct_TxConfig t' = ct_TxConfig t → MarshalJSON (CosmosTx t) = Ret data →
  MarshalBinary (CosmosTx t) = Ret bz →
  CosmosTransaction_UnmarshalJSON t' data = CosmosTransaction_UnmarshalBinary t' bz ∧
  CosmosTransaction_UnmarshalJSON t' data =
    Ret (mkCosmosTransaction (ct_Tx t) (ct_AccountNumber t') (ct_Sequence t') (ct_TxConfig t)).
Proof.
  simpl. intros Hj Hb Hc Hd Hz.
  unfold CosmosTransaction_UnmarshalJSON, CosmosTransaction_UnmarshalBinary.
  by rewrite Hc, (Hj _ _ _ Hd), (Hb _ _ _ Hz).
Qed.
End unmarshal.
