(* ===== verification/Helpers.v ===== *)
(** * Helpers

    [shared/utils/address.go], [shared/utils/key.go], [shared/utils/http.go],
    [shared/http/client.go] and [shared/lmt/logger.go]: 32-byte addresses, key
    files, the transports that add credentials, and the logger of a context.

    Decoders of other packages and the file system are arguments.

    - [SliceTo32ByteArray_spec]: the padding keeps the number a byte string
      stands for, and tells byte strings of one length apart.
    - [auth_headers]: [BasicAuthTransport] adds a header to the request it is
      given, so a request that is sent again carries it twice;
      [AuthenticatedTransport] sets it.
    - [key_file_newline]: a key file that ends in a newline is refused. *)
From stdpp Require Import prelude strings list gmap.
From Stdlib Require Import ZArith.
From S2P Require Import Prelude Go Config Db Transfer World Client Float Once Signing EvmClient.
From S2P Require Import CosmosClient.
Open Scope Z_scope.

(** ** [address.go] *)

Definition too_large : error := ErrorNew "input slice is too large".

(** [copy] into an array of zeros. *)
Definition SliceTo32ByteArray (input : bytes) : outcome bytes :=
  if (32 <? length input)%nat then Fail too_large
  else Ret (take (32 - length input) (replicate 32 0) ++ input).

Section address.
Context (hexutil_Decode : string → outcome bytes) (hexutil_Encode : bytes → string).
Context (bech32_DecodeAndConvert : string → outcome (string * bytes)).

Definition HexTo32ByteAddress (input : string) : outcome bytes :=
  match hexutil_Decode input with
  | Ret bz => SliceTo32ByteArray bz
  | Fail e => Fail e
  | Panic => Panic
  end.

Definition MustBech32ToRawAddress (address : string) : outcome string :=
  match bech32_DecodeAndConvert address with
  | Ret (_, rawAddress) => Ret (hexutil_Encode rawAddress)
  | _ => Panic
  end.
End address.

(** The number a byte string stands for, most significant byte first. *)
Definition be_value (bz : bytes) : Z := foldl (λ acc b, 256 * acc + b) 0 bz.

Lemma be_value_app a b :
  be_value (a ++ b) = be_value a * 256 ^ Z.of_nat (length b) + be_value b.
Proof.
  unfold be_value. rewrite foldl_app. generalize (foldl (λ acc b, 256 * acc + b) 0 a) as n.
  induction b as [|x b IH] using rev_ind; intros n; simpl; [lia|].
  rewrite !foldl_app, length_app, IH. simpl.
  replace (Z.of_nat (length b + 1)) with (Z.succ (Z.of_nat (length b))) by lia.
  rewrite Z.pow_succ_r by lia. lia.
Qed.

Lemma be_value_zeros n : be_value (replicate n 0) = 0.
Proof. unfold be_value. induction n as [|n IH]; [done|]. simpl. exact IH. Qed.

(** A byte string of up to 32 bytes becomes 32 bytes that stand for the same
    number and end in the string itself, so that two strings of one length
    become different arrays; a longer one is an error. *)
Theorem SliceTo32ByteArray_spec input :
  if decide (length input ≤ 32)%nat then
    ∃ result, SliceTo32ByteArray input = Ret result ∧ length result = 32%nat ∧
      be_value result = be_value input ∧ drop (32 - length input) result = input ∧
      ∀ other, length other = length input → SliceTo32ByteArray other = Ret result → other = input
  else SliceTo32ByteArray input = Fail too_large.
Proof.
  unfold SliceTo32ByteArray. case_decide as Hl.
  2:{ by rewrite (proj2 (Nat.ltb_lt 32 (length input))) by lia. }
  rewrite (proj2 (Nat.ltb_ge 32 (length input))) by lia.
  assert (take (32 - length input) (replicate 32 0) = replicate (32 - length input) 0) as ->.
  { rewrite take_replicate. f_equal. lia. }
  eexists. split; [done|]. split_and!.
  - rewrite length_app, length_replicate. lia.
  - by rewrite be_value_app, be_value_zeros.
  - rewrite drop_app_length'; [done|]. by rewrite length_replicate.
  - intros other Ho. rewrite Ho, (proj2 (Nat.ltb_ge 32 (length input))) by lia.
    rewrite take_replicate. intros [= Heq].
    apply app_inj_1 in Heq as [_ ->]; [done|]. rewrite !length_replicate. lia.
Qed.

(** ** [key.go] *)

Section keys.
Context `{!Geth} `{!CosmosSDK} (read_all : string → outcome string).

Definition LoadECDSAPrivateKey (privateKeyPath : string) : outcome EthPrivateKey :=
  match read_all privateKeyPath with
  | Ret privateKeyHexBytes => HexToECDSA privateKeyHexBytes
  | Fail e => Fail e
  | Panic => Panic
  end.

Definition LoadSecp256k1PrivateKey (privateKeyPath : string) : outcome CosmosPrivKey :=
  match read_all privateKeyPath with
  | Ret privateKeyHexBytes =>
      match hex_decode privateKeyHexBytes with
      | Ret privateKeyBytes => UnmarshalAmino privateKeyBytes
      | Fail e => Fail e
      | Panic => Panic
      end
  | Fail e => Fail e
  | Panic => Panic
  end.
End keys.

Definition newline : string := String (Ascii.ascii_of_nat 10) EmptyString.

Lemma DecodeString_newline : ∀ s bz,
  DecodeString s = Some bz → DecodeString (s +:+ newline) = None.
Proof.
  fix IH 1. intros [|a [|b s]] bz; [done|done|]. simpl.
  destruct (hex_digit a); [|done]. destruct (hex_digit b); [|done].
  destruct (DecodeString s) as [bz'|] eqn:Hs; [|done]. intros _.
  change (String.append s newline) with (s +:+ newline). by rewrite (IH s bz' Hs).
Qed.

(** A key file that ends in a newline, as an editor leaves it, is refused
    although the key in it is well formed. *)
Lemma key_file_newline `{!Geth} `{!CosmosSDK} read_all path key bz :
  hex_decode key = Ret bz → read_all path = Ret (key +:+ newline) →
  LoadSecp256k1PrivateKey read_all path = Fail hex_error.
Proof.
  unfold LoadSecp256k1PrivateKey, hex_decode. intros Hk ->.
  destruct (DecodeString key) as [bz'|] eqn:Hd; [|done]. by rewrite (DecodeString_newline key bz').
Qed.

(** ** [http.go] and [client.go] *)

(** [http.Header]: the values of a key in their order. *)
Notation Header := (list (string * string)).

Definition Header_Add (k v : string) (h : Header) : Header := h ++ [(k, v)].
Definition Header_Set (k v : string) (h : Header) : Header :=
  filter (λ p, p.1 ≠ k) h ++ [(k, v)].
Definition Header_Values (k : string) (h : Header) : list string :=
  snd <$> filter (λ p, p.1 = k) h.

Definition Authorization : string := "Authorization".

Section transports.
Context {X : Type} {Resp : Type}.

(** A [RoundTripper] gets a pointer to the request: its headers are those of
    the request afterwards. *)
Definition RoundTripper : Type := Header → Ext X (Header * Resp).
Context (DefaultTransport : RoundTripper) (base64 : string → string).

Record BasicAuthTransport := mkBasicAuthTransport {
  basicAuth : option string;
  transport : option RoundTripper;
}.

Definition NewBasicAuthTransport : option string → option RoundTripper → BasicAuthTransport :=
  mkBasicAuthTransport.

Definition BasicAuthTransport_RoundTrip (t : BasicAuthTransport) : RoundTripper := λ req,
  let req := match basicAuth t with
             | Some a => Header_Add Authorization ("Basic " +:+ a) req
             | None => req
             end in
  match transport t with
  | Some tr => tr req
  | None => DefaultTransport req
  end.

Record AuthenticatedTransport := mkAuthenticatedTransport {
  UnderlyingTransport : RoundTripper;
  Username : string;
  Password : string;
}.

Definition DefaultAuthenticatedTransport (username password : string) : AuthenticatedTransport :=
  mkAuthenticatedTransport DefaultTransport username password.

(** [req.SetBasicAuth]. *)
Definition AuthenticatedTransport_RoundTrip (a : AuthenticatedTransport) : RoundTripper := λ req,
  UnderlyingTransport a (Header_Set Authorization
    ("Basic " +:+ base64 (Username a +:+ ":" +:+ Password a)) req).

(** Sending one request [n] times, as a client that retries does. *)
Fixpoint resend (n : nat) (rt : RoundTripper) (req : Header) : Ext X Header :=
  match n with
  | O => mret req
  | S n' => r ← rt req; resend n' rt r.1
  end.

(** A transport that answers and leaves the headers alone. *)
Definition leaves (rt : RoundTripper) : Prop :=
  ∀ req x, ∃ resp x', rt req x = (Ret (req, resp), x').

Lemma resend_keeps (rt inner : RoundTripper) (f : Header → Header) n : ∀ req x,
  leaves inner → (∀ req, rt req = inner (f req)) →
  ∃ x', resend n rt req x = (Ret (Nat.iter n f req), x').
Proof.
  intros req x Hl Hrt. revert req x. induction n as [|n IH]; intros req x; simpl; [by exists x|].
  destruct (Hl (f req) x) as (resp & x1 & Hr). erewrite ebind_Ret by (rewrite Hrt; exact Hr). simpl.
  destruct (IH (f req) x1) as [x2 H2]. exists x2. rewrite H2. do 2 f_equal.
  clear. induction n as [|n IH]; [done|]. simpl. by rewrite IH.
Qed.

Lemma Header_Add_values k v h : Header_Values k (Header_Add k v h) = Header_Values k h ++ [v].
Proof.
  unfold Header_Values, Header_Add. rewrite filter_app, fmap_app. f_equal.
  by rewrite filter_cons_True.
Qed.

Lemma Header_Set_values k v h : Header_Values k (Header_Set k v h) = [v].
Proof.
  unfold Header_Values, Header_Set. rewrite filter_app, fmap_app.
  rewrite (filter_cons_True (λ p : string * string, p.1 = k)) by done. simpl.
  induction h as [|p h IH]; [done|]. rewrite filter_cons. case_decide as Hp; [|exact IH].
  rewrite filter_cons_False by done. exact IH.
Qed.

(** A request that had no credentials and is sent [n] times through a
    [BasicAuthTransport] with credentials carries the [Authorization] header
    [n] times, since the transport adds it to the caller's request; through an
    [AuthenticatedTransport] it carries one; and through a [BasicAuthTransport]
    without credentials it carries none. *)
Theorem auth_headers (inner : RoundTripper) auth a n req x :
  leaves inner → Header_Values Authorization req = [] → UnderlyingTransport a = inner → (0 < n)%nat →
  (∃ req' x', resend n (BasicAuthTransport_RoundTrip (mkBasicAuthTransport (Some auth) (Some inner)))
     req x = (Ret req', x') ∧
     Header_Values Authorization req' = replicate n ("Basic " +:+ auth)) ∧
  (∃ req' x', resend n (BasicAuthTransport_RoundTrip (mkBasicAuthTransport None (Some inner)))
     req x = (Ret req', x') ∧ Header_Values Authorization req' = []) ∧
  (∃ req' x', resend n (AuthenticatedTransport_RoundTrip a) req x = (Ret req', x') ∧
     Header_Values Authorization req' =
       ["Basic " +:+ base64 (Username a +:+ ":" +:+ Password a)]).
Proof.
  intros Hl Hno Ha Hn. split_and!.
  - destruct (resend_keeps (BasicAuthTransport_RoundTrip (mkBasicAuthTransport (Some auth) (Some inner)))
      inner (Header_Add Authorization ("Basic " +:+ auth)) n req x Hl (λ _, eq_refl)) as [x' Hx].
    eexists _, x'. split; [exact Hx|]. clear Hx Hn. induction n as [|n IH]; [done|].
    rewrite Nat.iter_succ, Header_Add_values, IH. symmetry. apply replicate_S_end.
  - destruct (resend_keeps (BasicAuthTransport_RoundTrip (mkBasicAuthTransport None (Some inner)))
      inner id n req x Hl (λ _, eq_refl)) as [x' Hx].
    eexists _, x'. split; [exact Hx|]. clear Hx Hn. by induction n.
  - destruct (resend_keeps (AuthenticatedTransport_RoundTrip a) inner (Header_Set Authorization
      ("Basic " +:+ base64 (Username a +:+ ":" +:+ Password a))) n req x Hl) as [x' Hx].
    { intros req'. unfold AuthenticatedTransport_RoundTrip. by rewrite Ha. }
    eexists _, x'. split; [exact Hx|]. destruct n as [|n]; [lia|]. apply Header_Set_values.
Qed.
End transports.

Lemma auth_headers_witness : ∃ req',
  (resend (X := Z) 2 (BasicAuthTransport_RoundTrip (λ req, mret (req, tt))
     (mkBasicAuthTransport (Some "dXNlcg==") (Some (λ req, mret (req, tt))))) [] 0).1 = Ret req' ∧
  Header_Values Authorization req' = ["Basic dXNlcg=="; "Basic dXNlcg=="].
Proof.
  destruct (auth_headers (X := Z) (Resp := unit) (λ req, mret (req, tt)) id (λ req, mret (req, tt))
    "dXNlcg==" (mkAuthenticatedTransport (λ req, mret (req, tt)) "u" "p") 2 [] 0)
    as [(req' & x' & Hr & Hv) _]; [by intros req x; eexists _, _|done|done|lia|].
  exists req'. split; [|exact Hv]. exact (f_equal fst Hr).
Defined.

(** ** [logger.go] *)

(** A context holds at most one logger under the key of the package; [None] is
    a nil pointer. *)
Section logger.
Context {L : Type} (zap_L : L).

Definition context_logger : Type := option (option L).

Definition WithLogger (ctx : context_logger) (l : option L) : context_logger := Some l.
Definition LoggerContext (ctx : context_logger) : context_logger := Some (Some zap_L).
Definition Logger (ctx : context_logger) : L :=
  match ctx with
  | Some (Some l) => l
  | _ => zap_L
  end.

(** There always is a logger: the last one put into the context, or the global
    one when none or a nil pointer was. *)
Lemma Logger_spec ctx l :
  Logger (WithLogger ctx (Some l)) = l ∧ Logger (WithLogger ctx None) = zap_L ∧
  Logger (LoggerContext ctx) = zap_L ∧ Logger None = zap_L.
Proof. done. Qed.
End logger.
