(* ===== verification/Rpc.v ===== *)
(** * RPC access

    [shared/evmrpc] and [shared/tmrpc]: the managers that keep one RPC client
    per chain, the queries of the two chain RPCs, and the configuration file of
    [tmrpc].

    A manager holds its mutex for the whole of [GetClient], so a call is one
    step on the clients made so far and the state outside. Dialing is a
    parameter.

    - [GetClient_memoizes]: the client a chain was given once is the client it
      is given ever after, without another dial; a failure is not remembered.
    - [GetERC20Transfers_spec]: the transfers found are those of the logs with
      the transfer signature, in their order, with the last twenty bytes of the
      two topics; a log without topics makes it panic. *)
From stdpp Require Import prelude strings list gmap.
From Stdlib Require Import ZArith.
From S2P Require Import Prelude Go Config Db Transfer World Client Float Once Signing Bindings EvmClient.
From S2P Require Import CosmosClient.
Open Scope Z_scope.

(** ** The managers *)

Section managers.
Context {X C : Type} (reader : config.configReader) (LookupEnv : string → option string).

(** The clients of the manager and the state outside. *)
Definition Manager : Type := gmap string C * X.

(** [if _, ok := m.clients[chainID]; !ok { ... }]. *)
Definition memo (make : string → Ext X C) (chainID : string) : Ext Manager C := λ '(clients, x),
  match clients !! chainID with
  | Some c => (Ret c, (clients, x))
  | None =>
      match make chainID x with
      | (Ret c, x') => (Ret c, (<[chainID := c]> clients, x'))
      | (Fail e, x') => (Fail e, (clients, x'))
      | (Panic, x') => (Panic, (clients, x'))
      end
  end.

(** [ethereumrpc.DialContext], then [SetHeader] on the connection, then the
    client around it. *)
Context {Conn : Type} (DialContext : string → Ext X Conn).
Context (SetHeader : string → string → Conn → Conn) (NewEVMChainRPC : Conn → C).

Definition EVMRPCClientManager_GetClient : string → Ext Manager C :=
  memo (λ chainID,
    rpc ← elift (config.GetRPCEndpoint reader chainID);
    basicAuth ← elift (config.GetBasicAuth LookupEnv reader chainID);
    conn ← DialContext rpc;
    let conn := match basicAuth with
                | Some a => SetHeader "Authorization" ("Basic " +:+ a) conn
                | None => conn
                end in
    mret (NewEVMChainRPC conn)).

(** [rpcclienthttp.NewWithClient] on a client with a [BasicAuthTransport]. *)
Context (NewWithClient : string → string → option string → outcome C).

Definition DefaultTendermintRPCQuerier (chainID : string) : Ext X C :=
  rpc ← elift (config.GetRPCEndpoint reader chainID);
  basicAuth ← elift (config.GetBasicAuth LookupEnv reader chainID);
  elift (NewWithClient rpc "/websocket" basicAuth).

Definition TendermintRPCClientManager_GetClient : string → Ext Manager C :=
  memo DefaultTendermintRPCQuerier.

(** A sequence of calls, whose results may be errors. *)
Fixpoint calls (get : string → Ext Manager C) (ids : list string) (s : Manager) : Manager :=
  match ids with
  | [] => s
  | id :: ids' => calls get ids' (get id s).2
  end.

Lemma memo_keeps make id s c : s.1 !! id = Some c → ∀ ids, (calls (memo make) ids s).1 !! id = Some c.
Proof.
  intros Hc ids. revert s Hc. induction ids as [|id' ids IH]; intros [m x] Hc; [done|]. simpl in *.
  apply IH. destruct (m !! id') as [c'|] eqn:Hid; [done|].
  destruct (make id' x) as [[c'|e|] x']; simpl; try done.
  rewrite lookup_insert_ne; [done|]. congruence.
Qed.

Lemma memo_hit make id (s : Manager) c : s.1 !! id = Some c → memo make id s = (Ret c, s).
Proof. destruct s as [m x]. simpl. by intros ->. Qed.

Lemma memo_stable make id s c s' ids :
  memo make id s = (Ret c, s') →
  memo make id (calls (memo make) ids s') = (Ret c, calls (memo make) ids s').
Proof.
  intros Hm. apply memo_hit, memo_keeps. destruct s as [m x]. simpl in Hm.
  destruct (m !! id) as [c'|] eqn:Hid; [by simplify_eq|].
  destruct (make id x) as [[c'|e|] x']; simplify_eq. simpl. apply lookup_insert_eq.
Qed.

Lemma memo_fail make id s e s' : memo make id s = (Fail e, s') → s'.1 = s.1.
Proof.
  destruct s as [m x]. simpl. destruct (m !! id); [done|].
  by destruct (make id x) as [[c'|e'|] x']; intros; simplify_eq.
Qed.

(** Once [GetClient] has returned a client for a chain, every later call for
    that chain, whatever was asked in between, returns the same client and
    touches nothing outside: a chain is dialed successfully at most once. A
    call that fails leaves the clients as they were, so it can be tried again.
    The same holds of both managers. *)
Theorem GetClient_memoizes id s c s' ids :
  (EVMRPCClientManager_GetClient id s = (Ret c, s') →
   EVMRPCClientManager_GetClient id (calls EVMRPCClientManager_GetClient ids s') =
     (Ret c, calls EVMRPCClientManager_GetClient ids s')) ∧
  (TendermintRPCClientManager_GetClient id s = (Ret c, s') →
   TendermintRPCClientManager_GetClient id (calls TendermintRPCClientManager_GetClient ids s') =
     (Ret c, calls TendermintRPCClientManager_GetClient ids s')) ∧
  (∀ e, EVMRPCClientManager_GetClient id s = (Fail e, s') ∨
        TendermintRPCClientManager_GetClient id s = (Fail e, s') → s'.1 = s.1).
Proof.
  split_and!; [apply memo_stable|apply memo_stable|].
  intros e [H|H]; by eapply memo_fail.
Qed.
End managers.

(** ** [evmrpc/rpcquerier.go] *)

Definition transferSignature : string :=
  "0xddf252ad1be2c89b69c2b068fc378daa952ba7f163c4a11628f55a4df523b3ef".

Record ERC20Transfer := mkERC20Transfer { Source : string; Dest : string }.

Class EthClient (X : Type) `{!Geth} := mkEthClient {
  cc_Block : Type;
  cc_TransactionReceipt : Hash → Ext X Receipt;
  cc_SendTransaction : EthTransaction → Ext X unit;
  cc_TransactionByHash : Hash → Ext X (EthTransaction * bool);
  cc_FilterLogs : list (list Hash) → list Address → Ext X (list Log);
  cc_BlockByHash : Hash → Ext X cc_Block;
  cc_HeaderByHash : Hash → Ext X Header;
  cc_BlockNumber : Ext X Z;
  tx_UnmarshalBinary : bytes → outcome EthTransaction;
}.

Section querier.
Context {X : Type} `{!Geth} `{!EthClient X}.

(** [s[len(s)-40:]], which panics on a shorter string. *)
Definition last40 (s : string) : outcome string :=
  if (String.length s <? 40)%nat then Panic
  else Ret (String.substring (String.length s - 40) 40 s).

(** One turn of the loop: an index out of range and a nil log panic. *)
Definition log_transfer (log : option Log) : outcome (option ERC20Transfer) :=
  match log with
  | None => Panic
  | Some log =>
      match Log_Topics log with
      | [] => Panic
      | t0 :: ts =>
          if bool_decide (Hash_String t0 = transferSignature) then
            match ts with
            | t1 :: t2 :: _ =>
                match last40 (Hash_String t1), last40 (Hash_String t2) with
                | Ret source, Ret dest => Ret (Some (mkERC20Transfer ("0x" +:+ source) ("0x" +:+ dest)))
                | _, _ => Panic
                end
            | _ => Panic
            end
          else Ret None
      end
  end.

Fixpoint logs_transfers (logs : list (option Log)) : outcome (list ERC20Transfer) :=
  match logs with
  | [] => Ret []
  | log :: logs' =>
      match log_transfer log with
      | Ret o =>
          match logs_transfers logs' with
          | Ret ts => Ret (match o with Some t => t :: ts | None => ts end)
          | Fail e => Fail e
          | Panic => Panic
          end
      | Fail e => Fail e
      | Panic => Panic
      end
  end.

Definition GetERC20Transfers (txHash : string) : Ext X (list ERC20Transfer) :=
  receipt ← cc_TransactionReceipt (HexToHash txHash);
  elift (logs_transfers (Receipt_Logs receipt)).

Definition SendTx (txBytes : bytes) : Ext X string :=
  tx ← elift (tx_UnmarshalBinary txBytes);
  cc_SendTransaction tx ≫= λ _,
  mret (Hash_String (EthTransaction_Hash tx)).

Definition GetTxReceipt (txHash : string) : Ext X Receipt := cc_TransactionReceipt (HexToHash txHash).
Definition GetTxByHash (txHash : string) : Ext X (EthTransaction * bool) :=
  cc_TransactionByHash (HexToHash txHash).
Definition GetLogs : list (list Hash) → list Address → Ext X (list Log) := cc_FilterLogs.
Definition BlockByHash : Hash → Ext X cc_Block := cc_BlockByHash.
Definition HeaderByHash : Hash → Ext X Header := cc_HeaderByHash.
Definition LatestHeight : Ext X Z := cc_BlockNumber.

(** *** What is found *)

(** [hex.EncodeToString]. *)
Definition hex_char (n : Z) : Ascii.ascii :=
  Ascii.ascii_of_nat (Z.to_nat (if n <? 10 then n + 48 else n + 87)).

Fixpoint EncodeToString (bz : bytes) : string :=
  match bz with
  | [] => ""
  | b :: bz' => String (hex_char (b / 16)) (String (hex_char (b mod 16)) (EncodeToString bz'))
  end.

(** [Hash.Hex()] is documented to be the hex string of the 32 bytes with a
    prefix. *)
Hypothesis Hash_Hex : ∀ h, length h = 32%nat → Hash_String h = "0x" +:+ EncodeToString h.

Lemma EncodeToString_app a b : EncodeToString (a ++ b) = EncodeToString a +:+ EncodeToString b.
Proof. induction a as [|x a IH]; simpl; [done|]. by rewrite IH. Qed.

Lemma EncodeToString_length a : String.length (EncodeToString a) = (2 * length a)%nat.
Proof. induction a as [|x a IH]; simpl; [done|]. rewrite IH. lia. Qed.

Lemma substring_all s : String.substring 0 (String.length s) s = s.
Proof. induction s as [|a s IH]; simpl; [done|]. by rewrite IH. Qed.

Lemma substring_suffix a b : String.substring (String.length a) (String.length b) (a +:+ b) = b.
Proof. induction a as [|c a IH]; simpl; [apply substring_all|exact IH]. Qed.

Lemma string_length_app a b : String.length (a +:+ b) = (String.length a + String.length b)%nat.
Proof. induction a as [|c a IH]; simpl; [done|]. by rewrite IH. Qed.

Lemma last40_address h :
  length h = 32%nat → last40 (Hash_String h) = Ret (EncodeToString (drop 12 h)).
Proof.
  intros Hl. rewrite Hash_Hex by done.
  rewrite <- (take_drop 12 h) at 1. rewrite EncodeToString_app.
  assert (String.length (EncodeToString (drop 12 h)) = 40%nat) as H40
    by (rewrite EncodeToString_length, length_drop; lia).
  change ("0x" +:+ (EncodeToString (take 12 h) +:+ EncodeToString (drop 12 h)))
    with (("0x" +:+ EncodeToString (take 12 h)) +:+ EncodeToString (drop 12 h)).
  unfold last40. set (p := "0x" +:+ EncodeToString (take 12 h)).
  rewrite string_length_app, H40.
  rewrite (proj2 (Nat.ltb_ge _ 40)) by lia.
  replace (String.length p + 40 - 40)%nat with (String.length p) by lia.
  rewrite <- H40 at 1. by rewrite substring_suffix.
Qed.

(** A log as an ERC20 contract writes it, or one of another event. *)
Definition well_formed (log : option Log) : Prop :=
  ∃ l t0 ts, log = Some l ∧ Log_Topics l = t0 :: ts ∧
    (Hash_String t0 = transferSignature →
       ∃ t1 t2 ts', ts = t1 :: t2 :: ts' ∧ length t1 = 32%nat ∧ length t2 = 32%nat).

(** The sender and the receiver of a log, when it is one of a transfer. *)
Definition transfer_of (log : option Log) : option ERC20Transfer :=
  match log with
  | Some (mkLog (t0 :: t1 :: t2 :: _) _ _ _) =>
      if bool_decide (Hash_String t0 = transferSignature)
      then Some (mkERC20Transfer ("0x" +:+ EncodeToString (drop 12 t1))
                   ("0x" +:+ EncodeToString (drop 12 t2)))
      else None
  | _ => None
  end.

Lemma log_transfer_of log : well_formed log → log_transfer log = Ret (transfer_of log).
Proof.
  intros (l & t0 & ts & -> & Ht & Hok). destruct l as [topics dt bn th]. simpl in *. subst topics.
  case_bool_decide as Hs.
  - destruct (Hok Hs) as (t1 & t2 & ts' & -> & H1 & H2).
    by rewrite !last40_address.
  - by destruct ts as [|t1 [|t2 ts']].
Qed.

Lemma logs_transfers_of logs :
  Forall well_formed logs → logs_transfers logs = Ret (omap transfer_of logs).
Proof.
  induction 1 as [|log logs Hl _ IH]; [done|]. simpl. rewrite log_transfer_of, IH by done.
  by destruct (transfer_of log).
Qed.

Lemma logs_transfers_panic logs log :
  log ∈ logs → log_transfer log = Panic → (∀ e l, l ∈ logs → log_transfer l ≠ Fail e) →
  logs_transfers logs = Panic.
Proof.
  induction logs as [|l logs IH]; intros Hin Hp Hf; [by apply elem_of_nil in Hin|]. simpl.
  destruct (log_transfer l) as [o|e|] eqn:Hl; [|by destruct (Hf e l); [left|]|done].
  apply elem_of_cons in Hin as [->|Hin]; [congruence|].
  rewrite IH; [done|done|done|]. intros e l' Hl'. apply Hf. by right.
Qed.

Lemma log_transfer_no_fail log e : log_transfer log ≠ Fail e.
Proof. unfold log_transfer. repeat case_match; done. Qed.

(** The transfers of a transaction are those of its logs with the signature
    of the ERC20 transfer event, in the order of the receipt, each with the last
    twenty bytes of its second and third topic as addresses; but a receipt
    with a log that has no topics, as an anonymous event of any contract leaves
    one, makes the query panic. *)
Theorem GetERC20Transfers_spec txHash receipt x x' :
  cc_TransactionReceipt (HexToHash txHash) x = (Ret receipt, x') →
  (Forall well_formed (Receipt_Logs receipt) →
     GetERC20Transfers txHash x = (Ret (omap transfer_of (Receipt_Logs receipt)), x')) ∧
  (∀ l, Some l ∈ Receipt_Logs receipt → Log_Topics l = [] →
     GetERC20Transfers txHash x = (Panic, x')).
Proof.
  intros Hr. unfold GetERC20Transfers. erewrite ebind_Ret by exact Hr. unfold elift. split.
  - intros Hw. by rewrite logs_transfers_of.
  - intros l Hl Ht. rewrite (logs_transfers_panic _ (Some l)); [done|done| |].
    + unfold log_transfer. by rewrite Ht.
    + intros e l' _. apply log_transfer_no_fail.
Qed.
End querier.

(** ** [tmrpc/rpcquerier.go] and [tmrpc/config.go] *)

Section tendermint.
Context {X ResultTx ResultBlock ResultStatus ResultTxSearch : Type}.

(** The client of the CometBFT library. *)
Context (cli_Tx : bytes → bool → Ext X ResultTx) (cli_Block : Z → Ext X ResultBlock).
Context (cli_Status : Ext X ResultStatus).
Context (cli_TxSearch : string → bool → option Z → option Z → string → Ext X ResultTxSearch).

Definition tm_Status : Ext X ResultStatus := cli_Status.

Definition tm_GetTx (txHash : string) : Ext X ResultTx :=
  txBytes ← elift (hex_decode txHash);
  cli_Tx txBytes false.

Definition tm_GetBlock (height : Z) : Ext X ResultBlock := cli_Block height.

Definition tm_TxSearch : string → bool → option Z → option Z → string → Ext X ResultTxSearch :=
  cli_TxSearch.

(** A hash with its prefix, as the EVM side writes hashes, is refused before
    the node is asked. *)
Lemma tm_GetTx_prefix s x : tm_GetTx ("0x" +:+ s) x = (Fail hex_error, x).
Proof. unfold tm_GetTx. erewrite ebind_Fail; [done|]. unfold elift, hex_decode. by destruct s. Qed.

Record Remote := mkRemote { Endpoint : string; Remote_Username : string; Remote_Password : string }.

Context (ReadFile : string → outcome bytes) (Unmarshal : bytes → outcome (gmap string Remote)).

Definition tm_LoadConfig (path : string) : outcome (gmap string Remote) :=
  match ReadFile path with
  | Ret file => Unmarshal file
  | Fail e => Fail e
  | Panic => Panic
  end.
End tendermint.

(** ** The theorem applied *)

Module rpc_demo.
#[local] Instance geth : Geth :=
  mkGeth DynamicFeeTx unit (λ t, t) Data (λ t, Ret (Data t)) (λ _, Ret "{}")
    (λ t _ _, Ret t) (λ _ t, Ret (Data t)) (λ _ t _, Ret t) (λ _ _, Ret [])
    (λ _ _, Ret []) (λ _, []) (λ _, Ret []) (λ _, Ret tt)
    (λ s, default [] (DecodeString (TrimPrefix s "0x"))) (λ h, "0x" +:+ EncodeToString h)
    (λ _, []) (λ _, "0x01") (λ bz, bz) (-3).

(** A receipt with a transfer from [0x0101...] to [0x0202...]. *)
Definition receipt : Receipt :=
  mkReceipt 1 (Some 7) 21000 (Some 1)
    [Some (mkLog [HexToHash transferSignature; replicate 32 1; replicate 32 2] [] 7 [])].

#[local] Instance client : EthClient Z :=
  mkEthClient Z geth unit (λ _ x, (Ret receipt, x)) (λ _ x, (Ret tt, x))
    (λ _ x, (Fail (ErrorNew "not found"), x)) (λ _ _ x, (Ret [], x)) (λ _ x, (Ret tt, x))
    (λ _ x, (Ret (mkHeader 7 7 None), x)) (λ x, (Ret 7, x)) (λ _, Fail (ErrorNew "rlp")).

Lemma GetERC20Transfers_spec_witness :
  GetERC20Transfers "0xaa" 0 =
    (Ret [mkERC20Transfer ("0x" +:+ EncodeToString (replicate 20 1))
            ("0x" +:+ EncodeToString (replicate 20 2))], 0).
Proof.
  apply (@GetERC20Transfers_spec Z geth client (λ h _, eq_refl) "0xaa" receipt 0 0 eq_refl).
  apply Forall_singleton. eexists _, _, _. split_and!; [done|done|].
  intros _. by eexists _, _, _.
Defined.
End rpc_demo.
