(* ===== verification/Main.v ===== *)
(** * The relayer program

    [cmd/relayer/main.go], [LoadConfig] of [shared/config/config.go],
    [shared/database/database.go], [StartPrometheus] of
    [shared/metrics/metrics.go] and [Start] of [relayerapi/server/server.go]:
    how the relayer is put together when it starts, and how it ends.

    A call of [Fatal] is an error with the message that is logged; [main] then
    exits with status 1. The four goroutines of the [errgroup] are described by
    what they return.

    - [startup_ready]: what is there when the start has succeeded.
    - [main_never_returns]: [main] has no normal end; a shutdown on a signal is
      logged as a fatal error. *)
From stdpp Require Import prelude strings list gmap relations pretty.
From Stdlib Require Import ZArith.
From S2P Require Import Prelude Go Config Db Transfer World Client Float Once Signing EvmClient.
From S2P Require Import CosmosClient ClientLaws ClientDemo ClientManager Processors Batch Pipeline.
From S2P Require Import Dispatcher System Guarantees Daemon GasMonitor Demo.
Open Scope Z_scope.

#[local] Remove Hints M_ret M_bind : typeclass_instances.

(** ** What the program calls outside the repository *)

(** A connection of the pool before it is made. *)
Record ConnConfig := mkConnConfig {
  conn_Host : string;
  conn_Port : Z;
  conn_User : string;
  conn_Password : string;
}.

Class Host := mkHost {
  os_ReadFile : string → outcome (list Z);
  yaml_Unmarshal : list Z → outcome config.Config;
  json_Unmarshal : list Z → outcome (gmap string (gmap string string));
  pgx_ParseConfig : string → outcome ConnConfig;
  Pool : Type;
  (** [pgxpool.NewWithConfig], given the hook [BeforeConnect]. *)
  pgx_NewWithConfig : ConnConfig → option (ConnConfig → outcome ConnConfig) → outcome Pool;
  (** [awsconfig.LoadDefaultConfig] and [rdsauth.BuildAuthToken]. *)
  aws_Credentials : Type;
  aws_LoadDefaultConfig : outcome aws_Credentials;
  rds_BuildAuthToken : string → string → string → aws_Credentials → outcome string;
  (** [grpc.NewClient] to the signer and to the proof relayer. *)
  dial_signer : string → outcome unit;
  dial_proof_relayer : string → bool → outcome unit;
}.

Section startup.
Context {X : Type} `{!Geth} `{!CosmosSDK} `{!Runtime X} `{!SignerService X} `{!Net X} `{!Host}.

Definition LoadConfig (path : string) : outcome config.Config :=
  match os_ReadFile path with
  | Ret cfgBytes =>
      match yaml_Unmarshal cfgBytes with
      | Ret c =>
          match config.Config_Validate c with
          | Ret _ => Ret c
          | Fail e => Fail e
          | Panic => Panic
          end
      | Fail e => Fail e
      | Panic => Panic
      end
  | Fail e => Fail e
  | Panic => Panic
  end.

(** The hook asks for a token and uses it as the password. *)
Definition BeforeConnect (connConfig : ConnConfig) : outcome ConnConfig :=
  match aws_LoadDefaultConfig with
  | Ret cfg =>
      match rds_BuildAuthToken (conn_Host connConfig +:+ ":" +:+ pretty (conn_Port connConfig))
              "us-east-2" (conn_User connConfig) cfg with
      | Ret authToken =>
          Ret (mkConnConfig (conn_Host connConfig) (conn_Port connConfig) (conn_User connConfig)
                 authToken)
      | Fail e => Fail (Errorf "failed to build auth token" e)
      | Panic => Panic
      end
  | Fail e => Fail (Errorf "failed to load AWS config" e)
  | Panic => Panic
  end.

Definition NewDatabase (connString : string) (useIAMAuth : bool) : outcome Pool :=
  match pgx_ParseConfig connString with
  | Ret pgxConfig => pgx_NewWithConfig pgxConfig (if useIAMAuth then Some BeforeConnect else None)
  | Fail e => Fail e
  | Panic => Panic
  end.

(** A chain without a [private_key] entry gets the empty string, the zero
    value of the inner map. *)
Definition LoadChainIDToPrivateKeyMap (keysPath : string) : outcome (gmap string string) :=
  match os_ReadFile keysPath with
  | Ret keysBytes =>
      match json_Unmarshal keysBytes with
      | Ret rawKeysMap => Ret ((λ value, default "" (value !! "private_key")) <$> rawKeysMap)
      | Fail e => Fail e
      | Panic => Panic
      end
  | Fail e => Fail e
  | Panic => Panic
  end.

(** The signing settings: the local keys, and whether a signer service is
    used. *)
Definition signing_setup (signing : config.SigningConfig) : Ext X (gmap string string * bool) :=
  if negb (bool_decide (config.SigningConfig_GRPCAddress signing = "")) then
    elog Info "Remote signer configured for Relayer" ≫= λ _,
    ewrap "failed to connect to remote signer"
      (elift (dial_signer (config.SigningConfig_GRPCAddress signing))) ≫= λ _,
    mret (∅, true)
  else if negb (bool_decide (config.KeysPath signing = "")) then
    keys ← ewrap "Failed to load chain id -> private key map for ibcv2"
      (elift (LoadChainIDToPrivateKeyMap (config.KeysPath signing)));
    elog Info "Using local keys for signing" ≫= λ _,
    mret (keys, false)
  else
    efail (ErrorNew "No signing configuration: set either signing.grpc_address or signing.keys_path").

(** What [main] has made when it waits for the goroutines. *)
Record Relayer := mkRelayer {
  r_config : config.Config;
  r_pool : Pool;
  r_clients : gmap string (AnyClient X);
  r_remote : bool;
  r_coingecko : option config.CoingeckoConfig;
  r_dispatcher : RelayDispatcher;
}.

Definition startup (configPath : string) (enableIBCV2Relaying : bool) : Ext X Relayer :=
  cfg ← ewrap "Unable to load config" (elift (LoadConfig configPath));
  let reader := config.NewConfigReader cfg in
  let dsn := config.GetPostgresConnString LookupEnv reader in
  pool ← ewrap "Unable to connect to database: %v"
    (elift (NewDatabase dsn (config.PostgresIAMAuthEnabled reader)));
  let signing := config.Signing cfg in
  keys_remote ← signing_setup signing;
  let '(keys, remote) := keys_remote in
  clients ← ewrap "error creating ibcv2 client manager from config"
    (NewClientManagerFromConfig reader keys remote (config.CosmosWalletKey signing)
       (config.EVMWalletKey signing) (config.GetIBCV2Chains reader));
  let coingeckoConfig := config.GetCoingeckoConfig reader in
  let coingeckoClient :=
    if negb (bool_decide (config.APIKey coingeckoConfig = "")) then Some coingeckoConfig else None in
  let proofRelayerConfig := config.GetIBCV2ProofRelayerConfig reader in
  ewrap "error creating grpc connection to proof relayer"
    (elift (dial_proof_relayer (config.GRPCAddress proofRelayerConfig)
       (config.IBCV2ProofAPIConfig_GRPCTLSEnabled proofRelayerConfig))) ≫= λ _,
  mret (mkRelayer cfg pool clients remote coingeckoClient
          (NewRelayDispatcher (5 * Second) enableIBCV2Relaying)).

(** When the relayer has started, its configuration was read from the file
    and has an API address; it signs with the signer service if and only if the
    address of one is configured, and with the keys of the key file otherwise;
    it has a client for exactly the EVM and Cosmos chains of the configuration
    with an [ibcv2] section, each made for its chain; it asks for prices if and
    only if there is an API key; and its dispatcher polls every five seconds. *)
Theorem startup_ready configPath enable x r x' :
  startup configPath enable x = (Ret r, x') →
  let cfg := r_config r in
  LoadConfig configPath = Ret cfg ∧ config.Address (config.RelayerAPI cfg) ≠ "" ∧
  (r_remote r = true ↔ config.SigningConfig_GRPCAddress (config.Signing cfg) ≠ "") ∧
  (r_remote r = false →
     ∃ keys, LoadChainIDToPrivateKeyMap (config.KeysPath (config.Signing cfg)) = Ret keys) ∧
  dom (r_clients r) = list_to_set (config.ChainID <$>
    filter supported (config.GetIBCV2Chains (config.NewConfigReader cfg))) ∧
  (∀ id c, r_clients r !! id = Some c →
     ∃ chain, chain ∈ config.GetIBCV2Chains (config.NewConfigReader cfg) ∧
       config.ChainID chain = id ∧ made_for chain c) ∧
  (is_Some (r_coingecko r) ↔ config.APIKey (config.Coingecko cfg) ≠ "") ∧
  r_dispatcher r = mkRelayDispatcher (5 * Second) enable.
Proof.
  intros (cfg & x1 & Hcfg%ewrap_Ret & Hrun)%ebind_inv.
  apply ebind_inv in Hrun as (pool & x2 & _ & Hrun).
  apply ebind_inv in Hrun as ([keys remote] & x3 & Hsig & Hrun).
  apply ebind_inv in Hrun as (clients & x4 & Hcl%ewrap_Ret & Hrun).
  apply ebind_inv in Hrun as ([] & x5 & _ & Hrun).
  injection Hrun as <- _. injection Hcfg as Hcfg _. cbn [r_config r_remote r_clients r_coingecko r_dispatcher].
  assert (config.Address (config.RelayerAPI cfg) ≠ "") as Haddr.
  { unfold LoadConfig in Hcfg. repeat case_match; simplify_eq. unfold config.Config_Validate in *.
    by case_bool_decide. }
  apply ebind_inv in Hcl as (u & x6 & _ & Hcl). apply create_clients_inv in Hcl as [Hdom Hmade].
  assert ((remote = true ↔ config.SigningConfig_GRPCAddress (config.Signing cfg) ≠ "") ∧
    (remote = false → ∃ ks, LoadChainIDToPrivateKeyMap (config.KeysPath (config.Signing cfg)) = Ret ks))
    as [Hrem Hkeys].
  { unfold signing_setup in Hsig. case_bool_decide as Hg; simpl in Hsig.
    - case_bool_decide; simpl in Hsig; [done|].
      apply ebind_inv in Hsig as (ks & x7 & Hk%ewrap_Ret & Hsig). injection Hk as Hk _.
      injection Hsig as _ <- _. split; [naive_solver|]. by exists ks.
    - apply ebind_inv in Hsig as (u1 & x7 & _ & Hsig).
      apply ebind_inv in Hsig as (u2 & x8 & _ & Hsig). by injection Hsig as _ <- _. }
  split_and!; [done|done|done|done|set_solver| | |done].
  - intros id c Hc. destruct (Hmade id c Hc) as [?|?]; [by rewrite lookup_empty in *|done].
  - unfold config.GetCoingeckoConfig. simpl.
    case_bool_decide; simpl; split; [by intros []|done|done|by eexists].
Qed.
End startup.

(** ** The goroutines and the end *)

(** [ListenAndServe] and [Serve] always return an error; [Shut] is
    [http.ErrServerClosed]. *)
Inductive serving := Shut | ServeError (e : error).

Definition StartPrometheus (listened : serving) : option error :=
  match listened with Shut => None | ServeError err => Some err end.

(** The API server's goroutine: [Start] does not return an error; whatever ends
    the multiplexer is logged. An address that cannot be listened to ends the
    process at once, see [RelayerGRPCServer_Start]. *)
Definition server_task (served : option error) : option error := None.

Definition gas_task (started : outcome (option unit)) : option error :=
  match started with
  | Fail err => Some (Errorf "creating gas monitor" err)
  | _ => None
  end.

Definition dispatcher_task (returned : option error) : option error :=
  match returned with
  | Some err => Some (Errorf "running ibcv2 relayer" err)
  | None => None
  end.

Inductive exit := Returns | Fatal (msg : string) (err : error).

Section ending.
(** [eg.Wait] of the errgroup package, given what the functions returned in the
    order in which they did: it is documented to return the first error that
    is not nil. *)
Context (errgroup_Wait : list (option error) → option error).
Hypothesis Wait_first : ∀ results,
  errgroup_Wait results = head (omap id results).

Definition main_end (results : list (option error)) : exit :=
  match errgroup_Wait results with
  | Some err => Fatal "Error running Relayer" err
  | None => Returns
  end.

Lemma Wait_Some results err :
  Some err ∈ results → ∃ err', errgroup_Wait results = Some err' ∧ Some err' ∈ results.
Proof.
  intros Hin. rewrite Wait_first.
  assert (err ∈ omap id results) as Hom by (apply list_elem_of_omap; by exists (Some err)).
  destruct (omap id results) as [|err' errs] eqn:Ho; [by apply elem_of_nil in Hom|].
  exists err'. split; [done|].
  assert (err' ∈ omap id results) as (o & Hin' & Heq)%list_elem_of_omap by (rewrite Ho; by left).
  simpl in Heq. by subst o.
Qed.

(** Once the dispatcher has returned, [main] ends in a fatal error whatever
    the other goroutines return and in whichever order they end: the status of
    the process is 1 also after a signal, when every part has shut down without
    an error, and the error logged then is that of the cancelled context. *)
Theorem main_never_returns {X} {E : Env X} r (w : World X) start d returned listened served started
    results :
  rtc (run_step r) (Run_start r (mkSystem w ∅ []) start) d → d_place d = Returned returned →
  results ≡ₚ [StartPrometheus listened; server_task served; gas_task started;
              dispatcher_task returned] →
  (∃ err, main_end results = Fatal "Error running Relayer" err) ∧
  (listened = Shut → (∀ e, started ≠ Fail e) →
     main_end results = Fatal "Error running Relayer"
       (Errorf "running ibcv2 relayer" (Sentinel ContextCanceled))).
Proof.
  intros Hr Hp Hperm.
  destruct (run_inv_rtc r start _ _ Hr (run_start_inv r w start)) as (_ & _ & H & _).
  rewrite Hp in H. destruct H as (_ & -> & _).
  destruct (Wait_Some results (Errorf "running ibcv2 relayer" (Sentinel ContextCanceled)))
    as (err & Hw & Hin).
  { rewrite Hperm. simpl. set_solver. }
  unfold main_end. rewrite Hw. split; [by eexists|]. intros -> Hst. rewrite Hperm in Hin. simpl in Hin.
  assert (gas_task started = None) as Hg by (destruct started; naive_solver).
  rewrite Hg in Hin. rewrite !elem_of_cons, elem_of_nil in Hin. naive_solver.
Qed.
End ending.

(** ** The theorems applied *)

Module main_demo.
(** The chains of the client manager's example, with an [ibcv2] section. *)
Definition chain (id : string) (type : config.ChainType) : config.ChainConfig :=
  let c := manager_demo.chain id type in
  config.mkChainConfig (config.ChainName c) (config.ChainID c) (config.ChainConfig_Type c)
    (config.Environment c) (config.Cosmos c) (config.EVM c) (config.SVM c)
    (config.GasTokenSymbol c) (config.GasTokenCoingeckoID c) (config.GasTokenDecimals c)
    (config.SignerGasAlertThresholds c) (config.IBCV2 demo.chain_a) (config.SupportedBridges c).

Definition conf : config.Config :=
  config.mkConfig (config.mkPostgresConfig "localhost" "5432" "relayer" false)
    [("c", chain "cosmos-1" config.ChainType_COSMOS); ("e", chain "1" config.ChainType_EVM)]
    (config.mkMetricsConfig "") (config.mkRelayerAPIConfig ":9000")
    (config.mkCoingeckoConfig "" 0 "" 0) (config.mkIBCV2ProofAPIConfig "proofs:1" false)
    (config.mkSigningConfig "keys.json" "" "" "" "").

#[global] Instance host : Host :=
  mkHost (λ path, Ret (if bool_decide (path = "keys.json") then [1] else [0])) (λ _, Ret conf)
    (λ _, Ret {["cosmos-1" := {["private_key" := "0xab"]}; "1" := {["private_key" := "0xcd"]}]})
    (λ _, Ret (mkConnConfig "localhost" 5432 "relayer" "relayer")) unit (λ _ _, Ret tt)
    unit (Ret tt) (λ _ _ _ _, Ret "token") (λ _, Ret tt) (λ _ _, Ret tt).
End main_demo.

Lemma startup_ready_witness : ∃ (r : Relayer (X := sim.Sim)) x',
  startup "config.yml" true sim.start = (Ret r, x') ∧ dom (r_clients r) = {["cosmos-1"; "1"]} ∧
  r_remote r = false.
Proof.
  match goal with |- ∃ r x', ?run = _ ∧ _ =>
    assert (Hrun : ∃ r x', run = (Ret r, x'));
      [destruct run as [[r|e|] x'] eqn:Hr; [by exists r, x'|exfalso..];
       apply (f_equal (λ r, match r.1 with Ret _ => true | _ => false end)) in Hr;
       vm_compute in Hr; discriminate Hr|]
  end.
  destruct Hrun as (r & x' & Hrun). exists r, x'. split; [exact Hrun|].
  destruct (startup_ready "config.yml" true sim.start r x' Hrun) as (Hc & _ & Hrem & _ & Hd & _).
  injection Hc as Hc. rewrite <- Hc in Hd, Hrem. split.
  - rewrite Hd. by vm_compute.
  - destruct (r_remote r); [|done]. by destruct (proj1 Hrem eq_refl).
Defined.

Lemma main_never_returns_witness :
  main_end (λ results, head (omap id results)) [StartPrometheus Shut; server_task None; gas_task (Ret (Some tt));
            dispatcher_task (Some (Sentinel ContextCanceled))] =
  Fatal "Error running Relayer" (Errorf "running ibcv2 relayer" (Sentinel ContextCanceled)).
Proof.
  destruct returned_run as (d & Hr & Hp).
  by apply (proj2 (main_never_returns (E := broken_env) (λ results, head (omap id results)) (λ _, eq_refl)
    demo_dispatcher start 0 d _ Shut None
    (Ret (Some tt)) _ Hr Hp (Permutation_refl _))).
Defined.
