(* ===== verification/Cli.v ===== *)
(** * The command line programs

    [cmd/transfer], which sends a transfer from an EVM chain and asks the
    relayer to relay it, and [cmd/relay], which asks only.

    The connection to the relayer's API is a parameter, as are the two address
    checks of the libraries.

    - [transfer_refuses]: a transfer that fails one of the checks is not sent:
      nothing happens but log lines.
    - [transfer_relays]: when the command succeeds, the transfer was sent with
      the arguments of the command line, its transaction has exactly one packet,
      and the relayer was asked for that transaction. *)
From stdpp Require Import prelude strings list gmap.
From Stdlib Require Import ZArith.
From S2P Require Import Prelude Go Config Db Transfer World Client Float Once Signing Bindings EvmClient.
From S2P Require Import CosmosClient ClientLaws ClientDemo ClientManager Main Demo.
Open Scope Z_scope.

#[local] Remove Hints M_ret M_bind : typeclass_instances.

Record RelayRequest := mkRelayRequest { req_TxHash : string; req_ChainId : string }.

Class RelayerAPI (X : Type) := mkRelayerAPI {
  dial_relayer : string → outcome unit;
  api_Relay : RelayRequest → Ext X unit;
  bech32_DecodeAndConvert : string → outcome unit;
  IsHexAddress : string → bool;
}.

(** The flags of the two programs. *)
Record Flags := mkFlags {
  destChainID : string;
  sourceClientID : string;
  denom : string;
  memo : string;
  receiver : string;
  amount : Z;
  cfgPath : string;
  relayerGRPCURL : string;
  privateKey : string;
  sourceChainID : string;
}.

Section transfer.
Context {X : Type} `{!Geth} `{!CosmosSDK} `{!Runtime X} `{!SignerService X} `{!Net X} `{!Host}
  `{!RelayerAPI X}.
Variables (ticks : nat) (f : Flags).

Definition supports_ibcv2 (chain : config.ChainConfig) : bool :=
  bool_decide (config.BridgeType_IBCV2 ∈ config.SupportedBridges chain).

(** The checks up to the connection to the relayer, in their order: the source
    chain, and the reader the rest of the program uses. [CounterpartyChains] is
    read through the pointer [GetIBCV2Config] returns, which may be nil. *)
Definition validate : outcome (config.configReader * config.ChainConfig) :=
  match LoadConfig (cfgPath f) with
  | Panic => Panic
  | Fail e => Fail (Errorf "loading config" e)
  | Ret cfg =>
      let reader := config.NewConfigReader cfg in
      match config.GetChainConfig reader (sourceChainID f) with
      | Panic => Panic
      | Fail e => Fail (Errorf "loading source chain config" e)
      | Ret sourceChain =>
          if negb (supports_ibcv2 sourceChain) then
            Fail (ErrorNew "source chain does not support ibcv2")
          else if negb (bool_decide (is_Some (config.EVM sourceChain))) then
            Fail (ErrorNew "only evm type source chains are supported")
          else
            match config.GetChainConfig reader (destChainID f) with
            | Panic => Panic
            | Fail e => Fail (Errorf "loading dest chain config" e)
            | Ret destChain =>
                if negb (supports_ibcv2 destChain) then
                  Fail (ErrorNew "dest chain does not support ibcv2")
                else if negb (bool_decide (is_Some (config.Cosmos destChain))) then
                  Fail (ErrorNew "only cosmos type dest chains are supported")
                else
                  match bech32_DecodeAndConvert (receiver f) with
                  | Panic => Panic
                  | Fail e => Fail (Errorf "receiver is not a valid bech32 address" e)
                  | Ret _ =>
                      if negb (IsHexAddress (denom f)) then
                        Fail (ErrorNew "denom is not a valid hex address")
                      else if amount f <=? 0 then Fail (ErrorNew "amount must be positive")
                      else
                        match config.GetIBCV2Config reader (sourceChainID f) with
                        | Panic | Ret None => Panic
                        | Fail e => Fail (Errorf "loading source chain ibcv2 config" e)
                        | Ret (Some ibcv2) =>
                            match config.CounterpartyChains ibcv2 !! sourceClientID f with
                            | None =>
                                Fail (ErrorNew "could not determine counterparty chain id for source client")
                            | Some id =>
                                if negb (bool_decide (id = destChainID f)) then
                                  Fail (ErrorNew "source client counterparty chain id does not match the dest chain id")
                                else Ret (reader, sourceChain)
                            end
                        end
                  end
            end
      end
  end.

(** The private key is among the values that are logged. *)
Definition log_flags : Ext X unit :=
  elog Info "config path" ≫= λ _, elog Info "private key" ≫= λ _,
  elog Info "receiver" ≫= λ _, elog Info "denom" ≫= λ _,
  elog Info "source chain id" ≫= λ _, elog Info "dest chain id".

(** [clientManager.GetClient]. *)
Definition get_client (clients : gmap string (AnyClient X)) (chainID : string)
    : outcome (BridgeClient X) :=
  match clients !! chainID with
  | Some c => Ret (as_bridge_client ticks c)
  | None => Fail (ErrorNew "no configured ibcv2 bridge client for chain ID")
  end.

Definition ibcv2Transfer : Ext X unit :=
  log_flags ≫= λ _,
  checked ← elift validate;
  let '(reader, sourceChain) := checked in
  ewrap "creating grpc connection to relayer" (elift (dial_relayer (relayerGRPCURL f))) ≫= λ _,
  clients ← ewrap "creating ibcv2 client manager"
    (NewClientManagerFromConfig reader {[sourceChainID f := privateKey f]} false "" "" [sourceChain]);
  sourceClient ← ewrap "getting ibcv2 client for source chain id"
    (elift (get_client clients (sourceChainID f)));
  elog Info "sending ibcv2 transfer" ≫= λ _,
  sendTxHash ← ewrap "sending ibcv2 transfer"
    (SendTransfer sourceClient (sourceClientID f) (denom f) (receiver f) (amount f) (memo f));
  elog Info "successfully sent ibcv2 transfer" ≫= λ _,
  packets ← ewrap "getting send packets from tx on source chain"
    (SendPacketsFromTx sourceClient (sourceChainID f) sendTxHash);
  if negb (bool_decide (length packets = 1%nat)) then
    efail (ErrorNew "unexpected number of send packets in tx")
  else
    elog Info "submitting packet to be relayed" ≫= λ _,
    ewrap "relaying packet" (api_Relay (mkRelayRequest sendTxHash (sourceChainID f))) ≫= λ _,
    elog Info "successfully submitted packet to be relayed".

(** [main] of [cmd/transfer]: the status of the process; an error is logged. *)
Definition transfer_main (args : list string) : Ext X Z :=
  match args with
  | [] => mret 1
  | bridge :: _ =>
      if bool_decide (bridge = config.BridgeType_IBCV2) then
        r ← eattempt ibcv2Transfer;
        match r with
        | inl _ => mret 0
        | inr _ => elog Error "error sending ibcv2 transfer" ≫= λ _, mret 0
        end
      else elog Error "unexpected bridge type" ≫= λ _, mret 0
  end.

(** [main] of [cmd/relay]. *)
Definition relay_main (sourceChainID txHash url : string) : Ext X Z :=
  if bool_decide (sourceChainID = "") || bool_decide (txHash = "") then mret 1
  else
    match dial_relayer url with
    | Ret _ =>
        r ← eattempt (api_Relay (mkRelayRequest txHash sourceChainID));
        match r with
        | inl _ => elog Info "successfully submitted relay request" ≫= λ _, mret 0
        | inr _ => mret 1
        end
    | Fail _ => mret 1
    | Panic => epanic
    end.

(** ** What the transfer command does *)

Lemma log_flags_Ret x : ∃ x', log_flags x = (Ret tt, x').
Proof. by eexists. Qed.

(** A transfer that fails a check: the flags are logged, and nothing else
    happens. *)
Theorem transfer_refuses e x :
  validate = Fail e → ibcv2Transfer x = (Fail e, (log_flags x).2).
Proof.
  intros Hv. destruct (log_flags_Ret x) as [x1 Hl]. unfold ibcv2Transfer.
  erewrite ebind_Ret by exact Hl. rewrite Hl. by apply ebind_Fail; rewrite Hv.
Qed.

Lemma ewrap_bind_inv {A B} msg (m : Ext X A) (k : A → Ext X B) x b x' :
  (ewrap msg m ≫= k) x = (Ret b, x') → ∃ a x1, m x = (Ret a, x1) ∧ k a x1 = (Ret b, x').
Proof. by intros (a & x1 & Hm%ewrap_Ret & Hk)%ebind_inv; eauto. Qed.

(** The last two checks. *)
Lemma validate_inv reader sourceChain :
  validate = Ret (reader, sourceChain) →
  0 < amount f ∧
  config.GetClientCounterpartyChainID reader (sourceChainID f) (sourceClientID f) =
    Ret (destChainID f).
Proof.
  unfold validate, config.GetIBCV2Config, config.GetClientCounterpartyChainID.
  intros Hv. repeat (case_match; simplify_eq/=); try done.
  split; [lia|]. match goal with H : negb (bool_decide _) = false |- Ret ?id = _ =>
    apply negb_false_iff, bool_decide_eq_true in H end.
  congruence.
Qed.

(** When the transfer command succeeds, every check has passed (so that the
    client is one whose counterparty is the destination chain, and the amount is
    positive), the transfer was sent through the client made for the source chain
    with the arguments of the command line, its transaction has exactly one
    packet, and the relayer has accepted the request to relay that transaction
    on that chain. *)
Theorem transfer_relays x x' :
  ibcv2Transfer x = (Ret tt, x') →
  ∃ reader sourceChain clients c hash packet x1 x2 x3 x4,
    validate = Ret (reader, sourceChain) ∧ 0 < amount f ∧
    config.GetClientCounterpartyChainID reader (sourceChainID f) (sourceClientID f) =
      Ret (destChainID f) ∧
    NewClientManagerFromConfig reader {[sourceChainID f := privateKey f]} false "" "" [sourceChain]
      (log_flags x).2 = (Ret clients, x1) ∧
    clients !! sourceChainID f = Some c ∧ made_for sourceChain c ∧
    SendTransfer (as_bridge_client ticks c) (sourceClientID f) (denom f) (receiver f) (amount f)
      (memo f) (rt_Log Info "sending ibcv2 transfer" x1) = (Ret hash, x2) ∧
    SendPacketsFromTx (as_bridge_client ticks c) (sourceChainID f) hash
      (rt_Log Info "successfully sent ibcv2 transfer" x2) = (Ret [packet], x3) ∧
    api_Relay (mkRelayRequest hash (sourceChainID f))
      (rt_Log Info "submitting packet to be relayed" x3) = (Ret tt, x4) ∧
    x' = rt_Log Info "successfully submitted packet to be relayed" x4.
Proof.
  destruct (log_flags_Ret x) as [x0 Hl]. unfold ibcv2Transfer. erewrite ebind_Ret by exact Hl.
  rewrite Hl. cbn [snd].
  intros ([reader sourceChain] & y & Hv & Hrun)%ebind_inv. unfold elift in Hv. injection Hv as Hv <-.
  apply ewrap_bind_inv in Hrun as ([] & y & Hd & Hrun). injection Hd as _ <-.
  apply ewrap_bind_inv in Hrun as (clients & x1 & Hcl & Hrun).
  apply ewrap_bind_inv in Hrun as (client & y & Hget & Hrun). unfold elift in Hget.
  injection Hget as Hget <-. unfold get_client in Hget.
  destruct (clients !! sourceChainID f) as [c|] eqn:Hc; [|done]. injection Hget as <-.
  apply ebind_inv in Hrun as ([] & y & Hlog & Hrun). injection Hlog as <-.
  apply ewrap_bind_inv in Hrun as (hash & x2 & Hsend & Hrun).
  apply ebind_inv in Hrun as ([] & y & Hlog & Hrun). injection Hlog as <-.
  apply ewrap_bind_inv in Hrun as (packets & x3 & Hp & Hrun).
  case_bool_decide as Hlen; [|done]. cbn [negb] in Hrun.
  apply ebind_inv in Hrun as ([] & y & Hlog & Hrun). injection Hlog as <-.
  apply ewrap_bind_inv in Hrun as ([] & x4 & Hrel & Hrun). injection Hrun as <-.
  destruct packets as [|packet [|]]; try done.
  destruct (validate_inv reader sourceChain Hv) as [Ha Hcp].
  exists reader, sourceChain, clients, c, hash, packet, x1, x2, x3, x4.
  split_and!; try done.
  apply ebind_inv in Hcl as (u & y & _ & Hcl). apply create_clients_inv in Hcl as [_ Hin].
  destruct (Hin _ _ Hc) as [?|(chain & Hch & _ & Hm)]; [by rewrite lookup_empty in *|].
  apply list_elem_of_singleton in Hch as ->. done.
Qed.

(** Whatever becomes of the transfer, the process ends with status 0: an error
    is only logged. *)
Lemma transfer_status bridge args x x' n :
  transfer_main (bridge :: args) x = (Ret n, x') → n = 0.
Proof.
  unfold transfer_main. case_bool_decide.
  - intros ([|] & x1 & _ & Hk)%ebind_inv; [by injection Hk|].
    apply ebind_inv in Hk as ([] & x2 & _ & Hk). by injection Hk.
  - intros ([] & x1 & _ & Hk)%ebind_inv. by injection Hk.
Qed.

(** [cmd/relay] tells: status 0 exactly when the relayer has accepted the
    request. *)
Lemma relay_status chainID txHash url x n x' :
  relay_main chainID txHash url x = (Ret n, x') →
  (n = 0 ↔ chainID ≠ "" ∧ txHash ≠ "" ∧ dial_relayer url = Ret tt ∧
     ∃ x1, api_Relay (mkRelayRequest txHash chainID) x = (Ret tt, x1)).
Proof.
  unfold relay_main. do 2 case_bool_decide; simpl; try (intros [= <- _]; naive_solver).
  destruct (dial_relayer url) as [[]|e|]; try (intros [= <- _]; naive_solver).
  unfold eattempt, mbind, Ext_bind.
  destruct (api_Relay _ x) as [[[]|e|] x1]; simpl; intros [= <- _]; split; try done; [|naive_solver].
  intros _. split_and!; try done. by exists x1.
Qed.
End transfer.

(** ** The theorem applied *)

Module cli_demo.
(** The transaction of the transfer is in block 7 and has one packet. *)
Definition receipt : Receipt :=
  mkReceipt 1 (Some 7) 21000 (Some 1) [Some (mkLog [bytes_of_string "SendPacket"] [] 7 [])].

#[local] Instance net : Net sim.Sim :=
  mkNet sim.Sim _ _ unit unit (λ _, None)
    (λ _ _, sim.ret (sim.evm_node (λ _, Ret (Some receipt)) (Some 7) []))
    (λ _ _, Ret tt) (λ _ _, Ret tt)
    (λ _ _, sim.cosmos_node (λ _, Ret None) []) tt
    (λ _, sim.evm_lens) (λ _, sim.cosmos_lens).

Definition chain (id : string) (type : config.ChainType) : config.ChainConfig :=
  let c := main_demo.chain id type in
  config.mkChainConfig (config.ChainName c) (config.ChainID c) (config.ChainConfig_Type c)
    (config.Environment c) (config.Cosmos c) (config.EVM c) (config.SVM c)
    (config.GasTokenSymbol c) (config.GasTokenCoingeckoID c) (config.GasTokenDecimals c)
    (config.SignerGasAlertThresholds c) (config.IBCV2 c) [config.BridgeType_IBCV2].

Definition conf : config.Config :=
  config.mkConfig (config.Postgres main_demo.conf)
    [("b", chain "chain-b" config.ChainType_COSMOS); ("e", chain "1" config.ChainType_EVM)]
    (config.Metrics main_demo.conf) (config.RelayerAPI main_demo.conf)
    (config.Coingecko main_demo.conf) (config.IBCV2ProofAPI main_demo.conf)
    (config.Signing main_demo.conf).

#[local] Instance host : Host :=
  mkHost (λ _, Ret []) (λ _, Ret conf) (λ _, Fail (ErrorNew "json"))
    (λ _, Fail (ErrorNew "dsn")) unit (λ _ _, Ret tt) unit (Ret tt) (λ _ _ _ _, Ret "token")
    (λ _, Ret tt) (λ _ _, Ret tt).

#[local] Instance api : RelayerAPI sim.Sim :=
  mkRelayerAPI sim.Sim (λ _, Ret tt) (λ _, sim.ret tt) (λ _, Ret tt) (λ _, true).

Definition flags : Flags :=
  mkFlags "chain-b" "client-a" "0xToken" "" "cosmos1receiver" 3 "config.yml" "relayer:443" "0xcd" "1".

Lemma transfer_relays_witness : ∃ x',
  ibcv2Transfer 3 flags sim.start = (Ret tt, x') ∧
  ∃ reader, config.GetClientCounterpartyChainID reader "1" "client-a" = Ret "chain-b".
Proof.
  match goal with |- ∃ x', ?run = _ ∧ _ => assert (Hrun : run.1 = Ret tt) by (by vm_compute);
    destruct run as [o x'] eqn:Hr end.
  simpl in Hrun. subst o. exists x'. split; [reflexivity|].
  destruct (transfer_relays 3 flags sim.start x' Hr)
    as (reader & chain & clients & c & hash & packet & x1 & x2 & x3 & x4 & _ & _ & Hcp & _).
  by exists reader.
Defined.
End cli_demo.
